(** * Resumable file transfer: client.c and server.c

    A shallow embedding of the wire protocol implemented by
    [src/Client/client.c] and [src/Server/server.c], and the properties
    of the offset negotiation, the reliable stream primitives, the
    progress ledger and the byte-order helpers.

    Conventions.  A C unsigned integer of width [w] is a [Z] reduced with
    [Z.land _ (Z.ones w)]; a byte is a [Z]; a buffer, a file's contents and
    a path are [list Z].  The part of the operating system the code talks
    to (sockets, files, [errno]) is an explicit state that every function
    takes and returns. *)

From Stdlib Require Import ZArith Lia List Bool DecimalString.
From stdpp Require Import base gmap list strings.
Local Open Scope Z_scope.

(* ===================================================================== *)
(** * Part I: definitions                                                 *)
(* ===================================================================== *)

(** ** Fixed-width integers and their image in memory *)

Module ByteOrder.

(** [__BYTE_ORDER] of the host the program was compiled for. *)
Inductive byte_order := LittleEndian | BigEndian.

(** The casts [(uint32_t)] and [(uint64_t)]. *)
Definition u32 (v : Z) : Z := Z.land v (Z.ones 32).
Definition u64 (v : Z) : Z := Z.land v (Z.ones 64).

(** The bytes of a [w]-byte object, lowest address first, on a
    little-endian and on a big-endian host. *)
Fixpoint le_bytes (w : nat) (v : Z) : list Z :=
  match w with
  | O => []
  | S w' => Z.land v 255 :: le_bytes w' (Z.shiftr v 8)
  end.

Definition be_bytes (w : nat) (v : Z) : list Z := rev (le_bytes w v).

Fixpoint le_value (bs : list Z) : Z :=
  match bs with
  | [] => 0
  | b :: rest => Z.lor (Z.land b 255) (Z.shiftl (le_value rest) 8)
  end.

Definition be_value (bs : list Z) : Z := le_value (rev bs).

(** What [send(sock, &x, sizeof x)] puts on the wire, and what a
    [recv] into [&x] leaves in [x]. *)
Definition store (h : byte_order) (w : nat) (v : Z) : list Z :=
  match h with
  | LittleEndian => le_bytes w v
  | BigEndian => be_bytes w v
  end.

Definition load (h : byte_order) (bs : list Z) : Z :=
  match h with
  | LittleEndian => le_value bs
  | BigEndian => be_value bs
  end.

(** libc's [htonl] and [ntohl] (not part of the repository): the
    identity on a big-endian host, a reversal of the four bytes on a
    little-endian one. *)
Definition bswap32 (v : Z) : Z :=
  Z.lor (Z.shiftl (Z.land v 255) 24)
 (Z.lor (Z.shiftl (Z.land (Z.shiftr v 8) 255) 16)
 (Z.lor (Z.shiftl (Z.land (Z.shiftr v 16) 255) 8)
        (Z.land (Z.shiftr v 24) 255))).

Definition htonl (h : byte_order) (v : Z) : Z :=
  match h with
  | LittleEndian => bswap32 (u32 v)
  | BigEndian => u32 v
  end.

Definition ntohl (h : byte_order) (v : Z) : Z := htonl h v.

End ByteOrder.

Import ByteOrder.
(** ** The operating system as seen by the two programs *)

Module Sys.

Inductive errno_t :=
  E0 | EINTR | EAGAIN | ENOENT | EACCES | EINVAL | EIO | EPIPE | ECONNRESET.

#[global] Instance errno_eq_dec : EqDecision errno_t.
Proof. solve_decision. Defined.

(** A path is the characters of a C string.  A directory entry is a
    regular file with its contents, or an entry that [stat] and [fopen]
    refuse with [EACCES]. *)
Inductive node := Reg (data : list Z) | Denied.

(** Local-storage calls that may fail.  Whether one fails is decided by
    the environment ([faults] below).  [OpFlush p off] stands for the
    write-back of the stream of [p] failing at file offset [off], in
    [fflush], [fsync] or [fclose]. *)
Inductive storage_op :=
| OpCreate (p : list Z)
| OpStat (p : list Z)
| OpTruncate (p : list Z) (len : Z)
| OpSeek (p : list Z) (off : Z)
| OpSeekEnd (p : list Z)
| OpRead (p : list Z) (pos : Z)
| OpWrite (p : list Z) (pos : Z)
| OpPrintf (p : list Z)
| OpFlush (p : list Z) (off : Z)
| OpRename (p q : list Z)
| OpUnlink (p : list Z).

(** One underlying [recv]: up to [k] bytes are handed over (none when
    the peer has closed and everything was read), or the call fails. *)
Inductive rx_step := RxAvail (k : positive) | RxErr (e : errno_t).

(** One underlying [send]: the kernel takes up to [k] bytes, or the
    call fails. *)
Inductive tx_step := TxRoom (k : nat) | TxErr (e : errno_t).

(** The state a connection handler runs in.  [incoming] is what the
    peer sends before it closes its end; the scripts say how the next
    [recv] and [send] calls behave, and a call made when its script is
    used up never returns (the peer has stalled). *)
Record world := World {
  host : byte_order;
  fs : gmap (list Z) node;
  faults : storage_op -> bool;
  errno : errno_t;
  incoming : list Z;
  rx_script : list rx_step;
  tx_script : list tx_step;
  sent : list Z;
  closed : bool
}.

Definition with_fs (m : gmap (list Z) node) (w : world) : world :=
  World (host w) m (faults w) (errno w) (incoming w) (rx_script w)
        (tx_script w) (sent w) (closed w).
Definition with_errno (e : errno_t) (w : world) : world :=
  World (host w) (fs w) (faults w) e (incoming w) (rx_script w)
        (tx_script w) (sent w) (closed w).
Definition with_incoming (l : list Z) (w : world) : world :=
  World (host w) (fs w) (faults w) (errno w) l (rx_script w)
        (tx_script w) (sent w) (closed w).
Definition with_rx (s : list rx_step) (w : world) : world :=
  World (host w) (fs w) (faults w) (errno w) (incoming w) s
        (tx_script w) (sent w) (closed w).
Definition with_tx (s : list tx_step) (w : world) : world :=
  World (host w) (fs w) (faults w) (errno w) (incoming w) (rx_script w)
        s (sent w) (closed w).
Definition with_sent (l : list Z) (w : world) : world :=
  World (host w) (fs w) (faults w) (errno w) (incoming w) (rx_script w)
        (tx_script w) l (closed w).

Definition with_faults (fl : storage_op -> bool) (w : world) : world :=
  World (host w) (fs w) fl (errno w) (incoming w) (rx_script w)
        (tx_script w) (sent w) (closed w).

(** [close(sock)]. *)
Definition close (w : world) : world :=
  World (host w) (fs w) (faults w) (errno w) (incoming w) (rx_script w)
        (tx_script w) (sent w) true.

(** How a call ends: it returns a value, it jumps to the exit label of
    the function it is in ([goto out], [goto cleanup]), or it never
    returns. *)
Inductive res (A : Type) :=
| Ok (a : A) (w : world)
| Fail (w : world)
| Blocked (w : world).
Arguments Ok {A} a w.
Arguments Fail {A} w.
Arguments Blocked {A} w.

Definition M (A : Type) : Type := world -> res A.

Definition ret {A} (a : A) : M A := fun w => Ok a w.
Definition bind {A B} (c : M A) (k : A -> M B) : M B :=
  fun w =>
    match c w with
    | Ok a w' => k a w'
    | Fail w' => Fail w'
    | Blocked w' => Blocked w'
    end.
Definition goto_exit {A} : M A := fun w => Fail w.
Definition get {A} (f : world -> A) : M A := fun w => Ok (f w) w.
Definition update (f : world -> world) : M unit := fun w => Ok tt (f w).

Definition final {A} (r : res A) : world :=
  match r with Ok _ w | Fail w | Blocked w => w end.

(** *** Sockets *)

Definition sys_recv (st : rx_step) (len : Z) (w : world)
  : Z * list Z * world :=
  match st with
  | RxAvail k =>
      let n := Nat.min (Z.to_nat len)
                       (Nat.min (Pos.to_nat k) (length (incoming w))) in
      (Z.of_nat n, take n (incoming w),
       with_incoming (drop n (incoming w)) w)
  | RxErr e => (-1, [], with_errno e w)
  end.

Definition sys_send (st : tx_step) (buf : list Z) (w : world) : Z * world :=
  match st with
  | TxRoom k =>
      let n := Nat.min (length buf) k in
      (Z.of_nat n, with_sent (sent w ++ take n buf) w)
  | TxErr e => (-1, with_errno e w)
  end.

(** *** Files *)

(** The empty path names nothing. *)
Definition file_at (w : world) (p : list Z) : option node :=
  match p with
  | [] => None
  | _ => fs w !! p
  end.

Definition file_data (w : world) (p : list Z) : list Z :=
  match file_at w p with
  | Some (Reg d) => d
  | _ => []
  end.

Definition set_file (p : list Z) (d : list Z) (w : world) : world :=
  with_fs (<[p := Reg d]> (fs w)) w.

(** [stat]: the size of a regular file, or the error. *)
Definition sys_stat (w : world) (p : list Z) : errno_t + Z :=
  match file_at w p with
  | Some (Reg d) => inr (Z.of_nat (length d))
  | Some Denied => inl EACCES
  | None => inl ENOENT
  end.

(** [fopen] of an existing file for reading or updating. *)
Definition can_open (w : world) (p : list Z) : bool :=
  match file_at w p with
  | Some (Reg _) => true
  | _ => false
  end.

(** [fopen] with mode ["w"] or ["wb+"]: the file is created, or cut to
    length zero. *)
Definition fopen_trunc (p : list Z) (w : world) : option world :=
  match p, file_at w p with
  | [], _ => None
  | _, Some Denied => None
  | _, _ => if faults w (OpCreate p) then None else Some (set_file p [] w)
  end.

(** The cast [(off_t)] of a 64-bit unsigned value. *)
Definition off_t (x : Z) : Z := if x <? 2 ^ 63 then x else x - 2 ^ 64.

(** [fseeko(fp, (off_t)off, SEEK_SET) != 0]. *)
Definition seek_fails (w : world) (p : list Z) (off : Z) : bool :=
  (off_t off <? 0) || faults w (OpSeek p off).

(** The contents of a file after [data] is written at offset [pos];
    a gap past the old end reads as zeros. *)
Definition write_at (pos : nat) (data old : list Z) : list Z :=
  take pos old ++ replicate (pos - length old) 0 ++ data
    ++ drop (pos + length data) old.

Definition fwrite (p : list Z) (pos : Z) (data : list Z) (w : world) : world :=
  set_file p (write_at (Z.to_nat pos) data (file_data w p)) w.

(** What reaches the file of [data], handed to the stream of [p] at
    offset [pos], when the results of [fflush], [fsync] and [fclose] are
    not looked at: the bytes before the first offset at which the
    write-back fails. *)
Fixpoint flushed (w : world) (p : list Z) (pos : Z) (data : list Z)
  : list Z :=
  match data with
  | [] => []
  | b :: rest =>
      if faults w (OpFlush p pos) then []
      else b :: flushed w p (pos + 1) rest
  end.

(** [fwrite(...); fflush(fp); fsync(fileno(fp));] with the results of
    the last two ignored: nothing is written when no byte gets through. *)
Definition fwrite_flush (p : list Z) (pos : Z) (data : list Z) (w : world)
  : world :=
  match flushed w p pos data with
  | [] => w
  | d => fwrite p pos d w
  end.

(** Successive results of [fread(buf, 1, n, fp)] on contents [l]. *)
Fixpoint chunks_aux (fuel n : nat) (l : list Z) : list (list Z) :=
  match fuel with
  | O => []
  | S fuel' =>
      match l with
      | [] => []
      | _ => take n l :: chunks_aux fuel' n (drop n l)
      end
  end.

Definition chunks (n : nat) (l : list Z) : list (list Z) :=
  chunks_aux (length l) n l.

(** *** C strings *)

Definition bytes_of_string (s : string) : list Z :=
  map (fun a => Z.of_N (Ascii.N_of_ascii a)) (String.list_ascii_of_string s).

(** The string a [char] buffer holds: its bytes up to the first NUL. *)
Fixpoint cstr (buf : list Z) : list Z :=
  match buf with
  | [] => []
  | b :: rest => if b =? 0 then [] else b :: cstr rest
  end.

(** [snprintf(buf, size, ...)] keeps at most [size - 1] characters. *)
Definition snprintf (size : Z) (s : list Z) : list Z :=
  take (Z.to_nat (size - 1)) s.

(** ["%" PRIu64 "\n"]. *)
Definition decimal_line (v : Z) : list Z :=
  bytes_of_string
    (DecimalString.NilZero.string_of_uint (N.to_uint (Z.to_N (u64 v))))
  ++ [10].

End Sys.

Import Sys.

Notation "'let*' x ':=' c 'in' k" := (bind c (fun x => k))
  (at level 10, x pattern, c at level 100, k at level 200).

(** ** client.c *)

Module Client.

Definition CHUNK : Z := 8192.

(** [htonll]. *)
Definition htonll (h : byte_order) (v : Z) : Z :=
  match h with
  | LittleEndian =>
      Z.lor (u64 (Z.shiftl (u64 (htonl h (u32 (Z.land v 0xffffffff)))) 32))
            (u64 (htonl h (u32 (Z.shiftr v 32))))
  | BigEndian => v
  end.

(** [ntohll]. *)
Definition ntohll (h : byte_order) (v : Z) : Z :=
  match h with
  | LittleEndian =>
      Z.lor (u64 (Z.shiftl (u64 (ntohl h (u32 (Z.land v 0xffffffff)))) 32))
            (u64 (ntohl h (u32 (Z.shiftr v 32))))
  | BigEndian => v
  end.

(** [send_all]: [p] is what is left of the buffer, [left] its length;
    the call returns [len] or -1. *)
Fixpoint send_all_loop (script : list tx_step) (len : Z) (p : list Z)
    (w : world) : res Z :=
  if 0 <? Z.of_nat (length p) then
    match script with
    | [] => Blocked w
    | st :: script' =>
        let '(s, w1) := sys_send st p (with_tx script' w) in
        if s <? 0 then
          if decide (errno w1 = EINTR) then send_all_loop script' len p w1
          else if decide (errno w1 = EAGAIN)
          then (* nanosleep, 1 ms *) send_all_loop script' len p w1
          else Ok (-1) w1
        else if s =? 0 then Ok (-1) w1
        else send_all_loop script' len (drop (Z.to_nat s) p) w1
    end
  else Ok len w.

Definition send_all (buf : list Z) : M Z :=
  fun w => send_all_loop (tx_script w) (Z.of_nat (length buf)) buf w.

(** [recv_all]: the value returned and the bytes stored in the buffer. *)
Fixpoint recv_all_loop (script : list rx_step) (len left : Z)
    (buf : list Z) (w : world) : res (Z * list Z) :=
  if 0 <? left then
    match script with
    | [] => Blocked w
    | st :: script' =>
        let '(r, data, w1) := sys_recv st left (with_rx script' w) in
        if r <? 0 then
          if decide (errno w1 = EINTR)
          then recv_all_loop script' len left buf w1
          else if decide (errno w1 = EAGAIN)
          then (* nanosleep, 1 ms *) recv_all_loop script' len left buf w1
          else Ok (-1, buf) w1
        else if r =? 0 then (* peer closed *) Ok (-1, buf) w1
        else recv_all_loop script' len (left - r) (buf ++ data) w1
    end
  else Ok (len, buf) w.

Definition recv_all (len : Z) : M (Z * list Z) :=
  fun w => recv_all_loop (rx_script w) len len [] w.

(** *** The progress ledger *)

Definition prog_path (fname : list Z) : list Z :=
  snprintf 4096 (fname ++ bytes_of_string ".progress").

Definition prog_tmp_path (fname : list Z) : list Z :=
  snprintf 4096 (fname ++ bytes_of_string ".progress.tmp").

(** The system calls by which a ledger write changes the directory,
    in the order they are issued; another process reading the ledger
    may run between any two of them. *)
Inductive fs_op :=
| FsCreate (p : list Z)                 (* open, O_CREAT | O_TRUNC *)
| FsWrite (p : list Z) (data : list Z)  (* fflush: write *)
| FsSync (p : list Z)                   (* fsync *)
| FsRename (p q : list Z)
| FsUnlink (p : list Z).

Definition apply_op (m : gmap (list Z) node) (o : fs_op)
  : gmap (list Z) node :=
  match o with
  | FsCreate p => <[p := Reg []]> m
  | FsWrite p data =>
      match m !! p with
      | Some (Reg d) => <[p := Reg (d ++ data)]> m
      | _ => m
      end
  | FsSync p => m
  | FsRename p q =>
      if decide (p = q) then m
      else match m !! p with
           | Some n => <[q := n]> (delete p m)
           | None => m
           end
  | FsUnlink p => delete p m
  end.

Definition run_ops (ops : list fs_op) (m : gmap (list Z) node)
  : gmap (list Z) node :=
  fold_left apply_op ops m.

(** [rename(prog_tmp, prog) != 0]. *)
Definition rename_fails (w : world) (p q : list Z) : bool :=
  faults w (OpRename p q)
  || match file_at w q with Some Denied => true | _ => false end.

(** [unlink(p);], the result ignored: what it does to the files. *)
Definition unlink_ops (w : world) (p : list Z) : list fs_op :=
  if faults w (OpUnlink p) then [] else [FsUnlink p].

(** [write_progress_atomic]: the value returned and what the calls made
    do to the files.  The results of [fflush], [fsync] and [fclose] are
    ignored, so the temporary file is renamed with whatever part of the
    record got through to it. *)
Definition write_progress_ops (fname : list Z) (val : Z) (w : world)
  : Z * list fs_op :=
  let prog := prog_path fname in
  let prog_tmp := prog_tmp_path fname in
  match fopen_trunc prog_tmp w with
  | None => (-1, [])
  | Some _ =>
      if faults w (OpPrintf prog_tmp) then
        (-1, FsCreate prog_tmp :: unlink_ops w prog_tmp)
      else
        let written := flushed w prog_tmp 0 (decimal_line val) in
        if rename_fails w prog_tmp prog then
          (-1, [FsCreate prog_tmp; FsWrite prog_tmp written;
                FsSync prog_tmp] ++ unlink_ops w prog_tmp)
        else
          (0, [FsCreate prog_tmp; FsWrite prog_tmp written;
               FsSync prog_tmp; FsRename prog_tmp prog])
  end.

Definition write_progress_atomic (fname : list Z) (val : Z) (w : world)
  : Z * world :=
  let '(rc, ops) := write_progress_ops fname val w in
  (rc, with_fs (run_ops ops (fs w)) w).

(** [remove_progress]: [unlink(prog);], the result ignored. *)
Definition remove_progress (fname : list Z) (w : world) : world :=
  with_fs (run_ops (unlink_ops w (prog_path fname)) (fs w)) w.

(** [get_file_size_stat]. *)
Definition get_file_size_stat (w : world) (fname : list Z) : Z :=
  match sys_stat w fname with
  | inr size => size
  | inl _ => -1
  end.

(** *** The two transfers *)

(** [if (send_all(sock, buf, n) != n) goto out;] *)
Definition send_field (buf : list Z) : M unit :=
  let* r := send_all buf in
  if negb (r =? Z.of_nat (length buf)) then goto_exit else ret tt.

(** Steps 1 and 2 of both transfers: the mode and the file name, each
    behind its length. *)
Definition send_request (mode filename : list Z) : M unit :=
  let* h := get host in
  let mode_len := u32 (Z.of_nat (length mode)) in
  let* _ := send_field (store h 4 (htonl h mode_len)) in
  let* _ := send_field (take (Z.to_nat mode_len) mode) in
  let name_len := u32 (Z.of_nat (length filename)) in
  let* _ := send_field (store h 4 (htonl h name_len)) in
  send_field (take (Z.to_nat name_len) filename).

(** [client_upload], the loop [while ((nread = fread(...)) > 0)] over
    the chunks the file yields from [agreed] on, then [ferror]. *)
Fixpoint upload_loop (cs : list (list Z)) (filename : list Z)
    (total_sent : Z) (w : world) : res unit :=
  if faults w (OpRead filename total_sent) then Fail w
  else
    match cs with
    | [] => Ok tt w
    | c :: cs' =>
        match send_all c w with
        | Ok r w1 =>
            if negb (r =? Z.of_nat (length c)) then Fail w1
            else
              let total_sent' := total_sent + Z.of_nat (length c) in
              (* a failed ledger write is only a warning *)
              let '(_, w2) := write_progress_atomic filename total_sent' w1 in
              upload_loop cs' filename total_sent' w2
        | Fail w1 => Fail w1
        | Blocked w1 => Blocked w1
        end
    end.

(** [client_upload], up to the label [out]. *)
Definition upload (filename : list Z) : M unit :=
  let* _ := send_request (bytes_of_string "upload") filename in
  let* sz := get (fun w => get_file_size_stat w filename) in
  if sz <? 0 then goto_exit else
  let filesize := u64 sz in
  let* h := get host in
  let* _ := send_field (store h 8 (htonll h filesize)) in
  let* (r, net_agreed) := recv_all 8 in
  if negb (r =? 8) then goto_exit else
  let agreed := ntohll h (load h net_agreed) in
  if filesize <? agreed then goto_exit else
  let* ok := get (fun w => can_open w filename) in
  if negb ok then goto_exit else
  let* bad := get (fun w => seek_fails w filename agreed) in
  if bad then goto_exit else
  let* data := get (fun w => file_data w filename) in
  let* _ := upload_loop (chunks (Z.to_nat CHUNK) (drop (Z.to_nat agreed) data))
              filename agreed in
  update (remove_progress filename).

(** [client_upload]: the value returned, with the socket closed. *)
Definition client_upload (filename : list Z) : M Z :=
  fun w =>
    match upload filename w with
    | Ok _ w' => Ok 0 (close w')
    | Fail w' => Ok (-1) (close w')
    | Blocked w' => Blocked w'
    end.

(** [client_download], lines 253-269: the local file is opened for
    update, or created; the value is [local_offset]. *)
Definition open_local (filename : list Z) : M Z :=
  fun w =>
    if can_open w filename then
      if faults w (OpSeekEnd filename) then Fail w
      else Ok (Z.of_nat (length (file_data w filename))) w
    else
      match fopen_trunc filename w with
      | None => Fail w
      | Some w1 => Ok 0 w1
      end.

(** [client_download], the loop [while (total_received < filesize)].
    [n] counts the chunks still to come; the loop never runs longer
    (lemma [download_loop_fuel]). *)
Fixpoint download_loop (n : nat) (filename : list Z)
    (filesize total_received : Z) (w : world) : res unit :=
  if total_received <? filesize then
    match n with
    | O => Blocked w
    | S n' =>
        let want :=
          if CHUNK <? filesize - total_received
          then CHUNK else filesize - total_received in
        match recv_all want w with
        | Ok (r, buf) w1 =>
            if negb (r =? want) then Fail w1
            else if faults w1 (OpWrite filename total_received) then Fail w1
            else
              let w2 := fwrite_flush filename total_received buf w1 in
              let total_received' := total_received + r in
              let '(_, w3) :=
                write_progress_atomic filename total_received' w2 in
              download_loop n' filename filesize total_received' w3
        | Fail w1 => Fail w1
        | Blocked w1 => Blocked w1
        end
    end
  else Ok tt w.

Definition chunks_to_come (filesize offset : Z) : nat :=
  Z.to_nat ((filesize - offset + CHUNK - 1) / CHUNK).

(** [client_download], up to the label [out]. *)
Definition download (filename : list Z) : M unit :=
  let* local_offset := open_local filename in
  let* _ := send_request (bytes_of_string "download") filename in
  let* h := get host in
  let* _ := send_field (store h 8 (htonll h (u64 local_offset))) in
  let* (r, net_filesize) := recv_all 8 in
  if negb (r =? 8) then goto_exit else
  let* (r, net_server_offset) := recv_all 8 in
  if negb (r =? 8) then goto_exit else
  let filesize := ntohll h (load h net_filesize) in
  let server_offset := ntohll h (load h net_server_offset) in
  if filesize <? server_offset then goto_exit else
  let* bad := get (fun w => seek_fails w filename server_offset) in
  if bad then goto_exit else
  let* _ := download_loop (chunks_to_come filesize server_offset)
              filename filesize server_offset in
  update (remove_progress filename).

(** [client_download]: the value returned, with the socket closed. *)
Definition client_download (filename : list Z) : M Z :=
  fun w =>
    match download filename w with
    | Ok _ w' => Ok 0 (close w')
    | Fail w' => Ok (-1) (close w')
    | Blocked w' => Blocked w'
    end.

End Client.

(** ** server.c *)

Module Server.

Definition BUF_SIZE : Z := 8192.

(** [htonll]: the second operand of [|] is the [uint32_t] result of
    [htonl], promoted to 64 bits by the operator. *)
Definition htonll (h : byte_order) (v : Z) : Z :=
  match h with
  | LittleEndian =>
      Z.lor (u64 (Z.shiftl (u64 (htonl h (u32 (Z.land v 0xFFFFFFFF)))) 32))
            (htonl h (u32 (Z.shiftr v 32)))
  | BigEndian => v
  end.

Definition ntohll (h : byte_order) (v : Z) : Z :=
  match h with
  | LittleEndian =>
      Z.lor (u64 (Z.shiftl (u64 (ntohl h (u32 (Z.land v 0xFFFFFFFF)))) 32))
            (ntohl h (u32 (Z.shiftr v 32)))
  | BigEndian => v
  end.

(** [send_all]: the loop [while (total < len)]; [n <= 0] is retried
    when [errno] reads [EINTR], whatever call left it there. *)
Fixpoint send_all_loop (script : list tx_step) (buf : list Z)
    (total : Z) (w : world) : res Z :=
  if total <? Z.of_nat (length buf) then
    match script with
    | [] => Blocked w
    | st :: script' =>
        let '(n, w1) :=
          sys_send st (drop (Z.to_nat total) buf) (with_tx script' w) in
        if n <=? 0 then
          if decide (errno w1 = EINTR)
          then send_all_loop script' buf total w1
          else Ok (-1) w1
        else send_all_loop script' buf (total + n) w1
    end
  else Ok total w.

Definition send_all (buf : list Z) : M Z :=
  fun w => send_all_loop (tx_script w) buf 0 w.

(** [recv_all]: the value returned and the bytes stored in the buffer. *)
Fixpoint recv_all_loop (script : list rx_step) (len total : Z)
    (buf : list Z) (w : world) : res (Z * list Z) :=
  if total <? len then
    match script with
    | [] => Blocked w
    | st :: script' =>
        let '(n, data, w1) :=
          sys_recv st (len - total) (with_rx script' w) in
        if n <=? 0 then
          if decide (errno w1 = EINTR)
          then recv_all_loop script' len total buf w1
          else Ok (-1, buf) w1
        else recv_all_loop script' len (total + n) (buf ++ data) w1
    end
  else Ok (total, buf) w.

Definition recv_all (len : Z) : M (Z * list Z) :=
  fun w => recv_all_loop (rx_script w) len 0 [] w.

(** [handle_upload], the loop [while (received < filesize)].  The
    stream was positioned at [offset] and every [fwrite] advances it by
    what [received] grows, so the write position is [received]. *)
Fixpoint upload_loop (script : list rx_step) (filename : list Z)
    (filesize received : Z) (w : world) : res Z :=
  if received <? filesize then
    match script with
    | [] => Blocked w
    | st :: script' =>
        let to_read :=
          if BUF_SIZE <? filesize - received
          then BUF_SIZE else filesize - received in
        let '(n, data, w1) := sys_recv st to_read (with_rx script' w) in
        if n <? 0 then
          if decide (errno w1 = EINTR)
          then upload_loop script' filename filesize received w1
          else Ok (-1) w1
        else if n =? 0 then Ok (-1) w1
        else if faults w1 (OpWrite filename received) then Ok (-1) w1
        else upload_loop script' filename filesize (received + n)
               (fwrite filename received data w1)
    end
  else Ok 0 w.

(** [handle_upload]. *)
Definition handle_upload (filename : list Z) (filesize offset : Z) : M Z :=
  fun w =>
    (* fopen "r+b", else "wb+" *)
    let opened :=
      if can_open w filename then Some w else fopen_trunc filename w in
    match opened with
    | None => Ok (-1) w
    | Some w1 =>
        let st_size := Z.of_nat (length (file_data w1 filename)) in
        (* fstat; ftruncate when the file is longer than offset *)
        let truncated :=
          if negb (faults w1 (OpStat filename)) && (offset <? st_size) then
            if faults w1 (OpTruncate filename offset) then None
            else Some (set_file filename
                         (take (Z.to_nat offset) (file_data w1 filename))
                         w1)
          else Some w1 in
        match truncated with
        | None => Ok (-1) w1
        | Some w2 =>
            if seek_fails w2 filename offset then Ok (-1) w2
            else upload_loop (rx_script w2) filename filesize offset w2
        end
    end.

(** [handle_download], the loop [while ((n = fread(...)) > 0)] over the
    chunks the file yields from the position sought, then [ferror]. *)
Fixpoint download_loop (cs : list (list Z)) (filename : list Z)
    (pos : Z) (w : world) : res Z :=
  if faults w (OpRead filename pos) then Ok (-1) w
  else
    match cs with
    | [] => Ok 0 w
    | c :: cs' =>
        match send_all c w with
        | Ok r w1 =>
            if r =? Z.of_nat (length c)
            then download_loop cs' filename (pos + Z.of_nat (length c)) w1
            else Ok (-1) w1
        | Fail w1 => Fail w1
        | Blocked w1 => Blocked w1
        end
    end.

(** [handle_download]. *)
Definition handle_download (filename : list Z) (client_offset : Z) : M Z :=
  fun w =>
    if negb (can_open w filename) then Ok (-1) w
    else if faults w (OpStat filename) then Ok (-1) w
    else
      let filesize := Z.of_nat (length (file_data w filename)) in
      let server_offset :=
        if filesize <? client_offset then filesize else client_offset in
      (let* r := send_all (store (host w) 8 (htonll (host w) filesize)) in
       if negb (r =? 8) then ret (-1) else
       let* r := send_all (store (host w) 8 (htonll (host w) server_offset)) in
       if negb (r =? 8) then ret (-1) else
       if filesize <=? server_offset then ret 0 else
       fun w1 =>
         if seek_fails w1 filename server_offset then Ok (-1) w1
         else download_loop
                (chunks (Z.to_nat BUF_SIZE)
                   (drop (Z.to_nat server_offset) (file_data w1 filename)))
                filename server_offset w1) w.

(** [handle_client], lines 213-220: the size of the server's copy, 0
    when [stat] fails with [ENOENT]; any other failure leaves through
    [cleanup]. *)
Definition existing_size (filename : list Z) : M Z :=
  fun w =>
    match sys_stat w filename with
    | inr size => Ok size w
    | inl e =>
        if decide (e = ENOENT) then Ok 0 (with_errno e w)
        else Fail (with_errno e w)
    end.

(** [handle_client], lines 194-198 and again 200-204: a field behind
    its length, read into a buffer of [size] bytes. *)
Definition recv_field (size : Z) : M (list Z) :=
  let* (r, len_net) := recv_all 4 in
  if negb (r =? 4) then goto_exit else
  let* h := get host in
  let len := ntohl h (load h len_net) in
  if (len =? 0) || (size <=? len) then goto_exit else
  let* (r, buf) := recv_all len in
  if negb (r =? len) then goto_exit else
  ret buf.

(** [handle_client], up to the label [cleanup].  [mode] and [filename]
    are used as C strings, a NUL having been stored after their last
    byte. *)
Definition serve : M unit :=
  let* mode := recv_field 32 in
  let* filename_buf := recv_field 512 in
  let filename := cstr filename_buf in
  let* h := get host in
  if decide (cstr mode = bytes_of_string "upload") then
    let* (r, filesize_net) := recv_all 8 in
    if negb (r =? 8) then goto_exit else
    let filesize := ntohll h (load h filesize_net) in
    let* existing := existing_size filename in
    let agreed := if filesize <? existing then filesize else existing in
    let* r := send_all (store h 8 (htonll h agreed)) in
    if negb (r =? 8) then goto_exit else
    let* _ := handle_upload filename filesize agreed in
    ret tt
  else if decide (cstr mode = bytes_of_string "download") then
    let* (r, offset_net) := recv_all 8 in
    if negb (r =? 8) then goto_exit else
    let client_offset := ntohll h (load h offset_net) in
    let* _ := handle_download filename client_offset in
    ret tt
  else ret tt.

(** [handle_client]: every path that returns closes the socket. *)
Definition handle_client : M unit :=
  fun w =>
    match serve w with
    | Ok _ w' | Fail w' => Ok tt (close w')
    | Blocked w' => Blocked w'
    end.

End Server.

(** ** Vocabulary of the statements *)

(** What a receiving call may change: [errno], the receive script and
    how much of [incoming] is left. *)
Record rx_only (w w' : world) : Prop := {
  rx_host : host w' = host w;
  rx_fs : fs w' = fs w;
  rx_faults : faults w' = faults w;
  rx_tx : tx_script w' = tx_script w;
  rx_sent : sent w' = sent w;
  rx_closed : closed w' = closed w;
  rx_consumed : exists n, incoming w' = drop n (incoming w)
}.

(** What a call sending [buf] may change: [errno], the send script, and
    [sent], which grows by a prefix of [buf]. *)
Record tx_only (buf : list Z) (w w' : world) : Prop := {
  tx_host : host w' = host w;
  tx_fs : fs w' = fs w;
  tx_faults : faults w' = faults w;
  tx_incoming : incoming w' = incoming w;
  tx_rx : rx_script w' = rx_script w;
  tx_closed : closed w' = closed w;
  tx_sent : exists k, sent w' = sent w ++ take k buf
}.

(** The contract of [recv_all] for a call that still wants [left] bytes
    and has [buf] so far: it returns [len] with the next [left] bytes of
    the stream appended, or -1; it does not return only when the peer
    stalls. *)
Definition recv_post (len : Z) (buf : list Z) (left : Z) (w : world)
    (r : res (Z * list Z)) : Prop :=
  match r with
  | Ok (v, buf') w' =>
      rx_only w w'
      /\ (length (incoming w) <= length (incoming w') + Z.to_nat left)%nat
      /\ ((v = len /\ buf' = buf ++ take (Z.to_nat left) (incoming w)
           /\ (Z.to_nat left <= length (incoming w))%nat
           /\ incoming w' = drop (Z.to_nat left) (incoming w))
          \/ v = -1)
  | Fail _ => False
  | Blocked w' =>
      rx_only w w' /\ rx_script w' = []
      /\ (length (incoming w) <= length (incoming w') + Z.to_nat left)%nat
  end.

(** The contract of [send_all] for a call that still has [p] to send of
    a buffer of [len] bytes. *)
Definition send_post (len : Z) (p : list Z) (w : world) (r : res Z) : Prop :=
  match r with
  | Ok v w' =>
      tx_only p w w'
      /\ ((v = len /\ sent w' = sent w ++ p) \/ v = -1)
  | Fail _ => False
  | Blocked w' => tx_only p w w' /\ tx_script w' = []
  end.

(** A server whose first [recv] is interrupted by a signal, after which
    the peer closes the connection without sending anything: every later
    [recv] returns 0. *)
Definition interrupted_then_closed (later : nat) : world :=
  World LittleEndian ∅ (fun _ => false) E0 []
        (RxErr EINTR :: repeat (RxAvail 1) (S later)) [] [] false.

(** What receiving a file into [f] may change besides that file: it
    reads from the socket and sends nothing. *)
Record upload_effect (f : list Z) (w w' : world) : Prop := {
  up_host : host w' = host w;
  up_faults : faults w' = faults w;
  up_tx : tx_script w' = tx_script w;
  up_sent : sent w' = sent w;
  up_closed : closed w' = closed w;
  up_consumed : exists n, incoming w' = drop n (incoming w);
  up_others : forall p, p <> f -> fs w' !! p = fs w !! p
}.

(** The first [off] bytes of file [f] are in [w'] what they were in [w]. *)
Definition keeps_prefix (off : Z) (f : list Z) (w w' : world) : Prop :=
  take (Z.to_nat off) (file_data w' f) = take (Z.to_nat off) (file_data w f)
  /\ off <= Z.of_nat (length (file_data w' f)).

(** [runs c w Q E]: run from [w], the computation [c] returns a value
    and a state that satisfy [Q], or leaves for the exit label or never
    returns, in a state that satisfies [E]. *)
Definition runs {A} (c : M A) (w : world) (Q : A -> world -> Prop)
    (E : world -> Prop) : Prop :=
  match c w with
  | Ok a w' => Q a w'
  | Fail w' | Blocked w' => E w'
  end.

(** What has been sent since [w0] is a prefix of [stream]. *)
Definition sent_within (w0 : world) (stream : list Z) (w : world) : Prop :=
  exists k, sent w = sent w0 ++ take k stream.

(** What a ledger write or removal for [fname] may change: the two
    ledger paths. *)
Record ledger_effect (fname : list Z) (w w' : world) : Prop := {
  le_host : host w' = host w;
  le_faults : faults w' = faults w;
  le_incoming : incoming w' = incoming w;
  le_rx : rx_script w' = rx_script w;
  le_tx : tx_script w' = tx_script w;
  le_sent : sent w' = sent w;
  le_closed : closed w' = closed w;
  le_others :
    forall p, p <> Client.prog_path fname -> p <> Client.prog_tmp_path fname ->
              fs w' !! p = fs w !! p
}.


(** No write-back of the ledger's temporary file fails. *)
Definition ledger_flushes (fname : list Z) (w : world) : Prop :=
  forall off, faults w (OpFlush (Client.prog_tmp_path fname) off) = false.

(** Every call a ledger write for [fname] makes succeeds. *)
Record ledger_works (fname : list Z) (w : world) : Prop := {
  lw_create : faults w (OpCreate (Client.prog_tmp_path fname)) = false;
  lw_printf : faults w (OpPrintf (Client.prog_tmp_path fname)) = false;
  lw_flush : ledger_flushes fname w;
  lw_rename :
    faults w (OpRename (Client.prog_tmp_path fname) (Client.prog_path fname))
    = false;
  lw_tmp : file_at w (Client.prog_tmp_path fname) <> Some Denied;
  lw_prog : file_at w (Client.prog_path fname) <> Some Denied
}.

(** The ledger of [fname] after a transfer that has completed [m] bytes
    in whole chunks: as it was in [w0] when that is none, the complete
    record of [count] otherwise. *)
Definition ledger_records (fname : list Z) (w0 w : world) (m : nat)
    (count : Z) : Prop :=
  fs w !! Client.prog_path fname
  = match m with
    | O => fs w0 !! Client.prog_path fname
    | S _ => Some (Reg (decimal_line count))
    end.

(** A file that held [old] after the first [k] bytes of [payload] were
    written to it at offset [off]. *)
Definition stored_at (off : Z) (payload : list Z) (k : nat) (old : list Z)
  : list Z :=
  match k with
  | O => old
  | S _ => write_at (Z.to_nat off) (take k payload) old
  end.

(** The calls a ledger write is made of. *)
Definition ledger_op (tmp prog : list Z) (o : Client.fs_op) : Prop :=
  o = Client.FsCreate tmp \/ o = Client.FsUnlink tmp \/ o = Client.FsSync tmp
  \/ (exists d, o = Client.FsWrite tmp d) \/ o = Client.FsRename tmp prog.

(** During the negotiation of a transfer of [f] the files are as in
    [w0], but that [f] may have been created empty. *)
Record negotiating (f : list Z) (w0 w : world) : Prop := {
  ng_host : host w = host w0;
  ng_faults : faults w = faults w0;
  ng_data : file_data w f = file_data w0 f;
  ng_others : forall p, p <> f -> fs w !! p = fs w0 !! p;
  ng_open : can_open w f = true
}.

(** A length-prefixed field of the wire protocol. *)
Definition field (bs : list Z) : list Z :=
  be_bytes 4 (Z.of_nat (length bs)) ++ bs.

(** Requests the server refuses: a mode length of 0 or of 32 and more,
    a file-name length of 0 or of 512 and more, or a mode that, read as
    the C string [strcmp] sees, is neither "upload" nor "download". *)
Definition malformed_request (w : world) : Prop :=
  (exists n rest,
      incoming w = be_bytes 4 n ++ rest /\ 0 <= n < 2 ^ 32
      /\ (n = 0 \/ 32 <= n))
  \/ (exists mode n rest,
        incoming w = field mode ++ be_bytes 4 n ++ rest
        /\ Z.of_nat (length mode) < 2 ^ 32 /\ 0 <= n < 2 ^ 32
        /\ (n = 0 \/ 512 <= n))
  \/ (exists mode fname rest,
        incoming w = field mode ++ field fname ++ rest
        /\ Z.of_nat (length mode) < 2 ^ 32
        /\ Z.of_nat (length fname) < 2 ^ 32
        /\ cstr mode <> bytes_of_string "upload"
        /\ cstr mode <> bytes_of_string "download").

(** A connection that delivers and accepts whatever is asked, carrying
    [bytes]; the server holds the files [files]. *)
Definition connection (files : gmap (list Z) node) (bytes : list Z) : world :=
  World LittleEndian files (fun _ => false) E0 bytes
        (repeat (RxAvail 8192) 16) (repeat (TxRoom (Z.to_nat 8192)) 16) []
        false.

(** A request with the mode "delete" for the file "f", which the server
    holds. *)
Definition unknown_mode_request : world :=
  connection {[ bytes_of_string "f" := Reg [1; 2; 3] ]}
    (field (bytes_of_string "delete") ++ field (bytes_of_string "f")).

(** An upload request whose seven mode bytes are "upload" and a NUL. *)
Definition upload_nul_request : world :=
  connection ∅
    (field (bytes_of_string "upload" ++ [0]) ++ field (bytes_of_string "f")
     ++ be_bytes 8 0).

(** The connection carries an upload request within the server's
    bounds, for a file of declared size [size], followed by [rest]. *)
Definition upload_request (w : world) (mode fname : list Z) (size : Z)
    (rest : list Z) : Prop :=
  incoming w = field mode ++ field fname ++ be_bytes 8 size ++ rest
  /\ cstr mode = bytes_of_string "upload"
  /\ 0 < Z.of_nat (length mode) < 32
  /\ 0 < Z.of_nat (length fname) < 512
  /\ 0 <= size < 2 ^ 64.


(** A client uploads three bytes of "f" to a server that has no such
    file. *)
Definition fresh_upload : world :=
  connection ∅
    (field (bytes_of_string "upload") ++ field (bytes_of_string "f")
     ++ be_bytes 8 3 ++ [7; 8; 9]).

(** A server holding the five bytes 1..5 of "f", on a connection that
    takes what is sent. *)
Definition serving_f : world :=
  connection {[ bytes_of_string "f" := Reg [1; 2; 3; 4; 5] ]} [].

(** A client about to upload the three bytes of its file "f", with a
    ledger left by an earlier attempt; the server answers offset 1. *)
Definition resumed_upload : world :=
  connection {[ bytes_of_string "f" := Reg [7; 8; 9];
                bytes_of_string "f.progress" := Reg (decimal_line 1) ]}
    (be_bytes 8 1).

(** Storage on which every write-back fails before its first byte (a
    full disk), and storage on which every [unlink] fails; every other
    call succeeds. *)
Definition write_back_fails (op : storage_op) : bool :=
  match op with OpFlush _ _ => true | _ => false end.


(** The client of [resumed_upload] on a full disk. *)
Definition disk_full_upload : world :=
  with_faults write_back_fails resumed_upload.

(** A client about to upload the three bytes of its file "f"; the server
    answers offset 5. *)
Definition overshooting_upload : world :=
  connection {[ bytes_of_string "f" := Reg [7; 8; 9] ]} (be_bytes 8 5 ++ []).

(** A client about to download "f", of which it holds three bytes; the
    server answers size 4 and offset 9, and one byte more. *)
Definition overshooting_download : world :=
  connection {[ bytes_of_string "f" := Reg [7; 8; 9] ]}
    (be_bytes 8 4 ++ be_bytes 8 9 ++ [1]).

(** A client about to download "f", of which it holds seven bytes, from
    the server of [serving_f], whose file has five. *)
Definition longer_local_download : world :=
  connection {[ bytes_of_string "f" := Reg [1; 2; 3; 4; 5; 6; 7] ]}
    ((be_bytes 8 5 ++ be_bytes 8 5) ++ []).

(** What a client puts on the wire before it waits for the reply. *)
Definition request_header (mode : string) (filename : list Z) (n : Z)
    : list Z :=
  field (bytes_of_string mode) ++ field filename ++ be_bytes 8 n.

(** client.c, [client_download], from line 315 to the label [out]. *)
Definition download_stream (filename : list Z) (filesize server_offset : Z)
    : M unit :=
  if filesize <? server_offset then goto_exit else
  let* bad := get (fun w => seek_fails w filename server_offset) in
  if bad then goto_exit else
  let* _ := Client.download_loop (Client.chunks_to_come filesize server_offset)
              filename filesize server_offset in
  update (Client.remove_progress filename).

(** The server of [resumed_upload]: it holds the first byte of "f" and
    receives the request and the two bytes that follow. *)
Definition resuming_server : world :=
  connection {[ bytes_of_string "f" := Reg [7] ]}
    (request_header "upload" (bytes_of_string "f") 3 ++ [8; 9]).

(** The next [n] calls of [recv] or [send] each move as much as a whole
    buffer of the program. *)
Definition rx_ready (n : nat) (w : world) : Prop :=
  exists ks rest,
    rx_script w = map RxAvail ks ++ rest /\ length ks = n
    /\ Forall (fun k => 8192 <= Z.pos k) ks.

Definition tx_ready (n : nat) (w : world) : Prop :=
  exists ks rest,
    tx_script w = map TxRoom ks ++ rest /\ length ks = n
    /\ Forall (fun k => 8192 <= Z.of_nat k) ks.

(** The ledger paths of [fname] fit the 4096-byte buffers they are
    printed into. *)
Definition fits_ledger (fname : list Z) : Prop :=
  Z.of_nat (length fname) + 13 < 4096.

(** ** Worlds and vocabulary of the end-to-end statements *)

(** The connection carries a download request within the server's
    bounds, the client holding [L] bytes, followed by [rest]. *)
Definition download_request (w : world) (mode fname : list Z) (L : Z)
    (rest : list Z) : Prop :=
  incoming w = field mode ++ field fname ++ be_bytes 8 L ++ rest
  /\ cstr mode = bytes_of_string "download"
  /\ 0 < Z.of_nat (length mode) < 32
  /\ 0 < Z.of_nat (length fname) < 512
  /\ 0 <= L < 2 ^ 64.

(** The server of [serving_f] asked for "f" by a client that holds two
    bytes of it, and that client, given the server's answer. *)
Definition resumed_download_server : world :=
  connection {[ bytes_of_string "f" := Reg [1; 2; 3; 4; 5] ]}
    (request_header "download" (bytes_of_string "f") 2).

Definition resumed_download_client : world :=
  connection {[ bytes_of_string "f" := Reg [1; 2] ]}
    (be_bytes 8 5 ++ be_bytes 8 2 ++ [3; 4; 5]).


(** ** server.c, [main] *)

Module ServerMain.

(** What [socket], [bind] and [listen] return when the server starts. *)
Record startup := Startup {
  socket_fails : bool;
  bind_fails : bool;
  listen_fails : bool
}.

(** One return of [accept]: a failure, or a connection with the bytes
    its peer sends and the way its [recv] and [send] calls go. *)
Inductive accepted :=
| AcceptErr (e : errno_t)
| Accepted (bytes : list Z) (rx : list rx_step) (tx : list tx_step).

(** The state [handle_client] starts in: the files, the storage and
    [errno] are those of the process, the socket is the new one. *)
Definition attach (bytes : list Z) (rx : list rx_step) (tx : list tx_step)
    (w : world) : world :=
  World (host w) (fs w) (faults w) (errno w) bytes rx tx [] false.

(** How far [main] gets: it has called [exit], it waits in [accept], or
    it waits in a handler whose peer has stalled. *)
Inductive stage := Exited (status : Z) | InAccept | InHandler.

Record run := Run {
  stage_of : stage;
  state : world;
  (** what was sent on each connection handled so far, oldest first *)
  transcripts : list (list Z)
}.

(** The loop [while (1)]: connections are handled one at a time, in the
    order they are accepted; a failed [accept] is reported and the loop
    goes on. *)
Fixpoint accept_loop (events : list accepted) (w : world)
    (done : list (list Z)) : run :=
  match events with
  | [] => Run InAccept w done
  | AcceptErr e :: events' => accept_loop events' (with_errno e w) done
  | Accepted bytes rx tx :: events' =>
      match Server.handle_client (attach bytes rx tx w) with
      | Ok _ w' | Fail w' => accept_loop events' w' (done ++ [sent w'])
      | Blocked w' => Run InHandler w' (done ++ [sent w'])
      end
  end.

(** [main]: with [SIGPIPE] ignored a [send] to a closed peer fails with
    [EPIPE], as [TxErr] has it, and does not end the process. *)
Definition main (s : startup) (events : list accepted) (w : world) : run :=
  if socket_fails s then Run (Exited 1) w []
  else if bind_fails s then Run (Exited 1) w []
  else if listen_fails s then Run (Exited 1) w []
  else accept_loop events w [].

End ServerMain.

(** A server process that holds the first byte of "f", and one that
    holds no file; the scripts of [connection] serve for the connections
    they accept. *)
Definition server_with_one_byte : world :=
  connection {[ bytes_of_string "f" := Reg [7] ]} [].

Definition empty_server : world := connection ∅ [].

(** An [accept] that fails, or a connection whose request the server
    refuses and whose peer hands it over. *)
Definition refused_event (w : world) (ev : ServerMain.accepted) : Prop :=
  match ev with
  | ServerMain.AcceptErr _ => True
  | ServerMain.Accepted bytes rx tx =>
      malformed_request (ServerMain.attach bytes rx tx w)
      /\ rx_ready 4 (ServerMain.attach bytes rx tx w)
  end.

(** The connections among the returns of [accept]. *)
Fixpoint connections (events : list ServerMain.accepted) : nat :=
  match events with
  | [] => O
  | ServerMain.AcceptErr _ :: events' => connections events'
  | ServerMain.Accepted _ _ _ :: events' => S (connections events')
  end.

(** A request with the mode "delete", an [accept] interrupted by a
    signal, and a request whose file name is empty. *)
Definition refused_events : list ServerMain.accepted :=
  [ServerMain.Accepted
     (field (bytes_of_string "delete") ++ field (bytes_of_string "f"))
     (repeat (RxAvail 8192) 4) [];
   ServerMain.AcceptErr EINTR;
   ServerMain.Accepted
     (field (bytes_of_string "upload") ++ be_bytes 4 0)
     (repeat (RxAvail 8192) 4) []].

(** ** client.c, [main] *)

Module ClientMain.

(** What the calls [main] makes before the transfer return: [atoi] on
    the port argument, [socket], [inet_pton] on the address argument,
    and [connect] to that address and port. *)
Record platform := Platform {
  atoi : list Z -> Z;
  socket_fails : bool;
  inet_pton : list Z -> Z;
  connect_fails : list Z -> Z -> bool
}.

(** The cast [(uint16_t)]. *)
Definition u16 (v : Z) : Z := Z.land v (Z.ones 16).

(** [main]: [argv] holds the program name and the arguments, [w] the
    files and the connection [connect] gives; the value is the one
    [main] returns. *)
Definition main (p : platform) (argv : list (list Z)) : M Z :=
  fun w =>
    match argv with
    | [_; mode; server_ip; server_port; filename] =>
        if negb (bool_decide (mode = bytes_of_string "upload")
                 || bool_decide (mode = bytes_of_string "download"))
        then Ok 1 w
        else if socket_fails p then Ok 1 w
        else if inet_pton p server_ip <=? 0 then Ok 1 (close w)
        else if connect_fails p server_ip (u16 (atoi p server_port))
        then Ok 1 (close w)
        else if bool_decide (mode = bytes_of_string "upload")
        then Client.client_upload filename w
        else Client.client_download filename w
    | _ => Ok 1 w
    end.

End ClientMain.

(** A platform on which [socket], [inet_pton] and [connect] succeed and
    the port argument reads 9000. *)
Definition working_platform : ClientMain.platform :=
  ClientMain.Platform (fun _ => 9000) false (fun _ => 1) (fun _ _ => false).

(** A server without the file "f" that is asked for it, and the client
    that asked, whose peer closes without a reply. *)
Definition asked_for_missing : world :=
  connection ∅ (request_header "download" (bytes_of_string "f") 0).

Definition unanswered_client : world := connection ∅ [].

(** ** Runs that differ in the ledger only *)

(** Two states that agree on everything but what the two ledger paths
    of [fname] hold. *)
Record ledger_blind (fname : list Z) (w1 w2 : world) : Prop := {
  lb_host : host w1 = host w2;
  lb_faults : faults w1 = faults w2;
  lb_errno : errno w1 = errno w2;
  lb_incoming : incoming w1 = incoming w2;
  lb_rx : rx_script w1 = rx_script w2;
  lb_tx : tx_script w1 = tx_script w2;
  lb_sent : sent w1 = sent w2;
  lb_closed : closed w1 = closed w2;
  lb_files :
    forall p, p <> Client.prog_path fname -> p <> Client.prog_tmp_path fname ->
              fs w1 !! p = fs w2 !! p
}.

(** Two calls end the same way, with the same value, in states that
    differ in the ledger only. *)
Definition same_outcome {A} (fname : list Z) (r1 r2 : res A) : Prop :=
  match r1, r2 with
  | Ok a w1, Ok b w2 => a = b /\ ledger_blind fname w1 w2
  | Fail w1, Fail w2 => ledger_blind fname w1 w2
  | Blocked w1, Blocked w2 => ledger_blind fname w1 w2
  | _, _ => False
  end.

(** ** What the ledger may record *)

(** The ledger of [fname] is as it was in [w0], or holds a complete
    record of a count that the local file covers. *)
Definition ledger_within (fname : list Z) (w0 w : world) : Prop :=
  fs w !! Client.prog_path fname = fs w0 !! Client.prog_path fname
  \/ exists v, fs w !! Client.prog_path fname = Some (Reg (decimal_line v))
               /\ 0 <= v <= Z.of_nat (length (file_data w fname)).

(** How a transfer of [fname] started in [w0] leaves the ledger: gone
    when the value returned is 0 and [unlink] did not fail, within the
    local file otherwise. *)
Definition ledger_outcome (fname : list Z) (w0 : world) (r : res Z) : Prop :=
  match r with
  | Ok v w =>
      if (v =? 0) && negb (faults w0 (OpUnlink (Client.prog_path fname)))
      then fs w !! Client.prog_path fname = None
      else ledger_within fname w0 w
  | Fail w | Blocked w => ledger_within fname w0 w
  end.


(* ===================================================================== *)
(** * Part II: properties                                                 *)
(* ===================================================================== *)

(** ** Bit-level reasoning *)

Ltac bits_step :=
  match goal with
  | |- context [Z.testbit (Z.lor _ _) _] => rewrite Z.lor_spec
  | |- context [Z.testbit (Z.land _ _) _] => rewrite Z.land_spec
  | |- context [Z.testbit (Z.shiftl ?a ?n) ?i] =>
      rewrite (Z.shiftl_spec a n i) by lia
  | |- context [Z.testbit (Z.shiftr ?a ?n) ?i] =>
      rewrite (Z.shiftr_spec a n i) by lia
  | |- context [Z.testbit (Z.ones ?n) ?i] =>
      rewrite (Z.testbit_ones_nonneg n i) by lia
  | |- context [Z.testbit ?a ?i] => rewrite (Z.testbit_neg_r a i) by lia
  end.

Ltac cmp_step :=
  match goal with
  | |- context [?a <? ?b] => destruct (Z.ltb_spec a b); try lia
  end.

Ltac bits :=
  repeat bits_step; repeat cmp_step; simpl;
  rewrite ?andb_true_r, ?andb_false_r, ?orb_false_r, ?orb_false_l; simpl.

Section ByteOrderFacts.

Lemma testbit_bswap32 v k r :
  0 <= k < 4 -> 0 <= r < 8 ->
  Z.testbit (bswap32 v) (8 * k + r) = Z.testbit v (8 * (3 - k) + r).
Proof.
  intros Hk Hr. unfold bswap32. change 255 with (Z.ones 8).
  assert (k = 0 \/ k = 1 \/ k = 2 \/ k = 3) as [->|[->|[->| ->]]] by lia;
    bits; try reflexivity; f_equal; lia.
Qed.

Lemma testbit_bswap32_high v i : 32 <= i -> Z.testbit (bswap32 v) i = false.
Proof.
  intros Hi. unfold bswap32. change 255 with (Z.ones 8). bits; reflexivity.
Qed.

Lemma u32_bswap32 v : u32 (bswap32 v) = bswap32 v.
Proof.
  apply Z.bits_inj'; intros i Hi. unfold u32.
  rewrite Z.land_spec, Z.testbit_ones_nonneg by lia.
  destruct (Z.ltb_spec i 32); [apply andb_true_r|].
  rewrite testbit_bswap32_high by lia. reflexivity.
Qed.

(** The two programs spell the same function. *)
Lemma htonll_same h v : Client.htonll h v = Server.htonll h v.
Proof.
  destruct h; [|reflexivity]. unfold Client.htonll, Server.htonll, htonl.
  f_equal. apply Z.bits_inj'; intros i Hi. unfold u64 at 1.
  rewrite Z.land_spec, Z.testbit_ones_nonneg by lia.
  destruct (Z.ltb_spec i 64); [apply andb_true_r|].
  rewrite testbit_bswap32_high by lia. reflexivity.
Qed.

Lemma ntohll_same h v : Client.ntohll h v = Server.ntohll h v.
Proof. apply htonll_same. Qed.

Lemma ntohll_is_htonll h v : Client.ntohll h v = Client.htonll h v.
Proof. reflexivity. Qed.

Lemma testbit_htonll v k r :
  0 <= k < 8 -> 0 <= r < 8 ->
  Z.testbit (Client.htonll LittleEndian v) (8 * k + r)
  = Z.testbit v (8 * (7 - k) + r).
Proof.
  intros Hk Hr. rewrite htonll_same.
  unfold Server.htonll, htonl, u64, u32. change 0xFFFFFFFF with (Z.ones 32).
  destruct (Z.lt_ge_cases k 4).
  - rewrite Z.lor_spec, !Z.land_spec, Z.shiftl_spec by lia.
    rewrite (Z.testbit_neg_r _ (8 * k + r - 32)) by lia.
    rewrite testbit_bswap32 by lia. bits. f_equal; lia.
  - rewrite Z.lor_spec, !Z.land_spec, Z.shiftl_spec by lia.
    rewrite (testbit_bswap32_high _ (8 * k + r)) by lia.
    replace (8 * k + r - 32) with (8 * (k - 4) + r) by lia.
    rewrite !Z.land_spec.
    rewrite testbit_bswap32 by lia. bits. f_equal; lia.
Qed.

Lemma testbit_htonll_high v i :
  64 <= i -> Z.testbit (Client.htonll LittleEndian v) i = false.
Proof.
  intros Hi. unfold Client.htonll, u64.
  rewrite Z.lor_spec, !Z.land_spec, Z.testbit_ones_nonneg by lia.
  destruct (Z.ltb_spec i 64); [lia|]. now rewrite !andb_false_r.
Qed.

Lemma split_bit_index i : 0 <= i -> i = 8 * (i / 8) + i mod 8.
Proof. intros _. apply Z.div_mod. lia. Qed.

Lemma testbit_u64_high v i : 0 <= v < 2 ^ 64 -> 64 <= i -> Z.testbit v i = false.
Proof.
  intros Hv Hi. destruct (Z.eq_dec v 0) as [->|Hne]; [apply Z.testbit_0_l|].
  apply Z.bits_above_log2; [lia|].
  assert (Z.log2 v < 64) by (apply Z.log2_lt_pow2; lia). lia.
Qed.

Lemma htonll_involutive v :
  0 <= v < 2 ^ 64 ->
  Client.htonll LittleEndian (Client.htonll LittleEndian v) = v.
Proof.
  intros Hv. apply Z.bits_inj'; intros i Hi.
  destruct (Z.lt_ge_cases i 64).
  - pose proof (Z.mod_pos_bound i 8 ltac:(lia)).
    assert (0 <= i / 8 < 8)
      by (split; [apply Z.div_pos; lia | apply Z.div_lt_upper_bound; lia]).
    rewrite (split_bit_index i Hi) at 1.
    rewrite !testbit_htonll by lia.
    f_equal. pose proof (split_bit_index i Hi). lia.
  - rewrite testbit_htonll_high, testbit_u64_high by lia. reflexivity.
Qed.

End ByteOrderFacts.

Section WireEncoding.

Lemma u64_id v : 0 <= v < 2 ^ 64 -> u64 v = v.
Proof.
  intros Hv. unfold u64. rewrite Z.land_ones by lia. apply Z.mod_small. lia.
Qed.

Lemma u64_range v : 0 <= u64 v < 2 ^ 64.
Proof.
  unfold u64. rewrite Z.land_ones by lia. apply Z.mod_pos_bound. lia.
Qed.

Lemma lor_u64 a b : Z.lor (u64 a) (u64 b) = u64 (Z.lor a b).
Proof. unfold u64. now rewrite Z.land_lor_distr_l. Qed.

Lemma htonll_range h v :
  0 <= v < 2 ^ 64 -> 0 <= Client.htonll h v < 2 ^ 64.
Proof.
  intros Hv. destruct h; [|exact Hv]. unfold Client.htonll.
  rewrite lor_u64. apply u64_range.
Qed.

Lemma le_value_le_bytes w v :
  le_value (le_bytes w v) = Z.land v (Z.ones (8 * Z.of_nat w)).
Proof.
  revert v. induction w as [|w IH]; intros v.
  - simpl. now rewrite Z.land_0_r.
  - cbn [le_bytes le_value]. rewrite IH.
    change 255 with (Z.ones 8).
    apply Z.bits_inj'; intros i Hi.
    destruct (Z.lt_ge_cases i 8).
    + bits; reflexivity.
    + bits; try reflexivity. f_equal; f_equal; lia.
Qed.

Lemma le_bytes_spec w v :
  le_bytes w v
  = map (fun k => Z.land (Z.shiftr v (8 * Z.of_nat k)) 255) (seq 0 w).
Proof.
  revert v. induction w as [|w IH]; intros v; [reflexivity|].
  cbn [le_bytes seq map]. f_equal.
  rewrite IH, <- seq_shift, map_map. apply map_ext; intros k.
  rewrite Z.shiftr_shiftr by lia. do 2 f_equal. lia.
Qed.

Lemma byte_htonll v k :
  0 <= k < 8 ->
  Z.land (Z.shiftr (Client.htonll LittleEndian v) (8 * k)) 255
  = Z.land (Z.shiftr v (8 * (7 - k))) 255.
Proof.
  intros Hk. change 255 with (Z.ones 8).
  apply Z.bits_inj'; intros i Hi.
  rewrite !Z.land_spec, !Z.shiftr_spec, Z.testbit_ones_nonneg by lia.
  destruct (Z.ltb_spec i 8); [|now rewrite !andb_false_r].
  rewrite !andb_true_r.
  replace (i + 8 * k) with (8 * k + i) by lia.
  rewrite testbit_htonll by lia. f_equal; lia.
Qed.

(** On a little-endian host the object returned by [htonll] lies in
    memory as the big-endian encoding of its argument. *)
Lemma htonll_image v :
  le_bytes 8 (Client.htonll LittleEndian v) = be_bytes 8 v.
Proof.
  unfold be_bytes. rewrite !le_bytes_spec. cbn [seq map rev app].
  repeat (apply (f_equal2 cons); [apply (byte_htonll v); cbn; lia|]).
  reflexivity.
Qed.

Lemma store_htonll h v : store h 8 (Client.htonll h v) = be_bytes 8 v.
Proof. destruct h; [apply htonll_image | reflexivity]. Qed.

Lemma load_be_bytes h v :
  0 <= v < 2 ^ 64 ->
  Client.ntohll h (load h (be_bytes 8 v)) = v.
Proof.
  intros Hv. destruct h; unfold load.
  - rewrite <- htonll_image, le_value_le_bytes.
    change (Z.land ?x (Z.ones (8 * Z.of_nat 8))) with (u64 x).
    rewrite (u64_id (Client.htonll LittleEndian v))
      by (apply htonll_range; exact Hv).
    rewrite ntohll_is_htonll. apply htonll_involutive, Hv.
  - unfold be_value, be_bytes. rewrite rev_involutive, le_value_le_bytes.
    apply (u64_id v Hv).
Qed.

Lemma u32_id v : 0 <= v < 2 ^ 32 -> u32 v = v.
Proof.
  intros Hv. unfold u32. rewrite Z.land_ones by lia. apply Z.mod_small. lia.
Qed.

Lemma testbit_u32_high v i : 0 <= v < 2 ^ 32 -> 32 <= i -> Z.testbit v i = false.
Proof.
  intros Hv Hi. destruct (Z.eq_dec v 0) as [->|Hne]; [apply Z.testbit_0_l|].
  apply Z.bits_above_log2; [lia|].
  assert (Z.log2 v < 32) by (apply Z.log2_lt_pow2; lia). lia.
Qed.

Lemma bswap32_involutive v : 0 <= v < 2 ^ 32 -> bswap32 (bswap32 v) = v.
Proof.
  intros Hv. apply Z.bits_inj'; intros i Hi.
  destruct (Z.lt_ge_cases i 32).
  - pose proof (Z.mod_pos_bound i 8 ltac:(lia)).
    assert (0 <= i / 8 < 4)
      by (split; [apply Z.div_pos; lia | apply Z.div_lt_upper_bound; lia]).
    rewrite (split_bit_index i Hi) at 1.
    rewrite !testbit_bswap32 by lia.
    f_equal. pose proof (split_bit_index i Hi). lia.
  - rewrite testbit_bswap32_high, testbit_u32_high by lia. reflexivity.
Qed.

Lemma byte_bswap32 v k :
  0 <= k < 4 ->
  Z.land (Z.shiftr (bswap32 v) (8 * k)) 255
  = Z.land (Z.shiftr v (8 * (3 - k))) 255.
Proof.
  intros Hk. change 255 with (Z.ones 8).
  apply Z.bits_inj'; intros i Hi.
  rewrite !Z.land_spec, !Z.shiftr_spec, Z.testbit_ones_nonneg by lia.
  destruct (Z.ltb_spec i 8); [|now rewrite !andb_false_r].
  rewrite !andb_true_r.
  replace (i + 8 * k) with (8 * k + i) by lia.
  rewrite testbit_bswap32 by lia. f_equal; lia.
Qed.

Lemma bswap32_image v : le_bytes 4 (bswap32 v) = be_bytes 4 v.
Proof.
  unfold be_bytes. rewrite !le_bytes_spec. cbn [seq map rev app].
  repeat (apply (f_equal2 cons); [apply (byte_bswap32 v); cbn; lia|]).
  reflexivity.
Qed.

Lemma le_bytes_u32 v : le_bytes 4 (u32 v) = le_bytes 4 v.
Proof.
  rewrite !le_bytes_spec. cbn [seq map]. unfold u32.
  change 255 with (Z.ones 8).
  repeat (apply (f_equal2 cons);
          [apply Z.bits_inj'; intros i Hi; cbn [Z.of_nat Pos.of_succ_nat Pos.succ Z.mul];
           bits; reflexivity|]).
  reflexivity.
Qed.

Lemma store_htonl h v : store h 4 (htonl h v) = be_bytes 4 v.
Proof.
  destruct h; cbn [store htonl].
  - rewrite bswap32_image. unfold be_bytes. now rewrite le_bytes_u32.
  - unfold be_bytes. now rewrite le_bytes_u32.
Qed.

Lemma ntohl_load h v :
  0 <= v < 2 ^ 32 -> ntohl h (load h (be_bytes 4 v)) = v.
Proof.
  intros Hv. destruct h; unfold ntohl, htonl, load.
  - rewrite <- bswap32_image, le_value_le_bytes.
    change (Z.land ?x (Z.ones (8 * Z.of_nat 4))) with (u32 x).
    rewrite !u32_bswap32. apply bswap32_involutive, Hv.
  - unfold be_value, be_bytes. rewrite rev_involutive, le_value_le_bytes.
    change (Z.land ?x (Z.ones (8 * Z.of_nat 4))) with (u32 x).
    rewrite (u32_id v Hv). apply (u32_id v Hv).
Qed.

Lemma server_store_htonll h v : store h 8 (Server.htonll h v) = be_bytes 8 v.
Proof. rewrite <- htonll_same. apply store_htonll. Qed.

Lemma server_ntohll_load h v :
  0 <= v < 2 ^ 64 -> Server.ntohll h (load h (be_bytes 8 v)) = v.
Proof. intros Hv. rewrite <- ntohll_same. now apply load_be_bytes. Qed.

Lemma length_le_bytes n v : length (le_bytes n v) = n.
Proof. revert v. induction n; intros v; cbn; [reflexivity | now rewrite IHn]. Qed.

Lemma length_be_bytes n v : length (be_bytes n v) = n.
Proof. unfold be_bytes. now rewrite length_rev, length_le_bytes. Qed.

End WireEncoding.

(** C8.  For every 64-bit value [v]: [ntohll] undoes [htonll]; the
    client's and the server's [htonll] (and [ntohll]) are the same
    function; on a little-endian host the value returned by [htonll] lies
    in memory as the big-endian (network order) encoding of [v]; and
    whatever the byte orders of the sending and of the receiving host,
    the eight bytes put on the wire decode on the peer to [v]. *)
Theorem byte_order_roundtrip :
  forall v, 0 <= v < 2 ^ 64 ->
    (forall h, Client.ntohll h (Client.htonll h v) = v
               /\ Server.ntohll h (Server.htonll h v) = v)
    /\ (forall h x, Client.htonll h x = Server.htonll h x
                    /\ Client.ntohll h x = Server.ntohll h x)
    /\ store LittleEndian 8 (Client.htonll LittleEndian v) = be_bytes 8 v
    /\ store LittleEndian 8 (Server.htonll LittleEndian v) = be_bytes 8 v
    /\ (forall hs hr,
          Server.ntohll hr (load hr (store hs 8 (Client.htonll hs v))) = v
          /\ Client.ntohll hr (load hr (store hs 8 (Server.htonll hs v))) = v).
Proof.
  intros v Hv.
  assert (Hinv : forall h, Client.ntohll h (Client.htonll h v) = v).
  { intros [|]; [|reflexivity]. rewrite ntohll_is_htonll.
    apply htonll_involutive, Hv. }
  split; [|split; [|split; [|split]]].
  - intros h. split; [apply Hinv|].
    rewrite <- ntohll_same, <- htonll_same. apply Hinv.
  - intros h x. split; [apply htonll_same | apply ntohll_same].
  - apply store_htonll.
  - rewrite <- htonll_same. apply store_htonll.
  - intros hs hr. rewrite <- ntohll_same, <- htonll_same, store_htonll.
    split; apply load_be_bytes, Hv.
Qed.

Lemma byte_order_roundtrip_witness :
  Client.ntohll LittleEndian (Client.htonll LittleEndian 0x0102030405060708)
  = 0x0102030405060708
  /\ store LittleEndian 8 (Client.htonll LittleEndian 0x0102030405060708)
     = [1; 2; 3; 4; 5; 6; 7; 8].
Proof.
  destruct (byte_order_roundtrip 0x0102030405060708 ltac:(lia))
    as [Hrt [_ [Himg _]]].
  split; [apply Hrt | exact Himg].
Defined.

(** ** The reliable stream primitives *)

Lemma rx_only_refl w : rx_only w w.
Proof. split; try reflexivity. exists 0%nat. reflexivity. Qed.

Lemma rx_only_trans w1 w2 w3 : rx_only w1 w2 -> rx_only w2 w3 -> rx_only w1 w3.
Proof.
  intros [] []. split; try congruence.
  destruct rx_consumed0 as [n Hn], rx_consumed1 as [m Hm].
  exists (n + m)%nat. rewrite Hm, Hn. apply drop_drop.
Qed.

Lemma sys_recv_spec st len w :
  0 < len ->
  forall n data w1, sys_recv st len w = (n, data, w1) ->
    host w1 = host w /\ fs w1 = fs w /\ faults w1 = faults w
    /\ tx_script w1 = tx_script w /\ sent w1 = sent w
    /\ closed w1 = closed w /\ rx_script w1 = rx_script w
    /\ ((n = -1 /\ data = [] /\ incoming w1 = incoming w
         /\ exists e, st = RxErr e /\ errno w1 = e)
        \/ (0 <= n <= len /\ data = take (Z.to_nat n) (incoming w)
            /\ incoming w1 = drop (Z.to_nat n) (incoming w)
            /\ (Z.to_nat n <= length (incoming w))%nat
            /\ errno w1 = errno w
            /\ (n = 0 -> incoming w = []))).
Proof.
  intros Hlen n data w1 H. destruct st as [k|e]; cbn in H.
  - injection H as <- <- <-. cbn. repeat split; try reflexivity.
    right. rewrite Nat2Z.id. repeat split; try lia.
    intros H0. destruct (incoming w); [reflexivity|]. cbn [length] in H0. lia.
  - injection H as <- <- <-. cbn. repeat split; try reflexivity.
    left. repeat split. exists e. split; reflexivity.
Qed.

Lemma recv_post_advance len buf left w w1 n r :
  rx_only w w1 -> incoming w1 = drop n (incoming w) ->
  (n <= length (incoming w))%nat -> Z.of_nat n <= left ->
  recv_post len (buf ++ take n (incoming w)) (left - Z.of_nat n) w1 r ->
  recv_post len buf left w r.
Proof.
  intros Hfr Hinc Hn Hleft Hpost.
  assert (Hl1 : length (incoming w1) = (length (incoming w) - n)%nat)
    by (rewrite Hinc; apply length_drop).
  destruct r as [[v buf'] w'|w'|w']; cbn in Hpost |- *; [|exact Hpost|].
  - destruct Hpost as (Hfr' & Hb & Hc).
    split; [eapply rx_only_trans; eassumption|]. split; [lia|].
    destruct Hc as [(-> & -> & Hle & Hinc')|Hc]; [left|right; exact Hc].
    rewrite Hinc in Hle, Hinc' |- *.
    rewrite length_drop in Hle. rewrite drop_drop in Hinc'.
    split; [reflexivity|]. split; [|split].
    + rewrite <- app_assoc. f_equal. rewrite take_take_drop. f_equal. lia.
    + lia.
    + rewrite Hinc'. f_equal. lia.
  - destruct Hpost as (Hfr' & Hnil & Hb). split; [|split; [exact Hnil|lia]].
    eapply rx_only_trans; eassumption.
Qed.

Lemma recv_post_retry len buf left w w1 r :
  0 <= left -> rx_only w w1 -> incoming w1 = incoming w ->
  recv_post len buf left w1 r -> recv_post len buf left w r.
Proof.
  intros Hleft Hfr Hinc Hpost.
  apply (recv_post_advance len buf left w w1 0 r Hfr);
    [now rewrite drop_0 | lia | exact Hleft |].
  rewrite take_0, app_nil_r, Z.sub_0_r. exact Hpost.
Qed.

Lemma recv_post_done len buf w :
  recv_post len buf 0 w (Ok (len, buf) w).
Proof.
  cbn. split; [apply rx_only_refl|]. split; [lia|]. left.
  rewrite take_0, drop_0, app_nil_r. repeat split. lia.
Qed.

Lemma recv_post_failed len buf left w w1 b :
  rx_only w w1 ->
  (length (incoming w) <= length (incoming w1) + Z.to_nat left)%nat ->
  recv_post len buf left w (Ok (-1, b) w1).
Proof. intros H Hb. cbn. split; [exact H|]. split; [exact Hb|now right]. Qed.

Lemma recv_post_blocked len buf left w :
  rx_script w = [] -> recv_post len buf left w (Blocked w).
Proof. intros H. cbn. split; [apply rx_only_refl|]. split; [exact H|lia]. Qed.

Ltac recv_step Hrecv :=
  apply sys_recv_spec in Hrecv; [|lia];
  let Hh := fresh "Hh" in let Hfs := fresh "Hfs" in
  let Hfa := fresh "Hfa" in let Htx := fresh "Htx" in
  let Hsent := fresh "Hsent" in let Hcl := fresh "Hcl" in
  let Hrx := fresh "Hrx" in let Hcase := fresh "Hcase" in
  destruct Hrecv as (Hh & Hfs & Hfa & Htx & Hsent & Hcl & Hrx & Hcase);
  cbn in Hh, Hfs, Hfa, Htx, Hsent, Hcl, Hrx, Hcase.

(** client.c, [recv_all]. *)
Lemma client_recv_all_loop_spec script :
  forall len left buf w, 0 <= left -> rx_script w = script ->
    recv_post len buf left w (Client.recv_all_loop script len left buf w).
Proof.
  induction script as [|st script IH]; intros len left buf w Hleft Hs;
    cbn [Client.recv_all_loop]; destruct (Z.ltb_spec 0 left) as [Hpos|Hz].
  - apply recv_post_blocked, Hs.
  - replace left with 0 by lia. apply recv_post_done.
  - destruct (sys_recv st left (with_rx script w)) as [[r data] w1] eqn:Hrecv.
    recv_step Hrecv.
    assert (Hstep : forall n, incoming w1 = drop n (incoming w) -> rx_only w w1).
    { intros n Hn. split; try assumption. exists n. exact Hn. }
    destruct Hcase as [(-> & -> & Hinc & e & _ & He)
                      |(Hr & -> & Hinc & Hle & He & Hz)].
    + change (-1 <? 0) with true. cbv iota.
      assert (Hw1 : rx_only w w1) by (apply (Hstep 0%nat); now rewrite drop_0).
      repeat case_decide;
        try (apply (recv_post_retry _ _ _ w w1); [lia|exact Hw1|exact Hinc|];
             apply IH; assumption).
      apply recv_post_failed; [exact Hw1 | rewrite Hinc; lia].
    + destruct (Z.ltb_spec r 0); [lia|].
      assert (Hw1 : rx_only w w1) by (apply (Hstep (Z.to_nat r)); exact Hinc).
      destruct (Z.eqb_spec r 0) as [->|Hnz];
        [apply recv_post_failed; [exact Hw1 | rewrite Hinc, drop_0; lia]|].
      apply (recv_post_advance _ _ _ w w1 (Z.to_nat r)); try assumption; [lia|].
      rewrite Z2Nat.id by lia. apply IH; [lia | exact Hrx].
  - replace left with 0 by lia. apply recv_post_done.
Qed.

Lemma client_recv_all_spec len w :
  0 <= len -> recv_post len [] len w (Client.recv_all len w).
Proof. intros H. now apply client_recv_all_loop_spec. Qed.

(** server.c, [recv_all]. *)
Lemma server_recv_all_loop_spec script :
  forall len total buf w, 0 <= total <= len -> rx_script w = script ->
    recv_post len buf (len - total) w
      (Server.recv_all_loop script len total buf w).
Proof.
  induction script as [|st script IH]; intros len total buf w Htot Hs;
    cbn [Server.recv_all_loop]; destruct (Z.ltb_spec total len) as [Hpos|Hz].
  - apply recv_post_blocked, Hs.
  - replace total with len by lia. rewrite Z.sub_diag. apply recv_post_done.
  - destruct (sys_recv st (len - total) (with_rx script w))
      as [[r data] w1] eqn:Hrecv.
    recv_step Hrecv.
    assert (Hstep : forall n, incoming w1 = drop n (incoming w) -> rx_only w w1).
    { intros n Hn. split; try assumption. exists n. exact Hn. }
    destruct Hcase as [(-> & -> & Hinc & e & _ & He)
                      |(Hr & -> & Hinc & Hle & He & Hz)].
    + change (-1 <=? 0) with true. cbv iota.
      assert (Hw1 : rx_only w w1) by (apply (Hstep 0%nat); now rewrite drop_0).
      case_decide.
      * apply (recv_post_retry _ _ _ w w1); [lia|exact Hw1|exact Hinc|].
        apply IH; assumption.
      * apply recv_post_failed; [exact Hw1 | rewrite Hinc; lia].
    + assert (Hw1 : rx_only w w1) by (apply (Hstep (Z.to_nat r)); exact Hinc).
      destruct (Z.leb_spec r 0) as [Hr0|Hr0].
      * assert (r = 0) as -> by lia. rewrite drop_0 in Hinc.
        case_decide.
        -- apply (recv_post_retry _ _ _ w w1); [lia|exact Hw1|exact Hinc|].
           apply IH; assumption.
        -- apply recv_post_failed; [exact Hw1 | rewrite Hinc; lia].
      * apply (recv_post_advance _ _ _ w w1 (Z.to_nat r));
          try assumption; [lia|].
        rewrite Z2Nat.id by lia.
        replace (len - total - r) with (len - (total + r)) by lia.
        apply IH; [lia | exact Hrx].
  - replace total with len by lia. rewrite Z.sub_diag. apply recv_post_done.
Qed.

Lemma server_recv_all_spec len w :
  0 <= len -> recv_post len [] len w (Server.recv_all len w).
Proof.
  intros H. unfold Server.recv_all.
  replace len with (len - 0) at 2 by lia.
  apply server_recv_all_loop_spec; [lia | reflexivity].
Qed.

Lemma sys_send_spec st buf w :
  forall n w1, sys_send st buf w = (n, w1) ->
    host w1 = host w /\ fs w1 = fs w /\ faults w1 = faults w
    /\ incoming w1 = incoming w /\ rx_script w1 = rx_script w
    /\ closed w1 = closed w /\ tx_script w1 = tx_script w
    /\ ((n = -1 /\ sent w1 = sent w /\ exists e, st = TxErr e /\ errno w1 = e)
        \/ (0 <= n <= Z.of_nat (length buf)
            /\ sent w1 = sent w ++ take (Z.to_nat n) buf
            /\ errno w1 = errno w)).
Proof.
  intros n w1 H. destruct st as [k|e]; cbn in H; injection H as <- <-; cbn;
    repeat split; try reflexivity.
  - right. rewrite Nat2Z.id. repeat split; lia.
  - left. repeat split. exists e. split; reflexivity.
Qed.

Lemma tx_only_refl p w : tx_only p w w.
Proof.
  split; try reflexivity. exists 0%nat. now rewrite take_0, app_nil_r.
Qed.

Lemma tx_only_nil w w' :
  tx_only [] w w' -> forall p, tx_only p w w'.
Proof.
  intros [] p. split; try assumption.
  destruct tx_sent0 as [k Hk]. rewrite take_nil, app_nil_r in Hk.
  exists 0%nat. now rewrite take_0, app_nil_r.
Qed.

Lemma tx_only_advance p n w w1 w' :
  (n <= length p)%nat ->
  tx_only (take n p) w w1 -> sent w1 = sent w ++ take n p ->
  tx_only (drop n p) w1 w' -> tx_only p w w'.
Proof.
  intros Hn [] Hs []. split; try congruence.
  destruct tx_sent1 as [k Hk]. exists (n + k)%nat.
  rewrite Hk, Hs, <- app_assoc, take_take_drop. reflexivity.
Qed.

Lemma send_post_advance len p n w w1 r :
  (n <= length p)%nat ->
  tx_only (take n p) w w1 -> sent w1 = sent w ++ take n p ->
  send_post len (drop n p) w1 r -> send_post len p w r.
Proof.
  intros Hn Hfr Hs Hpost.
  destruct r as [v w'|w'|w']; cbn in Hpost |- *; [|exact Hpost|].
  - destruct Hpost as [Hfr' Hc].
    split; [eapply tx_only_advance; eassumption|].
    destruct Hc as [(-> & Hs')|Hc]; [left|right; exact Hc].
    split; [reflexivity|].
    rewrite Hs', Hs, <- app_assoc, take_drop. reflexivity.
  - destruct Hpost as [Hfr' Hnil]. split; [|exact Hnil].
    eapply tx_only_advance; eassumption.
Qed.

Lemma send_post_retry len p w w1 r :
  tx_only [] w w1 -> sent w1 = sent w ->
  send_post len p w1 r -> send_post len p w r.
Proof.
  intros Hfr Hs Hpost.
  apply (send_post_advance len p 0 w w1 r); [lia | | |].
  - rewrite take_0. exact Hfr.
  - now rewrite take_0, app_nil_r.
  - rewrite drop_0. exact Hpost.
Qed.

Lemma send_post_failed len p w w1 :
  tx_only p w w1 -> send_post len p w (Ok (-1) w1).
Proof. intros H. cbn. split; [exact H | right; reflexivity]. Qed.

Ltac send_step Hsend :=
  apply sys_send_spec in Hsend;
  let Hh := fresh "Hh" in let Hfs := fresh "Hfs" in
  let Hfa := fresh "Hfa" in let Hin := fresh "Hin" in
  let Hrx := fresh "Hrx" in let Hcl := fresh "Hcl" in
  let Htx := fresh "Htx" in let Hcase := fresh "Hcase" in
  destruct Hsend as (Hh & Hfs & Hfa & Hin & Hrx & Hcl & Htx & Hcase);
  cbn in Hh, Hfs, Hfa, Hin, Hrx, Hcl, Htx, Hcase.

(** client.c, [send_all]. *)
Lemma client_send_all_loop_spec script :
  forall len p w, tx_script w = script ->
    send_post len p w (Client.send_all_loop script len p w).
Proof.
  induction script as [|st script IH]; intros len p w Hs;
    cbn [Client.send_all_loop];
    destruct (Z.ltb_spec 0 (Z.of_nat (length p))) as [Hpos|Hz].
  - split; [apply tx_only_refl | exact Hs].
  - destruct p; [|cbn in Hz; lia]. cbn. split; [apply tx_only_refl|].
    left. now rewrite app_nil_r.
  - destruct (sys_send st p (with_tx script w)) as [s w1] eqn:Hsend.
    send_step Hsend.
    assert (Hstep : forall n, sent w1 = sent w ++ take n p ->
                              tx_only (take n p) w w1).
    { intros n Hn. split; try assumption. exists n.
      rewrite Hn. f_equal. rewrite take_take. f_equal. lia. }
    destruct Hcase as [(-> & Hsent & e & _ & He)|(Hr & Hsent & He)].
    + change (-1 <? 0) with true. cbv iota.
      assert (Hw1 : tx_only [] w w1).
      { rewrite <- (take_0 p). apply Hstep. now rewrite take_0, app_nil_r. }
      repeat case_decide;
        try (apply (send_post_retry _ _ w w1); [exact Hw1|exact Hsent|];
             apply IH; assumption).
      apply send_post_failed. apply tx_only_nil, Hw1.
    + destruct (Z.ltb_spec s 0); [lia|].
      destruct (Z.eqb_spec s 0) as [->|Hnz].
      * apply send_post_failed. apply (tx_only_nil w w1).
        rewrite <- (take_0 p). apply Hstep. exact Hsent.
      * apply (send_post_advance _ _ (Z.to_nat s) w w1);
          [lia | apply Hstep, Hsent | exact Hsent |].
        apply IH. exact Htx.
  - destruct p; [|cbn in Hz; lia]. cbn. split; [apply tx_only_refl|].
    left. now rewrite app_nil_r.
Qed.

Lemma client_send_all_spec buf w :
  send_post (Z.of_nat (length buf)) buf w (Client.send_all buf w).
Proof. now apply client_send_all_loop_spec. Qed.

(** server.c, [send_all]. *)
Lemma server_send_all_loop_spec script :
  forall buf total w,
    0 <= total <= Z.of_nat (length buf) -> tx_script w = script ->
    send_post (Z.of_nat (length buf)) (drop (Z.to_nat total) buf) w
      (Server.send_all_loop script buf total w).
Proof.
  induction script as [|st script IH]; intros buf total w Htot Hs;
    cbn [Server.send_all_loop];
    destruct (Z.ltb_spec total (Z.of_nat (length buf))) as [Hpos|Hz].
  - split; [apply tx_only_refl | exact Hs].
  - cbn. split; [apply tx_only_refl|]. left. split; [lia|].
    rewrite drop_ge by lia. now rewrite app_nil_r.
  - set (p := drop (Z.to_nat total) buf).
    assert (Hp : length p = (length buf - Z.to_nat total)%nat)
      by (unfold p; apply length_drop).
    destruct (sys_send st p (with_tx script w)) as [n w1] eqn:Hsend.
    send_step Hsend.
    assert (Hstep : forall k, sent w1 = sent w ++ take k p ->
                              tx_only (take k p) w w1).
    { intros k Hk. split; try assumption. exists k.
      rewrite Hk. f_equal. rewrite take_take. f_equal. lia. }
    destruct Hcase as [(-> & Hsent & e & _ & He)|(Hr & Hsent & He)].
    + change (-1 <=? 0) with true. cbv iota.
      assert (Hw1 : tx_only [] w w1).
      { rewrite <- (take_0 p). apply Hstep. now rewrite take_0, app_nil_r. }
      case_decide.
      * apply (send_post_retry _ _ w w1); [exact Hw1|exact Hsent|].
        apply IH; assumption.
      * apply send_post_failed. apply tx_only_nil, Hw1.
    + destruct (Z.leb_spec n 0) as [Hn0|Hn0].
      * assert (n = 0) as -> by lia. rewrite take_0, app_nil_r in Hsent.
        assert (Hw1 : tx_only [] w w1).
        { rewrite <- (take_0 p). apply Hstep. now rewrite take_0, app_nil_r. }
        case_decide.
        -- apply (send_post_retry _ _ w w1); [exact Hw1|exact Hsent|].
           apply IH; assumption.
        -- apply send_post_failed. apply tx_only_nil, Hw1.
      * apply (send_post_advance _ _ (Z.to_nat n) w w1);
          [lia | apply Hstep, Hsent | exact Hsent |].
        unfold p. rewrite drop_drop.
        replace (Z.to_nat total + Z.to_nat n)%nat with (Z.to_nat (total + n))
          by lia.
        apply IH; [lia | exact Htx].
  - cbn. split; [apply tx_only_refl|]. left. split; [lia|].
    rewrite drop_ge by lia. now rewrite app_nil_r.
Qed.

Lemma server_send_all_spec buf w :
  send_post (Z.of_nat (length buf)) buf w (Server.send_all buf w).
Proof.
  unfold Server.send_all. rewrite <- (drop_0 buf) at 2.
  apply server_send_all_loop_spec; [cbn; lia | reflexivity].
Qed.

Lemma server_recv_all_spins n :
  forall w, errno w = EINTR -> incoming w = [] ->
    exists w', Server.recv_all_loop (repeat (RxAvail 1) n) 4 0 [] w = Blocked w'
               /\ errno w' = EINTR /\ sent w' = sent w /\ fs w' = fs w.
Proof.
  induction n as [|n IH]; intros w He Hin; cbn [repeat Server.recv_all_loop].
  - exists w. change (0 <? 4) with true. cbv iota. repeat split. exact He.
  - change (0 <? 4) with true. cbv iota. cbn [sys_recv].
    cbn [incoming with_rx]. rewrite Hin. cbn [length Nat.min take drop].
    rewrite Nat.min_0_r. change (Z.of_nat 0 <=? 0) with true. cbv iota.
    case_decide as Hd; [|exfalso; exact (Hd He)].
    destruct (IH (with_incoming (drop 0 []) (with_rx (repeat (RxAvail 1) n) w))
                 He eq_refl)
      as (w' & Hrun & He' & Hs' & Hfs').
    exists w'. repeat split; assumption.
Qed.


(** C5 (server.c, [recv_all]).  The server's [recv_all] tests
    [n <= 0] and then [errno]: once a [recv] has been interrupted, a
    zero-length read finds [errno == EINTR] still set and is retried
    instead of reported.  With the peer gone the call never returns,
    however many more reads it makes, where the client's [recv_all]
    returns -1 at the first of them. *)
Theorem server_recv_all_retries_closed_peer :
  forall later,
    (exists w', Server.recv_all 4 (interrupted_then_closed later) = Blocked w')
    /\ (exists w', Client.recv_all 4 (interrupted_then_closed later)
                   = Ok (-1, []) w').
Proof.
  intros later. split.
  - unfold Server.recv_all, interrupted_then_closed.
    cbn [rx_script Server.recv_all_loop].
    change (0 <? 4) with true. cbv iota. cbn [sys_recv].
    change (-1 <=? 0) with true. cbv iota. cbn [errno with_errno].
    destruct (decide (EINTR = EINTR)) as [_|Hne]; [|congruence].
    match goal with
    | |- exists w', Server.recv_all_loop _ _ _ _ ?w = _ =>
        destruct (server_recv_all_spins (S later) w eq_refl eq_refl)
          as (w' & Hrun & _)
    end.
    exists w'. exact Hrun.
  - eexists. reflexivity.
Qed.

(** ** The server's request parser *)

Section ServerRequest.

Lemma recv_post_inv len w r :
  0 <= len -> recv_post len [] len w r ->
  match r with
  | Ok (v, buf) w' =>
      rx_only w w'
      /\ (length (incoming w) <= length (incoming w') + Z.to_nat len)%nat
      /\ ((v =? len) = true ->
          buf = take (Z.to_nat len) (incoming w)
          /\ (Z.to_nat len <= length (incoming w))%nat
          /\ incoming w' = drop (Z.to_nat len) (incoming w))
  | Fail _ => False
  | Blocked w' =>
      rx_only w w'
      /\ (length (incoming w) <= length (incoming w') + Z.to_nat len)%nat
  end.
Proof.
  intros Hlen H. destruct r as [[v buf] w'|w'|w']; cbn in H; [|exact H|tauto].
  destruct H as (Hfr & Hb & Hc). split; [exact Hfr|]. split; [exact Hb|].
  intros Hv.
  apply Z.eqb_eq in Hv. destruct Hc as [(_ & -> & Hle & Hinc)|Hc]; [|lia].
  repeat split; assumption.
Qed.

Lemma server_recv_all_inv len w :
  0 <= len ->
  match Server.recv_all len w with
  | Ok (v, buf) w' =>
      rx_only w w'
      /\ (length (incoming w) <= length (incoming w') + Z.to_nat len)%nat
      /\ ((v =? len) = true ->
          buf = take (Z.to_nat len) (incoming w)
          /\ (Z.to_nat len <= length (incoming w))%nat
          /\ incoming w' = drop (Z.to_nat len) (incoming w))
  | Fail _ => False
  | Blocked w' =>
      rx_only w w'
      /\ (length (incoming w) <= length (incoming w') + Z.to_nat len)%nat
  end.
Proof. intros H. apply recv_post_inv, server_recv_all_spec; exact H. Qed.

Lemma client_recv_all_inv len w :
  0 <= len ->
  match Client.recv_all len w with
  | Ok (v, buf) w' =>
      rx_only w w'
      /\ (length (incoming w) <= length (incoming w') + Z.to_nat len)%nat
      /\ ((v =? len) = true ->
          buf = take (Z.to_nat len) (incoming w)
          /\ (Z.to_nat len <= length (incoming w))%nat
          /\ incoming w' = drop (Z.to_nat len) (incoming w))
  | Fail _ => False
  | Blocked w' =>
      rx_only w w'
      /\ (length (incoming w) <= length (incoming w') + Z.to_nat len)%nat
  end.
Proof. intros H. apply recv_post_inv, client_recv_all_spec; exact H. Qed.

Lemma take_be_bytes_app n v rest :
  take n (be_bytes n v ++ rest) = be_bytes n v.
Proof.
  rewrite take_app_length'; [reflexivity | symmetry; apply length_be_bytes].
Qed.

Lemma drop_be_bytes_app n v rest :
  drop n (be_bytes n v ++ rest) = rest.
Proof.
  rewrite drop_app_length'; [reflexivity | symmetry; apply length_be_bytes].
Qed.

(** A field whose length prefix is [n]: the parser returns its [n]
    bytes, having consumed prefix and bytes, only when [0 < n < size];
    whatever it does, it sends nothing, touches no file and reads at most
    the field. *)
Lemma recv_field_spec size w n rest :
  incoming w = be_bytes 4 n ++ rest -> 0 <= n < 2 ^ 32 ->
  match Server.recv_field size w with
  | Ok buf w' =>
      rx_only w w' /\ 0 < n < size
      /\ buf = take (Z.to_nat n) rest
      /\ (Z.to_nat n <= length rest)%nat
      /\ incoming w' = drop (Z.to_nat n) rest
  | Fail w' | Blocked w' =>
      rx_only w w'
      /\ (length rest <= length (incoming w') + Z.to_nat n)%nat
  end.
Proof.
  intros Hin Hn. unfold Server.recv_field, bind.
  assert (Hl : length (incoming w) = (4 + length rest)%nat)
    by (rewrite Hin, length_app, length_be_bytes; reflexivity).
  pose proof (server_recv_all_inv 4 w ltac:(lia)) as H4.
  destruct (Server.recv_all 4 w) as [[r b] w1|w1|w1];
    [|contradiction|split; [apply H4|destruct H4; lia]].
  destruct H4 as (Hfr1 & Hb1 & H4).
  destruct (Z.eqb_spec r 4) as [->|Hr]; cbn [negb]; [|split; [exact Hfr1|lia]].
  destruct (H4 eq_refl) as (-> & _ & Hin1).
  change (Z.to_nat 4) with 4%nat in *.
  rewrite Hin, take_be_bytes_app. rewrite Hin, drop_be_bytes_app in Hin1.
  cbn [get]. rewrite ntohl_load by exact Hn.
  destruct (Z.eqb_spec n 0) as [->|Hn0]; cbn [orb];
    [split; [exact Hfr1 | rewrite Hin1; lia]|].
  destruct (Z.leb_spec size n) as [Hs|Hs];
    [split; [exact Hfr1 | rewrite Hin1; lia]|].
  pose proof (server_recv_all_inv n w1 ltac:(lia)) as Hb.
  destruct (Server.recv_all n w1) as [[r b] w2|w2|w2]; [|contradiction|].
  - destruct Hb as (Hfr2 & Hb2 & Hb).
    assert (Hfr : rx_only w w2) by (eapply rx_only_trans; eassumption).
    destruct (Z.eqb_spec r n) as [->|Hr]; cbn [negb ret];
      [|split; [exact Hfr | rewrite Hin1 in Hb2; lia]].
    destruct (Hb eq_refl) as (-> & Hle & Hin2). rewrite Hin1 in *.
    split; [exact Hfr|]. split; [lia|]. repeat split; assumption.
  - destruct Hb as (Hfr2 & Hb2).
    split; [eapply rx_only_trans; eassumption | rewrite Hin1 in Hb2; lia].
Qed.

End ServerRequest.

(** ** Requests the server refuses *)

Section Refusal.

Lemma field_incoming (bs rest : list Z) :
  field bs ++ rest = be_bytes 4 (Z.of_nat (length bs)) ++ (bs ++ rest).
Proof. unfold field. now rewrite <- app_assoc. Qed.

Lemma take_length_app (bs rest : list Z) :
  take (Z.to_nat (Z.of_nat (length bs))) (bs ++ rest) = bs.
Proof. rewrite Nat2Z.id. now rewrite take_app_length. Qed.

Lemma drop_length_app (bs rest : list Z) :
  drop (Z.to_nat (Z.of_nat (length bs))) (bs ++ rest) = rest.
Proof. rewrite Nat2Z.id. now rewrite drop_app_length. Qed.

(** A well-framed field is returned as it was sent, provided its
    length passes the bound. *)
Lemma recv_field_framed size w bs rest :
  incoming w = field bs ++ rest -> Z.of_nat (length bs) < 2 ^ 32 ->
  match Server.recv_field size w with
  | Ok buf w' =>
      rx_only w w' /\ 0 < Z.of_nat (length bs) < size
      /\ buf = bs /\ incoming w' = rest
  | Fail w' | Blocked w' =>
      rx_only w w' /\ (length rest <= length (incoming w'))%nat
  end.
Proof.
  intros Hin Hlen. rewrite field_incoming in Hin.
  pose proof (recv_field_spec size w _ _ Hin ltac:(lia)) as H.
  destruct (Server.recv_field size w) as [buf w'|w'|w'];
    try (destruct H as [H Hb]; split; [exact H|];
         rewrite length_app, Nat2Z.id in Hb; lia).
  destruct H as (Hfr & Hn & -> & _ & Hin').
  rewrite take_length_app. rewrite drop_length_app in Hin'. auto.
Qed.

Lemma serve_malformed w :
  malformed_request w -> rx_only w (final (Server.serve w)).
Proof.
  intros [(n & rest & Hin & Hn & Hbad)
         |[(mode & n & rest & Hin & Hm & Hn & Hbad)
          |(mode & fname & rest & Hin & Hm & Hf & Hup & Hdown)]];
    unfold Server.serve, bind.
  - pose proof (recv_field_spec 32 w n rest Hin Hn) as H.
    destruct (Server.recv_field 32 w) as [buf w'|w'|w']; cbn [final];
      try apply H.
    destruct H as (_ & Hr & _). lia.
  - pose proof (recv_field_framed 32 w mode _ Hin Hm) as H.
    destruct (Server.recv_field 32 w) as [buf w1|w1|w1]; cbn [final];
      try apply H.
    destruct H as (Hfr & _ & -> & Hin1).
    pose proof (recv_field_spec 512 w1 n rest Hin1 Hn) as H.
    destruct (Server.recv_field 512 w1) as [buf w2|w2|w2]; cbn [final];
      try (eapply rx_only_trans; [exact Hfr | apply H]).
    destruct H as (_ & Hr & _). lia.
  - pose proof (recv_field_framed 32 w mode _ Hin Hm) as H.
    destruct (Server.recv_field 32 w) as [buf w1|w1|w1]; cbn [final];
      try apply H.
    destruct H as (Hfr & _ & -> & Hin1).
    pose proof (recv_field_framed 512 w1 fname _ Hin1 Hf) as H.
    destruct (Server.recv_field 512 w1) as [buf w2|w2|w2]; cbn [final];
      try (eapply rx_only_trans; [exact Hfr | apply H]).
    destruct H as (Hfr2 & _ & -> & Hin2). cbn [get].
    destruct (decide (cstr mode = bytes_of_string "upload")) as [E|_];
      [contradiction|].
    destruct (decide (cstr mode = bytes_of_string "download")) as [E|_];
      [contradiction|].
    cbn. eapply rx_only_trans; eassumption.
Qed.

End Refusal.

(** ** Connections that deliver *)

Section Ready.

Lemma rx_ready_S n w :
  rx_ready (S n) w ->
  exists k s, rx_script w = RxAvail k :: s /\ 8192 <= Z.pos k
              /\ forall w', rx_script w' = s -> rx_ready n w'.
Proof.
  intros (ks & rest & Hs & Hlen & Hall).
  destruct ks as [|k ks]; [discriminate|]. cbn in Hs, Hlen.
  apply Forall_cons in Hall as [Hk Hall].
  exists k, (map RxAvail ks ++ rest). repeat split; try assumption.
  intros w' Hw'. exists ks, rest. repeat split; try assumption. lia.
Qed.

Lemma tx_ready_S n w :
  tx_ready (S n) w ->
  exists k s, tx_script w = TxRoom k :: s /\ 8192 <= Z.of_nat k
              /\ forall w', tx_script w' = s -> tx_ready n w'.
Proof.
  intros (ks & rest & Hs & Hlen & Hall).
  destruct ks as [|k ks]; [discriminate|]. cbn in Hs, Hlen.
  apply Forall_cons in Hall as [Hk Hall].
  exists k, (map TxRoom ks ++ rest). repeat split; try assumption.
  intros w' Hw'. exists ks, rest. repeat split; try assumption. lia.
Qed.

Lemma rx_ready_ext n w w' :
  rx_script w' = rx_script w -> rx_ready n w -> rx_ready n w'.
Proof. intros H (ks & rest & Hs & Hr). exists ks, rest. now rewrite H. Qed.

Lemma tx_ready_ext n w w' :
  tx_script w' = tx_script w -> tx_ready n w -> tx_ready n w'.
Proof. intros H (ks & rest & Hs & Hr). exists ks, rest. now rewrite H. Qed.

Lemma tx_ready_pred n w : tx_ready (S n) w -> tx_ready n w.
Proof.
  intros (ks & rest & Hs & Hlen & Hall).
  exists (take n ks), (map TxRoom (drop n ks) ++ rest). split; [|split].
  - rewrite app_assoc, <- map_app, take_drop. exact Hs.
  - rewrite length_take. lia.
  - apply Forall_take, Hall.
Qed.

Lemma server_recv_all_ready n len w :
  rx_ready (S n) w -> 0 < len <= 8192 ->
  (Z.to_nat len <= length (incoming w))%nat ->
  exists w',
    Server.recv_all len w = Ok (len, take (Z.to_nat len) (incoming w)) w'
    /\ rx_only w w' /\ incoming w' = drop (Z.to_nat len) (incoming w)
    /\ rx_ready n w'.
Proof.
  intros Hr Hlen Hin. apply rx_ready_S in Hr as (k & s & Hs & Hk & Hnext).
  unfold Server.recv_all. rewrite Hs. cbn [Server.recv_all_loop].
  destruct (Z.ltb_spec 0 len); [|lia]. cbn [sys_recv incoming with_rx].
  rewrite Z.sub_0_r.
  replace (Nat.min (Z.to_nat len) (Nat.min (Pos.to_nat k) (length (incoming w))))
    with (Z.to_nat len) by lia.
  rewrite Z2Nat.id by lia. destruct (Z.leb_spec len 0); [lia|].
  cbn [app]. rewrite Z.add_0_l.
  eexists. split.
  - destruct s; cbn [Server.recv_all_loop]; rewrite Z.ltb_irrefl; reflexivity.
  - split; [|split; [reflexivity|]].
    + split; try reflexivity. eexists. reflexivity.
    + apply Hnext. reflexivity.
Qed.

Lemma client_recv_all_ready n len w :
  rx_ready (S n) w -> 0 < len <= 8192 ->
  (Z.to_nat len <= length (incoming w))%nat ->
  exists w',
    Client.recv_all len w = Ok (len, take (Z.to_nat len) (incoming w)) w'
    /\ rx_only w w' /\ incoming w' = drop (Z.to_nat len) (incoming w)
    /\ rx_ready n w'.
Proof.
  intros Hr Hlen Hin. apply rx_ready_S in Hr as (k & s & Hs & Hk & Hnext).
  unfold Client.recv_all. rewrite Hs. cbn [Client.recv_all_loop].
  destruct (Z.ltb_spec 0 len); [|lia]. cbn [sys_recv incoming with_rx].
  replace (Nat.min (Z.to_nat len) (Nat.min (Pos.to_nat k) (length (incoming w))))
    with (Z.to_nat len) by lia.
  rewrite Z2Nat.id by lia. destruct (Z.ltb_spec len 0); [lia|].
  destruct (Z.eqb_spec len 0); [lia|].
  cbn [app]. rewrite Z.sub_diag.
  eexists. split.
  - destruct s; cbn [Client.recv_all_loop]; reflexivity.
  - split; [|split; [reflexivity|]].
    + split; try reflexivity. eexists. reflexivity.
    + apply Hnext. reflexivity.
Qed.

Lemma server_send_all_ready n buf w :
  tx_ready (S n) w -> Z.of_nat (length buf) <= 8192 ->
  exists w',
    Server.send_all buf w = Ok (Z.of_nat (length buf)) w'
    /\ tx_only buf w w' /\ sent w' = sent w ++ buf /\ tx_ready n w'.
Proof.
  intros Hr Hlen. pose proof (tx_ready_pred _ _ Hr) as Hpred.
  apply tx_ready_S in Hr as (k & s & Hs & Hk & Hnext).
  unfold Server.send_all. rewrite Hs. cbn [Server.send_all_loop].
  destruct (Z.ltb_spec 0 (Z.of_nat (length buf))) as [Hpos|Hz].
  - cbn [sys_send sent with_tx]. rewrite drop_0.
    replace (Nat.min (length buf) k) with (length buf) by lia.
    destruct (Z.leb_spec (Z.of_nat (length buf)) 0); [lia|].
    rewrite firstn_all, Z.add_0_l.
    eexists. split.
    + destruct s; cbn [Server.send_all_loop]; rewrite Z.ltb_irrefl; reflexivity.
    + split; [|split; [reflexivity|]].
      * split; try reflexivity. exists (length buf). cbn.
        now rewrite firstn_all.
      * apply Hnext. reflexivity.
  - destruct buf; [|cbn in Hz; lia]. exists w.
    split; [reflexivity|]. split; [apply tx_only_refl|].
    split; [now rewrite app_nil_r | exact Hpred].
Qed.

Lemma client_send_all_ready n buf w :
  tx_ready (S n) w -> Z.of_nat (length buf) <= 8192 ->
  exists w',
    Client.send_all buf w = Ok (Z.of_nat (length buf)) w'
    /\ tx_only buf w w' /\ sent w' = sent w ++ buf /\ tx_ready n w'.
Proof.
  intros Hr Hlen. pose proof (tx_ready_pred _ _ Hr) as Hpred.
  apply tx_ready_S in Hr as (k & s & Hs & Hk & Hnext).
  unfold Client.send_all. rewrite Hs. cbn [Client.send_all_loop].
  destruct (Z.ltb_spec 0 (Z.of_nat (length buf))) as [Hpos|Hz].
  - cbn [sys_send sent with_tx].
    replace (Nat.min (length buf) k) with (length buf) by lia.
    destruct (Z.ltb_spec (Z.of_nat (length buf)) 0); [lia|].
    destruct (Z.eqb_spec (Z.of_nat (length buf)) 0); [lia|].
    rewrite firstn_all, Nat2Z.id, drop_all.
    eexists. split.
    + destruct s; cbn [Client.send_all_loop]; reflexivity.
    + split; [|split; [reflexivity|]].
      * split; try reflexivity. exists (length buf). cbn.
        now rewrite firstn_all.
      * apply Hnext. reflexivity.
  - destruct buf; [|cbn in Hz; lia]. exists w.
    split; [reflexivity|]. split; [apply tx_only_refl|].
    split; [now rewrite app_nil_r | exact Hpred].
Qed.

(** On a connection that delivers, a well-framed field within the
    bound is read in two calls. *)
Lemma recv_field_ready n size w bs rest :
  rx_ready (S (S n)) w -> incoming w = field bs ++ rest ->
  0 < Z.of_nat (length bs) < size -> size <= 8192 ->
  exists w',
    Server.recv_field size w = Ok bs w' /\ rx_only w w'
    /\ incoming w' = rest /\ rx_ready n w'.
Proof.
  intros Hr Hin Hlen Hsize. rewrite field_incoming in Hin.
  assert (Hl4 : (Z.to_nat 4 <= length (incoming w))%nat).
  { rewrite Hin, length_app, length_be_bytes. lia. }
  destruct (server_recv_all_ready _ 4 w Hr ltac:(lia) Hl4)
    as (w1 & Hrun1 & Hfr1 & Hin1 & Hr1).
  unfold Server.recv_field, bind. rewrite Hrun1. cbn [negb Z.eqb Pos.eqb get].
  change (Z.to_nat 4) with 4%nat in *.
  rewrite Hin in Hin1 |- *. rewrite take_be_bytes_app.
  rewrite drop_be_bytes_app in Hin1.
  rewrite ntohl_load by lia.
  destruct (Z.eqb_spec (Z.of_nat (length bs)) 0); [lia|].
  destruct (Z.leb_spec size (Z.of_nat (length bs))); [lia|]. cbn [orb].
  assert (Hlb : (Z.to_nat (Z.of_nat (length bs)) <= length (incoming w1))%nat).
  { rewrite Hin1, length_app. lia. }
  destruct (server_recv_all_ready n (Z.of_nat (length bs)) w1 Hr1
              ltac:(lia) Hlb)
    as (w2 & Hrun2 & Hfr2 & Hin2 & Hr2).
  rewrite Hrun2, Z.eqb_refl. cbn [negb ret].
  rewrite Hin1, take_length_app. rewrite Hin1, drop_length_app in Hin2.
  exists w2. split; [reflexivity|]. split; [|split; assumption].
  eapply rx_only_trans; eassumption.
Qed.

(** A field whose length prefix is out of bounds ends the handler
    after one [recv]. *)
Lemma recv_field_refuses n size w len rest :
  rx_ready (S n) w -> incoming w = be_bytes 4 len ++ rest ->
  0 <= len < 2 ^ 32 -> len = 0 \/ size <= len ->
  exists w', Server.recv_field size w = Fail w'.
Proof.
  intros Hr Hin Hlen Hbad.
  assert (Hl4 : (Z.to_nat 4 <= length (incoming w))%nat).
  { rewrite Hin, length_app, length_be_bytes. lia. }
  destruct (server_recv_all_ready _ 4 w Hr ltac:(lia) Hl4)
    as (w1 & Hrun1 & Hfr1 & Hin1 & Hr1).
  unfold Server.recv_field, bind. rewrite Hrun1. cbn [negb Z.eqb Pos.eqb get].
  change (Z.to_nat 4) with 4%nat in *.
  rewrite Hin. rewrite take_be_bytes_app.
  rewrite ntohl_load by lia.
  destruct (Z.eqb_spec len 0) as [|Hne]; [now eexists|].
  destruct (Z.leb_spec size len); [now eexists | lia].
Qed.

(** A framed field is read, or refused for its length: the two [recv]
    calls it takes return. *)
Lemma recv_field_returns n size w bs rest :
  rx_ready (S (S n)) w -> incoming w = field bs ++ rest ->
  Z.of_nat (length bs) < 2 ^ 32 -> size <= 8192 ->
  (exists w', Server.recv_field size w = Ok bs w' /\ rx_only w w'
              /\ incoming w' = rest /\ rx_ready n w')
  \/ (exists w', Server.recv_field size w = Fail w').
Proof.
  intros Hr Hin Hlen Hsize.
  destruct (Z.eq_dec (Z.of_nat (length bs)) 0) as [H0|H0];
    [|destruct (Z.le_gt_cases size (Z.of_nat (length bs))) as [Hge|Hlt]].
  - right. rewrite field_incoming in Hin.
    apply (recv_field_refuses (S n) size w _ _ Hr Hin); lia.
  - right. rewrite field_incoming in Hin.
    apply (recv_field_refuses (S n) size w _ _ Hr Hin); lia.
  - left. apply (recv_field_ready n size w bs rest Hr Hin); lia.
Qed.

(** Given the four [recv] calls it may take, a refused request makes
    the handler leave for [cleanup] or fall through to it. *)
Lemma serve_malformed_returns w :
  malformed_request w -> rx_ready 4 w ->
  forall u, Server.serve w <> Blocked u.
Proof.
  intros [(n & rest & Hin & Hn & Hbad)
         |[(mode & n & rest & Hin & Hm & Hn & Hbad)
          |(mode & fname & rest & Hin & Hm & Hf & Hup & Hdown)]] Hrx u;
    unfold Server.serve.
  - destruct (recv_field_refuses 3 32 w n rest Hrx Hin Hn) as [w1 E1];
      [lia|]. unfold bind at 1. rewrite E1. discriminate.
  - destruct (recv_field_returns 2 32 w mode _ Hrx Hin Hm ltac:(lia))
      as [(w1 & E1 & _ & Hin1 & Hr1)|[w1 E1]];
      unfold bind at 1; rewrite E1; [|discriminate].
    destruct (recv_field_refuses 1 512 w1 n rest Hr1 Hin1 Hn) as [w2 E2];
      [lia|]. unfold bind at 1. rewrite E2. discriminate.
  - destruct (recv_field_returns 2 32 w mode _ Hrx Hin Hm ltac:(lia))
      as [(w1 & E1 & _ & Hin1 & Hr1)|[w1 E1]];
      unfold bind at 1; rewrite E1; [|discriminate].
    destruct (recv_field_returns 0 512 w1 fname _ Hr1 Hin1 Hf ltac:(lia))
      as [(w2 & E2 & _ & Hin2 & Hr2)|[w2 E2]];
      unfold bind at 1; rewrite E2; [|discriminate].
    unfold bind at 1. cbn [get].
    destruct (decide (cstr mode = bytes_of_string "upload")) as [E|_];
      [contradiction|].
    destruct (decide (cstr mode = bytes_of_string "download")) as [E|_];
      [contradiction|]. discriminate.
Qed.

End Ready.


(** ** Files *)

Section Files.

Lemma file_at_ext w w' p : fs w' = fs w -> file_at w' p = file_at w p.
Proof. intros H. unfold file_at. now rewrite H. Qed.

Lemma file_data_ext w w' p : fs w' = fs w -> file_data w' p = file_data w p.
Proof. intros H. unfold file_data. now rewrite (file_at_ext w w' p H). Qed.

Lemma can_open_ext w w' p : fs w' = fs w -> can_open w' p = can_open w p.
Proof. intros H. unfold can_open. now rewrite (file_at_ext w w' p H). Qed.

Lemma file_at_set_file_eq f d w :
  f <> [] -> file_at (set_file f d w) f = Some (Reg d).
Proof.
  intros Hf. unfold file_at, set_file. destruct f; [contradiction|].
  cbn [fs with_fs]. apply lookup_insert_eq.
Qed.

Lemma file_at_set_file_ne f p d w :
  p <> f -> file_at (set_file f d w) p = file_at w p.
Proof.
  intros Hf. unfold file_at, set_file. destruct p; [reflexivity|].
  cbn [fs with_fs]. now apply lookup_insert_ne.
Qed.

Lemma file_data_set_file_eq f d w :
  f <> [] -> file_data (set_file f d w) f = d.
Proof. intros Hf. unfold file_data. now rewrite file_at_set_file_eq. Qed.

Lemma file_data_set_file_ne f p d w :
  p <> f -> file_data (set_file f d w) p = file_data w p.
Proof. intros Hf. unfold file_data. now rewrite file_at_set_file_ne. Qed.

Lemma can_open_set_file f d w : f <> [] -> can_open (set_file f d w) f = true.
Proof. intros Hf. unfold can_open. now rewrite file_at_set_file_eq. Qed.

Lemma can_open_nonempty w f : can_open w f = true -> f <> [].
Proof. unfold can_open, file_at. destruct f; [discriminate|discriminate]. Qed.

Lemma can_open_reg w f :
  can_open w f = true -> file_at w f = Some (Reg (file_data w f)).
Proof.
  unfold can_open, file_data. destruct (file_at w f) as [[d|]|]; try discriminate.
  reflexivity.
Qed.

Lemma fopen_trunc_spec f w w1 :
  fopen_trunc f w = Some w1 -> f <> [] /\ w1 = set_file f [] w.
Proof.
  unfold fopen_trunc. destruct f as [|b f]; [discriminate|].
  destruct (file_at w (b :: f)) as [[d|]|]; try discriminate;
    destruct (faults w (OpCreate (b :: f))); try discriminate;
    intros [= <-]; split; (discriminate || reflexivity).
Qed.

Lemma length_write_at pos data old :
  (pos <= length old)%nat ->
  length (write_at pos data old) = Nat.max (length old) (pos + length data).
Proof.
  intros H. unfold write_at.
  rewrite !length_app, length_take, length_replicate, length_drop. lia.
Qed.

Lemma take_write_at n pos data old :
  (n <= pos)%nat -> (pos <= length old)%nat ->
  take n (write_at pos data old) = take n old.
Proof.
  intros Hn Hpos. unfold write_at.
  rewrite take_app_le by (rewrite length_take; lia).
  rewrite take_take. f_equal. lia.
Qed.

Lemma upload_effect_refl f w : upload_effect f w w.
Proof. split; try reflexivity. exists 0%nat. reflexivity. Qed.

Lemma upload_effect_trans f w1 w2 w3 :
  upload_effect f w1 w2 -> upload_effect f w2 w3 -> upload_effect f w1 w3.
Proof.
  intros [] []. split; try congruence.
  - destruct up_consumed0 as [n Hn], up_consumed1 as [m Hm].
    exists (n + m)%nat. rewrite Hm, Hn. apply drop_drop.
  - intros p Hp. rewrite up_others1, up_others0; auto.
Qed.

Lemma upload_effect_set_file f d w : upload_effect f w (set_file f d w).
Proof.
  split; try reflexivity.
  - exists 0%nat. reflexivity.
  - intros p Hp. cbn. now apply lookup_insert_ne.
Qed.

End Files.

(** ** server.c, [handle_upload] *)

Section HandleUpload.

Lemma keeps_prefix_trans off f w1 w2 w3 :
  keeps_prefix off f w1 w2 -> keeps_prefix off f w2 w3 ->
  keeps_prefix off f w1 w3.
Proof. intros [H1 _] [H2 H3]. split; [congruence | exact H3]. Qed.

Lemma keeps_prefix_ext off f w w' :
  fs w' = fs w -> off <= Z.of_nat (length (file_data w f)) ->
  keeps_prefix off f w w'.
Proof.
  intros H Hle. unfold keeps_prefix. now rewrite (file_data_ext w w' f H).
Qed.

Lemma upload_loop_spec script f filesize off :
  forall received w,
    f <> [] -> can_open w f = true -> 0 <= off <= received ->
    received <= Z.of_nat (length (file_data w f)) ->
    let r := Server.upload_loop script f filesize received w in
    upload_effect f w (final r) /\ keeps_prefix off f w (final r)
    /\ (forall w', r <> Fail w').
Proof.
  induction script as [|st script IH]; intros received w Hf Hopen Hoff Hlen;
    cbn [Server.upload_loop]; cbv zeta;
    destruct (Z.ltb_spec received filesize) as [Hlt|Hge];
    try (cbn [final]; split; [apply upload_effect_refl|];
         split; [apply keeps_prefix_ext; [reflexivity|lia] | discriminate]).
  set (to_read := if Server.BUF_SIZE <? filesize - received
                  then Server.BUF_SIZE else filesize - received).
  assert (Hto : 0 < to_read).
  { unfold to_read, Server.BUF_SIZE.
    destruct (Z.ltb_spec 8192 (filesize - received)); lia. }
  destruct (sys_recv st to_read (with_rx script w)) as [[n data] w1] eqn:Hrecv.
  recv_step Hrecv.
  assert (Hw1 : upload_effect f w w1).
  { split; try assumption.
    - destruct Hcase as [(_ & _ & Hinc & _)|(_ & _ & Hinc & _)].
      + exists 0%nat. now rewrite drop_0.
      + eexists. exact Hinc.
    - intros p _. now rewrite Hfs. }
  assert (Hk1 : keeps_prefix off f w w1)
    by (apply keeps_prefix_ext; [exact Hfs | lia]).
  assert (Hd1 : file_data w1 f = file_data w f) by (apply file_data_ext, Hfs).
  assert (Hrec : forall received' w2,
             upload_effect f w1 w2 -> keeps_prefix off f w1 w2 ->
             can_open w2 f = true -> off <= received' ->
             received' <= Z.of_nat (length (file_data w2 f)) ->
             let r := Server.upload_loop script f filesize received' w2 in
             upload_effect f w (final r) /\ keeps_prefix off f w (final r)
             /\ (forall w', r <> Fail w')).
  { intros received' w2 He2 Hk2 Ho2 Hr2 Hl2.
    destruct (IH received' w2 Hf Ho2 ltac:(lia) Hl2) as (He & Hk & Hnf).
    split; [|split; [|exact Hnf]].
    - eapply upload_effect_trans; [exact Hw1|].
      eapply upload_effect_trans; eassumption.
    - eapply keeps_prefix_trans; [exact Hk1|].
      eapply keeps_prefix_trans; eassumption. }
  assert (Hstop : forall v : Z,
             upload_effect f w (final (Ok v w1))
             /\ keeps_prefix off f w (final (Ok v w1))
             /\ (forall w', Ok v w1 <> Fail w')).
  { intros v. cbn [final]. repeat split; try assumption; try apply Hw1;
      try apply Hk1. discriminate. }
  destruct Hcase as [(-> & -> & Hinc & e & _ & He)
                    |(Hr & -> & Hinc & Hle & He & Hz)].
  - change (-1 <? 0) with true. cbv iota. case_decide; [|apply Hstop].
    apply Hrec; [apply upload_effect_refl | | | lia | ].
    + apply keeps_prefix_ext; [reflexivity | rewrite Hd1; lia].
    + rewrite (can_open_ext w w1 f Hfs). exact Hopen.
    + rewrite Hd1. exact Hlen.
  - destruct (Z.ltb_spec n 0); [lia|].
    destruct (Z.eqb_spec n 0); [apply Hstop|].
    rewrite Hfa. destruct (faults w (OpWrite f received)); [apply Hstop|].
    unfold fwrite. rewrite Hd1.
    set (data := take (Z.to_nat n) (incoming w)).
    assert (Hdata : length data = Z.to_nat n)
      by (unfold data; rewrite length_take; lia).
    apply Hrec.
    + apply upload_effect_set_file.
    + split; rewrite file_data_set_file_eq by exact Hf.
      * rewrite Hd1. apply take_write_at; lia.
      * rewrite length_write_at by lia. lia.
    + now apply can_open_set_file.
    + lia.
    + rewrite file_data_set_file_eq by exact Hf.
      rewrite length_write_at by lia. lia.
Qed.

(** [handle_upload] called with an offset inside the file it finds:
    whether it completes, gives up or never returns, the first [offset]
    bytes of the file stay as they were, the file is never shorter than
    [offset], no other file changes and nothing is sent. *)
Lemma handle_upload_spec f filesize offset w :
  0 <= offset <= Z.of_nat (length (file_data w f)) ->
  let r := Server.handle_upload f filesize offset w in
  upload_effect f w (final r) /\ keeps_prefix offset f w (final r)
  /\ (forall w', r <> Fail w').
Proof.
  intros Hoff. unfold Server.handle_upload. cbv zeta.
  assert (Hstop : forall (v : Z) w1,
             upload_effect f w w1 -> keeps_prefix offset f w w1 ->
             upload_effect f w (final (Ok v w1))
             /\ keeps_prefix offset f w (final (Ok v w1))
             /\ (forall w', Ok v w1 <> Fail w')).
  { intros v w1 He Hk. cbn [final]. repeat split; try apply He; try apply Hk.
    discriminate. }
  assert (Hself : keeps_prefix offset f w w)
    by (apply keeps_prefix_ext; [reflexivity | lia]).
  assert (Hgo : forall w1,
             f <> [] -> can_open w1 f = true ->
             upload_effect f w w1 -> keeps_prefix offset f w w1 ->
             offset <= Z.of_nat (length (file_data w1 f)) ->
             let r :=
               match
                 (if negb (faults w1 (OpStat f))
                     && (offset <? Z.of_nat (length (file_data w1 f)))
                  then
                    if faults w1 (OpTruncate f offset) then None
                    else Some (set_file f
                                 (take (Z.to_nat offset) (file_data w1 f)) w1)
                  else Some w1)
               with
               | None => Ok (-1) w1
               | Some w2 =>
                   if seek_fails w2 f offset then Ok (-1) w2
                   else Server.upload_loop (rx_script w2) f filesize offset w2
               end in
             upload_effect f w (final r) /\ keeps_prefix offset f w (final r)
             /\ (forall w', r <> Fail w')).
  { intros w1 Hf Hopen He Hk Hlen. cbv zeta.
    assert (Hloop : forall w2,
               can_open w2 f = true -> upload_effect f w w2 ->
               keeps_prefix offset f w w2 ->
               let r := if seek_fails w2 f offset then Ok (-1) w2
                        else Server.upload_loop (rx_script w2) f filesize
                               offset w2 in
               upload_effect f w (final r) /\ keeps_prefix offset f w (final r)
               /\ (forall w', r <> Fail w')).
    { intros w2 Ho2 He2 Hk2. cbv zeta.
      destruct (seek_fails w2 f offset); [now apply Hstop|].
      destruct (upload_loop_spec (rx_script w2) f filesize offset offset w2
                  Hf Ho2 ltac:(lia) ltac:(apply Hk2)) as (He3 & Hk3 & Hnf).
      split; [|split; [|exact Hnf]].
      - eapply upload_effect_trans; eassumption.
      - eapply keeps_prefix_trans; eassumption. }
    destruct (negb (faults w1 (OpStat f))
              && (offset <? Z.of_nat (length (file_data w1 f)))) eqn:Hcut;
      [|now apply Hloop].
    destruct (faults w1 (OpTruncate f offset)); [now apply Hstop|].
    apply Hloop.
    - now apply can_open_set_file.
    - eapply upload_effect_trans; [exact He | apply upload_effect_set_file].
    - eapply keeps_prefix_trans; [exact Hk|].
      split; rewrite file_data_set_file_eq by exact Hf.
      + now rewrite take_take, Nat.min_id.
      + rewrite length_take. lia. }
  destruct (can_open w f) eqn:Hopen.
  - apply Hgo; try assumption; [|apply upload_effect_refl|lia].
    eapply can_open_nonempty; eassumption.
  - destruct (fopen_trunc f w) as [w1|] eqn:Hcreate;
      [|apply Hstop; [apply upload_effect_refl | exact Hself]].
    apply fopen_trunc_spec in Hcreate as [Hf ->].
    assert (Hempty : file_data w f = []).
    { unfold file_data, can_open in *.
      destruct (file_at w f) as [[d|]|]; try reflexivity. discriminate. }
    assert (Hoff0 : offset = 0) by (rewrite Hempty in Hoff; cbn in Hoff; lia).
    apply Hgo.
    + exact Hf.
    + now apply can_open_set_file.
    + apply upload_effect_set_file.
    + split; rewrite file_data_set_file_eq by exact Hf.
      * subst offset. reflexivity.
      * cbn. lia.
    + rewrite file_data_set_file_eq by exact Hf. cbn. lia.
Qed.

End HandleUpload.

(** ** server.c, [handle_client] on an upload request *)

Section ServeUpload.

Lemma final_bind_ret {A} (c : M A) w :
  final (bind c (fun _ => ret tt) w) = final (c w).
Proof. unfold bind, ret. destruct (c w); reflexivity. Qed.

Lemma final_handle_client w :
  sent (final (Server.handle_client w)) = sent (final (Server.serve w))
  /\ fs (final (Server.handle_client w)) = fs (final (Server.serve w))
  /\ incoming (final (Server.handle_client w))
     = incoming (final (Server.serve w)).
Proof.
  unfold Server.handle_client. destruct (Server.serve w); repeat split.
Qed.

(** [handle_client], lines 222-226: the reply either stops the handler,
    a prefix of it sent, or is out in full before [handle_upload] runs. *)
Lemma reply_stage f size agreed h w4 :
  let r :=
    (let* r := Server.send_all (store h 8 (Server.htonll h agreed)) in
     if negb (r =? 8) then goto_exit
     else let* _ := Server.handle_upload f size agreed in ret tt) w4 in
  (fs (final r) = fs w4
   /\ (exists k, sent (final r) = sent w4 ++ take k (be_bytes 8 agreed))
   /\ incoming (final r) = incoming w4)
  \/ (exists w5,
        fs w5 = fs w4 /\ sent w5 = sent w4 ++ be_bytes 8 agreed
        /\ incoming w5 = incoming w4 /\ tx_only (be_bytes 8 agreed) w4 w5
        /\ r = bind (Server.handle_upload f size agreed) (fun _ => ret tt) w5).
Proof.
  cbv zeta. rewrite server_store_htonll.
  match goal with
  | |- context [bind ?c ?k w4] =>
      pattern (bind c k w4); match goal with |- ?P _ => set (Q := P) end
  end.
  unfold bind at 1.
  pose proof (server_send_all_spec (be_bytes 8 agreed) w4) as Hs.
  rewrite length_be_bytes in Hs.
  destruct (Server.send_all (be_bytes 8 agreed) w4) as [v w5|w5|w5];
    cbn [send_post] in Hs; [|contradiction|]; subst Q; cbv beta.
  - destruct Hs as [Htx Hv].
    destruct (Z.eqb_spec v 8) as [->|Hv8]; cbn [negb]; unfold goto_exit;
      cbn [final].
    + right. exists w5. destruct Hv as [[_ Hs5]|Hv]; [|lia].
      split; [apply Htx|]. split; [exact Hs5|]. split; [apply Htx|].
      split; [exact Htx | reflexivity].
    + left. destruct Htx. repeat split; assumption.
  - destruct Hs as [[] _]. left. cbn [final]. repeat split; assumption.
Qed.

(** The two ways an upload request can go: the handler stops before the
    reply is complete, having sent a prefix of it, read no file byte and
    touched no file; or the whole reply is out and [handle_upload] runs
    from there. *)
Lemma serve_upload_cases w mode fname size rest :
  upload_request w mode fname size rest ->
  let f := cstr fname in
  let agreed := Z.min (Z.of_nat (length (file_data w f))) size in
  let reply := be_bytes 8 agreed in
  (fs (final (Server.serve w)) = fs w
   /\ (exists k, sent (final (Server.serve w)) = sent w ++ take k reply)
   /\ (length rest <= length (incoming (final (Server.serve w))))%nat)
  \/ (exists w3,
        fs w3 = fs w /\ sent w3 = sent w ++ reply /\ incoming w3 = rest
        /\ Server.serve w
           = bind (Server.handle_upload f size agreed) (fun _ => ret tt) w3).
Proof.
  intros (Hin & Hmode & Hm & Hf & Hsize). cbv zeta.
  set (f := cstr fname).
  set (agreed := Z.min (Z.of_nat (length (file_data w f))) size).
  pattern (Server.serve w).
  match goal with |- ?P _ => set (Q := P) end.
  assert (Hstop : forall (r : res unit),
             rx_only w (final r) ->
             (length rest <= length (incoming (final r)))%nat -> Q r).
  { intros r [] Hl. subst Q. cbv beta. left. split; [assumption|].
    split; [|exact Hl]. exists 0%nat. now rewrite take_0, app_nil_r. }
  unfold Server.serve.
  unfold bind at 1.
  pose proof (recv_field_framed 32 w mode _ Hin ltac:(lia)) as H1.
  destruct (Server.recv_field 32 w) as [buf w1|w1|w1];
    try (destruct H1 as [H1 Hl1]; apply Hstop; [exact H1|];
         cbn [final]; rewrite !length_app in Hl1; lia).
  destruct H1 as (Hfr1 & _ & -> & Hin1).
  unfold bind at 1.
  pose proof (recv_field_framed 512 w1 fname _ Hin1 ltac:(lia)) as H2.
  destruct (Server.recv_field 512 w1) as [buf w2|w2|w2];
    try (destruct H2 as [H2 Hl2];
         apply Hstop; [eapply rx_only_trans; eassumption|];
         cbn [final]; rewrite !length_app in Hl2; lia).
  destruct H2 as (Hfr2 & _ & -> & Hin2).
  assert (Hfr12 : rx_only w w2) by (eapply rx_only_trans; eassumption).
  unfold bind at 1. cbn [get].
  destruct (decide (cstr mode = bytes_of_string "upload")) as [_|Hne];
    [|contradiction].
  unfold bind at 1.
  pose proof (server_recv_all_inv 8 w2 ltac:(lia)) as H3.
  change (Z.to_nat 8) with 8%nat in H3.
  assert (Hl2 : length (incoming w2) = (8 + length rest)%nat)
    by (rewrite Hin2, length_app, length_be_bytes; reflexivity).
  destruct (Server.recv_all 8 w2) as [[r b] w3|w3|w3]; [|contradiction|].
  2:{ destruct H3 as [H3 Hl3].
      apply Hstop; [eapply rx_only_trans; eassumption | cbn [final]; lia]. }
  destruct H3 as (Hfr3 & Hl3 & H3).
  assert (Hfr13 : rx_only w w3) by (eapply rx_only_trans; eassumption).
  destruct (Z.eqb_spec r 8) as [->|Hr]; cbn [negb];
    [|apply Hstop; unfold goto_exit; cbn [final]; [exact Hfr13 | lia]].
  destruct (H3 eq_refl) as (-> & _ & Hin3).
  rewrite Hin2, take_be_bytes_app. rewrite Hin2, drop_be_bytes_app in Hin3.
  rewrite server_ntohll_load by exact Hsize.
  unfold bind at 1. unfold Server.existing_size, sys_stat.
  assert (Hfs3 : fs w3 = fs w) by apply Hfr13.
  change (cstr fname) with f.
  rewrite (file_at_ext w w3 f Hfs3).
  assert (Hreply : forall w4,
             fs w4 = fs w -> sent w4 = sent w -> incoming w4 = rest ->
             Q ((let* r := Server.send_all
                             (store (host w2) 8 (Server.htonll (host w2) agreed))
                 in if negb (r =? 8) then goto_exit
                    else let* _ := Server.handle_upload f size agreed in ret tt)
                  w4)).
  { intros w4 Hfs4 Hsent4 Hin4.
    destruct (reply_stage f size agreed (host w2) w4)
      as [(Hfs5 & [k Hk] & Hin5)|(w5 & Hfs5 & Hs5 & Hin5 & _ & Hrun)];
      subst Q; cbv beta.
    - left. split; [congruence|]. split; [exists k; congruence|].
      rewrite Hin5, Hin4. lia.
    - right. exists w5. repeat split; congruence. }
  assert (Hmin : forall d, file_data w f = d ->
             (if size <? Z.of_nat (length d) then size else Z.of_nat (length d))
             = agreed).
  { intros d <-. unfold agreed.
    destruct (Z.ltb_spec size (Z.of_nat (length (file_data w f)))); lia. }
  unfold file_data in Hmin.
  destruct (file_at w f) as [[d|]|] eqn:Hat.
  - rewrite (Hmin d eq_refl). apply Hreply; [exact Hfs3 | apply Hfr13 | exact Hin3].
  - destruct (decide (EACCES = ENOENT)); [discriminate|].
    apply Hstop; cbn [final incoming with_errno]; [|rewrite Hin3; lia].
    destruct Hfr13. split; assumption.
  - destruct (decide (ENOENT = ENOENT)) as [_|Hne]; [|contradiction].
    pose proof (Hmin [] eq_refl) as Hmin0.
    change (Z.of_nat (length (@nil Z))) with 0 in Hmin0.
    rewrite Hmin0.
    apply Hreply; cbn [fs sent incoming with_errno];
      [exact Hfs3 | apply Hfr13 | exact Hin3].
Qed.

(** On a connection that delivers the request and takes the reply,
    the second way is the one taken. *)
Lemma serve_upload_ready w mode fname size rest :
  upload_request w mode fname size rest ->
  file_at w (cstr fname) <> Some Denied ->
  rx_ready 5 w -> tx_ready 1 w ->
  let f := cstr fname in
  let agreed := Z.min (Z.of_nat (length (file_data w f))) size in
  exists w3,
    fs w3 = fs w /\ sent w3 = sent w ++ be_bytes 8 agreed /\ incoming w3 = rest
    /\ Server.serve w
       = bind (Server.handle_upload f size agreed) (fun _ => ret tt) w3.
Proof.
  intros (Hin & Hmode & Hm & Hf & Hsize) Hden Hrx Htx. cbv zeta.
  set (f := cstr fname) in *.
  set (agreed := Z.min (Z.of_nat (length (file_data w f))) size).
  unfold Server.serve.
  destruct (recv_field_ready 3 32 w mode _ Hrx Hin Hm ltac:(lia))
    as (w1 & E1 & Hfr1 & Hin1 & Hr1).
  unfold bind at 1. rewrite E1.
  destruct (recv_field_ready 1 512 w1 fname _ Hr1 Hin1 Hf ltac:(lia))
    as (w2 & E2 & Hfr2 & Hin2 & Hr2).
  unfold bind at 1. rewrite E2.
  unfold bind at 1. cbn [get].
  destruct (decide (cstr mode = bytes_of_string "upload")) as [_|Hne];
    [|contradiction].
  assert (Hl2 : (Z.to_nat 8 <= length (incoming w2))%nat).
  { rewrite Hin2, length_app, length_be_bytes. lia. }
  destruct (server_recv_all_ready 0 8 w2 Hr2 ltac:(lia) Hl2)
    as (w3 & E3 & Hfr3 & Hin3 & _).
  unfold bind at 1. rewrite E3. cbn [negb Z.eqb Pos.eqb].
  change (Z.to_nat 8) with 8%nat in *.
  rewrite Hin2, take_be_bytes_app. rewrite Hin2, drop_be_bytes_app in Hin3.
  rewrite server_ntohll_load by exact Hsize.
  assert (Hfr13 : rx_only w w3).
  { eapply rx_only_trans; [|exact Hfr3]. eapply rx_only_trans; eassumption. }
  assert (Hfs3 : fs w3 = fs w) by apply Hfr13.
  unfold bind at 1. unfold Server.existing_size, sys_stat.
  change (cstr fname) with f. rewrite (file_at_ext w w3 f Hfs3).
  assert (Hreply : forall w4,
             fs w4 = fs w -> sent w4 = sent w -> incoming w4 = rest ->
             tx_script w4 = tx_script w ->
             exists w5,
               fs w5 = fs w /\ sent w5 = sent w ++ be_bytes 8 agreed
               /\ incoming w5 = rest
               /\ (let* r := Server.send_all
                               (store (host w2) 8
                                  (Server.htonll (host w2) agreed))
                   in if negb (r =? 8) then goto_exit
                      else let* _ := Server.handle_upload f size agreed
                           in ret tt) w4
                  = bind (Server.handle_upload f size agreed)
                         (fun _ => ret tt) w5).
  { intros w4 Hfs4 Hsent4 Hin4 Htx4.
    rewrite server_store_htonll.
    destruct (server_send_all_ready 0 (be_bytes 8 agreed) w4)
      as (w5 & E5 & Htx5 & Hs5 & _).
    - eapply tx_ready_ext; eassumption.
    - rewrite length_be_bytes. lia.
    - rewrite length_be_bytes in E5. exists w5.
      destruct Htx5. repeat split; try congruence.
      unfold bind at 1. rewrite E5. reflexivity. }
  assert (Hmin : forall d, file_data w f = d ->
             (if size <? Z.of_nat (length d) then size else Z.of_nat (length d))
             = agreed).
  { intros d <-. unfold agreed.
    destruct (Z.ltb_spec size (Z.of_nat (length (file_data w f)))); lia. }
  unfold file_data in Hmin.
  destruct (file_at w f) as [[d|]|] eqn:Hat; [|contradiction|].
  - rewrite (Hmin d eq_refl).
    apply Hreply; [exact Hfs3 | apply Hfr13 | exact Hin3 | apply Hfr13].
  - destruct (decide (ENOENT = ENOENT)) as [_|Hne]; [|contradiction].
    pose proof (Hmin [] eq_refl) as Hmin0.
    change (Z.of_nat (length (@nil Z))) with 0 in Hmin0.
    rewrite Hmin0.
    apply Hreply; cbn [fs sent incoming tx_script with_errno];
      [exact Hfs3 | apply Hfr13 | exact Hin3 | apply Hfr13].
Qed.

End ServeUpload.

(** ** server.c, [handle_client] through an upload *)

Section ServerUploadSession.

(** [serve_upload_ready], with what is left of the receive script. *)
Lemma serve_upload_ready_more n w mode fname size rest :
  upload_request w mode fname size rest ->
  file_at w (cstr fname) <> Some Denied ->
  rx_ready (5 + n) w -> tx_ready 1 w ->
  let f := cstr fname in
  let agreed := Z.min (Z.of_nat (length (file_data w f))) size in
  exists w3,
    fs w3 = fs w /\ faults w3 = faults w
    /\ sent w3 = sent w ++ be_bytes 8 agreed /\ incoming w3 = rest
    /\ rx_ready n w3
    /\ Server.serve w
       = bind (Server.handle_upload f size agreed) (fun _ => ret tt) w3.
Proof.
  intros (Hin & Hmode & Hm & Hf & Hsize) Hden Hrx Htx. cbv zeta.
  set (f := cstr fname) in *.
  set (agreed := Z.min (Z.of_nat (length (file_data w f))) size).
  unfold Server.serve.
  destruct (recv_field_ready (3 + n) 32 w mode _ Hrx Hin Hm ltac:(lia))
    as (w1 & E1 & Hfr1 & Hin1 & Hr1).
  unfold bind at 1. rewrite E1.
  destruct (recv_field_ready (1 + n) 512 w1 fname _ Hr1 Hin1 Hf ltac:(lia))
    as (w2 & E2 & Hfr2 & Hin2 & Hr2).
  unfold bind at 1. rewrite E2.
  unfold bind at 1. cbn [get].
  destruct (decide (cstr mode = bytes_of_string "upload")) as [_|Hne];
    [|contradiction].
  assert (Hl2 : (Z.to_nat 8 <= length (incoming w2))%nat).
  { rewrite Hin2, length_app, length_be_bytes. lia. }
  destruct (server_recv_all_ready n 8 w2 Hr2 ltac:(lia) Hl2)
    as (w3 & E3 & Hfr3 & Hin3 & Hr3).
  unfold bind at 1. rewrite E3. cbn [negb Z.eqb Pos.eqb].
  change (Z.to_nat 8) with 8%nat in *.
  rewrite Hin2, take_be_bytes_app. rewrite Hin2, drop_be_bytes_app in Hin3.
  rewrite server_ntohll_load by exact Hsize.
  assert (Hfr13 : rx_only w w3).
  { eapply rx_only_trans; [|exact Hfr3]. eapply rx_only_trans; eassumption. }
  assert (Hfs3 : fs w3 = fs w) by apply Hfr13.
  unfold bind at 1. unfold Server.existing_size, sys_stat.
  change (cstr fname) with f. rewrite (file_at_ext w w3 f Hfs3).
  assert (Hreply : forall w4,
             fs w4 = fs w -> faults w4 = faults w ->
             sent w4 = sent w -> incoming w4 = rest ->
             tx_script w4 = tx_script w -> rx_script w4 = rx_script w3 ->
             exists w5,
               fs w5 = fs w /\ faults w5 = faults w
               /\ sent w5 = sent w ++ be_bytes 8 agreed
               /\ incoming w5 = rest /\ rx_ready n w5
               /\ (let* r := Server.send_all
                               (store (host w2) 8
                                  (Server.htonll (host w2) agreed))
                   in if negb (r =? 8) then goto_exit
                      else let* _ := Server.handle_upload f size agreed
                           in ret tt) w4
                  = bind (Server.handle_upload f size agreed)
                         (fun _ => ret tt) w5).
  { intros w4 Hfs4 Hfa4 Hsent4 Hin4 Htx4 Hrx4.
    rewrite server_store_htonll.
    destruct (server_send_all_ready 0 (be_bytes 8 agreed) w4)
      as (w5 & E5 & Htx5 & Hs5 & _).
    - eapply tx_ready_ext; eassumption.
    - rewrite length_be_bytes. lia.
    - rewrite length_be_bytes in E5. exists w5.
      assert (Hr5 : rx_ready n w5).
      { eapply rx_ready_ext; [|exact Hr3]. destruct Htx5. congruence. }
      destruct Htx5. repeat split; try congruence.
      unfold bind at 1. rewrite E5. reflexivity. }
  assert (Hmin : forall d, file_data w f = d ->
             (if size <? Z.of_nat (length d) then size else Z.of_nat (length d))
             = agreed).
  { intros d <-. unfold agreed.
    destruct (Z.ltb_spec size (Z.of_nat (length (file_data w f)))); lia. }
  unfold file_data in Hmin.
  destruct (file_at w f) as [[d|]|] eqn:Hat; [|contradiction|].
  - rewrite (Hmin d eq_refl).
    apply Hreply; [exact Hfs3 | apply Hfr13 | apply Hfr13 | exact Hin3
                  | apply Hfr13 | reflexivity].
  - destruct (decide (ENOENT = ENOENT)) as [_|Hne]; [|contradiction].
    pose proof (Hmin [] eq_refl) as Hmin0.
    change (Z.of_nat (length (@nil Z))) with 0 in Hmin0.
    rewrite Hmin0.
    apply Hreply; cbn [fs faults sent incoming tx_script rx_script with_errno];
      [exact Hfs3 | apply Hfr13 | apply Hfr13 | exact Hin3 | apply Hfr13
      | reflexivity].
Qed.

(** [serve_upload_cases], with the storage oracle. *)
Lemma serve_upload_cases_faults w mode fname size rest :
  upload_request w mode fname size rest ->
  let f := cstr fname in
  let agreed := Z.min (Z.of_nat (length (file_data w f))) size in
  let reply := be_bytes 8 agreed in
  (fs (final (Server.serve w)) = fs w
   /\ (exists k, sent (final (Server.serve w)) = sent w ++ take k reply)
   /\ (length rest <= length (incoming (final (Server.serve w))))%nat)
  \/ (exists w3,
        fs w3 = fs w /\ faults w3 = faults w
        /\ sent w3 = sent w ++ reply /\ incoming w3 = rest
        /\ Server.serve w
           = bind (Server.handle_upload f size agreed) (fun _ => ret tt) w3).
Proof.
  intros (Hin & Hmode & Hm & Hf & Hsize). cbv zeta.
  set (f := cstr fname).
  set (agreed := Z.min (Z.of_nat (length (file_data w f))) size).
  pattern (Server.serve w).
  match goal with |- ?P _ => set (Q := P) end.
  assert (Hstop : forall (r : res unit),
             rx_only w (final r) ->
             (length rest <= length (incoming (final r)))%nat -> Q r).
  { intros r [] Hl. subst Q. cbv beta. left. split; [assumption|].
    split; [|exact Hl]. exists 0%nat. now rewrite take_0, app_nil_r. }
  unfold Server.serve.
  unfold bind at 1.
  pose proof (recv_field_framed 32 w mode _ Hin ltac:(lia)) as H1.
  destruct (Server.recv_field 32 w) as [buf w1|w1|w1];
    try (destruct H1 as [H1 Hl1]; apply Hstop; [exact H1|];
         cbn [final]; rewrite !length_app in Hl1; lia).
  destruct H1 as (Hfr1 & _ & -> & Hin1).
  unfold bind at 1.
  pose proof (recv_field_framed 512 w1 fname _ Hin1 ltac:(lia)) as H2.
  destruct (Server.recv_field 512 w1) as [buf w2|w2|w2];
    try (destruct H2 as [H2 Hl2];
         apply Hstop; [eapply rx_only_trans; eassumption|];
         cbn [final]; rewrite !length_app in Hl2; lia).
  destruct H2 as (Hfr2 & _ & -> & Hin2).
  assert (Hfr12 : rx_only w w2) by (eapply rx_only_trans; eassumption).
  unfold bind at 1. cbn [get].
  destruct (decide (cstr mode = bytes_of_string "upload")) as [_|Hne];
    [|contradiction].
  unfold bind at 1.
  pose proof (server_recv_all_inv 8 w2 ltac:(lia)) as H3.
  change (Z.to_nat 8) with 8%nat in H3.
  assert (Hl2 : length (incoming w2) = (8 + length rest)%nat)
    by (rewrite Hin2, length_app, length_be_bytes; reflexivity).
  destruct (Server.recv_all 8 w2) as [[r b] w3|w3|w3]; [|contradiction|].
  2:{ destruct H3 as [H3 Hl3].
      apply Hstop; [eapply rx_only_trans; eassumption | cbn [final]; lia]. }
  destruct H3 as (Hfr3 & Hl3 & H3).
  assert (Hfr13 : rx_only w w3) by (eapply rx_only_trans; eassumption).
  destruct (Z.eqb_spec r 8) as [->|Hr]; cbn [negb];
    [|apply Hstop; unfold goto_exit; cbn [final]; [exact Hfr13 | lia]].
  destruct (H3 eq_refl) as (-> & _ & Hin3).
  rewrite Hin2, take_be_bytes_app. rewrite Hin2, drop_be_bytes_app in Hin3.
  rewrite server_ntohll_load by exact Hsize.
  unfold bind at 1. unfold Server.existing_size, sys_stat.
  assert (Hfs3 : fs w3 = fs w) by apply Hfr13.
  change (cstr fname) with f.
  rewrite (file_at_ext w w3 f Hfs3).
  assert (Hreply : forall w4,
             fs w4 = fs w -> faults w4 = faults w ->
             sent w4 = sent w -> incoming w4 = rest ->
             Q ((let* r := Server.send_all
                             (store (host w2) 8 (Server.htonll (host w2) agreed))
                 in if negb (r =? 8) then goto_exit
                    else let* _ := Server.handle_upload f size agreed in ret tt)
                  w4)).
  { intros w4 Hfs4 Hfa4 Hsent4 Hin4.
    destruct (reply_stage f size agreed (host w2) w4)
      as [(Hfs5 & [k Hk] & Hin5)|(w5 & Hfs5 & Hs5 & Hin5 & Htx5 & Hrun)];
      subst Q; cbv beta.
    - left. split; [congruence|]. split; [exists k; congruence|].
      rewrite Hin5, Hin4. lia.
    - right. exists w5. destruct Htx5. repeat split; congruence. }
  assert (Hmin : forall d, file_data w f = d ->
             (if size <? Z.of_nat (length d) then size else Z.of_nat (length d))
             = agreed).
  { intros d <-. unfold agreed.
    destruct (Z.ltb_spec size (Z.of_nat (length (file_data w f)))); lia. }
  unfold file_data in Hmin.
  destruct (file_at w f) as [[d|]|] eqn:Hat.
  - rewrite (Hmin d eq_refl).
    apply Hreply; [exact Hfs3 | apply Hfr13 | apply Hfr13 | exact Hin3].
  - destruct (decide (EACCES = ENOENT)); [discriminate|].
    apply Hstop; cbn [final incoming with_errno]; [|rewrite Hin3; lia].
    destruct Hfr13. split; assumption.
  - destruct (decide (ENOENT = ENOENT)) as [_|Hne]; [|contradiction].
    pose proof (Hmin [] eq_refl) as Hmin0.
    change (Z.of_nat (length (@nil Z))) with 0 in Hmin0.
    rewrite Hmin0.
    apply Hreply; cbn [fs faults sent incoming with_errno];
      [exact Hfs3 | apply Hfr13 | apply Hfr13 | exact Hin3].
Qed.

End ServerUploadSession.

Lemma connection_rx_ready files bytes n :
  (n <= 16)%nat -> rx_ready n (connection files bytes).
Proof.
  intros Hn. exists (repeat 8192%positive n), (repeat (RxAvail 8192) (16 - n)).
  split; [|split].
  - cbn [rx_script connection]. rewrite map_repeat, <- repeat_app.
    f_equal. lia.
  - apply repeat_length.
  - apply List.Forall_forall. intros k Hk. apply repeat_spec in Hk. subst. lia.
Qed.

Lemma connection_tx_ready files bytes n :
  (n <= 16)%nat -> tx_ready n (connection files bytes).
Proof.
  intros Hn.
  exists (repeat (Z.to_nat 8192) n), (repeat (TxRoom (Z.to_nat 8192)) (16 - n)).
  split; [|split].
  - cbn [tx_script connection]. rewrite map_repeat, <- repeat_app.
    f_equal. lia.
  - apply repeat_length.
  - apply List.Forall_forall. intros k Hk. apply repeat_spec in Hk. subst. lia.
Qed.

Lemma upload_request_final w mode fname size rest :
  upload_request w mode fname size rest ->
  let f := cstr fname in
  let agreed := Z.min (Z.of_nat (length (file_data w f))) size in
  forall w3,
    fs w3 = fs w -> sent w3 = sent w ++ be_bytes 8 agreed ->
    Server.serve w
    = bind (Server.handle_upload f size agreed) (fun _ => ret tt) w3 ->
    sent (final (Server.serve w)) = sent w ++ be_bytes 8 agreed
    /\ keeps_prefix agreed f w (final (Server.serve w)).
Proof.
  intros (_ & _ & _ & _ & Hsize) f agreed w3 Hfs3 Hs3 Hrun.
  rewrite Hrun, final_bind_ret.
  assert (Hd : file_data w3 f = file_data w f) by now apply file_data_ext.
  destruct (handle_upload_spec f size agreed w3) as (He & Hk & _).
  { rewrite Hd. unfold agreed. lia. }
  split.
  - destruct He. congruence.
  - unfold keeps_prefix in *. now rewrite Hd in Hk.
Qed.

(** C9, as the code has it.  A connection whose mode length prefix is 0
    or at least 32, or whose file-name length prefix is 0 or at least
    512, or whose mode, read up to its first NUL byte, is neither
    "upload" nor "download", is dropped: the server sends no reply and
    changes no file, however the handler ends; when it returns it has
    closed the socket; and it does return, given the four [recv] calls
    the two fields may take. *)
Theorem malformed_request_dropped :
  forall w, malformed_request w ->
    let r := Server.handle_client w in
    sent (final r) = sent w /\ fs (final r) = fs w
    /\ (forall u w', r = Ok u w' -> closed w' = true)
    /\ (forall w', r <> Fail w')
    /\ (rx_ready 4 w ->
        exists w', r = Ok tt w' /\ closed w' = true
                   /\ sent w' = sent w /\ fs w' = fs w).
Proof.
  intros w Hbad. pose proof (serve_malformed w Hbad) as Hfr.
  pose proof (serve_malformed_returns w Hbad) as Hret.
  unfold Server.handle_client. cbv zeta.
  destruct (Server.serve w) as [u w'|w'|w']; cbn [final] in Hfr |- *;
    destruct Hfr as [_ Hfs _ _ Hs _ _]; cbn [close sent fs].
  - repeat split; try assumption; try discriminate.
    + intros ? ? [= <- <-]. reflexivity.
    + intros _. exists (close w'). repeat split; assumption.
  - repeat split; try assumption; try discriminate.
    + intros ? ? [= <- <-]. reflexivity.
    + intros _. exists (close w'). repeat split; assumption.
  - repeat split; try assumption; try discriminate.
    intros Hrx. now destruct (Hret Hrx w').
Qed.

Lemma malformed_request_dropped_witness :
  malformed_request unknown_mode_request
  /\ exists w',
       Server.handle_client unknown_mode_request = Ok tt w'
       /\ closed w' = true /\ sent w' = []
       /\ fs w' = {[ bytes_of_string "f" := Reg [1; 2; 3] ]}.
Proof.
  assert (H : malformed_request unknown_mode_request).
  { right; right.
    exists (bytes_of_string "delete"), (bytes_of_string "f"), [].
    split; [reflexivity|]. split; [vm_compute; reflexivity|].
    split; [vm_compute; reflexivity|]. split; discriminate. }
  split; [exact H|].
  refine (proj2 (proj2 (proj2 (proj2
            (malformed_request_dropped unknown_mode_request H)))) _).
  apply connection_rx_ready. lia.
Defined.

(** C9, as stated, fails: seven mode bytes "upload" plus a NUL are
    neither "upload" nor "download", yet [strcmp] takes them for
    "upload" and the server answers with an agreed offset. *)
Lemma nul_terminated_mode_is_served :
  bytes_of_string "upload" ++ [0] <> bytes_of_string "upload"
  /\ bytes_of_string "upload" ++ [0] <> bytes_of_string "download"
  /\ incoming upload_nul_request
     = field (bytes_of_string "upload" ++ [0]) ++ field (bytes_of_string "f")
       ++ be_bytes 8 0
  /\ sent (final (Server.handle_client upload_nul_request)) = be_bytes 8 0
  /\ sent (final (Server.handle_client upload_nul_request))
     <> sent upload_nul_request.
Proof.
  split; [discriminate|]. split; [discriminate|]. split; [reflexivity|].
  assert (H : sent (final (Server.handle_client upload_nul_request))
              = be_bytes 8 0) by (vm_compute; reflexivity).
  split; [exact H|]. rewrite H. discriminate.
Qed.

(** C2.  For an upload request with declared size [size], the server
    holding [existing] bytes of the named file (0 when there is none),
    the only bytes the server ever sends are the eight bytes of
    [min existing size]: what it has sent is always a prefix of them; the
    whole of them is out before it reads a byte of the file data that
    follows the request or touches a file; and on a connection that
    delivers the request and takes the reply they are sent. *)
Theorem upload_reply_is_agreed_offset :
  forall w mode fname size rest,
    upload_request w mode fname size rest ->
    let f := cstr fname in
    let existing := Z.of_nat (length (file_data w f)) in
    let reply := be_bytes 8 (Z.min existing size) in
    let r := Server.handle_client w in
    (exists k, sent (final r) = sent w ++ take k reply)
    /\ ((length (incoming (final r)) < length rest)%nat \/ fs (final r) <> fs w ->
        sent (final r) = sent w ++ reply)
    /\ (file_at w f <> Some Denied -> rx_ready 5 w -> tx_ready 1 w ->
        sent (final r) = sent w ++ reply).
Proof.
  intros w mode fname size rest Hreq. cbv zeta.
  destruct (final_handle_client w) as (-> & -> & ->).
  split; [|split].
  - destruct (serve_upload_cases w mode fname size rest Hreq)
      as [(_ & Hk & _)|(w3 & Hfs3 & Hs3 & _ & Hrun)]; [exact Hk|].
    destruct (upload_request_final w mode fname size rest Hreq w3 Hfs3 Hs3 Hrun)
      as [Hs _].
    exists 8%nat. rewrite Hs, take_ge by (rewrite length_be_bytes; lia).
    reflexivity.
  - intros Hmoved.
    destruct (serve_upload_cases w mode fname size rest Hreq)
      as [(Hfs & _ & Hl)|(w3 & Hfs3 & Hs3 & _ & Hrun)].
    + destruct Hmoved as [Hlt|Hne]; [lia | contradiction].
    + apply (upload_request_final w mode fname size rest Hreq w3 Hfs3 Hs3 Hrun).
  - intros Hden Hrx Htx.
    destruct (serve_upload_ready w mode fname size rest Hreq Hden Hrx Htx)
      as (w3 & Hfs3 & Hs3 & _ & Hrun).
    apply (upload_request_final w mode fname size rest Hreq w3 Hfs3 Hs3 Hrun).
Qed.

Lemma fresh_upload_request :
  upload_request fresh_upload (bytes_of_string "upload") (bytes_of_string "f")
    3 [7; 8; 9].
Proof.
  split; [reflexivity|]. split; [reflexivity|]. cbn. lia.
Qed.

Lemma upload_reply_is_agreed_offset_witness :
  sent (final (Server.handle_client fresh_upload)) = [] ++ be_bytes 8 0.
Proof.
  refine (proj2 (proj2 (upload_reply_is_agreed_offset fresh_upload _ _ _ _
                          fresh_upload_request)) _ _ _).
  - discriminate.
  - apply connection_rx_ready. lia.
  - apply connection_tx_ready. lia.
Defined.




(** ** server.c, [handle_download] *)

Section HandleDownload.

Lemma concat_chunks_aux fuel n l :
  (0 < n)%nat -> (length l <= fuel)%nat -> concat (chunks_aux fuel n l) = l.
Proof.
  intros Hn. revert l. induction fuel as [|fuel IH]; intros l Hl.
  - destruct l; [reflexivity | cbn in Hl; lia].
  - destruct l as [|x l]; [reflexivity|].
    cbn [chunks_aux concat]. rewrite IH.
    + apply take_drop.
    + rewrite length_drop. cbn [length] in *. lia.
Qed.

Lemma concat_chunks n l : (0 < n)%nat -> concat (chunks n l) = l.
Proof. intros Hn. now apply concat_chunks_aux. Qed.

Lemma chunks_aux_bounded fuel n l :
  Forall (fun c => (length c <= n)%nat) (chunks_aux fuel n l).
Proof.
  revert l. induction fuel as [|fuel IH]; intros l; [constructor|].
  destruct l as [|x l]; [constructor|]. cbn [chunks_aux].
  constructor; [rewrite length_take; lia | apply IH].
Qed.

Lemma sent_prefix_app_l (base out A B : list Z) k :
  out = base ++ take k A -> exists k', out = base ++ take k' (A ++ B).
Proof.
  intros ->. exists (Nat.min k (length A)). f_equal.
  rewrite take_app_le by lia. destruct (Nat.le_gt_cases k (length A)).
  - now rewrite Nat.min_l.
  - rewrite Nat.min_r by lia. now rewrite !take_ge by lia.
Qed.

Lemma sent_prefix_app_r (base out A B : list Z) k :
  out = (base ++ A) ++ take k B -> exists k', out = base ++ take k' (A ++ B).
Proof.
  intros ->. exists (length A + k)%nat. rewrite <- app_assoc. f_equal.
  now rewrite take_app_add.
Qed.

(** The streaming loop sends the chunks in order and nothing else. *)
Lemma download_loop_spec f cs :
  forall pos w,
    let r := Server.download_loop cs f pos w in
    (exists k, sent (final r) = sent w ++ take k (concat cs))
    /\ fs (final r) = fs w
    /\ (forall w', r = Ok 0 w' -> sent w' = sent w ++ concat cs)
    /\ (forall w', r <> Fail w').
Proof.
  induction cs as [|c cs IH]; intros pos w; cbn [Server.download_loop]; cbv zeta.
  - destruct (faults w (OpRead f pos)); cbn [final concat];
      (split; [exists 0%nat; now rewrite app_nil_r|]);
      (split; [reflexivity|]); (split; [|discriminate]).
    + intros w' [=].
    + intros w' [= <-]. now rewrite app_nil_r.
  - assert (Hhere : forall (v : Z) w1,
               tx_only c w w1 -> v <> 0 ->
               (exists k, sent (final (Ok v w1)) = sent w ++ take k (concat (c :: cs)))
               /\ fs (final (Ok v w1)) = fs w
               /\ (forall w', Ok v w1 = Ok 0 w' ->
                              sent w' = sent w ++ concat (c :: cs))
               /\ (forall w', Ok v w1 <> Fail w')).
    { intros v w1 [? ? ? ? ? ? [k Hk]] Hv. cbn [final concat].
      split; [eapply sent_prefix_app_l; exact Hk|]. split; [assumption|].
      split; [|discriminate]. intros w' [= E]. contradiction. }
    destruct (faults w (OpRead f pos)) eqn:Hfault.
    { apply Hhere; [apply tx_only_refl | lia]. }
    pose proof (server_send_all_spec c w) as Hs.
    destruct (Server.send_all c w) as [v w1|w1|w1]; cbn [send_post] in Hs;
      [|contradiction|].
    + destruct Hs as [Htx Hv].
      destruct (Z.eqb_spec v (Z.of_nat (length c))) as [->|Hne];
        [|apply Hhere; [exact Htx | lia]].
      destruct Hv as [[_ Hs1]|Hv]; [|lia].
      specialize (IH (pos + Z.of_nat (length c)) w1). cbv zeta in IH.
      destruct IH as ([k Hk] & Hfs & Hok & Hnf). cbn [concat].
      split; [|split; [|split; [|exact Hnf]]].
      * eapply sent_prefix_app_r. rewrite Hk, Hs1. reflexivity.
      * rewrite Hfs. apply Htx.
      * intros w' Hw'. rewrite (Hok w' Hw'), Hs1. now rewrite app_assoc.
    + destruct Hs as [[? ? ? ? ? ? [k Hk]] _]. cbn [final concat].
      split; [eapply sent_prefix_app_l; exact Hk|]. split; [assumption|].
      split; [intros w' [=] | discriminate].
Qed.

(** With room for every chunk and no read error the loop completes. *)
Lemma download_loop_ready f cs :
  forall pos w,
    tx_ready (length cs) w ->
    Forall (fun c => Z.of_nat (length c) <= 8192) cs ->
    (forall op, faults w op = false) ->
    exists w', Server.download_loop cs f pos w = Ok 0 w'.
Proof.
  induction cs as [|c cs IH]; intros pos w Htx Hall Hnf;
    cbn [Server.download_loop]; rewrite Hnf.
  - exists w. reflexivity.
  - apply Forall_cons in Hall as [Hc Hall].
    destruct (server_send_all_ready (length cs) c w Htx Hc)
      as (w1 & -> & Hfr & _ & Htx1).
    rewrite Z.eqb_refl. apply IH; [exact Htx1 | exact Hall|].
    intros op. destruct Hfr. now rewrite tx_faults0.
Qed.

Lemma file_data_reg w f data :
  file_at w f = Some (Reg data) -> file_data w f = data /\ can_open w f = true.
Proof. intros H. unfold file_data, can_open. now rewrite H. Qed.

Lemma off_t_small x : 0 <= x < 2 ^ 63 -> (off_t x <? 0) = false.
Proof.
  intros H. unfold off_t. destruct (Z.ltb_spec x (2 ^ 63)); [|lia].
  apply Z.ltb_ge. lia.
Qed.

Lemma handle_download_safe w f data L :
  file_at w f = Some (Reg data) ->
  let F := Z.of_nat (length data) in
  let off := Z.min L F in
  let stream := be_bytes 8 F ++ be_bytes 8 off ++ drop (Z.to_nat off) data in
  let r := Server.handle_download f L w in
  (exists k, sent (final r) = sent w ++ take k stream)
  /\ fs (final r) = fs w
  /\ (forall w', r = Ok 0 w' -> sent w' = sent w ++ stream)
  /\ (forall w', r <> Fail w').
Proof.
  intros Hat. cbv zeta. destruct (file_data_reg w f data Hat) as [Hd Hopen].
  set (F := Z.of_nat (length data)). set (off := Z.min L F).
  set (stream := be_bytes 8 F ++ be_bytes 8 off ++ drop (Z.to_nat off) data).
  pattern (Server.handle_download f L w).
  match goal with |- ?P _ => set (Q := P) end.
  assert (Hstop : forall (v : Z) w1 k,
             v <> 0 -> fs w1 = fs w -> sent w1 = sent w ++ take k stream ->
             Q (Ok v w1)).
  { intros v w1 k Hv Hfs Hk. subst Q. cbv beta. cbn [final].
    split; [exists k; exact Hk|]. split; [exact Hfs|].
    split; [|discriminate]. intros w' [= E]. contradiction. }
  assert (Hblock : forall w1 k,
             fs w1 = fs w -> sent w1 = sent w ++ take k stream ->
             Q (Blocked w1)).
  { intros w1 k Hfs Hk. subst Q. cbv beta. cbn [final].
    split; [exists k; exact Hk|]. split; [exact Hfs|].
    split; [|discriminate]. intros w' [=]. }
  unfold Server.handle_download. rewrite Hopen. cbn [negb].
  destruct (faults w (OpStat f));
    [apply (Hstop _ _ 0%nat); [lia | reflexivity | now rewrite app_nil_r]|].
  rewrite Hd. fold F.
  assert (Hoff : (if F <? L then F else L) = off)
    by (unfold off; destruct (Z.ltb_spec F L); lia).
  rewrite Hoff, !server_store_htonll.
  unfold bind at 1.
  pose proof (server_send_all_spec (be_bytes 8 F) w) as Hs1.
  rewrite length_be_bytes in Hs1.
  destruct (Server.send_all (be_bytes 8 F) w) as [v w1|w1|w1];
    cbn [send_post] in Hs1; [|contradiction|].
  2:{ destruct Hs1 as [[? ? ? ? ? ? [k Hk]] _].
      destruct (sent_prefix_app_l _ _ _
                  (be_bytes 8 off ++ drop (Z.to_nat off) data) k Hk) as [k' Hk'].
      apply (Hblock _ k'); assumption. }
  destruct Hs1 as [Htx1 Hv1].
  destruct (Z.eqb_spec v 8) as [->|Hv8]; cbn [negb ret].
  2:{ destruct Htx1 as [? ? ? ? ? ? [k Hk]].
      destruct (sent_prefix_app_l _ _ _
                  (be_bytes 8 off ++ drop (Z.to_nat off) data) k Hk) as [k' Hk'].
      apply (Hstop _ _ k'); [lia | assumption | assumption]. }
  destruct Hv1 as [[_ Hsent1]|Hv1]; [|lia].
  assert (Hfs1 : fs w1 = fs w) by apply Htx1.
  unfold bind at 1.
  pose proof (server_send_all_spec (be_bytes 8 off) w1) as Hs2.
  rewrite length_be_bytes in Hs2.
  assert (Hmid : forall w2 k,
             sent w2 = sent w1 ++ take k (be_bytes 8 off) ->
             exists k', sent w2 = sent w ++ take k' stream).
  { intros w2 k Hk. rewrite Hsent1 in Hk.
    apply (sent_prefix_app_r (sent w) _ (be_bytes 8 F)
             (be_bytes 8 off ++ drop (Z.to_nat off) data) (Nat.min k 8)).
    rewrite Hk. f_equal. rewrite take_app_le by (rewrite length_be_bytes; lia).
    destruct (Nat.le_gt_cases k 8).
    - now rewrite Nat.min_l.
    - rewrite Nat.min_r by lia.
      now rewrite !take_ge by (rewrite length_be_bytes; lia). }
  destruct (Server.send_all (be_bytes 8 off) w1) as [v w2|w2|w2];
    cbn [send_post] in Hs2; [|contradiction|].
  2:{ destruct Hs2 as [[? ? ? ? ? ? [k Hk]] _].
      destruct (Hmid _ _ Hk) as [k' Hk'].
      apply (Hblock _ k'); congruence. }
  destruct Hs2 as [Htx2 Hv2].
  destruct (Z.eqb_spec v 8) as [->|Hv8]; cbn [negb ret].
  2:{ destruct Htx2 as [? ? ? ? ? ? [k Hk]].
      destruct (Hmid _ _ Hk) as [k' Hk'].
      apply (Hstop _ _ k'); [lia | congruence | assumption]. }
  destruct Hv2 as [[_ Hsent2]|Hv2]; [|lia].
  assert (Hfs2 : fs w2 = fs w) by (destruct Htx2; congruence).
  assert (Hhead : sent w2 = sent w ++ be_bytes 8 F ++ be_bytes 8 off)
    by (rewrite Hsent2, Hsent1, <- app_assoc; reflexivity).
  destruct (Z.leb_spec F off) as [Hdone|Hmore].
  - subst Q. cbv beta. cbn [final].
    assert (Hnil : drop (Z.to_nat off) data = [])
      by (apply drop_ge; unfold F in Hdone; lia).
    assert (Hst : stream = be_bytes 8 F ++ be_bytes 8 off)
      by (unfold stream; now rewrite Hnil, app_nil_r).
    split; [|split; [exact Hfs2|split; [|discriminate]]].
    + exists (length stream). rewrite take_ge by lia. now rewrite Hst.
    + intros w' [= <-]. now rewrite Hst.
  - assert (Hsfx : forall out k,
               out = sent w2 ++ take k (drop (Z.to_nat off) data) ->
               exists k', out = sent w ++ take k' stream).
    { intros out k ->. rewrite Hhead.
      destruct (sent_prefix_app_r (sent w ++ be_bytes 8 F)
                  ((sent w ++ be_bytes 8 F ++ be_bytes 8 off)
                   ++ take k (drop (Z.to_nat off) data))
                  (be_bytes 8 off) (drop (Z.to_nat off) data) k) as [k1 Hk1].
      { now rewrite <- !app_assoc. }
      apply (sent_prefix_app_r (sent w) _ (be_bytes 8 F) _
               (Nat.min k1 (length (be_bytes 8 off ++ drop (Z.to_nat off) data)))).
      rewrite Hk1. f_equal.
      destruct (Nat.le_gt_cases k1
                  (length (be_bytes 8 off ++ drop (Z.to_nat off) data))).
      - now rewrite Nat.min_l.
      - rewrite Nat.min_r by lia. now rewrite !take_ge by lia. }
    destruct (seek_fails w2 f off).
    { destruct (Hsfx (sent w2) 0%nat) as [k' Hk'];
        [now rewrite take_0, app_nil_r|].
      apply (Hstop _ _ k'); [lia | exact Hfs2 | exact Hk']. }
    rewrite (file_data_ext w w2 f Hfs2), Hd.
    pose proof (download_loop_spec f
                  (chunks (Z.to_nat Server.BUF_SIZE) (drop (Z.to_nat off) data))
                  off w2) as Hloop.
    cbv zeta in Hloop. rewrite concat_chunks in Hloop by (unfold Server.BUF_SIZE; lia).
    destruct Hloop as ([k Hk] & Hfsl & Hok & Hnf).
    subst Q. cbv beta.
    split; [apply (Hsfx _ k), Hk|]. split; [congruence|].
    split; [|exact Hnf].
    intros w' Hw'. rewrite (Hok w' Hw'), Hhead. unfold stream.
    now rewrite <- !app_assoc.
Qed.

Lemma handle_download_ready w f data L :
  file_at w f = Some (Reg data) -> 0 <= L ->
  let F := Z.of_nat (length data) in
  let off := Z.min L F in
  F < 2 ^ 63 ->
  tx_ready (2 + length (chunks (Z.to_nat 8192) (drop (Z.to_nat off) data))) w ->
  (forall op, faults w op = false) ->
  exists w', Server.handle_download f L w = Ok 0 w'.
Proof.
  intros Hat HL. cbv zeta. intros HF Htx Hnf.
  destruct (file_data_reg w f data Hat) as [Hd Hopen].
  set (F := Z.of_nat (length data)) in *. set (off := Z.min L F) in *.
  unfold Server.handle_download. rewrite Hopen, Hnf. cbn [negb].
  rewrite Hd. fold F.
  assert (Hoff : (if F <? L then F else L) = off)
    by (unfold off; destruct (Z.ltb_spec F L); lia).
  rewrite Hoff, !server_store_htonll.
  destruct (server_send_all_ready _ (be_bytes 8 F) w Htx)
    as (w1 & E1 & Hfr1 & _ & Htx1); [rewrite length_be_bytes; lia|].
  rewrite length_be_bytes in E1. change (Z.of_nat 8) with 8 in E1.
  unfold bind at 1. rewrite E1. change (8 =? 8) with true. cbn [negb].
  destruct (server_send_all_ready _ (be_bytes 8 off) w1 Htx1)
    as (w2 & E2 & Hfr2 & _ & Htx2); [rewrite length_be_bytes; lia|].
  rewrite length_be_bytes in E2. change (Z.of_nat 8) with 8 in E2.
  unfold bind at 1. rewrite E2. change (8 =? 8) with true. cbn [negb].
  destruct (Z.leb_spec F off); [eexists; reflexivity|].
  assert (Hnf2 : forall op, faults w2 op = false).
  { intros op. destruct Hfr1, Hfr2. now rewrite tx_faults1, tx_faults0. }
  unfold seek_fails. rewrite Hnf2, off_t_small by lia. cbn [orb].
  assert (Hfs2 : fs w2 = fs w) by (destruct Hfr1, Hfr2; congruence).
  rewrite (file_data_ext w w2 f Hfs2), Hd.
  apply download_loop_ready; [exact Htx2 | | exact Hnf2].
  eapply Forall_impl; [apply chunks_aux_bounded|].
  cbn beta. intros c Hc. change (Z.to_nat Server.BUF_SIZE) with (Z.to_nat 8192) in Hc.
  lia.
Qed.

End HandleDownload.

(** C3.  For a download request with client offset [L] against a file of
    [F] bytes, the server sends [F], then [min L F], then the bytes of
    the file from [min L F] on, in this order and nothing else: what it
    has sent is always a prefix of that stream, and all of it when it
    returns 0.  When [min L F >= F] the stream ends with the two numbers.
    On a connection that takes what is sent, and without storage errors,
    the call returns 0. *)
Theorem download_streams_remainder :
  forall w f data L,
    file_at w f = Some (Reg data) -> 0 <= L ->
    let F := Z.of_nat (length data) in
    let off := Z.min L F in
    let stream := be_bytes 8 F ++ be_bytes 8 off ++ drop (Z.to_nat off) data in
    let r := Server.handle_download f L w in
    (exists k, sent (final r) = sent w ++ take k stream)
    /\ (forall w', r = Ok 0 w' -> sent w' = sent w ++ stream)
    /\ fs (final r) = fs w
    /\ (F <= off -> stream = be_bytes 8 F ++ be_bytes 8 off)
    /\ (F < 2 ^ 63 ->
        tx_ready (2 + length (chunks (Z.to_nat 8192) (drop (Z.to_nat off) data)))
          w ->
        (forall op, faults w op = false) ->
        exists w', r = Ok 0 w' /\ sent w' = sent w ++ stream).
Proof.
  intros w f data L Hat HL. cbv zeta.
  destruct (handle_download_safe w f data L Hat) as (Hpre & Hfs & Hok & _).
  split; [exact Hpre|]. split; [exact Hok|]. split; [exact Hfs|]. split.
  - intros Hdone.
    assert (Hnil : drop (Z.to_nat (Z.min L (Z.of_nat (length data)))) data = [])
      by (apply drop_ge; lia).
    now rewrite Hnil, app_nil_r.
  - intros HF Htx Hnf.
    destruct (handle_download_ready w f data L Hat HL HF Htx Hnf) as [w' Hw'].
    exists w'. split; [exact Hw' | apply Hok, Hw'].
Qed.

Lemma download_streams_remainder_witness :
  exists w', Server.handle_download (bytes_of_string "f") 2 serving_f = Ok 0 w'
             /\ sent w' = [] ++ be_bytes 8 5 ++ be_bytes 8 2 ++ [3; 4; 5].
Proof.
  refine (proj2 (proj2 (proj2 (proj2
            (download_streams_remainder serving_f (bytes_of_string "f")
               [1; 2; 3; 4; 5] 2 eq_refl ltac:(lia))))) _ _ _).
  - vm_compute. reflexivity.
  - apply connection_tx_ready. vm_compute. lia.
  - reflexivity.
Defined.

(** ** client.c, the progress ledger *)

Section Ledger.

Lemma length_bytes_of_string s :
  length (bytes_of_string s) = String.length s.
Proof.
  unfold bytes_of_string. rewrite length_map.
  induction s; cbn; [reflexivity | now rewrite IHs].
Qed.

Lemma prog_path_fits fname :
  fits_ledger fname ->
  Client.prog_path fname = fname ++ bytes_of_string ".progress".
Proof.
  intros H. unfold Client.prog_path, snprintf, fits_ledger in *.
  apply take_ge. rewrite length_app, length_bytes_of_string. cbn. lia.
Qed.

Lemma prog_tmp_path_fits fname :
  fits_ledger fname ->
  Client.prog_tmp_path fname = fname ++ bytes_of_string ".progress.tmp".
Proof.
  intros H. unfold Client.prog_tmp_path, snprintf, fits_ledger in *.
  apply take_ge. rewrite length_app, length_bytes_of_string. cbn. lia.
Qed.

Lemma ledger_paths_distinct fname :
  fits_ledger fname ->
  Client.prog_tmp_path fname <> Client.prog_path fname
  /\ Client.prog_path fname <> fname
  /\ Client.prog_tmp_path fname <> fname
  /\ Client.prog_path fname <> []
  /\ Client.prog_tmp_path fname <> [].
Proof.
  intros H. rewrite prog_path_fits, prog_tmp_path_fits by exact H.
  repeat split; intros E; apply (f_equal length) in E;
    rewrite ?length_app, ?length_bytes_of_string in E; cbn in E; lia.
Qed.

(** Calls on the temporary file leave the ledger alone. *)
Lemma tmp_ops_keep_ledger tmp prog (ops : list Client.fs_op) :
  tmp <> prog ->
  forall m k,
    (forall o, In o ops ->
       o = Client.FsCreate tmp \/ o = Client.FsUnlink tmp
       \/ o = Client.FsSync tmp
       \/ exists d, o = Client.FsWrite tmp d) ->
    Client.run_ops (take k ops) m !! prog = m !! prog.
Proof.
  intros Hne. induction ops as [|o ops IH]; intros m k Hin.
  - now rewrite take_nil.
  - destruct k as [|k]; [reflexivity|]. cbn [take Client.run_ops fold_left].
    change (fold_left Client.apply_op (take k ops) (Client.apply_op m o))
      with (Client.run_ops (take k ops) (Client.apply_op m o)).
    rewrite IH by (intros o' Ho'; apply Hin; now right).
    destruct (Hin o (or_introl eq_refl)) as [->|[->|[->|[d ->]]]];
      cbn [Client.apply_op].
    + now apply lookup_insert_ne.
    + now apply lookup_delete_ne.
    + reflexivity.
    + destruct (m !! tmp) as [[d0|]|]; try reflexivity.
      now apply lookup_insert_ne.
Qed.

Lemma fopen_trunc_some p w w1 :
  fopen_trunc p w = Some w1 -> p <> [].
Proof. intros H. now apply fopen_trunc_spec in H. Qed.

(** What gets through a write-back is a prefix of what was handed over:
    all of it when no write-back fails, the bytes before the first
    failure otherwise. *)
Lemma flushed_all w p data :
  (forall off, faults w (OpFlush p off) = false) ->
  forall pos, flushed w p pos data = data.
Proof.
  intros Hnf. induction data as [|b data IH]; intros pos; cbn [flushed];
    [reflexivity|]. now rewrite Hnf, IH.
Qed.

Lemma flushed_cut w p data :
  forall k pos,
    (k < length data)%nat ->
    (forall j, (j < k)%nat -> faults w (OpFlush p (pos + Z.of_nat j)) = false) ->
    faults w (OpFlush p (pos + Z.of_nat k)) = true ->
    flushed w p pos data = take k data.
Proof.
  induction data as [|b data IH]; intros k pos Hk Hlow Hat;
    [cbn in Hk; lia|]. cbn [flushed].
  destruct k as [|k].
  - rewrite Z.add_0_r in Hat. now rewrite Hat.
  - pose proof (Hlow 0%nat ltac:(lia)) as H0. rewrite Z.add_0_r in H0.
    rewrite H0. cbn [take]. f_equal.
    apply IH; [cbn in Hk; lia | |].
    + intros j Hj. replace (pos + 1 + Z.of_nat j) with (pos + Z.of_nat (S j))
        by lia. apply Hlow. lia.
    + now replace (pos + 1 + Z.of_nat k) with (pos + Z.of_nat (S k)) by lia.
Qed.

Lemma flushed_prefix w p data :
  forall pos, exists k, (k <= length data)%nat
                        /\ flushed w p pos data = take k data.
Proof.
  induction data as [|b data IH]; intros pos; cbn [flushed].
  - exists 0%nat. split; [cbn; lia | reflexivity].
  - destruct (faults w (OpFlush p pos)).
    + exists 0%nat. split; [cbn; lia | reflexivity].
    + destruct (IH (pos + 1)) as (k & Hk & ->).
      exists (S k). split; [cbn; lia | reflexivity].
Qed.

Lemma flushed_ext w w' p data :
  faults w' = faults w ->
  forall pos, flushed w' p pos data = flushed w p pos data.
Proof.
  intros H. induction data as [|b data IH]; intros pos; cbn [flushed];
    [reflexivity|]. now rewrite H, IH.
Qed.

Lemma unlink_ops_on tmp w :
  forall o, In o (Client.unlink_ops w tmp) -> o = Client.FsUnlink tmp.
Proof.
  unfold Client.unlink_ops. destruct (faults w (OpUnlink tmp)); intros o [].
  - now symmetry.
  - contradiction.
Qed.

End Ledger.

(** The calls a ledger write makes, for a file name whose ledger paths
    fit their buffers, and what they leave in [name.progress]. *)
Lemma write_progress_ops_spec :
  forall fname val w,
    fits_ledger fname ->
    let prog := fname ++ bytes_of_string ".progress" in
    let tmp := fname ++ bytes_of_string ".progress.tmp" in
    let record := decimal_line val in
    let rc := fst (Client.write_progress_ops fname val w) in
    let ops := snd (Client.write_progress_ops fname val w) in
    (rc = 0 \/ rc = -1)
    /\ (rc = -1 -> Client.run_ops ops (fs w) !! prog = fs w !! prog)
    /\ (forall k,
          (k < length record)%nat ->
          (forall j, (j < k)%nat ->
                     faults w (OpFlush tmp (Z.of_nat j)) = false) ->
          faults w (OpFlush tmp (Z.of_nat k)) = true ->
          rc = 0 ->
          Client.run_ops ops (fs w) !! prog = Some (Reg (take k record))
          /\ take k record <> record)
    /\ (faults w (OpCreate tmp) = false -> faults w (OpPrintf tmp) = false ->
        faults w (OpRename tmp prog) = false ->
        file_at w tmp <> Some Denied -> file_at w prog <> Some Denied ->
        rc = 0)
    /\ ((forall off, faults w (OpFlush tmp off) = false) ->
        (forall k,
            Client.run_ops (take k ops) (fs w) !! prog = fs w !! prog
            \/ Client.run_ops (take k ops) (fs w) !! prog
               = Some (Reg record))
        /\ (rc = 0 ->
            Client.run_ops ops (fs w) !! prog = Some (Reg record))).
Proof.
  intros fname val w Hfit. cbv zeta.
  destruct (ledger_paths_distinct fname Hfit) as (Hne & _ & _ & _ & Htmp).
  unfold Client.write_progress_ops.
  rewrite <- (prog_path_fits fname Hfit), <- (prog_tmp_path_fits fname Hfit).
  set (prog := Client.prog_path fname) in *.
  set (tmp := Client.prog_tmp_path fname) in *.
  set (record := decimal_line val).
  set (written := flushed w tmp 0 record).
  assert (Hsteps : forall k ops,
             (forall o, In o ops ->
                o = Client.FsCreate tmp \/ o = Client.FsUnlink tmp
                \/ o = Client.FsSync tmp
                \/ exists d, o = Client.FsWrite tmp d) ->
             Client.run_ops (take k ops) (fs w) !! prog = fs w !! prog).
  { intros k ops Hin. now apply (tmp_ops_keep_ledger tmp prog ops Hne). }
  assert (Hall : forall ops,
             (forall o, In o ops ->
                o = Client.FsCreate tmp \/ o = Client.FsUnlink tmp
                \/ o = Client.FsSync tmp
                \/ exists d, o = Client.FsWrite tmp d) ->
             Client.run_ops ops (fs w) !! prog = fs w !! prog).
  { intros ops Hin. rewrite <- (Hsteps (length ops) ops Hin).
    now rewrite firstn_all. }
  assert (Hun : forall o, In o (Client.unlink_ops w tmp) ->
                          o = Client.FsUnlink tmp) by apply unlink_ops_on.
  destruct (fopen_trunc tmp w) as [w1|] eqn:Hopen; cbn [fst snd].
  2:{ split; [now right|]. split; [reflexivity|]. split; [discriminate|].
      split.
      - intros Hcr _ _ Hd _. exfalso. unfold fopen_trunc in Hopen.
        destruct tmp as [|b t]; [contradiction|].
        destruct (file_at w (b :: t)) as [[d|]|]; try contradiction;
          rewrite Hcr in Hopen; discriminate.
      - intros _. split; [|discriminate]. intros k. left.
        now rewrite take_nil. }
  destruct (faults w (OpPrintf tmp)) eqn:Hprintf; cbn [fst snd].
  { assert (Hin : forall o, In o (Client.FsCreate tmp
                                    :: Client.unlink_ops w tmp) ->
                    o = Client.FsCreate tmp \/ o = Client.FsUnlink tmp
                    \/ o = Client.FsSync tmp
                    \/ exists d, o = Client.FsWrite tmp d).
    { intros o [<-|Ho]; [now left | right; left; now apply Hun]. }
    split; [now right|]. split; [intros _; now apply Hall|].
    split; [discriminate|]. split; [intros _ H; discriminate H|].
    intros _. split; [|discriminate]. intros k. left. now apply Hsteps. }
  destruct (Client.rename_fails w tmp prog) eqn:Hren; cbn [fst snd].
  { assert (Hin : forall o, In o ([Client.FsCreate tmp;
                                   Client.FsWrite tmp written;
                                   Client.FsSync tmp]
                                  ++ Client.unlink_ops w tmp) ->
                    o = Client.FsCreate tmp \/ o = Client.FsUnlink tmp
                    \/ o = Client.FsSync tmp
                    \/ exists d, o = Client.FsWrite tmp d).
    { intros o Ho. apply in_app_or in Ho as [Ho|Ho];
        [|right; left; now apply Hun].
      cbn [In] in Ho. destruct Ho as [<-|[<-|[<-|[]]]]; eauto. }
    split; [now right|]. split; [intros _; now apply Hall|].
    split; [discriminate|]. split.
    - intros _ _ Hrn _ Hd. exfalso. unfold Client.rename_fails in Hren.
      rewrite Hrn in Hren. cbn [orb] in Hren.
      destruct (file_at w prog) as [[d|]|]; try discriminate. contradiction.
    - intros _. split; [|discriminate]. intros k. left. now apply Hsteps. }
  assert (H4 : Client.run_ops
                 [Client.FsCreate tmp; Client.FsWrite tmp written;
                  Client.FsSync tmp; Client.FsRename tmp prog] (fs w) !! prog
               = Some (Reg written)).
  { cbn [Client.run_ops fold_left Client.apply_op].
    rewrite lookup_insert_eq. cbn [app].
    destruct (decide (tmp = prog)) as [E|_]; [contradiction|].
    rewrite lookup_insert_eq. now rewrite lookup_insert_eq. }
  split; [now left|]. split; [discriminate|]. split.
  { intros k Hk Hlow Hat _. rewrite H4. unfold written.
    rewrite (flushed_cut w tmp record k 0 Hk Hlow Hat).
    split; [reflexivity|]. intros E. apply (f_equal length) in E.
    rewrite length_take in E. lia. }
  split; [reflexivity|].
  intros Hnf. assert (Hw : written = record) by now apply flushed_all.
  rewrite Hw in *. split; [|intros _; exact H4].
  intros k. destruct (Nat.le_gt_cases 4 k) as [Hk|Hk].
  - right. rewrite take_ge by (cbn; lia). exact H4.
  - left. replace (take k _) with
      (take k [Client.FsCreate tmp; Client.FsWrite tmp record;
               Client.FsSync tmp]).
    + apply Hsteps. cbn. intuition eauto.
    + do 4 (destruct k as [|k]; [reflexivity|]). lia.
Qed.

Lemma write_progress_atomic_ops fname val w :
  fst (Client.write_progress_atomic fname val w)
  = fst (Client.write_progress_ops fname val w)
  /\ fs (snd (Client.write_progress_atomic fname val w))
     = Client.run_ops (snd (Client.write_progress_ops fname val w)) (fs w).
Proof.
  unfold Client.write_progress_atomic.
  destruct (Client.write_progress_ops fname val w). split; reflexivity.
Qed.

(** C6.  [write_progress_atomic] does not look at what [fflush], [fsync]
    and [fclose] return and renames the temporary file all the same.
    For a file name whose ledger paths fit their buffers: the call
    returns 0 or -1, and after -1 [name.progress] is untouched.  When
    the write-back of the record fails at its byte [k], a call that
    returns 0 has put the first [k] bytes of the record, a truncated
    value, in [name.progress]; and it does return 0 when creating the
    temporary file, [fprintf] and [rename] succeed.  When no write-back
    fails, [name.progress] holds, between any two of the calls made,
    what it held before or the complete new record, and the new record
    after a return of 0. *)
Theorem ledger_write_installs_what_got_through :
  forall fname val w,
    fits_ledger fname ->
    let prog := fname ++ bytes_of_string ".progress" in
    let tmp := fname ++ bytes_of_string ".progress.tmp" in
    let record := decimal_line val in
    let rc := fst (Client.write_progress_atomic fname val w) in
    let w' := snd (Client.write_progress_atomic fname val w) in
    let ops := snd (Client.write_progress_ops fname val w) in
    (rc = 0 \/ rc = -1)
    /\ (rc = -1 -> fs w' !! prog = fs w !! prog)
    /\ (forall k,
          (k < length record)%nat ->
          (forall j, (j < k)%nat ->
                     faults w (OpFlush tmp (Z.of_nat j)) = false) ->
          faults w (OpFlush tmp (Z.of_nat k)) = true ->
          rc = 0 ->
          fs w' !! prog = Some (Reg (take k record))
          /\ take k record <> record)
    /\ (faults w (OpCreate tmp) = false -> faults w (OpPrintf tmp) = false ->
        faults w (OpRename tmp prog) = false ->
        file_at w tmp <> Some Denied -> file_at w prog <> Some Denied ->
        rc = 0)
    /\ ((forall off, faults w (OpFlush tmp off) = false) ->
        fs w' = Client.run_ops ops (fs w)
        /\ (forall k,
               Client.run_ops (take k ops) (fs w) !! prog = fs w !! prog
               \/ Client.run_ops (take k ops) (fs w) !! prog
                  = Some (Reg record))
        /\ (rc = 0 -> fs w' !! prog = Some (Reg record))).
Proof.
  intros fname val w Hfit. cbv zeta.
  destruct (write_progress_atomic_ops fname val w) as [-> ->].
  destruct (write_progress_ops_spec fname val w Hfit)
    as (H1 & H2 & H3 & H4 & H5).
  cbv zeta in H1, H2, H3, H4, H5.
  split; [exact H1|]. split; [exact H2|]. split; [exact H3|].
  split; [exact H4|]. intros Hnf. destruct (H5 Hnf) as [Hsteps Hdone].
  split; [reflexivity|]. split; [exact Hsteps | exact Hdone].
Qed.

(** The failing input of C6: the ledger write of the count 8192 on a
    full disk returns 0 and leaves an empty ledger where the record of
    an earlier attempt was. *)
Lemma ledger_write_installs_what_got_through_witness :
  fs disk_full_upload !! (bytes_of_string "f" ++ bytes_of_string ".progress")
  = Some (Reg (decimal_line 1))
  /\ fst (Client.write_progress_atomic (bytes_of_string "f") 8192
            disk_full_upload) = 0
  /\ fs (snd (Client.write_progress_atomic (bytes_of_string "f") 8192
                disk_full_upload))
     !! (bytes_of_string "f" ++ bytes_of_string ".progress")
     = Some (Reg []).
Proof.
  assert (H : fits_ledger (bytes_of_string "f")) by (vm_compute; reflexivity).
  destruct (ledger_write_installs_what_got_through (bytes_of_string "f") 8192
              disk_full_upload H) as (_ & _ & Hcut & Hrc & _).
  assert (Hzero : fst (Client.write_progress_atomic (bytes_of_string "f") 8192
                         disk_full_upload) = 0).
  { apply Hrc; try reflexivity; vm_compute; discriminate. }
  split; [vm_compute; reflexivity|]. split; [exact Hzero|].
  refine (proj1 (Hcut 0%nat _ _ _ Hzero)).
  - vm_compute. lia.
  - intros j Hj. lia.
  - reflexivity.
Defined.

(** ** Reasoning along a computation *)

Section Runs.

Context {A B : Type}.

Lemma runs_bind (c : M A) (k : A -> M B) w
    (Q1 : A -> world -> Prop) (Q2 : B -> world -> Prop) (E : world -> Prop) :
  runs c w Q1 E ->
  (forall a w', Q1 a w' -> runs (k a) w' Q2 E) ->
  runs (bind c k) w Q2 E.
Proof.
  unfold runs, bind. intros Hc Hk.
  destruct (c w) as [a w'|w'|w']; [now apply Hk | exact Hc | exact Hc].
Qed.

Lemma runs_bind_via (c : M A) (k : A -> M B) w
    (Q1 : A -> world -> Prop) (E1 : world -> Prop)
    (Q2 : B -> world -> Prop) (E : world -> Prop) :
  runs c w Q1 E1 ->
  (forall w', E1 w' -> E w') ->
  (forall a w', Q1 a w' -> runs (k a) w' Q2 E) ->
  runs (bind c k) w Q2 E.
Proof.
  unfold runs, bind. intros Hc HE Hk.
  destruct (c w) as [a w'|w'|w']; [now apply Hk | now apply HE | now apply HE].
Qed.

Lemma runs_weaken (c : M A) w (Q Q' : A -> world -> Prop)
    (E E' : world -> Prop) :
  runs c w Q E ->
  (forall a w', Q a w' -> Q' a w') -> (forall w', E w' -> E' w') ->
  runs c w Q' E'.
Proof. unfold runs. intros Hc HQ HE. destruct (c w); auto. Qed.

Lemma runs_ret (a : A) w (Q : A -> world -> Prop) E :
  Q a w -> runs (ret a) w Q E.
Proof. intros H. exact H. Qed.

Lemma runs_exit w (Q : A -> world -> Prop) (E : world -> Prop) :
  E w -> runs goto_exit w Q E.
Proof. intros H. exact H. Qed.

Lemma runs_get (f : world -> A) w (Q : A -> world -> Prop) E :
  Q (f w) w -> runs (get f) w Q E.
Proof. intros H. exact H. Qed.

Lemma runs_final (c : M A) w (I : world -> Prop) :
  runs c w (fun _ => I) I -> I (final (c w)).
Proof. unfold runs. destruct (c w); auto. Qed.

End Runs.

Lemma runs_update (f : world -> world) w (Q : unit -> world -> Prop) E :
  Q tt (f w) -> runs (update f) w Q E.
Proof. intros H. exact H. Qed.

(** ** client.c, the stream primitives along a computation *)

Section ClientSteps.

Lemma sent_within_refl w s : sent_within w s w.
Proof. exists 0%nat. now rewrite take_0, app_nil_r. Qed.

Lemma sent_within_app_l w0 A B w :
  sent_within w0 A w -> sent_within w0 (A ++ B) w.
Proof. intros [k Hk]. eapply sent_prefix_app_l. exact Hk. Qed.

Lemma sent_within_app_r w0 w1 A B w :
  sent w1 = sent w0 ++ A -> sent_within w1 B w -> sent_within w0 (A ++ B) w.
Proof.
  intros H1 [k Hk]. eapply sent_prefix_app_r. rewrite Hk, H1. reflexivity.
Qed.

Lemma sent_within_all w0 A w : sent w = sent w0 ++ A -> sent_within w0 A w.
Proof. intros H. exists (length A). now rewrite firstn_all. Qed.

Lemma tx_only_trans A B w0 w1 w2 :
  tx_only A w0 w1 -> sent w1 = sent w0 ++ A -> tx_only B w1 w2 ->
  tx_only (A ++ B) w0 w2.
Proof.
  intros [] Hs []. split; try congruence.
  apply (sent_within_app_r w0 w1); assumption.
Qed.

Lemma tx_only_app_l A B w0 w1 : tx_only A w0 w1 -> tx_only (A ++ B) w0 w1.
Proof.
  intros []. split; try assumption. now apply sent_within_app_l.
Qed.

Lemma client_send_field_runs buf w :
  runs (Client.send_field buf) w
    (fun _ w' => tx_only buf w w' /\ sent w' = sent w ++ buf)
    (fun w' => tx_only buf w w').
Proof.
  unfold Client.send_field.
  eapply runs_bind with
    (Q1 := fun r w' => tx_only buf w w'
                       /\ ((r =? Z.of_nat (length buf)) = true ->
                           sent w' = sent w ++ buf)).
  - pose proof (client_send_all_spec buf w) as H. unfold runs.
    destruct (Client.send_all buf w) as [v w'|w'|w']; cbn [send_post] in H;
      [|contradiction|apply H].
    destruct H as [Htx Hv]. split; [exact Htx|].
    intros Hr. apply Z.eqb_eq in Hr. destruct Hv as [[_ Hs]|Hv]; [exact Hs|lia].
  - intros r w' [Htx Hs].
    destruct (r =? Z.of_nat (length buf)); cbn [negb].
    + apply runs_ret. auto.
    + apply runs_exit. exact Htx.
Qed.

Lemma client_recv_all_runs len w :
  0 <= len ->
  runs (Client.recv_all len) w
    (fun '(r, buf) w' =>
       rx_only w w'
       /\ (length (incoming w) <= length (incoming w') + Z.to_nat len)%nat
       /\ ((r =? len) = true ->
           buf = take (Z.to_nat len) (incoming w)
           /\ (Z.to_nat len <= length (incoming w))%nat
           /\ incoming w' = drop (Z.to_nat len) (incoming w)))
    (fun w' =>
       rx_only w w'
       /\ (length (incoming w) <= length (incoming w') + Z.to_nat len)%nat).
Proof.
  intros Hlen. pose proof (client_recv_all_inv len w Hlen) as H. unfold runs.
  destruct (Client.recv_all len w) as [[r buf] w'|w'|w'];
    [exact H | contradiction | exact H].
Qed.

Lemma be_bytes_u32 n : be_bytes 4 (u32 n) = be_bytes 4 n.
Proof. unfold be_bytes. now rewrite le_bytes_u32. Qed.

(** One more buffer of a stream of which [pre] is out already. *)
Lemma client_send_field_stage w0 pre buf post stream w :
  stream = pre ++ buf ++ post ->
  tx_only pre w0 w -> sent w = sent w0 ++ pre ->
  runs (Client.send_field buf) w
    (fun _ w' => tx_only (pre ++ buf) w0 w' /\ sent w' = sent w0 ++ pre ++ buf)
    (fun w' => tx_only stream w0 w').
Proof.
  intros -> Hpre Hs.
  eapply runs_weaken; [apply client_send_field_runs| |]; cbv beta.
  - intros _ w' [H S]. split.
    + eapply tx_only_trans; eassumption.
    + rewrite S, Hs, <- app_assoc. reflexivity.
  - intros w' H. rewrite app_assoc. apply tx_only_app_l.
    eapply tx_only_trans; eassumption.
Qed.

(** Steps 1 and 2 put the two fields on the wire, or a prefix of them. *)
Lemma client_send_request_runs mode filename w :
  Z.of_nat (length mode) < 2 ^ 32 -> Z.of_nat (length filename) < 2 ^ 32 ->
  runs (Client.send_request mode filename) w
    (fun _ w' =>
       tx_only (field mode ++ field filename) w w'
       /\ sent w' = sent w ++ field mode ++ field filename)
    (fun w' => tx_only (field mode ++ field filename) w w').
Proof.
  intros Hm Hf. unfold Client.send_request.
  eapply runs_bind with (Q1 := fun h w' => h = host w /\ w' = w);
    [apply runs_get; split; reflexivity|].
  intros h w0' [-> ->]. cbv zeta.
  rewrite !store_htonl, !be_bytes_u32.
  rewrite !(u32_id (Z.of_nat (length _))) by lia.
  rewrite !Nat2Z.id, !firstn_all.
  unfold field. rewrite <- !app_assoc.
  set (A := be_bytes 4 (Z.of_nat (length mode))).
  set (C := be_bytes 4 (Z.of_nat (length filename))).
  eapply runs_bind.
  { apply (client_send_field_stage w [] A (mode ++ C ++ filename));
      [reflexivity | apply tx_only_refl | now rewrite app_nil_r]. }
  cbn [app]. intros _ w1 [H1 S1].
  eapply runs_bind.
  { apply (client_send_field_stage w A mode (C ++ filename));
      [reflexivity | exact H1 | exact S1]. }
  intros _ w2 [H2 S2].
  eapply runs_bind.
  { apply (client_send_field_stage w (A ++ mode) C filename);
      [now rewrite <- !app_assoc | exact H2 | exact S2]. }
  intros _ w3 [H3 S3].
  eapply runs_weaken.
  { apply (client_send_field_stage w ((A ++ mode) ++ C) filename []
             (A ++ mode ++ C ++ filename));
      [now rewrite app_nil_r, <- !app_assoc | exact H3 | exact S3]. }
  - cbv beta. intros _ w4 [H4 S4]. rewrite <- !app_assoc in H4, S4. auto.
  - auto.
Qed.

End ClientSteps.

(** ** Properties of the files alone *)

Section FileInvariants.

(** A property [I] of the state that depends on the files and on how
    storage behaves only is kept by everything a program does on its
    socket. *)
Variable I : world -> Prop.
Hypothesis I_files :
  forall w1 w2, fs w2 = fs w1 -> faults w2 = faults w1 -> I w1 -> I w2.

Lemma keeps_client_send_all buf w :
  I w -> runs (Client.send_all buf) w (fun _ => I) I.
Proof.
  intros HI. pose proof (client_send_all_spec buf w) as H. unfold runs.
  destruct (Client.send_all buf w) as [v w'|w'|w']; cbn [send_post] in H;
    [|contradiction|]; destruct H as [[] _]; eapply I_files; eassumption.
Qed.

Lemma keeps_client_send_field buf w :
  I w -> runs (Client.send_field buf) w (fun _ => I) I.
Proof.
  intros HI. unfold Client.send_field.
  eapply runs_bind; [apply keeps_client_send_all, HI|].
  intros r w' HI'. cbv beta in HI'.
  destruct (negb (r =? Z.of_nat (length buf)));
    [apply runs_exit | apply runs_ret]; exact HI'.
Qed.

Lemma keeps_client_send_request mode filename w :
  I w -> runs (Client.send_request mode filename) w (fun _ => I) I.
Proof.
  intros HI. unfold Client.send_request.
  eapply runs_bind with (Q1 := fun _ => I); [apply runs_get, HI|].
  intros h w1 H1. cbv zeta.
  eapply runs_bind; [apply keeps_client_send_field, H1|].
  intros u2 w2 H2.
  eapply runs_bind; [apply keeps_client_send_field, H2|].
  intros u3 w3 H3.
  eapply runs_bind; [apply keeps_client_send_field, H3|].
  intros u4 w4 H4. apply keeps_client_send_field, H4.
Qed.

Lemma keeps_client_recv_all len w :
  0 <= len -> I w -> runs (Client.recv_all len) w (fun _ => I) I.
Proof.
  intros Hlen HI. pose proof (client_recv_all_inv len w Hlen) as H.
  unfold runs.
  destruct (Client.recv_all len w) as [[v b] w'|w'|w']; [|contradiction|];
    destruct H as [[] _]; eapply I_files; eassumption.
Qed.

End FileInvariants.

(** ** client.c, what the transfers do to the ledger *)

Section LedgerEffects.

Lemma run_ops_others tmp prog p (ops : list Client.fs_op) :
  p <> tmp -> p <> prog ->
  forall m, (forall o, In o ops -> ledger_op tmp prog o) ->
            Client.run_ops ops m !! p = m !! p.
Proof.
  intros Ht Hp. induction ops as [|o ops IH]; intros m Hin; [reflexivity|].
  cbn [Client.run_ops fold_left].
  change (fold_left Client.apply_op ops (Client.apply_op m o))
    with (Client.run_ops ops (Client.apply_op m o)).
  rewrite IH by (intros o' Ho'; apply Hin; now right).
  destruct (Hin o (or_introl eq_refl)) as [->|[->|[->|[[d ->]| ->]]]];
    cbn [Client.apply_op].
  - now apply lookup_insert_ne.
  - now apply lookup_delete_ne.
  - reflexivity.
  - destruct (m !! tmp) as [[d0|]|]; try reflexivity.
    now apply lookup_insert_ne.
  - destruct (decide (tmp = prog)); [reflexivity|].
    destruct (m !! tmp); [|reflexivity].
    rewrite lookup_insert_ne by congruence. now apply lookup_delete_ne.
Qed.

Lemma write_progress_ops_are_ledger_ops fname val w :
  forall o, In o (snd (Client.write_progress_ops fname val w)) ->
            ledger_op (Client.prog_tmp_path fname) (Client.prog_path fname) o.
Proof.
  unfold Client.write_progress_ops, ledger_op.
  pose proof (unlink_ops_on (Client.prog_tmp_path fname) w) as Hun.
  destruct (fopen_trunc (Client.prog_tmp_path fname) w); [|intros o []].
  destruct (faults w (OpPrintf (Client.prog_tmp_path fname)));
    [|destruct (Client.rename_fails w _ _)]; cbn [snd]; intros o H.
  - destruct H as [<-|H]; [now left | right; left; now apply Hun].
  - apply in_app_or in H as [H|H]; [|right; left; now apply Hun].
    cbn [In] in H. intuition eauto.
  - cbn [In] in H. intuition eauto.
Qed.

(** After a ledger write the ledger holds what it held or what got
    through of the new record, and no other file but the temporary one
    has changed. *)
Lemma write_progress_atomic_effect fname val w :
  fits_ledger fname ->
  let w' := snd (Client.write_progress_atomic fname val w) in
  ledger_effect fname w w'
  /\ (fs w' !! Client.prog_path fname = fs w !! Client.prog_path fname
      \/ fs w' !! Client.prog_path fname
         = Some (Reg (flushed w (Client.prog_tmp_path fname) 0
                        (decimal_line val)))).
Proof.
  intros Hfit. cbv zeta. unfold Client.write_progress_atomic.
  pose proof (write_progress_ops_are_ledger_ops fname val w) as Hops.
  destruct (ledger_paths_distinct fname Hfit) as (Hne & _).
  set (prog := Client.prog_path fname) in *.
  set (tmp := Client.prog_tmp_path fname) in *.
  destruct (Client.write_progress_ops fname val w) as [rc ops] eqn:Hrun.
  cbn [snd] in *. split.
  - split; try reflexivity. intros p Hp Ht. cbn [fs with_fs].
    now apply (run_ops_others tmp prog).
  - cbn [fs with_fs]. unfold Client.write_progress_ops in Hrun.
    fold prog tmp in Hrun.
    assert (Htmp : forall ops',
               (forall o, In o ops' ->
                  o = Client.FsCreate tmp \/ o = Client.FsUnlink tmp
                  \/ o = Client.FsSync tmp
                  \/ exists d, o = Client.FsWrite tmp d) ->
               Client.run_ops ops' (fs w) !! prog = fs w !! prog).
    { intros ops' Hin.
      rewrite <- (tmp_ops_keep_ledger tmp prog ops' Hne (fs w) (length ops')
                    Hin).
      now rewrite firstn_all. }
    pose proof (unlink_ops_on tmp w) as Hun.
    destruct (fopen_trunc tmp w); [|injection Hrun as <- <-; now left].
    destruct (faults w (OpPrintf tmp));
      [|destruct (Client.rename_fails w tmp prog)];
      injection Hrun as <- <-.
    + left. apply Htmp. intros o [<-|Ho]; [now left|].
      right; left. now apply Hun.
    + left. apply Htmp. intros o Ho. cbn [In app] in Ho.
      destruct Ho as [<-|[<-|[<-|Ho]]]; eauto 6.
    + right. cbn [Client.run_ops fold_left Client.apply_op].
      rewrite lookup_insert_eq. cbn [app].
      destruct (decide (tmp = prog)); [contradiction|].
      rewrite lookup_insert_eq. now rewrite lookup_insert_eq.
Qed.

(** A ledger write all of whose calls succeed installs the record, and
    the next will succeed too. *)
Lemma write_progress_atomic_works fname val w :
  fits_ledger fname -> ledger_works fname w ->
  let w' := snd (Client.write_progress_atomic fname val w) in
  fs w' !! Client.prog_path fname = Some (Reg (decimal_line val))
  /\ ledger_works fname w'.
Proof.
  intros Hfit [Hcr Hpr Hfl Hrn Htmp Hprog]. cbv zeta.
  destruct (ledger_paths_distinct fname Hfit) as (Hne & _ & _ & Hp & Ht).
  unfold Client.write_progress_atomic, Client.write_progress_ops.
  set (prog := Client.prog_path fname) in *.
  set (tmp := Client.prog_tmp_path fname) in *.
  assert (Hopen : fopen_trunc tmp w = Some (set_file tmp [] w)).
  { unfold fopen_trunc. destruct tmp as [|b t]; [contradiction|].
    destruct (file_at w (b :: t)) as [[d|]|]; try contradiction;
      now rewrite Hcr. }
  assert (Hren : Client.rename_fails w tmp prog = false).
  { unfold Client.rename_fails. rewrite Hrn. cbn [orb].
    destruct (file_at w prog) as [[d|]|]; try reflexivity. contradiction. }
  rewrite Hopen, Hpr, Hren, (flushed_all w tmp _ Hfl). cbn [snd fs with_fs].
  assert (Hfs : Client.run_ops
                  [Client.FsCreate tmp; Client.FsWrite tmp (decimal_line val);
                   Client.FsSync tmp; Client.FsRename tmp prog] (fs w)
                = <[prog := Reg (decimal_line val)]>
                    (delete tmp (<[tmp := Reg ([] ++ decimal_line val)]>
                                   (<[tmp := Reg []]> (fs w))))).
  { cbn [Client.run_ops fold_left Client.apply_op].
    rewrite lookup_insert_eq.
    destruct (decide (tmp = prog)); [contradiction|].
    now rewrite lookup_insert_eq. }
  rewrite Hfs. split; [apply lookup_insert_eq|].
  split; try assumption; unfold file_at; cbn [fs with_fs].
  - fold tmp. destruct tmp as [|b t]; [contradiction|].
    rewrite lookup_insert_ne by congruence. now rewrite lookup_delete_eq.
  - fold prog. destruct prog as [|b t]; [contradiction|].
    now rewrite lookup_insert_eq.
Qed.





Lemma faults_ledger_write fname val w :
  faults (snd (Client.write_progress_atomic fname val w)) = faults w.
Proof.
  unfold Client.write_progress_atomic.
  now destruct (Client.write_progress_ops fname val w).
Qed.

Lemma fwrite_flush_cases p pos data w :
  fwrite_flush p pos data w = w
  \/ exists d, fwrite_flush p pos data w = fwrite p pos d w.
Proof.
  unfold fwrite_flush. destruct (flushed w p pos data); [now left|].
  right. now eexists.
Qed.

End LedgerEffects.

(** What both transfers keep up to their last step, for a property of
    the files that a ledger write and a write to the transferred file
    keep. *)
Section TransferInvariants.

Variable fname : list Z.
Variable I : world -> Prop.
Hypothesis I_files :
  forall w1 w2, fs w2 = fs w1 -> faults w2 = faults w1 -> I w1 -> I w2.
Hypothesis I_ledger :
  forall val w, I w -> I (snd (Client.write_progress_atomic fname val w)).
Hypothesis I_data : forall d w, I w -> I (set_file fname d w).

Lemma keeps_client_upload_loop cs :
  forall total w, I w -> I (final (Client.upload_loop cs fname total w)).
Proof.
  induction cs as [|c cs IH]; intros total w HI; cbn [Client.upload_loop].
  - destruct (faults w (OpRead fname total)); exact HI.
  - destruct (faults w (OpRead fname total)); [exact HI|].
    pose proof (keeps_client_send_all I I_files c w HI) as Hs.
    unfold runs in Hs.
    destruct (Client.send_all c w) as [r w1|w1|w1]; try exact Hs.
    destruct (negb (r =? Z.of_nat (length c))); [exact Hs|].
    pose proof (I_ledger (total + Z.of_nat (length c)) w1 Hs) as Hw.
    destruct (Client.write_progress_atomic fname
                (total + Z.of_nat (length c)) w1) as [rc w2].
    apply IH. exact Hw.
Qed.





End TransferInvariants.

(** ** client.c, what the transfers do to the ledger *)

Section TransferLedger.

Variable fname : list Z.
Hypothesis Hfit : fits_ledger fname.

(** Storage behaves throughout as it did at the start. *)
Lemma same_faults_kept w0 :
  (forall w1 w2, fs w2 = fs w1 -> faults w2 = faults w1 ->
                 faults w1 = faults w0 -> faults w2 = faults w0)
  /\ (forall val w, faults w = faults w0 ->
        faults (snd (Client.write_progress_atomic fname val w)) = faults w0)
  /\ (forall d w, faults w = faults w0 ->
        faults (set_file fname d w) = faults w0).
Proof.
  split; [intros; congruence|]. split.
  - intros val w H. now rewrite faults_ledger_write.
  - intros d w H. exact H.
Qed.


Lemma remove_progress_gone w :
  faults w (OpUnlink (Client.prog_path fname)) = false ->
  fs (Client.remove_progress fname w) !! Client.prog_path fname = None.
Proof.
  intros H. unfold Client.remove_progress, Client.unlink_ops. rewrite H.
  cbn [Client.run_ops fold_left Client.apply_op fs with_fs].
  apply lookup_delete_eq.
Qed.

Lemma remove_progress_kept w :
  faults w (OpUnlink (Client.prog_path fname)) = true ->
  Client.remove_progress fname w = w.
Proof.
  intros H. unfold Client.remove_progress, Client.unlink_ops. rewrite H.
  cbn [Client.run_ops fold_left]. now destruct w.
Qed.

End TransferLedger.

(** ** client.c, the negotiation of a download *)

Section ClientNegotiation.

Lemma negotiating_files f w0 w1 w2 :
  fs w2 = fs w1 -> host w2 = host w1 -> faults w2 = faults w1 ->
  negotiating f w0 w1 -> negotiating f w0 w2.
Proof.
  intros Hfs Hh Hfa []. split; try congruence.
  - now rewrite (file_data_ext w1 w2 f Hfs).
  - intros p Hp. rewrite Hfs. auto.
  - now rewrite (can_open_ext w1 w2 f Hfs).
Qed.

Lemma negotiating_tx f w0 w1 w2 buf :
  tx_only buf w1 w2 -> negotiating f w0 w1 -> negotiating f w0 w2.
Proof. intros []. now apply negotiating_files. Qed.

Lemma negotiating_rx f w0 w1 w2 :
  rx_only w1 w2 -> negotiating f w0 w1 -> negotiating f w0 w2.
Proof. intros []. now apply negotiating_files. Qed.

(** [client_download], lines 253-269. *)
Lemma client_open_local_runs f w :
  runs (Client.open_local f) w
    (fun local_offset w1 =>
       local_offset = Z.of_nat (length (file_data w f))
       /\ negotiating f w w1 /\ sent w1 = sent w /\ incoming w1 = incoming w
       /\ rx_script w1 = rx_script w /\ tx_script w1 = tx_script w)
    (fun w' => w' = w).
Proof.
  unfold runs, Client.open_local. destruct (can_open w f) eqn:Hopen.
  - destruct (faults w (OpSeekEnd f)); [reflexivity|].
    repeat split; try reflexivity. exact Hopen.
  - destruct (fopen_trunc f w) as [w1|] eqn:Ho; [|reflexivity].
    apply fopen_trunc_spec in Ho as [Hf ->].
    assert (Hempty : file_data w f = []).
    { unfold file_data, can_open in *.
      destruct (file_at w f) as [[d|]|]; try reflexivity. discriminate. }
    rewrite Hempty. repeat split; try reflexivity.
    + now rewrite file_data_set_file_eq.
    + intros p Hp. cbn. now apply lookup_insert_ne.
    + now apply can_open_set_file.
Qed.

(** The negotiation of a download whose reply is [(F, off)]: the client
    stops before the reply is read, with a prefix of its request sent,
    nothing read past the reply and no file changed but an empty target
    created; or it goes on to [download_stream] with the whole request
    sent and the reply consumed. *)
Lemma client_download_reaches f w F off rest
    (Q : unit -> world -> Prop) (E : world -> Prop) :
  incoming w = be_bytes 8 F ++ be_bytes 8 off ++ rest ->
  0 <= F < 2 ^ 64 -> 0 <= off < 2 ^ 64 ->
  Z.of_nat (length f) < 2 ^ 32 ->
  Z.of_nat (length (file_data w f)) < 2 ^ 64 ->
  let header :=
    request_header "download" f (Z.of_nat (length (file_data w f))) in
  (forall w',
      sent_within w header w' ->
      (length rest <= length (incoming w'))%nat ->
      file_data w' f = file_data w f ->
      (forall p, p <> f -> fs w' !! p = fs w !! p) -> E w') ->
  (forall w1,
      sent w1 = sent w ++ header -> incoming w1 = rest ->
      negotiating f w w1 -> runs (download_stream f F off) w1 Q E) ->
  runs (Client.download f) w Q E.
Proof.
  intros Hin HF Hoff Hlen HL header Hstop Hgo. unfold Client.download.
  assert (Hl0 : length (incoming w) = (16 + length rest)%nat)
    by (rewrite Hin, !length_app, !length_be_bytes; lia).
  assert (Hearly : forall w0 w',
             negotiating f w w0 -> sent w0 = sent w ->
             incoming w0 = incoming w ->
             tx_only header w0 w' -> E w').
  { intros w0 w' Hn Hs Hi Htx.
    pose proof (negotiating_tx f w w0 w' header Htx Hn) as [].
    destruct Htx as [? ? ? Hi' ? ? [k Hk]].
    apply Hstop; try assumption.
    - exists k. congruence.
    - rewrite Hi', Hi. lia. }
  assert (Hreq : request_header "download" f (Z.of_nat (length (file_data w f)))
                = (field (bytes_of_string "download") ++ field f)
                  ++ be_bytes 8 (Z.of_nat (length (file_data w f))))
    by (unfold request_header; now rewrite <- app_assoc).
  eapply runs_bind_via; [apply client_open_local_runs| |].
  { intros w' ->. apply Hstop; try reflexivity.
    - apply sent_within_refl.
    - lia. }
  intros local_offset w1 (-> & Hn1 & Hs1 & Hi1 & _).
  eapply runs_bind_via;
    [apply (client_send_request_runs (bytes_of_string "download") f w1);
     [rewrite length_bytes_of_string; cbn; lia | exact Hlen] | |].
  { intros w' Htx. apply (Hearly w1 w' Hn1 Hs1 Hi1).
    unfold header. rewrite Hreq. now apply tx_only_app_l. }
  intros u2 w2 [Htx2 Hs2].
  eapply runs_bind_via with (Q1 := fun h w' => h = host w2 /\ w' = w2)
                            (E1 := fun _ => False);
    [apply runs_get; split; reflexivity | contradiction |].
  intros h w2' [-> ->].
  rewrite (u64_id (Z.of_nat (length (file_data w f)))) by lia.
  rewrite store_htonll.
  eapply runs_bind_via.
  { apply (client_send_field_stage w1
             (field (bytes_of_string "download") ++ field f)
             (be_bytes 8 (Z.of_nat (length (file_data w f)))) [] header w2);
      [unfold header; rewrite Hreq, app_nil_r; reflexivity | exact Htx2
       | exact Hs2]. }
  { intros w' Htx. apply (Hearly w1 w' Hn1 Hs1 Hi1 Htx). }
  intros u3 w3 [Htx3 Hs3]. rewrite <- Hreq in Htx3, Hs3. fold header in Htx3, Hs3.
  assert (Hn3 : negotiating f w w3) by (eapply negotiating_tx; eassumption).
  assert (Hi3 : incoming w3 = incoming w) by (destruct Htx3; congruence).
  assert (Hsent3 : sent w3 = sent w ++ header) by congruence.
  assert (Hlate : forall w',
             rx_only w3 w' ->
             (length rest <= length (incoming w'))%nat -> E w').
  { intros w' Hrx Hl.
    pose proof (negotiating_rx f w w3 w' Hrx Hn3) as [].
    apply Hstop; try assumption.
    apply sent_within_all. destruct Hrx. congruence. }
  eapply runs_bind_via; [apply (client_recv_all_runs 8 w3); lia | |].
  { intros w' [Hrx Hb]. apply Hlate; [exact Hrx|].
    change (Z.to_nat 8) with 8%nat in Hb. rewrite Hi3 in Hb. lia. }
  intros [r net_filesize] w4 (Hrx4 & Hb4 & H4).
  change (Z.to_nat 8) with 8%nat in *. rewrite Hi3 in Hb4.
  destruct (Z.eqb_spec r 8) as [->|Hr]; cbn [negb];
    [|apply runs_exit, Hlate; [exact Hrx4 | lia]].
  destruct (H4 eq_refl) as (-> & _ & Hi4).
  rewrite Hi3, Hin in Hi4 |- *. rewrite take_be_bytes_app.
  rewrite drop_be_bytes_app in Hi4.
  eapply runs_bind_via; [apply (client_recv_all_runs 8 w4); lia | |].
  { intros w' [Hrx Hb]. apply Hlate; [eapply rx_only_trans; eassumption|].
    change (Z.to_nat 8) with 8%nat in Hb. rewrite Hi4, length_app,
      length_be_bytes in Hb. lia. }
  intros [r net_off] w5 (Hrx5 & Hb5 & H5).
  change (Z.to_nat 8) with 8%nat in *.
  rewrite Hi4, length_app, length_be_bytes in Hb5.
  assert (Hrx35 : rx_only w3 w5) by (eapply rx_only_trans; eassumption).
  destruct (Z.eqb_spec r 8) as [->|Hr]; cbn [negb];
    [|apply runs_exit, Hlate; [exact Hrx35 | lia]].
  destruct (H5 eq_refl) as (-> & _ & Hi5).
  rewrite Hi4 in Hi5 |- *. rewrite take_be_bytes_app.
  rewrite drop_be_bytes_app in Hi5.
  assert (Hh : host w2 = host w).
  { destruct Hn1, Htx2. congruence. }
  rewrite !load_be_bytes by assumption. cbv zeta.
  apply Hgo.
  - destruct Hrx35. congruence.
  - exact Hi5.
  - eapply negotiating_rx; eassumption.
Qed.

(** The negotiation of an upload whose reply is beyond the size the
    client declared: [upload] never reaches its end, and where it stops
    no file has changed, a prefix of the request is all that was sent
    and nothing past the reply was read. *)
Lemma client_upload_refused f w data agreed rest :
  file_at w f = Some (Reg data) ->
  incoming w = be_bytes 8 agreed ++ rest ->
  Z.of_nat (length data) < agreed < 2 ^ 64 ->
  Z.of_nat (length f) < 2 ^ 32 ->
  runs (Client.upload f) w (fun _ _ => False)
    (fun w' =>
       fs w' = fs w
       /\ sent_within w (request_header "upload" f (Z.of_nat (length data))) w'
       /\ (length rest <= length (incoming w'))%nat).
Proof.
  intros Hf Hin Hag Hlen. unfold Client.upload.
  set (header := request_header "upload" f (Z.of_nat (length data))).
  assert (Hreq : header
                 = (field (bytes_of_string "upload") ++ field f)
                   ++ be_bytes 8 (Z.of_nat (length data)))
    by (unfold header, request_header; now rewrite <- app_assoc).
  assert (Hl0 : length (incoming w) = (8 + length rest)%nat)
    by (rewrite Hin, length_app, length_be_bytes; lia).
  assert (Hearly : forall w', tx_only header w w' ->
             fs w' = fs w /\ sent_within w header w'
             /\ (length rest <= length (incoming w'))%nat).
  { intros w' [? Hfs ? Hi ? ? [k Hk]]. split; [exact Hfs|]. split.
    - now exists k.
    - rewrite Hi. lia. }
  eapply runs_bind_via;
    [apply (client_send_request_runs (bytes_of_string "upload") f w);
     [rewrite length_bytes_of_string; cbn; lia | exact Hlen] | |].
  { intros w' Htx. apply Hearly. rewrite Hreq. now apply tx_only_app_l. }
  intros u2 w2 [Htx2 Hs2].
  assert (Hsz : Client.get_file_size_stat w2 f = Z.of_nat (length data)).
  { unfold Client.get_file_size_stat, sys_stat.
    rewrite (file_at_ext w w2 f) by (now destruct Htx2). now rewrite Hf. }
  eapply runs_bind_via with
    (Q1 := fun sz w' => sz = Z.of_nat (length data) /\ w' = w2)
    (E1 := fun _ => False);
    [apply runs_get; split; [exact Hsz | reflexivity] | contradiction |].
  intros sz w2' [-> ->].
  destruct (Z.ltb_spec (Z.of_nat (length data)) 0) as [?|_]; [lia|].
  rewrite (u64_id (Z.of_nat (length data))) by lia.
  eapply runs_bind_via with (Q1 := fun h w' => h = host w2 /\ w' = w2)
                            (E1 := fun _ => False);
    [apply runs_get; split; reflexivity | contradiction |].
  intros h w2' [-> ->]. rewrite store_htonll.
  eapply runs_bind_via.
  { apply (client_send_field_stage w
             (field (bytes_of_string "upload") ++ field f)
             (be_bytes 8 (Z.of_nat (length data))) [] header w2);
      [rewrite Hreq, app_nil_r; reflexivity | exact Htx2 | exact Hs2]. }
  { intros w' Htx. now apply Hearly. }
  intros u3 w3 [Htx3 Hs3]. rewrite <- Hreq in Htx3, Hs3.
  assert (Hi3 : incoming w3 = incoming w) by (now destruct Htx3).
  assert (Hlate : forall w',
             rx_only w3 w' -> (length rest <= length (incoming w'))%nat ->
             fs w' = fs w /\ sent_within w header w'
             /\ (length rest <= length (incoming w'))%nat).
  { intros w' Hrx Hl. split; [|split; [|exact Hl]].
    - destruct Hrx, Htx3. congruence.
    - apply sent_within_all. destruct Hrx. congruence. }
  eapply runs_bind_via; [apply (client_recv_all_runs 8 w3); lia | |].
  { intros w' [Hrx Hb]. apply Hlate; [exact Hrx|].
    change (Z.to_nat 8) with 8%nat in Hb. rewrite Hi3 in Hb. lia. }
  intros [r net_agreed] w4 (Hrx4 & Hb4 & H4).
  change (Z.to_nat 8) with 8%nat in *. rewrite Hi3 in Hb4.
  destruct (Z.eqb_spec r 8) as [->|Hr]; cbn [negb];
    [|apply runs_exit, Hlate; [exact Hrx4 | lia]].
  destruct (H4 eq_refl) as (-> & _ & Hi4).
  rewrite Hi3, Hin in Hi4 |- *. rewrite take_be_bytes_app.
  rewrite drop_be_bytes_app in Hi4.
  rewrite load_be_bytes by lia.
  destruct (Z.ltb_spec (Z.of_nat (length data)) agreed) as [_|?]; [|lia].
  apply runs_exit, Hlate; [exact Hrx4 | rewrite Hi4; lia].
Qed.

End ClientNegotiation.

(** ** The client when the connection does not stall *)

Section ClientReady.

Lemma client_send_field_ready n buf w :
  tx_ready (S n) w -> Z.of_nat (length buf) <= 8192 ->
  exists w',
    Client.send_field buf w = Ok tt w'
    /\ tx_only buf w w' /\ sent w' = sent w ++ buf /\ tx_ready n w'.
Proof.
  intros Htx Hlen.
  destruct (client_send_all_ready n buf w Htx Hlen) as (w' & E & H).
  exists w'. split; [|exact H].
  unfold Client.send_field, bind. rewrite E, Z.eqb_refl. reflexivity.
Qed.

Lemma client_send_request_ready n mode filename w :
  tx_ready (4 + n) w ->
  Z.of_nat (length mode) <= 8192 -> Z.of_nat (length filename) <= 8192 ->
  exists w',
    Client.send_request mode filename w = Ok tt w'
    /\ tx_only (field mode ++ field filename) w w'
    /\ sent w' = sent w ++ field mode ++ field filename
    /\ tx_ready n w'.
Proof.
  intros Htx Hm Hf. unfold Client.send_request.
  unfold bind at 1. cbn [get]. cbv zeta.
  rewrite !store_htonl, !be_bytes_u32.
  rewrite !(u32_id (Z.of_nat (length _))) by lia.
  rewrite !Nat2Z.id, !firstn_all.
  set (A := be_bytes 4 (Z.of_nat (length mode))).
  set (C := be_bytes 4 (Z.of_nat (length filename))).
  assert (HA : Z.of_nat (length A) <= 8192)
    by (unfold A; rewrite length_be_bytes; lia).
  assert (HC : Z.of_nat (length C) <= 8192)
    by (unfold C; rewrite length_be_bytes; lia).
  destruct (client_send_field_ready (3 + n) A w Htx HA)
    as (w1 & E1 & T1 & S1 & R1).
  unfold bind at 1. rewrite E1.
  destruct (client_send_field_ready (2 + n) mode w1 R1 Hm)
    as (w2 & E2 & T2 & S2 & R2).
  unfold bind at 1. rewrite E2.
  destruct (client_send_field_ready (1 + n) C w2 R2 HC)
    as (w3 & E3 & T3 & S3 & R3).
  unfold bind at 1. rewrite E3.
  destruct (client_send_field_ready n filename w3 R3 Hf)
    as (w4 & E4 & T4 & S4 & R4).
  exists w4. split; [exact E4|].
  pose proof (tx_only_trans _ _ _ _ _ T1 S1 T2) as T12.
  assert (S12 : sent w2 = sent w ++ A ++ mode)
    by (rewrite S2, S1, <- app_assoc; reflexivity).
  pose proof (tx_only_trans _ _ _ _ _ T12 S12 T3) as T13.
  assert (S13 : sent w3 = sent w ++ (A ++ mode) ++ C)
    by (rewrite S3, S12, <- !app_assoc; reflexivity).
  pose proof (tx_only_trans _ _ _ _ _ T13 S13 T4) as T14.
  unfold field. fold A C.
  replace ((A ++ mode) ++ C ++ filename)
    with (((A ++ mode) ++ C) ++ filename) by (now rewrite <- !app_assoc).
  split; [exact T14|]. split; [|exact R4].
  rewrite S4, S13, <- !app_assoc. reflexivity.
Qed.

(** The upload whose reply is beyond the declared size comes back, by
    the exit label. *)
Lemma client_upload_refused_returns f w data agreed rest :
  file_at w f = Some (Reg data) ->
  incoming w = be_bytes 8 agreed ++ rest ->
  Z.of_nat (length data) < agreed < 2 ^ 64 ->
  Z.of_nat (length f) <= 8192 ->
  tx_ready 5 w -> rx_ready 1 w ->
  exists w', Client.upload f w = Fail w'.
Proof.
  intros Hf Hin Hag Hlen Htx Hrx. unfold Client.upload.
  destruct (client_send_request_ready 1 (bytes_of_string "upload") f w Htx)
    as (w2 & E2 & T2 & S2 & R2);
    [rewrite length_bytes_of_string; cbn; lia | exact Hlen |].
  unfold bind at 1. rewrite E2.
  unfold bind at 1. cbn [get].
  unfold Client.get_file_size_stat, sys_stat.
  rewrite (file_at_ext w w2 f) by (now destruct T2). rewrite Hf.
  destruct (Z.ltb_spec (Z.of_nat (length data)) 0) as [?|_]; [lia|].
  rewrite (u64_id (Z.of_nat (length data))) by lia.
  unfold bind at 1. cbn [get]. rewrite store_htonll.
  destruct (client_send_field_ready 0 (be_bytes 8 (Z.of_nat (length data)))
              w2 R2) as (w3 & E3 & T3 & S3 & _);
    [rewrite length_be_bytes; lia|].
  unfold bind at 1. rewrite E3.
  assert (Hi3 : incoming w3 = incoming w)
    by (destruct T2, T3; congruence).
  assert (Hr3 : rx_ready 1 w3).
  { eapply rx_ready_ext; [|exact Hrx]. destruct T2, T3. congruence. }
  destruct (client_recv_all_ready 0 8 w3 Hr3) as (w4 & E4 & _);
    [lia | rewrite Hi3, Hin, length_app, length_be_bytes; lia |].
  unfold bind at 1. rewrite E4. cbn [negb Z.eqb Pos.eqb].
  change (Z.to_nat 8) with 8%nat.
  rewrite Hi3, Hin, take_be_bytes_app, load_be_bytes by lia.
  destruct (Z.ltb_spec (Z.of_nat (length data)) agreed) as [_|?]; [|lia].
  exists w4. reflexivity.
Qed.

(** The negotiation of a download whose reply is [(F, off)]: either the
    local file cannot be opened, or the client goes on to
    [download_stream] with the reply consumed. *)
Lemma client_download_ready f w F off rest :
  incoming w = be_bytes 8 F ++ be_bytes 8 off ++ rest ->
  0 <= F < 2 ^ 64 -> 0 <= off < 2 ^ 64 ->
  Z.of_nat (length f) <= 8192 ->
  Z.of_nat (length (file_data w f)) < 2 ^ 64 ->
  tx_ready 5 w -> rx_ready 2 w ->
  match Client.open_local f w with
  | Ok _ w1 =>
      exists w5,
        Client.download f w = download_stream f F off w5
        /\ fs w5 = fs w1 /\ faults w5 = faults w /\ incoming w5 = rest
  | Fail w' => Client.download f w = Fail w'
  | Blocked _ => False
  end.
Proof.
  intros Hin HF Hoff Hlen HL Htx Hrx.
  pose proof (client_open_local_runs f w) as Hopen. unfold runs in Hopen.
  pose proof (eq_refl (Client.download f w)) as Hd.
  unfold Client.download at 2 in Hd. unfold bind at 1 in Hd.
  destruct (Client.open_local f w) as [l w1|w'|w'] eqn:Ho; [|exact Hd|].
  2:{ unfold Client.open_local in Ho.
      destruct (can_open w f); [destruct (faults w _)|destruct (fopen_trunc f w)];
        discriminate. }
  destruct Hopen as (-> & Hn1 & Hs1 & Hi1 & Hrx1 & Htx1).
  rewrite Hd. clear Hd.
  assert (Ht1 : tx_ready 5 w1) by (eapply tx_ready_ext; eassumption).
  destruct (client_send_request_ready 1 (bytes_of_string "download") f w1 Ht1)
    as (w2 & E2 & T2 & S2 & R2);
    [rewrite length_bytes_of_string; cbn; lia | exact Hlen |].
  unfold bind at 1. rewrite E2.
  unfold bind at 1. cbn [get].
  rewrite (u64_id (Z.of_nat (length (file_data w f)))) by lia.
  rewrite store_htonll.
  destruct (client_send_field_ready 0
              (be_bytes 8 (Z.of_nat (length (file_data w f)))) w2 R2)
    as (w3 & E3 & T3 & S3 & _); [rewrite length_be_bytes; lia|].
  unfold bind at 1. rewrite E3.
  assert (Hi3 : incoming w3 = incoming w)
    by (destruct T2, T3; congruence).
  assert (Hr3 : rx_ready 2 w3).
  { eapply rx_ready_ext; [|exact Hrx]. destruct T2, T3. congruence. }
  destruct (client_recv_all_ready 1 8 w3 Hr3) as (w4 & E4 & X4 & Hi4 & Hr4);
    [lia | rewrite Hi3, Hin, length_app, length_be_bytes; lia |].
  unfold bind at 1. rewrite E4. cbn [negb Z.eqb Pos.eqb].
  change (Z.to_nat 8) with 8%nat in *.
  rewrite Hi3, Hin in Hi4 |- *. rewrite take_be_bytes_app.
  rewrite drop_be_bytes_app in Hi4.
  destruct (client_recv_all_ready 0 8 w4 Hr4) as (w5 & E5 & X5 & Hi5 & _);
    [lia | rewrite Hi4, length_app, length_be_bytes; lia |].
  unfold bind at 1. rewrite E5. cbn [negb Z.eqb Pos.eqb].
  change (Z.to_nat 8) with 8%nat in *.
  rewrite Hi4 in Hi5 |- *. rewrite take_be_bytes_app.
  rewrite drop_be_bytes_app in Hi5.
  rewrite !load_be_bytes by assumption.
  exists w5. split; [reflexivity|].
  destruct T2, T3, X4, X5, Hn1. repeat split; congruence.
Qed.

End ClientReady.

(** ** client.c, an offset beyond the size *)

(** C4.  An offset the client receives that exceeds the size is a
    protocol violation, and the client stops before any file byte moves.
    In an upload of a file of [length data] bytes answered by [agreed]
    greater than that, and in a download answered by a size [F] and an
    offset [off] greater than [F], the client never reports success; its
    files are as before (the download keeps the contents of its target
    and every other file), what it sent is a prefix of its request
    header, and it read nothing past the reply.  On a connection that
    does not stall it returns, with -1. *)
Theorem client_rejects_offset_beyond_size :
  forall f w rest,
    Z.of_nat (length f) < 2 ^ 32 ->
    (forall data agreed,
        file_at w f = Some (Reg data) ->
        incoming w = be_bytes 8 agreed ++ rest ->
        Z.of_nat (length data) < agreed < 2 ^ 64 ->
        let r := Client.client_upload f w in
        (forall w', r <> Ok 0 w')
        /\ fs (final r) = fs w
        /\ sent_within w (request_header "upload" f (Z.of_nat (length data)))
             (final r)
        /\ (length rest <= length (incoming (final r)))%nat
        /\ (tx_ready 5 w -> rx_ready 1 w -> Z.of_nat (length f) <= 8192 ->
            exists w', r = Ok (-1) w'))
    /\ (forall F off,
        incoming w = be_bytes 8 F ++ be_bytes 8 off ++ rest ->
        0 <= F < off -> off < 2 ^ 64 ->
        Z.of_nat (length (file_data w f)) < 2 ^ 64 ->
        let r := Client.client_download f w in
        (forall w', r <> Ok 0 w')
        /\ file_data (final r) f = file_data w f
        /\ (forall p, p <> f -> fs (final r) !! p = fs w !! p)
        /\ sent_within w
             (request_header "download" f (Z.of_nat (length (file_data w f))))
             (final r)
        /\ (length rest <= length (incoming (final r)))%nat
        /\ (tx_ready 5 w -> rx_ready 2 w -> Z.of_nat (length f) <= 8192 ->
            exists w', r = Ok (-1) w')).
Proof.
  intros f w rest Hlen. split.
  - intros data agreed Hf Hin Hag. cbv zeta.
    pose proof (client_upload_refused f w data agreed rest Hf Hin Hag Hlen)
      as Hsafe.
    pose proof (client_upload_refused_returns f w data agreed rest Hf Hin Hag)
      as Hlive.
    unfold runs in Hsafe. unfold Client.client_upload.
    destruct (Client.upload f w) as [u w'|w'|w']; [contradiction| |];
      destruct Hsafe as (Hfs & Hsent & Hrest); cbn [final].
    + repeat (split; [first [discriminate | assumption]|]).
      intros _ _ _. now exists (close w').
    + repeat (split; [first [discriminate | assumption]|]).
      intros Htx Hrx Hl. destruct (Hlive Hl Htx Hrx) as [w'' ?]. discriminate.
  - intros F off Hin HF Hoff HL. cbv zeta.
    set (header :=
           request_header "download" f (Z.of_nat (length (file_data w f)))).
    pose proof (client_download_reaches f w F off rest (fun _ _ => False)
                  (fun w' =>
                     file_data w' f = file_data w f
                     /\ (forall p, p <> f -> fs w' !! p = fs w !! p)
                     /\ sent_within w header w'
                     /\ (length rest <= length (incoming w'))%nat)
                  Hin ltac:(lia) ltac:(lia) Hlen HL) as Hsafe.
    cbv zeta in Hsafe. fold header in Hsafe.
    assert (Hrun : runs (Client.download f) w (fun _ _ => False)
              (fun w' =>
                 file_data w' f = file_data w f
                 /\ (forall p, p <> f -> fs w' !! p = fs w !! p)
                 /\ sent_within w header w'
                 /\ (length rest <= length (incoming w'))%nat)).
    { apply Hsafe.
      - intros w' Hs Hr Hd Ho. auto.
      - intros w1 Hs1 Hi1 [? ? Hd Ho ?]. unfold download_stream.
        destruct (Z.ltb_spec F off) as [_|?]; [|lia].
        apply runs_exit. repeat split; try assumption.
        + now apply sent_within_all.
        + rewrite Hi1. lia. }
    pose proof (client_download_ready f w F off rest Hin
                  ltac:(lia) ltac:(lia)) as Hlive.
    unfold runs in Hrun. unfold Client.client_download.
    destruct (Client.download f w) as [u w'|w'|w'] eqn:Hd; [contradiction| |];
      destruct Hrun as (Hdata & Hoth & Hsent & Hrest); cbn [final].
    + repeat (split; [first [discriminate | assumption]|]).
      intros _ _ _. now exists (close w').
    + repeat (split; [first [discriminate | assumption]|]).
      intros Htx Hrx Hl. specialize (Hlive Hl HL Htx Hrx).
      destruct (Client.open_local f w) as [l w1|w1|w1];
        [|discriminate|contradiction].
      destruct Hlive as (w5 & E5 & _). unfold download_stream in E5.
      destruct (Z.ltb_spec F off) as [_|?]; [|lia]. discriminate.
Qed.

Lemma client_rejects_offset_beyond_size_witness :
  (exists w',
      Client.client_upload (bytes_of_string "f") overshooting_upload
      = Ok (-1) w')
  /\ (exists w',
         Client.client_download (bytes_of_string "f") overshooting_download
         = Ok (-1) w').
Proof.
  assert (Hlen : Z.of_nat (length (bytes_of_string "f")) < 2 ^ 32)
    by (vm_compute; reflexivity).
  split.
  - refine (proj2 (proj2 (proj2 (proj2
              (proj1 (client_rejects_offset_beyond_size (bytes_of_string "f")
                        overshooting_upload [] Hlen)
                 [7; 8; 9] 5 _ eq_refl _)))) _ _ _).
    + vm_compute. reflexivity.
    + split; vm_compute; reflexivity.
    + apply connection_tx_ready. vm_compute. lia.
    + apply connection_rx_ready. vm_compute. lia.
    + vm_compute. discriminate.
  - refine (proj2 (proj2 (proj2 (proj2 (proj2
              (proj2 (client_rejects_offset_beyond_size (bytes_of_string "f")
                        overshooting_download [1] Hlen)
                 4 9 eq_refl _ _ _))))) _ _ _).
    + split; vm_compute; [discriminate | reflexivity].
    + vm_compute. reflexivity.
    + vm_compute. reflexivity.
    + apply connection_tx_ready. vm_compute. lia.
    + apply connection_rx_ready. vm_compute. lia.
    + vm_compute. discriminate.
Defined.

(** ** A download onto a longer local copy *)

Section LongerLocalCopy.

(** Nothing is left to receive: the loop of [client_download] does not
    run. *)
Lemma client_download_loop_done n f F w :
  Client.download_loop n f F F w = Ok tt w.
Proof. destruct n; cbn [Client.download_loop]; now rewrite Z.ltb_irrefl. Qed.

Lemma file_data_remove_progress f w :
  fits_ledger f -> file_data (Client.remove_progress f w) f = file_data w f.
Proof.
  intros Hfit. destruct (ledger_paths_distinct f Hfit) as (_ & Hne & _).
  unfold file_data, file_at, Client.remove_progress, Client.unlink_ops.
  destruct f; [reflexivity|].
  destruct (faults w _);
    cbn [Client.run_ops fold_left Client.apply_op fs with_fs];
    [reflexivity|].
  rewrite lookup_delete_ne by exact Hne. reflexivity.
Qed.

(** [download_stream] when the reply is size [F], offset [F]. *)
Lemma download_stream_nothing f F w :
  runs (download_stream f F F) w
    (fun _ w' => w' = Client.remove_progress f w) (fun w' => w' = w).
Proof.
  unfold download_stream, runs, bind. rewrite Z.ltb_irrefl. cbn [get].
  destruct (seek_fails w f F); [reflexivity|].
  rewrite client_download_loop_done. reflexivity.
Qed.

End LongerLocalCopy.

(** C10.  A download of [f] (a name the server accepts: shorter than 512
    bytes) onto a local copy of [L] bytes, longer than the [F] bytes of
    the server's file.  The server, asked for offset [L], answers size
    [F] and offset [F] and sends no byte more; it returns 0 when the
    connection does not stall and its storage does not fail.  The
    client, given that reply, keeps the contents of its copy, all [L]
    bytes, however the call ends; on a connection that does not stall
    and with storage that does not fail it reports success, having read
    the reply and nothing else. *)
Theorem longer_local_copy_survives_download :
  forall f ws wc sdata cdata rest,
    Z.of_nat (length f) < 512 ->
    file_at ws f = Some (Reg sdata) ->
    file_at wc f = Some (Reg cdata) ->
    Z.of_nat (length sdata) < Z.of_nat (length cdata) < 2 ^ 63 ->
    let F := Z.of_nat (length sdata) in
    let L := Z.of_nat (length cdata) in
    let reply := be_bytes 8 F ++ be_bytes 8 F in
    let rs := Server.handle_download f L ws in
    let rc := Client.client_download f wc in
    sent_within ws reply (final rs)
    /\ (forall ws', rs = Ok 0 ws' -> sent ws' = sent ws ++ reply)
    /\ (tx_ready 2 ws -> (forall op, faults ws op = false) ->
        exists ws', rs = Ok 0 ws')
    /\ (incoming wc = reply ++ rest ->
        file_data (final rc) f = cdata
        /\ (tx_ready 5 wc -> rx_ready 2 wc ->
            (forall op, faults wc op = false) ->
            exists wc',
              rc = Ok 0 wc' /\ file_data wc' f = cdata
              /\ incoming wc' = rest
              /\ sent wc' = sent wc ++ request_header "download" f L)).
Proof.
  intros f ws wc sdata cdata rest Hlen Hs Hc HFL. cbv zeta.
  set (F := Z.of_nat (length sdata)). set (L := Z.of_nat (length cdata)).
  assert (Hfit : fits_ledger f) by (unfold fits_ledger; lia).
  (* the server *)
  pose proof (handle_download_safe ws f sdata L Hs) as Hsafe.
  pose proof (handle_download_ready ws f sdata L Hs) as Hready.
  cbv zeta in Hsafe, Hready. fold F in Hsafe, Hready.
  replace (Z.min L F) with F in Hsafe, Hready by lia.
  assert (Hdrop : drop (Z.to_nat F) sdata = [])
    by (apply drop_ge; unfold F; lia).
  rewrite Hdrop in Hsafe, Hready. rewrite app_nil_r in Hsafe.
  destruct Hsafe as (Hwithin & _ & Hsent & _).
  split; [exact Hwithin|]. split; [exact Hsent|].
  split; [intros Htx Hnf; apply Hready; [lia | lia | exact Htx | exact Hnf]|].
  (* the client *)
  intros Hin. rewrite <- app_assoc in Hin.
  destruct (file_data_reg wc f cdata Hc) as [Hdata Hopen].
  set (header := request_header "download" f L).
  pose proof (client_download_reaches f wc F F rest
                (fun _ w' => file_data w' f = cdata /\ incoming w' = rest
                             /\ sent w' = sent wc ++ header)
                (fun w' => file_data w' f = cdata)
                Hin ltac:(lia) ltac:(lia) ltac:(lia)) as Hreach.
  rewrite Hdata in Hreach. fold L in Hreach.
  specialize (Hreach ltac:(lia)). cbv zeta in Hreach. fold header in Hreach.
  assert (Hrun : runs (Client.download f) wc
            (fun _ w' => file_data w' f = cdata /\ incoming w' = rest
                         /\ sent w' = sent wc ++ header)
            (fun w' => file_data w' f = cdata)).
  { apply Hreach.
    - intros w' _ _ Hd _. exact Hd.
    - intros w1 Hs1 Hi1 [_ _ Hd1 _ _]. rewrite Hdata in Hd1.
      eapply runs_weaken; [apply download_stream_nothing| |]; cbv beta.
      + intros _ w' ->. split; [|split; assumption].
        now rewrite file_data_remove_progress.
      + now intros w' ->. }
  unfold runs in Hrun. unfold Client.client_download.
  split.
  - destruct (Client.download f wc) as [u w'|w'|w']; cbn [final];
      [apply Hrun | exact Hrun | exact Hrun].
  - intros Htx Hrx Hnf.
    pose proof (client_download_ready f wc F F rest Hin
                  ltac:(lia) ltac:(lia) ltac:(lia)) as Hlive.
    rewrite Hdata in Hlive. specialize (Hlive ltac:(lia) Htx Hrx).
    assert (Ho : Client.open_local f wc = Ok L wc).
    { unfold Client.open_local. now rewrite Hopen, Hnf, Hdata. }
    rewrite Ho in Hlive. destruct Hlive as (w5 & E5 & Hfs5 & Hf5 & Hi5).
    assert (Hseek : seek_fails w5 f F = false).
    { unfold seek_fails. rewrite off_t_small by lia. rewrite Hf5. apply Hnf. }
    rewrite E5 in Hrun |- *.
    unfold download_stream, bind in Hrun |- *.
    rewrite Z.ltb_irrefl in Hrun |- *. cbn [get] in Hrun |- *.
    rewrite Hseek, client_download_loop_done in Hrun |- *.
    cbn [update] in Hrun |- *.
    exists (close (Client.remove_progress f w5)). split; [reflexivity|].
    exact Hrun.
Qed.

Lemma longer_local_copy_survives_download_witness :
  (exists ws',
      Server.handle_download (bytes_of_string "f") 7 serving_f = Ok 0 ws'
      /\ sent ws' = [] ++ be_bytes 8 5 ++ be_bytes 8 5)
  /\ (exists wc',
         Client.client_download (bytes_of_string "f") longer_local_download
         = Ok 0 wc'
         /\ file_data wc' (bytes_of_string "f") = [1; 2; 3; 4; 5; 6; 7]).
Proof.
  assert (Hlen : Z.of_nat (length (bytes_of_string "f")) < 512)
    by (vm_compute; reflexivity).
  assert (Hsizes : Z.of_nat (length [1; 2; 3; 4; 5])
                   < Z.of_nat (length [1; 2; 3; 4; 5; 6; 7]) < 2 ^ 63)
    by (split; vm_compute; reflexivity).
  assert (Hs : file_at serving_f (bytes_of_string "f")
               = Some (Reg [1; 2; 3; 4; 5])) by (vm_compute; reflexivity).
  assert (Hc : file_at longer_local_download (bytes_of_string "f")
               = Some (Reg [1; 2; 3; 4; 5; 6; 7]))
    by (vm_compute; reflexivity).
  destruct (longer_local_copy_survives_download (bytes_of_string "f")
              serving_f longer_local_download
              [1; 2; 3; 4; 5] [1; 2; 3; 4; 5; 6; 7] [] Hlen Hs Hc Hsizes)
    as (_ & Hsent & Hserver & Hclient).
  split.
  - destruct Hserver as [ws' Hrun];
      [apply connection_tx_ready; vm_compute; lia | reflexivity |].
    exists ws'. split; [exact Hrun | exact (Hsent ws' Hrun)].
  - destruct (Hclient eq_refl) as [_ Hlive].
    destruct Hlive as (wc' & Hrun & Hdata & _);
      [apply connection_tx_ready; vm_compute; lia
      | apply connection_rx_ready; vm_compute; lia
      | reflexivity |].
    exists wc'. split; [exact Hrun | exact Hdata].
Defined.


(* ===================================================================== *)
(** * Part III: the transfers end to end                                  *)
(* ===================================================================== *)

(** ** Writing into a file at an offset *)

Section WriteAt.

Lemma write_at_head pos (old : list Z) :
  length (take pos old ++ replicate (pos - length old) 0) = pos.
Proof. rewrite length_app, length_take, length_replicate. lia. Qed.

Lemma write_at_app pos d1 d2 old :
  write_at (pos + length d1) d2 (write_at pos d1 old)
  = write_at pos (d1 ++ d2) old.
Proof.
  unfold write_at.
  set (X := take pos old ++ replicate (pos - length old) 0).
  assert (HX : length X = pos) by apply (write_at_head pos old).
  replace (take pos old ++ replicate (pos - length old) 0 ++ d1
             ++ drop (pos + length d1) old)
    with ((X ++ d1) ++ drop (pos + length d1) old)
    by (unfold X; now rewrite <- !app_assoc).
  replace (take pos old ++ replicate (pos - length old) 0 ++ (d1 ++ d2)
             ++ drop (pos + length (d1 ++ d2)) old)
    with ((X ++ d1) ++ d2 ++ drop (pos + length (d1 ++ d2)) old)
    by (unfold X; now rewrite <- !app_assoc).
  assert (HXd : length (X ++ d1) = (pos + length d1)%nat)
    by (rewrite length_app; lia).
  rewrite take_app_length' by (now rewrite HXd).
  rewrite length_app, HXd, length_drop.
  replace (pos + length d1 - (pos + length d1 + (length old - (pos + length d1))))%nat
    with 0%nat by lia.
  cbn [replicate app].
  rewrite drop_app_add' by (now rewrite HXd).
  rewrite drop_drop, length_app.
  replace (pos + length d1 + length d2)%nat
    with (pos + (length d1 + length d2))%nat by lia.
  now rewrite <- !app_assoc.
Qed.

Lemma write_at_end data old : write_at (length old) data old = old ++ data.
Proof.
  unfold write_at. rewrite firstn_all, Nat.sub_diag, drop_ge by lia.
  cbn [replicate app]. now rewrite app_nil_r.
Qed.

End WriteAt.

(** ** server.c, the bytes [handle_upload] stores *)

Section ServerStoresUpload.

Lemma fwrite_frame f pos data w :
  f <> [] ->
  file_data (fwrite f pos data w) f
  = write_at (Z.to_nat pos) data (file_data w f)
  /\ can_open (fwrite f pos data w) f = true
  /\ incoming (fwrite f pos data w) = incoming w
  /\ rx_script (fwrite f pos data w) = rx_script w
  /\ errno (fwrite f pos data w) = errno w
  /\ faults (fwrite f pos data w) = faults w.
Proof.
  intros Hf. unfold fwrite. split; [now rewrite file_data_set_file_eq|].
  split; [now apply can_open_set_file|]. repeat split.
Qed.

(** What the loop of [handle_upload] has stored when it stops: the first
    [k] bytes of the stream, at the offset it started from, where
    [c >= k] bytes were taken off the socket; when it returns 0, all that
    was missing. *)
Lemma server_upload_loop_exact script f filesize :
  forall received w,
    f <> [] -> can_open w f = true -> 0 <= received ->
    let r := Server.upload_loop script f filesize received w in
    exists k c : nat,
      (k <= c <= length (incoming w))%nat
      /\ incoming (final r) = drop c (incoming w)
      /\ received + Z.of_nat c <= Z.max received filesize
      /\ ((k = 0%nat /\ fs (final r) = fs w)
          \/ ((0 < k)%nat
              /\ file_data (final r) f
                 = write_at (Z.to_nat received) (take k (incoming w))
                     (file_data w f)))
      /\ (forall v w', r = Ok v w' ->
            (v = 0 /\ k = c /\ received + Z.of_nat k = Z.max received filesize)
            \/ v = -1).
Proof.
  induction script as [|st script IH]; intros received w Hf Hopen Hrec;
    cbn [Server.upload_loop]; cbv zeta.
  - destruct (Z.ltb_spec received filesize) as [Hlt|Hge]; cbn [final];
      exists 0%nat, 0%nat; rewrite drop_0;
      (split; [lia|]; split; [reflexivity|]; split; [lia|];
       split; [left; split; reflexivity|]).
    + intros v w' [=].
    + intros v w' [= <- <-]. left. repeat split; lia.
  - destruct (Z.ltb_spec received filesize) as [Hlt|Hge]; cbn [final].
    2:{ exists 0%nat, 0%nat. rewrite drop_0.
        split; [lia|]. split; [reflexivity|]. split; [lia|].
        split; [left; split; reflexivity|].
        intros v w' [= <- <-]. left. repeat split; lia. }
    set (to_read := if Server.BUF_SIZE <? filesize - received
                    then Server.BUF_SIZE else filesize - received).
    assert (Hto : 0 < to_read <= filesize - received).
    { unfold to_read, Server.BUF_SIZE.
      destruct (Z.ltb_spec 8192 (filesize - received)); lia. }
    destruct (sys_recv st to_read (with_rx script w)) as [[n data] w1] eqn:Hrecv.
    pose proof (sys_recv_spec st to_read (with_rx script w) ltac:(lia)
                  n data w1 Hrecv)
      as (Hh & Hfs & Hfa & Htx & Hs & Hc & Hrx & Hcase).
    cbn [host fs faults tx_script sent closed rx_script incoming with_rx]
      in Hh, Hfs, Hfa, Htx, Hs, Hc, Hrx, Hcase.
    assert (Hopen1 : can_open w1 f = true)
      by (now rewrite (can_open_ext w w1 f Hfs)).
    destruct Hcase as [(-> & -> & Hin & e & -> & He)
                      |(Hn & -> & Hin & Hlen & He & Hzero)].
    + change (-1 <? 0) with true. cbv iota.
      destruct (decide (errno w1 = EINTR)) as [_|_].
      * destruct (IH received w1 Hf Hopen1 Hrec)
          as (k & c & Hk & Hi & Hb & Hfile & Hv).
        cbv zeta in Hi, Hfile, Hv. exists k, c.
        rewrite Hin in Hk, Hi, Hfile.
        rewrite (file_data_ext w w1 f Hfs), Hfs in Hfile.
        repeat (split; [assumption|]). exact Hv.
      * cbn [final]. exists 0%nat, 0%nat. rewrite drop_0.
        split; [lia|]. split; [exact Hin|]. split; [lia|].
        split; [left; split; [reflexivity | exact Hfs]|].
        intros v w' [= <- <-]. now right.
    + destruct (Z.ltb_spec n 0) as [?|_]; [lia|].
      destruct (Z.eqb_spec n 0) as [->|Hn0].
      { cbn [final]. exists 0%nat, 0%nat. rewrite drop_0.
        split; [lia|]. split; [now rewrite Hin|]. split; [lia|].
        split; [left; split; [reflexivity | exact Hfs]|].
        intros v w' [= <- <-]. now right. }
      destruct (faults w1 (OpWrite f received)).
      { cbn [final]. exists 0%nat, (Z.to_nat n).
        split; [lia|]. split; [exact Hin|]. split; [lia|].
        split; [left; split; [reflexivity | exact Hfs]|].
        intros v w' [= <- <-]. now right. }
      set (data := take (Z.to_nat n) (incoming w)).
      assert (Hld : length data = Z.to_nat n)
        by (unfold data; rewrite length_take; lia).
      destruct (fwrite_frame f received data w1 Hf)
        as (Hfd & Hopen2 & Hin2 & _).
      destruct (IH (received + n) (fwrite f received data w1) Hf Hopen2
                  ltac:(lia))
        as (k & c & Hk & Hi & Hb & Hfile & Hv).
      cbv zeta in Hi, Hfile, Hv.
      rewrite Hin2, Hin in Hk, Hi, Hfile. rewrite length_drop in Hk.
      rewrite drop_drop in Hi.
      exists (Z.to_nat n + k)%nat, (Z.to_nat n + c)%nat.
      split; [lia|]. split; [exact Hi|]. split; [lia|]. split.
      * right. split; [lia|].
        destruct Hfile as [[Hk0 Hfs2]|[_ Hfile]].
        -- subst k. rewrite Nat.add_0_r. fold data.
           now rewrite (file_data_ext _ _ f Hfs2), Hfd,
             (file_data_ext w w1 f Hfs).
        -- assert (Htk : take (Z.to_nat n + k) (incoming w)
                         = data ++ take k (drop (Z.to_nat n) (incoming w))).
           { unfold data. now rewrite take_take_drop. }
           rewrite Htk, <- write_at_app, Hld.
           rewrite <- (file_data_ext w w1 f Hfs), <- Hfd.
           rewrite Hfile. f_equal. lia.
      * intros v w' Hr. destruct (Hv v w' Hr) as [(Hv0 & Hkc & Hz)|Hv1];
          [left|now right]. repeat split; lia.
Qed.

(** [handle_upload] from an offset within the file, when [fstat]
    succeeds: the file ends as its first [offset] bytes followed by a
    prefix of the stream, or is left alone. *)
Lemma handle_upload_stores_stream_aux f filesize offset w :
  0 <= offset <= filesize ->
  offset <= Z.of_nat (length (file_data w f)) ->
  faults w (OpStat f) = false ->
  let old := file_data w f in
  let r := Server.handle_upload f filesize offset w in
  exists k c : nat,
    (k <= c <= length (incoming w))%nat
    /\ offset + Z.of_nat c <= filesize
    /\ incoming (final r) = drop c (incoming w)
    /\ (file_data (final r) f
        = take (Z.to_nat offset) old ++ take k (incoming w)
        \/ (k = 0%nat /\ fs (final r) = fs w))
    /\ (forall v w', r = Ok v w' ->
          (v = 0 /\ k = c /\ offset + Z.of_nat k = filesize
           /\ file_data w' f
              = take (Z.to_nat offset) old ++ take k (incoming w))
          \/ v = -1).
Proof.
  intros Hoff Hold Hstat. cbv zeta.
  assert (Hstop : forall w',
             incoming w' = incoming w ->
             file_data w' f = take (Z.to_nat offset) (file_data w f)
             \/ fs w' = fs w ->
             exists k c : nat,
               (k <= c <= length (incoming w))%nat
               /\ offset + Z.of_nat c <= filesize
               /\ incoming (final (Ok (-1) w')) = drop c (incoming w)
               /\ (file_data (final (Ok (-1) w')) f
                   = take (Z.to_nat offset) (file_data w f)
                     ++ take k (incoming w)
                   \/ (k = 0%nat /\ fs (final (Ok (-1) w')) = fs w))
               /\ (forall v w'', Ok (-1) w' = Ok v w'' ->
                     (v = 0 /\ k = c /\ offset + Z.of_nat k = filesize
                      /\ file_data w'' f
                         = take (Z.to_nat offset) (file_data w f)
                           ++ take k (incoming w))
                     \/ v = -1)).
  { intros w' Hi Hfile. exists 0%nat, 0%nat. cbn [final take]. rewrite drop_0.
    split; [lia|]. split; [lia|]. split; [exact Hi|]. split.
    - destruct Hfile as [Hd|Hfs]; [left; now rewrite app_nil_r | now right].
    - intros v w'' [= <- <-]. now right. }
  assert (Hloop : forall w2,
             f <> [] -> can_open w2 f = true ->
             incoming w2 = incoming w ->
             file_data w2 f = take (Z.to_nat offset) (file_data w f) ->
             let r := Server.upload_loop (rx_script w2) f filesize offset w2 in
             exists k c : nat,
               (k <= c <= length (incoming w))%nat
               /\ offset + Z.of_nat c <= filesize
               /\ incoming (final r) = drop c (incoming w)
               /\ (file_data (final r) f
                   = take (Z.to_nat offset) (file_data w f)
                     ++ take k (incoming w)
                   \/ (k = 0%nat /\ fs (final r) = fs w))
               /\ (forall v w', r = Ok v w' ->
                     (v = 0 /\ k = c /\ offset + Z.of_nat k = filesize
                      /\ file_data w' f
                         = take (Z.to_nat offset) (file_data w f)
                           ++ take k (incoming w))
                     \/ v = -1)).
  { intros w2 Hf Hopen2 Hi2 Hd2. cbv zeta.
    destruct (server_upload_loop_exact (rx_script w2) f filesize offset w2
                Hf Hopen2 ltac:(lia))
      as (k & c & Hk & Hi & Hb & Hfile & Hv).
    cbv zeta in Hi, Hfile, Hv. rewrite Hi2 in Hk, Hi, Hfile.
    assert (Hlen2 : length (file_data w2 f) = Z.to_nat offset)
      by (rewrite Hd2, length_take; lia).
    assert (Hdata : file_data
                      (final (Server.upload_loop (rx_script w2) f filesize
                                offset w2)) f
                    = take (Z.to_nat offset) (file_data w f)
                      ++ take k (incoming w)).
    { destruct Hfile as [[-> Hfs]|[_ Hfile]].
      - rewrite (file_data_ext _ _ f Hfs), Hd2. cbn [take].
        now rewrite app_nil_r.
      - rewrite Hfile.
        assert (Hend : forall n d x,
                   length d = n -> write_at n x d = d ++ x)
          by (intros n d x <-; apply write_at_end).
        rewrite (Hend _ _ _ Hlen2), Hd2. reflexivity. }
    exists k, c. split; [lia|]. split; [lia|]. split; [exact Hi|].
    split; [now left|].
    intros v w' Hr. destruct (Hv v w' Hr) as [(-> & -> & Hz)| ->];
      [left|now right].
    rewrite Hr in Hdata. cbn [final] in Hdata.
    repeat split; [lia | exact Hdata]. }
  unfold Server.handle_upload.
  destruct (can_open w f) eqn:Hopen.
  - pose proof (can_open_nonempty w f Hopen) as Hf.
    rewrite Hstat. cbn [negb andb].
    destruct (Z.ltb_spec offset (Z.of_nat (length (file_data w f))))
      as [Hlt|Hge].
    + destruct (faults w (OpTruncate f offset));
        [apply Hstop; [reflexivity | now right]|].
      set (w2 := set_file f (take (Z.to_nat offset) (file_data w f)) w).
      assert (Hd2 : file_data w2 f = take (Z.to_nat offset) (file_data w f))
        by (unfold w2; now rewrite file_data_set_file_eq).
      destruct (seek_fails w2 f offset);
        [apply Hstop; [reflexivity | now left]|].
      apply Hloop; [exact Hf | now apply can_open_set_file | reflexivity
                   | exact Hd2].
    + assert (Hd : file_data w f = take (Z.to_nat offset) (file_data w f))
        by (rewrite take_ge; [reflexivity | lia]).
      destruct (seek_fails w f offset);
        [apply Hstop; [reflexivity | now right]|].
      apply Hloop; [exact Hf | exact Hopen | reflexivity | exact Hd].
  - assert (Hempty : file_data w f = []).
    { unfold file_data, can_open in *.
      destruct (file_at w f) as [[d|]|]; try reflexivity. discriminate. }
    destruct (fopen_trunc f w) as [w1|] eqn:Ho;
      [|apply Hstop; [reflexivity | now right]].
    apply fopen_trunc_spec in Ho as [Hf ->].
    assert (Hd1 : file_data (set_file f [] w) f = [])
      by (now rewrite file_data_set_file_eq).
    rewrite Hd1. cbn [length]. change (Z.of_nat 0) with 0.
    rewrite Hempty in Hold. cbn [length] in Hold.
    destruct (Z.ltb_spec offset 0) as [?|_]; [lia|]. rewrite andb_false_r.
    assert (Hd : file_data (set_file f [] w) f
                 = take (Z.to_nat offset) (file_data w f))
      by (rewrite Hd1, Hempty; now rewrite take_nil).
    destruct (seek_fails (set_file f [] w) f offset);
      [apply Hstop; [reflexivity | now left]|].
    apply Hloop; [exact Hf | now apply can_open_set_file | reflexivity
                 | exact Hd].
Qed.

(** With the bytes at hand and a connection that delivers them, the loop
    of [handle_upload] runs to its end. *)
Lemma server_upload_loop_ready f filesize :
  forall n received w,
    rx_ready n w -> 0 <= received ->
    filesize - received <= 8192 * Z.of_nat n ->
    filesize - received <= Z.of_nat (length (incoming w)) ->
    (forall pos, faults w (OpWrite f pos) = false) ->
    exists w', Server.upload_loop (rx_script w) f filesize received w = Ok 0 w'.
Proof.
  induction n as [|n IH]; intros received w Hrx Hrec Hn Hin Hnf.
  - destruct (rx_script w); cbn [Server.upload_loop];
      destruct (Z.ltb_spec received filesize); try lia; now eexists.
  - destruct (rx_ready_S n w Hrx) as (k & s & Hs & Hk & Hnext).
    rewrite Hs. cbn [Server.upload_loop].
    destruct (Z.ltb_spec received filesize) as [Hlt|Hge]; [|now eexists].
    cbv zeta.
    set (to_read := if Server.BUF_SIZE <? filesize - received
                    then Server.BUF_SIZE else filesize - received).
    assert (Hto : 0 < to_read <= filesize - received /\ to_read <= 8192
                  /\ filesize - (received + to_read) <= 8192 * Z.of_nat n).
    { unfold to_read, Server.BUF_SIZE.
      destruct (Z.ltb_spec 8192 (filesize - received)); lia. }
    cbn [sys_recv incoming with_rx].
    assert (Hmin : Nat.min (Z.to_nat to_read)
                     (Nat.min (Pos.to_nat k) (length (incoming w)))
                   = Z.to_nat to_read) by lia.
    rewrite Hmin. rewrite Z2Nat.id by lia.
    destruct (Z.ltb_spec to_read 0) as [?|_]; [lia|].
    destruct (Z.eqb_spec to_read 0) as [?|_]; [lia|].
    cbn [faults with_incoming with_rx]. rewrite Hnf.
    match goal with
    | |- exists w', Server.upload_loop s f filesize _ ?w2 = _ =>
        destruct (IH (received + to_read) w2) as [w' Hw']
    end.
    + apply Hnext. reflexivity.
    + lia.
    + lia.
    + cbn [incoming fwrite set_file with_fs with_incoming].
      rewrite length_drop. lia.
    + intros pos. cbn [faults fwrite set_file with_fs]. apply Hnf.
    + exists w'. cbn [rx_script fwrite set_file with_fs with_incoming with_rx]
        in Hw'. exact Hw'.
Qed.

Lemma handle_upload_ready f filesize offset w n :
  0 <= offset <= filesize -> offset < 2 ^ 63 ->
  offset <= Z.of_nat (length (file_data w f)) ->
  f <> [] -> file_at w f <> Some Denied ->
  (forall op, faults w op = false) ->
  rx_ready n w ->
  filesize - offset <= 8192 * Z.of_nat n ->
  filesize - offset <= Z.of_nat (length (incoming w)) ->
  exists w', Server.handle_upload f filesize offset w = Ok 0 w'.
Proof.
  intros Hoff H63 Hold Hf Hden Hnf Hrx Hn Hin.
  assert (Hgo : forall w2,
             rx_script w2 = rx_script w -> incoming w2 = incoming w ->
             faults w2 = faults w ->
             exists w',
               (if seek_fails w2 f offset then Ok (-1) w2
                else Server.upload_loop (rx_script w2) f filesize offset w2)
               = Ok 0 w').
  { intros w2 Hr2 Hi2 Hf2. unfold seek_fails.
    rewrite off_t_small by lia. rewrite Hf2, Hnf. cbn [orb].
    apply (server_upload_loop_ready f filesize n offset w2).
    - eapply rx_ready_ext; [|exact Hrx]. exact Hr2.
    - lia.
    - exact Hn.
    - now rewrite Hi2.
    - intros pos. rewrite Hf2. apply Hnf. }
  unfold Server.handle_upload.
  destruct (can_open w f) eqn:Hopen.
  - rewrite !Hnf. cbn [negb andb].
    destruct (offset <? Z.of_nat (length (file_data w f)));
      apply Hgo; reflexivity.
  - unfold fopen_trunc. destruct f as [|b t]; [contradiction|].
    destruct (file_at w (b :: t)) as [[d|]|] eqn:Hat;
      try contradiction; rewrite Hnf.
    + unfold can_open in Hopen. rewrite Hat in Hopen. discriminate.
    + cbn [faults set_file with_fs]. rewrite !Hnf. cbn [negb andb].
      destruct (offset <? _); cbn [faults set_file with_fs];
        try rewrite Hnf; apply Hgo; reflexivity.
Qed.

End ServerStoresUpload.



Section ServerUploadOutcome.

Variables (w : world) (mode fname : list Z) (size : Z) (payload : list Z).
Hypothesis Hreq : upload_request w mode fname size payload.

Let f := cstr fname.
Let old := file_data w f.
Let agreed := Z.min (Z.of_nat (length old)) size.

Lemma agreed_bounds : 0 <= agreed <= size /\ agreed <= Z.of_nat (length old).
Proof. destruct Hreq as (_ & _ & _ & _ & Hsize). unfold agreed. lia. Qed.

(** However a served upload ends, the server's copy is as it was, or
    its first [agreed] bytes followed by a prefix of the payload. *)
Lemma handle_client_upload_safe :
  faults w (OpStat f) = false ->
  file_data (final (Server.handle_client w)) f = old
  \/ exists k : nat,
       agreed + Z.of_nat k <= size
       /\ file_data (final (Server.handle_client w)) f
          = take (Z.to_nat agreed) old ++ take k payload.
Proof.
  intros Hstat. pose proof agreed_bounds as Hag.
  destruct (final_handle_client w) as (Hsent & Hfs & Hinc).
  rewrite (file_data_ext _ _ f Hfs).
    destruct (serve_upload_cases_faults w mode fname size payload Hreq)
      as [(Hsame & _)|(w3 & Hfs3 & Hfa3 & Hs3 & Hi3 & Hrun)].
    + left. now apply file_data_ext.
    + cbv zeta in Hrun. fold f old agreed in Hrun.
      assert (Hold3 : file_data w3 f = old) by (now apply file_data_ext).
      destruct (handle_upload_stores_stream_aux f size agreed w3)
        as (k & c & Hk & Hb & _ & Hfile & _);
        [lia | rewrite Hold3; lia | now rewrite Hfa3 |].
      cbv zeta in Hfile. rewrite Hold3, Hi3 in Hfile.
      rewrite Hrun. unfold bind.
      destruct (Server.handle_upload f size agreed w3) as [v w'|w'|w'];
        cbn [final ret] in Hfile |- *;
        (destruct Hfile as [Hfile|[_ Hfile]];
         [right; exists k; split; [lia | exact Hfile]
         |left; rewrite (file_data_ext _ _ f Hfile); exact Hold3]).
Qed.

(** With the whole payload on a connection that delivers it and storage
    that does not fail, the upload is stored and the handler returns. *)
Lemma handle_client_upload_ready n :
  f <> [] -> file_at w f <> Some Denied -> size < 2 ^ 63 ->
  (forall op, faults w op = false) ->
  Z.of_nat (length payload) = size - agreed ->
  rx_ready (5 + n) w -> size - agreed <= 8192 * Z.of_nat n ->
  tx_ready 1 w ->
  exists w',
    Server.handle_client w = Ok tt w'
    /\ file_data w' f = take (Z.to_nat agreed) old ++ payload
    /\ incoming w' = []
    /\ sent w' = sent w ++ be_bytes 8 agreed.
Proof.
  intros Hf Hden H63 Hnf Hlen Hrx Hn Htx. pose proof agreed_bounds as Hag.
    destruct (serve_upload_ready_more n w mode fname size payload Hreq Hden
                Hrx Htx)
      as (w3 & Hfs3 & Hfa3 & Hs3 & Hi3 & Hr3 & Hrun).
    cbv zeta in Hrun, Hs3. fold f old agreed in Hrun, Hs3.
    assert (Hold3 : file_data w3 f = old) by (now apply file_data_ext).
    destruct (handle_upload_ready f size agreed w3 n) as [w' Hw'];
      [lia | lia | rewrite Hold3; lia | exact Hf
      | now rewrite (file_at_ext w w3 f Hfs3)
      | intros op; rewrite Hfa3; apply Hnf | exact Hr3 | exact Hn
      | rewrite Hi3; lia |].
    destruct (handle_upload_stores_stream_aux f size agreed w3)
      as (k & c & Hk & Hb & Hi & _ & Hv);
      [lia | rewrite Hold3; lia | now rewrite Hfa3 |].
    cbv zeta in Hi, Hv. rewrite Hold3, Hi3 in Hv. rewrite Hi3 in Hi, Hk.
    destruct (Hv 0 w' Hw') as [(_ & <- & Hz & Hdata)|?]; [|lia].
    rewrite Hw' in Hi. cbn [final] in Hi.
    assert (Hkl : k = length payload) by lia.
    rewrite Hkl, firstn_all in Hdata. rewrite Hkl, drop_all in Hi.
    assert (Hserve : Server.serve w = Ok tt w')
      by (rewrite Hrun; unfold bind; rewrite Hw'; reflexivity).
    assert (Hsw : sent w' = sent w ++ be_bytes 8 agreed).
    { pose proof (handle_upload_spec f size agreed w3
                    ltac:(rewrite Hold3; lia)) as (Hup & _).
      cbv zeta in Hup. rewrite Hw' in Hup. cbn [final] in Hup.
      destruct Hup. congruence. }
    exists (close w'). unfold Server.handle_client. rewrite Hserve.
    split; [reflexivity|]. split; [exact Hdata|]. split; [exact Hi|exact Hsw].
Qed.

End ServerUploadOutcome.

(** ** client.c, the bytes an upload sends *)

Section ClientUploadStream.

(** A ledger write leaves the file being transferred alone. *)
Lemma file_data_ledger_write f val w :
  fits_ledger f ->
  let w' := snd (Client.write_progress_atomic f val w) in
  file_data w' f = file_data w f /\ sent w' = sent w
  /\ incoming w' = incoming w /\ tx_script w' = tx_script w
  /\ rx_script w' = rx_script w /\ faults w' = faults w /\ host w' = host w.
Proof.
  intros Hfit. cbv zeta.
  destruct (write_progress_atomic_effect f val w Hfit)
    as [[? ? ? ? ? ? ? Hothers] _].
  destruct (ledger_paths_distinct f Hfit) as (_ & Hp & Ht & _).
  repeat split; try assumption.
  unfold file_data, file_at. destruct f as [|b t]; [reflexivity|].
  rewrite Hothers by congruence. reflexivity.
Qed.

Lemma file_at_ledger_write f val w :
  fits_ledger f ->
  file_at (snd (Client.write_progress_atomic f val w)) f = file_at w f.
Proof.
  intros Hfit.
  destruct (write_progress_atomic_effect f val w Hfit)
    as [[? ? ? ? ? ? ? Hothers] _].
  destruct (ledger_paths_distinct f Hfit) as (_ & Hp & Ht & _).
  unfold file_at. destruct f as [|b t]; [reflexivity|].
  rewrite Hothers by congruence. reflexivity.
Qed.

Lemma client_upload_loop_sends f cs :
  fits_ledger f ->
  forall total w,
    runs (Client.upload_loop cs f total) w
      (fun _ w' => sent w' = sent w ++ concat cs
                   /\ file_data w' f = file_data w f
                   /\ incoming w' = incoming w)
      (fun w' => sent_within w (concat cs) w'
                 /\ file_data w' f = file_data w f
                 /\ incoming w' = incoming w).
Proof.
  intros Hfit. unfold runs.
  induction cs as [|c cs IH]; intros total w; cbn [Client.upload_loop concat].
  - destruct (faults w (OpRead f total)).
    + split; [apply sent_within_refl | split; reflexivity].
    + rewrite app_nil_r. repeat split.
  - destruct (faults w (OpRead f total)).
    { split; [apply sent_within_refl | split; reflexivity]. }
    pose proof (client_send_all_spec c w) as Hs.
    destruct (Client.send_all c w) as [v w1|w1|w1]; cbn [send_post] in Hs;
      [|contradiction|].
    2:{ destruct Hs as [[? Hfs ? Hi ? ? [k Hk]] _].
        split; [apply sent_within_app_l; now exists k|].
        split; [now apply file_data_ext | exact Hi]. }
    destruct Hs as [[? Hfs ? Hi ? ? [k Hk]] Hv].
    destruct (Z.eqb_spec v (Z.of_nat (length c))) as [->|Hne]; cbn [negb].
    2:{ split; [apply sent_within_app_l; now exists k|].
        split; [now apply file_data_ext | exact Hi]. }
    destruct Hv as [[_ Hs1]|?]; [|lia].
    destruct (Client.write_progress_atomic f
                (total + Z.of_nat (length c)) w1) as [rc w2] eqn:Hw.
    pose proof (file_data_ledger_write f (total + Z.of_nat (length c)) w1 Hfit)
      as (Hd2 & Hs2 & Hi2 & _).
    cbv zeta in Hd2, Hs2, Hi2. rewrite Hw in Hd2, Hs2, Hi2.
    cbn [snd] in Hd2, Hs2, Hi2.
    specialize (IH (total + Z.of_nat (length c)) w2).
    assert (Hsw : sent w2 = sent w ++ c) by congruence.
    assert (Hdw : file_data w2 f = file_data w f)
      by (rewrite Hd2; now apply file_data_ext).
    assert (Hiw : incoming w2 = incoming w) by congruence.
    destruct (Client.upload_loop cs f (total + Z.of_nat (length c)) w2)
      as [u w'|w'|w'].
    + destruct IH as (Hs' & Hd' & Hi').
      split; [rewrite Hs', Hsw, <- app_assoc; reflexivity|].
      split; congruence.
    + destruct IH as (Hs' & Hd' & Hi').
      split; [eapply sent_within_app_r; eassumption|]. split; congruence.
    + destruct IH as (Hs' & Hd' & Hi').
      split; [eapply sent_within_app_r; eassumption|]. split; congruence.
Qed.

Lemma client_upload_loop_ready f cs :
  forall total w,
    tx_ready (length cs) w ->
    Forall (fun c => Z.of_nat (length c) <= 8192) cs ->
    (forall pos, faults w (OpRead f pos) = false) ->
    exists w', Client.upload_loop cs f total w = Ok tt w'.
Proof.
  induction cs as [|c cs IH]; intros total w Htx Hcs Hnf;
    cbn [Client.upload_loop]; rewrite Hnf; [now eexists|].
  inversion Hcs as [|? ? Hc Hcs']; subst.
  destruct (client_send_all_ready (length cs) c w Htx Hc)
    as (w1 & E1 & T1 & S1 & R1).
  rewrite E1, Z.eqb_refl. cbn [negb].
  unfold Client.write_progress_atomic.
  destruct (Client.write_progress_ops f (total + Z.of_nat (length c)) w1)
    as [rc ops].
  apply IH; [|exact Hcs'|].
  - eapply tx_ready_ext; [|exact R1]. reflexivity.
  - intros pos. cbn [faults with_fs]. destruct T1 as [? ? Hfa]. rewrite Hfa.
    apply Hnf.
Qed.

Lemma chunks_bounded n (l : list Z) :
  Forall (fun c => Z.of_nat (length c) <= Z.of_nat n) (chunks n l).
Proof.
  unfold chunks. eapply Forall_impl; [apply chunks_aux_bounded|].
  cbv beta. intros c Hc. lia.
Qed.

(** The streaming loop with every ledger write succeeding: the ledger
    holds the count reached with the last chunk handed whole to [send],
    and what was sent goes less than one chunk beyond it. *)
Lemma ledger_works_ext f w w' :
  fs w' = fs w -> faults w' = faults w -> ledger_works f w ->
  ledger_works f w'.
Proof.
  intros Hfs Hfa [? ? Hfl ? ? ?].
  split; unfold ledger_flushes, file_at in *; rewrite ?Hfs, ?Hfa; assumption.
Qed.

Lemma ledger_records_none f w0 w :
  fs w !! Client.prog_path f = fs w0 !! Client.prog_path f ->
  forall count, ledger_records f w0 w 0 count.
Proof. intros H count. exact H. Qed.



(** The negotiation of an upload answered by an offset within the
    file: the client stops before its loop, with a prefix of its request
    sent and no file changed; or it goes on to the loop with the whole
    request sent and the reply consumed. *)
Lemma client_upload_reaches f w data agreed rest
    (Q : unit -> world -> Prop) (E : world -> Prop) :
  file_at w f = Some (Reg data) ->
  incoming w = be_bytes 8 agreed ++ rest ->
  0 <= agreed <= Z.of_nat (length data) ->
  Z.of_nat (length data) < 2 ^ 64 ->
  Z.of_nat (length f) < 2 ^ 32 ->
  let header := request_header "upload" f (Z.of_nat (length data)) in
  let body := drop (Z.to_nat agreed) data in
  (forall w',
      sent_within w header w' -> fs w' = fs w -> faults w' = faults w ->
      E w') ->
  (forall w4,
      sent w4 = sent w ++ header -> incoming w4 = rest ->
      fs w4 = fs w -> faults w4 = faults w ->
      runs (bind (Client.upload_loop (chunks (Z.to_nat Client.CHUNK) body)
                    f agreed)
              (fun _ => update (Client.remove_progress f))) w4 Q E) ->
  runs (Client.upload f) w Q E.
Proof.
  intros Hf Hin Hag H64 Hlen. cbv zeta. intros Hstop Hgo. unfold Client.upload.
  set (header := request_header "upload" f (Z.of_nat (length data))) in *.
  set (body := drop (Z.to_nat agreed) data) in *.
  assert (Hreq : header
                 = (field (bytes_of_string "upload") ++ field f)
                   ++ be_bytes 8 (Z.of_nat (length data)))
    by (unfold header, request_header; now rewrite <- app_assoc).
  destruct (file_data_reg w f data Hf) as [Hdata Hopen].
  assert (Hearly : forall w', tx_only header w w' -> E w').
  { intros w' [? Hfs Hfa Hi ? ? [k Hk]].
    apply Hstop; [now exists k | exact Hfs | exact Hfa]. }
  eapply runs_bind_via;
    [apply (client_send_request_runs (bytes_of_string "upload") f w);
     [rewrite length_bytes_of_string; cbn; lia | exact Hlen] | |].
  { intros w' Htx. apply Hearly. rewrite Hreq. now apply tx_only_app_l. }
  intros u2 w2 [Htx2 Hs2].
  assert (Hsz : Client.get_file_size_stat w2 f = Z.of_nat (length data)).
  { unfold Client.get_file_size_stat, sys_stat.
    rewrite (file_at_ext w w2 f) by (now destruct Htx2). now rewrite Hf. }
  eapply runs_bind_via with
    (Q1 := fun sz w' => sz = Z.of_nat (length data) /\ w' = w2)
    (E1 := fun _ => False);
    [apply runs_get; split; [exact Hsz | reflexivity] | contradiction |].
  intros sz w2' [-> ->].
  destruct (Z.ltb_spec (Z.of_nat (length data)) 0) as [?|_]; [lia|].
  rewrite (u64_id (Z.of_nat (length data))) by lia.
  eapply runs_bind_via with (Q1 := fun h w' => h = host w2 /\ w' = w2)
                            (E1 := fun _ => False);
    [apply runs_get; split; reflexivity | contradiction |].
  intros h w2' [-> ->]. rewrite store_htonll.
  eapply runs_bind_via.
  { apply (client_send_field_stage w
             (field (bytes_of_string "upload") ++ field f)
             (be_bytes 8 (Z.of_nat (length data))) [] header w2);
      [rewrite Hreq, app_nil_r; reflexivity | exact Htx2 | exact Hs2]. }
  { intros w' Htx. now apply Hearly. }
  intros u3 w3 [Htx3 Hs3]. rewrite <- Hreq in Htx3, Hs3.
  assert (Hi3 : incoming w3 = incoming w) by (now destruct Htx3).
  assert (Hfs3 : fs w3 = fs w) by (now destruct Htx3).
  assert (Hfa3 : faults w3 = faults w) by (now destruct Htx3).
  assert (Hlate : forall w', rx_only w3 w' -> E w').
  { intros w' [? Hfs' Hfa' ? Hs' ? ?]. apply Hstop.
    - apply sent_within_all. congruence.
    - congruence.
    - congruence. }
  eapply runs_bind_via; [apply (client_recv_all_runs 8 w3); lia | |].
  { intros w' [Hrx _]. now apply Hlate. }
  intros [r net_agreed] w4 (Hrx4 & _ & H4).
  change (Z.to_nat 8) with 8%nat in *.
  destruct (Z.eqb_spec r 8) as [->|Hr]; cbn [negb];
    [|apply runs_exit, Hlate; exact Hrx4].
  destruct (H4 eq_refl) as (-> & _ & Hi4).
  rewrite Hi3, Hin in Hi4 |- *. rewrite take_be_bytes_app.
  rewrite drop_be_bytes_app in Hi4.
  rewrite load_be_bytes by lia.
  destruct (Z.ltb_spec (Z.of_nat (length data)) agreed) as [?|_]; [lia|].
  assert (Hfs4 : fs w4 = fs w) by (destruct Hrx4; congruence).
  assert (Hfa4 : faults w4 = faults w) by (destruct Hrx4; congruence).
  assert (Hs4 : sent w4 = sent w ++ header) by (destruct Hrx4; congruence).
  eapply runs_bind_via with (Q1 := fun ok w' => ok = true /\ w' = w4)
                            (E1 := fun _ => False);
    [apply runs_get; split; [|reflexivity] | contradiction |].
  { now rewrite (can_open_ext w w4 f Hfs4). }
  intros ok w4' [-> ->]. cbn [negb].
  eapply runs_bind_via with
    (Q1 := fun bad w' => bad = seek_fails w4 f agreed /\ w' = w4)
    (E1 := fun _ => False);
    [apply runs_get; split; reflexivity | contradiction |].
  intros bad w4' [-> ->].
  destruct (seek_fails w4 f agreed); [apply runs_exit, Hlate; exact Hrx4|].
  eapply runs_bind_via with (Q1 := fun d w' => d = data /\ w' = w4)
                            (E1 := fun _ => False);
    [apply runs_get; split; [|reflexivity] | contradiction |].
  { rewrite <- Hdata. now apply file_data_ext. }
  intros d w4' [-> ->]. fold body.
  now apply Hgo.
Qed.

Lemma runs_and_final {A} (c : M A) w (Q : A -> world -> Prop)
    (E P : world -> Prop) :
  runs c w Q E -> P (final (c w)) ->
  runs c w (fun a w' => Q a w' /\ P w') (fun w' => E w' /\ P w').
Proof. unfold runs. destruct (c w); cbn [final]; auto. Qed.

Lemma sent_remove_progress f w : sent (Client.remove_progress f w) = sent w.
Proof. reflexivity. Qed.

Lemma incoming_remove_progress f w :
  incoming (Client.remove_progress f w) = incoming w.
Proof. reflexivity. Qed.

(** Storage behaves after the loop as before it. *)
Lemma client_upload_loop_faults f cs total w :
  faults (final (Client.upload_loop cs f total w)) = faults w.
Proof.
  destruct (same_faults_kept f w) as (H1 & H2 & H3).
  exact (keeps_client_upload_loop f (fun w' => faults w' = faults w)
           H1 H2 cs total w eq_refl).
Qed.

(** An upload answered by an offset within the file: what [upload] puts
    on the wire is the request header and the file from the offset on,
    or a prefix of that when it stops early; the file is not changed;
    the ledger is gone at the end unless its [unlink] fails. *)
Lemma client_upload_sends f w data agreed rest :
  fits_ledger f ->
  file_at w f = Some (Reg data) ->
  incoming w = be_bytes 8 agreed ++ rest ->
  0 <= agreed <= Z.of_nat (length data) ->
  Z.of_nat (length data) < 2 ^ 64 ->
  Z.of_nat (length f) < 2 ^ 32 ->
  let stream := request_header "upload" f (Z.of_nat (length data))
                ++ drop (Z.to_nat agreed) data in
  runs (Client.upload f) w
    (fun _ w' =>
       sent w' = sent w ++ stream /\ file_data w' f = data
       /\ (faults w (OpUnlink (Client.prog_path f)) = false ->
           fs w' !! Client.prog_path f = None)
       /\ incoming w' = rest)
    (fun w' => sent_within w stream w' /\ file_data w' f = data).
Proof.
  intros Hfit Hf Hin Hag H64 Hlen. cbv zeta.
  set (header := request_header "upload" f (Z.of_nat (length data))).
  set (body := drop (Z.to_nat agreed) data).
  destruct (file_data_reg w f data Hf) as [Hdata Hopen].
  apply (client_upload_reaches f w data agreed rest _ _ Hf Hin Hag H64 Hlen);
    fold header body.
  - intros w' Hs Hfs _. split; [now apply sent_within_app_l|].
    rewrite <- Hdata. now apply file_data_ext.
  - intros w4 Hs4 Hi4 Hfs4 Hfa4.
    assert (Hcat : concat (chunks (Z.to_nat Client.CHUNK) body) = body)
      by (apply concat_chunks; unfold Client.CHUNK; lia).
    assert (Hd4 : file_data w4 f = data)
      by (rewrite <- Hdata; now apply file_data_ext).
    pose proof (runs_and_final _ w4 _ _ (fun w' => faults w' = faults w4)
                  (client_upload_loop_sends f
                     (chunks (Z.to_nat Client.CHUNK) body) Hfit agreed w4)
                  (client_upload_loop_faults f _ agreed w4)) as Hloop.
    eapply runs_bind_via; [exact Hloop | |].
    { cbv beta. rewrite Hcat. intros w' [(Hsw & Hdw & _) _].
      split; [|congruence]. eapply sent_within_app_r; eassumption. }
    cbv beta. rewrite Hcat. intros u5 w5 [(Hs5 & Hd5 & Hi5) Hfa5].
    apply runs_update.
    split; [rewrite sent_remove_progress, Hs5, Hs4, <- app_assoc;
            reflexivity|].
    split; [rewrite file_data_remove_progress by exact Hfit; congruence|].
    split; [|rewrite incoming_remove_progress; congruence].
    intros Hun. apply remove_progress_gone. now rewrite Hfa5, Hfa4.
Qed.


(** The same upload on a connection that does not stall, with storage
    that does not fail: [upload] runs to its end. *)
Lemma client_upload_ready f w data agreed rest :
  file_at w f = Some (Reg data) ->
  incoming w = be_bytes 8 agreed ++ rest ->
  0 <= agreed <= Z.of_nat (length data) ->
  Z.of_nat (length data) < 2 ^ 63 ->
  Z.of_nat (length f) <= 8192 ->
  (forall op, faults w op = false) ->
  rx_ready 1 w ->
  tx_ready (5 + length (chunks (Z.to_nat Client.CHUNK)
                          (drop (Z.to_nat agreed) data))) w ->
  exists w', Client.upload f w = Ok tt w'.
Proof.
  intros Hf Hin Hag H63 Hlen Hnf Hrx Htx. unfold Client.upload.
  set (cs := chunks (Z.to_nat Client.CHUNK) (drop (Z.to_nat agreed) data))
    in *.
  destruct (file_data_reg w f data Hf) as [Hdata Hopen].
  destruct (client_send_request_ready (1 + length cs)
              (bytes_of_string "upload") f w Htx)
    as (w2 & E2 & T2 & S2 & R2);
    [rewrite length_bytes_of_string; cbn; lia | exact Hlen |].
  unfold bind at 1. rewrite E2.
  unfold bind at 1. cbn [get].
  unfold Client.get_file_size_stat, sys_stat.
  rewrite (file_at_ext w w2 f) by (now destruct T2). rewrite Hf.
  destruct (Z.ltb_spec (Z.of_nat (length data)) 0) as [?|_]; [lia|].
  rewrite (u64_id (Z.of_nat (length data))) by lia.
  unfold bind at 1. cbn [get]. rewrite store_htonll.
  destruct (client_send_field_ready (length cs)
              (be_bytes 8 (Z.of_nat (length data))) w2 R2)
    as (w3 & E3 & T3 & S3 & R3); [rewrite length_be_bytes; lia|].
  unfold bind at 1. rewrite E3.
  assert (Hi3 : incoming w3 = incoming w)
    by (destruct T2, T3; congruence).
  assert (Hr3 : rx_ready 1 w3).
  { eapply rx_ready_ext; [|exact Hrx]. destruct T2, T3. congruence. }
  destruct (client_recv_all_ready 0 8 w3 Hr3) as (w4 & E4 & X4 & _);
    [lia | rewrite Hi3, Hin, length_app, length_be_bytes; lia |].
  unfold bind at 1. rewrite E4. cbn [negb Z.eqb Pos.eqb].
  change (Z.to_nat 8) with 8%nat.
  rewrite Hi3, Hin, take_be_bytes_app, load_be_bytes by lia.
  destruct (Z.ltb_spec (Z.of_nat (length data)) agreed) as [?|_]; [lia|].
  assert (Hfs4 : fs w4 = fs w) by (destruct T2, T3, X4; congruence).
  assert (Hfa4 : faults w4 = faults w) by (destruct T2, T3, X4; congruence).
  unfold bind at 1. cbn [get].
  rewrite (can_open_ext w w4 f Hfs4), Hopen. cbn [negb].
  unfold bind at 1. cbn [get]. unfold seek_fails.
  rewrite off_t_small by lia. rewrite Hfa4, Hnf. cbn [orb].
  unfold bind at 1. cbn [get].
  rewrite (file_data_ext w w4 f Hfs4), Hdata. fold cs.
  destruct (client_upload_loop_ready f cs agreed w4) as [w5 E5].
  - eapply tx_ready_ext; [|exact R3]. destruct X4. congruence.
  - eapply Forall_impl; [apply chunks_bounded|]. cbv beta.
    unfold Client.CHUNK. intros c Hc. lia.
  - intros pos. rewrite Hfa4. apply Hnf.
  - unfold bind. rewrite E5. now eexists.
Qed.

End ClientUploadStream.

Lemma client_upload_complete f w data agreed rest :
  fits_ledger f ->
  file_at w f = Some (Reg data) ->
  incoming w = be_bytes 8 agreed ++ rest ->
  0 <= agreed <= Z.of_nat (length data) ->
  Z.of_nat (length data) < 2 ^ 63 ->
  (forall op, faults w op = false) ->
  rx_ready 1 w ->
  tx_ready (5 + length (chunks (Z.to_nat Client.CHUNK)
                          (drop (Z.to_nat agreed) data))) w ->
  exists w',
    Client.client_upload f w = Ok 0 w'
    /\ sent w' = sent w ++ request_header "upload" f (Z.of_nat (length data))
                 ++ drop (Z.to_nat agreed) data
    /\ file_data w' f = data
    /\ fs w' !! Client.prog_path f = None
    /\ incoming w' = rest.
Proof.
  intros Hfit Hf Hin Hag H63 Hnf Hrx Htx.
  assert (Hlen : Z.of_nat (length f) < 4096) by (unfold fits_ledger in Hfit; lia).
  destruct (client_upload_ready f w data agreed rest Hf Hin Hag H63
              ltac:(lia) Hnf Hrx Htx) as [w' Hw'].
  pose proof (client_upload_sends f w data agreed rest Hfit Hf Hin Hag
                ltac:(lia) ltac:(lia)) as Hsafe.
  cbv zeta in Hsafe. unfold runs in Hsafe. rewrite Hw' in Hsafe.
  destruct Hsafe as (Hs & Hd & Hgone & Hi).
  exists (close w'). unfold Client.client_upload. rewrite Hw'.
  split; [reflexivity|]. split; [exact Hs|]. split; [exact Hd|].
  split; [apply Hgone, Hnf | exact Hi].
Qed.

(** X1.  [handle_client] on an upload request of declared size [size]
    followed by [payload], when [fstat] of the target does not fail.
    However the handler ends, the server's copy is as it was or consists
    of the first [agreed = min (E, size)] bytes it held followed by a
    prefix of the payload: what a broken connection leaves is what a
    later upload resumes from.  When the payload is complete, the
    connection delivers and storage does not fail, the handler returns
    with the copy equal to those [agreed] bytes followed by the payload,
    having sent the offset and nothing else. *)
Theorem server_stores_upload :
  forall w mode fname size payload,
    upload_request w mode fname size payload ->
    let f := cstr fname in
    let old := file_data w f in
    let agreed := Z.min (Z.of_nat (length old)) size in
    let r := Server.handle_client w in
    faults w (OpStat f) = false ->
    (file_data (final r) f = old
     \/ exists k : nat,
          agreed + Z.of_nat k <= size
          /\ file_data (final r) f
             = take (Z.to_nat agreed) old ++ take k payload)
    /\ (forall n,
          f <> [] -> file_at w f <> Some Denied -> size < 2 ^ 63 ->
          (forall op, faults w op = false) ->
          Z.of_nat (length payload) = size - agreed ->
          rx_ready (5 + n) w -> size - agreed <= 8192 * Z.of_nat n ->
          tx_ready 1 w ->
          exists w',
            r = Ok tt w'
            /\ file_data w' f = take (Z.to_nat agreed) old ++ payload
            /\ incoming w' = []
            /\ sent w' = sent w ++ be_bytes 8 agreed).
Proof.
  intros w mode fname size payload Hreq. cbv zeta. intros Hstat. split.
  - exact (handle_client_upload_safe w mode fname size payload Hreq Hstat).
  - intros n. exact (handle_client_upload_ready w mode fname size payload Hreq n).
Qed.

Lemma server_stores_upload_witness :
  exists w',
    Server.handle_client fresh_upload = Ok tt w'
    /\ file_data w' (bytes_of_string "f") = [7; 8; 9].
Proof.
  destruct (proj2 (server_stores_upload fresh_upload _ _ _ _
                     fresh_upload_request eq_refl) 1%nat)
    as (w' & Hrun & Hdata & _).
  - discriminate.
  - discriminate.
  - reflexivity.
  - reflexivity.
  - reflexivity.
  - apply connection_rx_ready. lia.
  - vm_compute. discriminate.
  - apply connection_tx_ready. lia.
  - exists w'. split; [exact Hrun | exact Hdata].
Defined.

(** X2.  [client_upload] of a file of [length data] bytes, answered by
    an offset [agreed] within it.  What the client sends is the request
    header followed by the file from byte [agreed] on, or a prefix of
    that when the call fails or stalls; its file is never changed.  When
    it returns 0 all of it has been sent, and the ledger is gone unless
    its [unlink], whose result the code does not look at, failed.  It
    returns 0 when storage does not fail, the reply is handed over by
    one [recv] and each of the buffers it sends is taken whole by one
    [send]. *)
Theorem client_upload_streams_remainder :
  forall f w data agreed rest,
    fits_ledger f ->
    file_at w f = Some (Reg data) ->
    incoming w = be_bytes 8 agreed ++ rest ->
    0 <= agreed <= Z.of_nat (length data) ->
    Z.of_nat (length data) < 2 ^ 63 ->
    let stream := request_header "upload" f (Z.of_nat (length data))
                  ++ drop (Z.to_nat agreed) data in
    let r := Client.client_upload f w in
    sent_within w stream (final r)
    /\ file_data (final r) f = data
    /\ (forall w', r = Ok 0 w' ->
          sent w' = sent w ++ stream /\ incoming w' = rest
          /\ (faults w (OpUnlink (Client.prog_path f)) = false ->
              fs w' !! Client.prog_path f = None))
    /\ ((forall op, faults w op = false) -> rx_ready 1 w ->
        tx_ready (5 + length (chunks (Z.to_nat Client.CHUNK)
                                (drop (Z.to_nat agreed) data))) w ->
        exists w', r = Ok 0 w').
Proof.
  intros f w data agreed rest Hfit Hf Hin Hag H63. cbv zeta.
  assert (Hlen : Z.of_nat (length f) < 4096) by (unfold fits_ledger in Hfit; lia).
  pose proof (client_upload_sends f w data agreed rest Hfit Hf Hin Hag
                ltac:(lia) ltac:(lia)) as Hsafe.
  cbv zeta in Hsafe. unfold runs in Hsafe. unfold Client.client_upload.
  destruct (Client.upload f w) as [u w'|w'|w'] eqn:Hrun; cbn [final].
  - destruct Hsafe as (Hs & Hd & Hp & Hi).
    split; [now apply sent_within_all|]. split; [exact Hd|].
    split; [|intros _ _ _; now eexists].
    intros w'' [= <-]. repeat split; assumption.
  - destruct Hsafe as (Hs & Hd). split; [exact Hs|]. split; [exact Hd|].
    split; [discriminate|]. intros Hnf Hrx Htx.
    destruct (client_upload_ready f w data agreed rest Hf Hin Hag H63
                ltac:(lia) Hnf Hrx Htx) as [w'' Hw'']. congruence.
  - destruct Hsafe as (Hs & Hd). split; [exact Hs|]. split; [exact Hd|].
    split; [discriminate|]. intros Hnf Hrx Htx.
    destruct (client_upload_ready f w data agreed rest Hf Hin Hag H63
                ltac:(lia) Hnf Hrx Htx) as [w'' Hw'']. congruence.
Qed.

Lemma client_upload_streams_remainder_witness :
  exists w',
    Client.client_upload (bytes_of_string "f") resumed_upload = Ok 0 w'
    /\ sent w' = [] ++ request_header "upload" (bytes_of_string "f") 3
                 ++ [8; 9].
Proof.
  assert (Hfit : fits_ledger (bytes_of_string "f"))
    by (vm_compute; reflexivity).
  destruct (client_upload_streams_remainder (bytes_of_string "f")
              resumed_upload [7; 8; 9] 1 [] Hfit)
    as (_ & _ & Hsent & Hlive).
  - vm_compute. reflexivity.
  - reflexivity.
  - vm_compute. split; discriminate.
  - vm_compute. reflexivity.
  - destruct Hlive as [w' Hw'].
    + reflexivity.
    + apply connection_rx_ready. lia.
    + apply connection_tx_ready. vm_compute. lia.
    + exists w'. split; [exact Hw' | exact (proj1 (Hsent w' Hw'))].
Defined.

(** X3.  An upload end to end.  The client holds [data] under the name
    [f], the server [old] (nothing, when it has no such file); each side
    receives exactly what the other sends.  With connections that
    deliver and storage that does not fail, the client returns 0, the
    server's handler returns, and the server's copy ends as the first
    [agreed = min (|old|, |data|)] bytes of [old] followed by [data]
    from byte [agreed] on: equal to [data] when the bytes the server
    kept agree with the client's, which neither side checks. *)
Theorem upload_end_to_end :
  forall f data old wc ws n,
    0 < Z.of_nat (length f) < 512 -> cstr f = f ->
    file_at wc f = Some (Reg data) -> Z.of_nat (length data) < 2 ^ 63 ->
    file_data ws f = old -> file_at ws f <> Some Denied ->
    let agreed := Z.min (Z.of_nat (length old)) (Z.of_nat (length data)) in
    let request := request_header "upload" f (Z.of_nat (length data))
                   ++ drop (Z.to_nat agreed) data in
    let reply := be_bytes 8 agreed in
    incoming wc = reply -> incoming ws = request ->
    (forall op, faults wc op = false) -> (forall op, faults ws op = false) ->
    rx_ready 1 wc ->
    tx_ready (5 + length (chunks (Z.to_nat Client.CHUNK)
                            (drop (Z.to_nat agreed) data))) wc ->
    rx_ready (5 + n) ws ->
    Z.of_nat (length data) - agreed <= 8192 * Z.of_nat n ->
    tx_ready 1 ws ->
    exists wc' ws',
      Client.client_upload f wc = Ok 0 wc'
      /\ Server.handle_client ws = Ok tt ws'
      /\ sent wc' = sent wc ++ request
      /\ sent ws' = sent ws ++ reply
      /\ file_data ws' f
         = take (Z.to_nat agreed) old ++ drop (Z.to_nat agreed) data
      /\ (take (Z.to_nat agreed) old = take (Z.to_nat agreed) data ->
          file_data ws' f = data)
      /\ file_data wc' f = data
      /\ fs wc' !! Client.prog_path f = None.
Proof.
  intros f data old wc ws n Hlen Hstr Hfc H63 Hold Hden. cbv zeta.
  set (agreed := Z.min (Z.of_nat (length old)) (Z.of_nat (length data))).
  intros Hic His Hnfc Hnfs Hrxc Htxc Hrxs Hn Htxs.
  assert (Hfit : fits_ledger f) by (unfold fits_ledger; lia).
  assert (Hf : f <> []) by (intros ->; cbn in Hlen; lia).
  destruct (client_upload_complete f wc data agreed [] Hfit Hfc)
    as (wc' & Hrunc & Hsentc & Hdatac & Hledger & _);
    [now rewrite app_nil_r | unfold agreed; lia | exact H63 | exact Hnfc
    | exact Hrxc | exact Htxc |].
  assert (Hreq : upload_request ws (bytes_of_string "upload") f
                   (Z.of_nat (length data)) (drop (Z.to_nat agreed) data)).
  { split; [|split; [reflexivity|split; [cbn; lia|split; [exact Hlen|lia]]]].
    rewrite His. unfold request_header. now rewrite <- !app_assoc. }
  pose proof (handle_client_upload_ready ws (bytes_of_string "upload") f
                (Z.of_nat (length data)) (drop (Z.to_nat agreed) data)
                Hreq n) as Hserver.
  cbv zeta in Hserver. rewrite Hstr, Hold in Hserver. fold agreed in Hserver.
  destruct Hserver as (ws' & Hruns & Hdatas & _ & Hsents);
    [exact Hf | exact Hden | exact H63 | exact Hnfs
    | rewrite length_drop; unfold agreed; lia | exact Hrxs | exact Hn
    | exact Htxs |].
  exists wc', ws'. repeat (split; [assumption|]).
  split; [|split; assumption].
  intros Hpre. rewrite Hdatas, Hpre. apply take_drop.
Qed.

Lemma upload_end_to_end_witness :
  exists wc' ws',
    Client.client_upload (bytes_of_string "f") resumed_upload = Ok 0 wc'
    /\ Server.handle_client resuming_server = Ok tt ws'
    /\ file_data ws' (bytes_of_string "f") = [7; 8; 9].
Proof.
  destruct (upload_end_to_end (bytes_of_string "f") [7; 8; 9] [7]
              resumed_upload resuming_server 1)
    as (wc' & ws' & Hc & Hs & _ & _ & _ & Hsame & _).
  - vm_compute. split; reflexivity.
  - reflexivity.
  - vm_compute. reflexivity.
  - vm_compute. reflexivity.
  - vm_compute. reflexivity.
  - vm_compute. discriminate.
  - reflexivity.
  - reflexivity.
  - reflexivity.
  - reflexivity.
  - apply connection_rx_ready. lia.
  - apply connection_tx_ready. vm_compute. lia.
  - apply connection_rx_ready. lia.
  - vm_compute. discriminate.
  - apply connection_tx_ready. lia.
  - exists wc', ws'. split; [exact Hc|]. split; [exact Hs|].
    apply Hsame. reflexivity.
Defined.

(** ** client.c, the bytes a download stores *)

Section ClientDownloadStream.

Lemma drop_consumed (l l' : list Z) n :
  l' = drop n l -> l' = drop (length l - length l') l.
Proof.
  intros ->. rewrite length_drop.
  destruct (Nat.le_gt_cases n (length l)) as [Hle|Hgt].
  - f_equal. lia.
  - rewrite !drop_ge by lia. reflexivity.
Qed.

(** Fewer than [ceil ((filesize - total) / CHUNK)] turns of the loop of
    [client_download] are never enough, and more are never used: every
    turn that goes on has stored a whole chunk. *)
Lemma download_loop_fuel f filesize :
  forall n m total w,
    filesize - total <= Client.CHUNK * Z.of_nat n -> (n <= m)%nat ->
    Client.download_loop m f filesize total w
    = Client.download_loop n f filesize total w.
Proof.
  unfold Client.CHUNK.
  induction n as [|n IH]; intros m total w Hn Hm.
  - destruct m; cbn [Client.download_loop];
      destruct (Z.ltb_spec total filesize); try lia; reflexivity.
  - destruct m as [|m]; [lia|]. cbn [Client.download_loop].
    destruct (Z.ltb_spec total filesize) as [Hlt|]; [|reflexivity].
    cbv zeta. unfold Client.CHUNK.
    set (want := if 8192 <? filesize - total then 8192 else filesize - total).
    assert (Hw : filesize - (total + want) <= 8192 * Z.of_nat n).
    { unfold want. destruct (Z.ltb_spec 8192 (filesize - total)); lia. }
    destruct (Client.recv_all want w) as [[r buf] w1|w1|w1]; try reflexivity.
    destruct (Z.eqb_spec r want) as [->|]; cbn [negb]; [|reflexivity].
    destruct (faults w1 (OpWrite f total)); [reflexivity|].
    destruct (Client.write_progress_atomic f (total + want)
                (fwrite_flush f total buf w1)) as [rc w3].
    apply IH; [exact Hw | lia].
Qed.

Lemma chunks_to_come_enough filesize offset :
  filesize - offset
  <= Client.CHUNK * Z.of_nat (Client.chunks_to_come filesize offset).
Proof.
  unfold Client.chunks_to_come, Client.CHUNK.
  destruct (Z.le_gt_cases (filesize - offset) 0) as [Hle|Hgt]; [lia|].
  rewrite Z2Nat.id by (apply Z.div_pos; lia).
  pose proof (Z.mul_div_le (filesize - offset + 8192 - 1) 8192 ltac:(lia)).
  pose proof (Z.mod_pos_bound (filesize - offset + 8192 - 1) 8192 ltac:(lia)).
  pose proof (Z.div_mod (filesize - offset + 8192 - 1) 8192 ltac:(lia)).
  lia.
Qed.

(** What the loop of [client_download] has stored when it stops: the
    first [k] bytes of the payload, at the offset it started from, where
    [c >= k] bytes were taken off the socket; at its end, all that was
    missing. *)
(** A write all of which gets through is the plain write; in any case
    only the file written to changes. *)
Lemma fwrite_flush_all p pos data w :
  (forall off, faults w (OpFlush p off) = false) -> data <> [] ->
  fwrite_flush p pos data w = fwrite p pos data w.
Proof.
  intros Hnf Hd. unfold fwrite_flush. rewrite (flushed_all w p data Hnf).
  destruct data; [contradiction | reflexivity].
Qed.

Lemma fwrite_flush_socket p pos data w :
  let w' := fwrite_flush p pos data w in
  host w' = host w /\ faults w' = faults w /\ errno w' = errno w
  /\ incoming w' = incoming w /\ rx_script w' = rx_script w
  /\ tx_script w' = tx_script w /\ sent w' = sent w /\ closed w' = closed w.
Proof.
  cbv zeta. destruct (fwrite_flush_cases p pos data w) as [->|[d ->]];
    repeat split.
Qed.

Lemma ledger_works_set_file f d w :
  fits_ledger f -> ledger_works f w -> ledger_works f (set_file f d w).
Proof.
  intros Hfit [? ? ? ? Htmp Hprog].
  destruct (ledger_paths_distinct f Hfit) as (_ & Hp & Ht & Hp0 & Ht0).
  split; try assumption; unfold file_at in *; cbn [set_file fs with_fs].
  - destruct (Client.prog_tmp_path f); [contradiction|].
    now rewrite lookup_insert_ne by congruence.
  - destruct (Client.prog_path f); [contradiction|].
    now rewrite lookup_insert_ne by congruence.
Qed.

Lemma ledger_set_file f d w :
  fits_ledger f ->
  fs (set_file f d w) !! Client.prog_path f = fs w !! Client.prog_path f.
Proof.
  intros Hfit. destruct (ledger_paths_distinct f Hfit) as (_ & Hp & _).
  cbn [set_file fs with_fs]. now rewrite lookup_insert_ne by congruence.
Qed.

Lemma client_download_loop_exact f filesize :
  fits_ledger f -> f <> [] ->
  forall n total w,
    can_open w f = true -> 0 <= total ->
    (forall off, faults w (OpFlush f off) = false) ->
    let r := Client.download_loop n f filesize total w in
    exists k c : nat,
      (k <= c <= length (incoming w))%nat
      /\ incoming (final r) = drop c (incoming w)
      /\ total + Z.of_nat c <= Z.max total filesize
      /\ sent (final r) = sent w
      /\ ((k = 0%nat /\ file_data (final r) f = file_data w f)
          \/ ((0 < k)%nat
              /\ file_data (final r) f
                 = write_at (Z.to_nat total) (take k (incoming w))
                     (file_data w f)))
      /\ (forall w', r = Ok tt w' ->
            k = c /\ total + Z.of_nat k = Z.max total filesize)
      /\ faults (final r) = faults w
      /\ (ledger_works f w ->
          ledger_records f w (final r) k (total + Z.of_nat k)).
Proof.
  intros Hfit Hf.
  induction n as [|n IH]; intros total w Hopen Htot Hflush;
    cbn [Client.download_loop]; cbv zeta.
  - destruct (Z.ltb_spec total filesize); cbn [final];
      exists 0%nat, 0%nat; rewrite drop_0;
      (split; [lia|]; split; [reflexivity|]; split; [lia|];
       split; [reflexivity|]; split; [left; split; reflexivity|]).
    + split; [intros w' [=]|]. split; reflexivity.
    + split; [intros w' [= <-]; split; lia|]. split; reflexivity.
  - destruct (Z.ltb_spec total filesize) as [Hlt|Hge]; cbn [final].
    2:{ exists 0%nat, 0%nat. rewrite drop_0.
        split; [lia|]. split; [reflexivity|]. split; [lia|].
        split; [reflexivity|]. split; [left; split; reflexivity|].
        split; [intros w' [= <-]; split; lia|]. split; reflexivity. }
    set (want := if Client.CHUNK <? filesize - total
                 then Client.CHUNK else filesize - total).
    assert (Hwant : 0 < want <= filesize - total).
    { unfold want, Client.CHUNK.
      destruct (Z.ltb_spec 8192 (filesize - total)); lia. }
    pose proof (client_recv_all_spec want w ltac:(lia)) as Hr.
    assert (Hstop : forall (x : res unit),
               rx_only w (final x) ->
               (length (incoming w)
                <= length (incoming (final x)) + Z.to_nat want)%nat ->
               (forall w', x <> Ok tt w') ->
               exists k c : nat,
                 (k <= c <= length (incoming w))%nat
                 /\ incoming (final x) = drop c (incoming w)
                 /\ total + Z.of_nat c <= Z.max total filesize
                 /\ sent (final x) = sent w
                 /\ ((k = 0%nat /\ file_data (final x) f = file_data w f)
                     \/ ((0 < k)%nat
                         /\ file_data (final x) f
                            = write_at (Z.to_nat total) (take k (incoming w))
                                (file_data w f)))
                 /\ (forall w', x = Ok tt w' ->
                       k = c /\ total + Z.of_nat k = Z.max total filesize)
                 /\ faults (final x) = faults w
                 /\ (ledger_works f w ->
                     ledger_records f w (final x) k (total + Z.of_nat k))).
    { intros x [? Hfs Hfa ? Hs ? [m Hm]] Hl Hno.
      exists 0%nat, (length (incoming w) - length (incoming (final x)))%nat.
      split; [lia|]. split; [eapply drop_consumed; exact Hm|].
      split; [lia|]. split; [exact Hs|].
      split; [left; split; [reflexivity | now apply file_data_ext]|].
      split; [intros w' Hx; now destruct (Hno w')|].
      split; [exact Hfa|]. intros _. apply ledger_records_none.
      now rewrite Hfs. }
    destruct (Client.recv_all want w) as [[r buf] w1|w1|w1];
      cbn [recv_post] in Hr; [|contradiction|].
    2:{ destruct Hr as (Hrx & _ & Hl).
        apply (Hstop (Blocked w1)); [exact Hrx | exact Hl | discriminate]. }
    destruct Hr as (Hrx & Hl & Hcase).
    destruct (Z.eqb_spec r want) as [->|Hne]; cbn [negb];
      [|apply (Hstop (Fail w1)); [exact Hrx | exact Hl | discriminate]].
    destruct Hcase as [(_ & -> & Hlw & Hi1)|?]; [|lia]. cbn [app].
    destruct (faults w1 (OpWrite f total));
      [apply (Hstop (Fail w1)); [exact Hrx | exact Hl | discriminate]|].
    set (data := take (Z.to_nat want) (incoming w)).
    assert (Hld : length data = Z.to_nat want)
      by (unfold data; rewrite length_take; lia).
    assert (Hfs1 : fs w1 = fs w) by (now destruct Hrx).
    assert (Hfa1 : faults w1 = faults w) by (now destruct Hrx).
    assert (Hdne : data <> [])
      by (intros E; rewrite E in Hld; cbn in Hld; lia).
    rewrite (fwrite_flush_all f total data w1)
      by (first [exact Hdne | intros o; rewrite Hfa1; apply Hflush]).
    destruct (fwrite_frame f total data w1 Hf)
      as (Hfd & Hopen2 & Hin2 & _ & _ & Hfa2).
    pose proof (fun Hw : ledger_works f w =>
                  write_progress_atomic_works f (total + want)
                    (fwrite f total data w1) Hfit
                    (ledger_works_set_file f _ w1 Hfit
                       (ledger_works_ext f w w1 Hfs1 Hfa1 Hw))) as Hrec.
    destruct (Client.write_progress_atomic f (total + want)
                (fwrite f total data w1)) as [rc w3] eqn:Hw3.
    pose proof (file_data_ledger_write f (total + want)
                  (fwrite f total data w1) Hfit)
      as (Hd3 & Hs3 & Hi3 & _ & _ & Hfa3 & _).
    cbv zeta in Hd3, Hs3, Hi3, Hfa3, Hrec. rewrite Hw3 in Hd3, Hs3, Hi3, Hfa3.
    cbn [snd] in Hd3, Hs3, Hi3, Hfa3, Hrec.
    assert (Hfa : faults w3 = faults w) by congruence.
    assert (Hopen3 : can_open w3 f = true).
    { pose proof (file_at_ledger_write f (total + want)
                    (fwrite f total data w1) Hfit) as Hat.
      rewrite Hw3 in Hat. cbn [snd] in Hat.
      unfold can_open in *. now rewrite Hat. }
    destruct (IH (total + want) w3 Hopen3 ltac:(lia))
      as (k & c & Hk & Hi & Hb & Hs & Hfile & Hv & Hfaf & Hled);
      [intros o; rewrite Hfa; apply Hflush|].
    cbv zeta in Hi, Hfile, Hv, Hs, Hfaf, Hled.
    rewrite Hi3, Hin2, Hi1 in Hk, Hi, Hfile. rewrite length_drop in Hk.
    rewrite drop_drop in Hi.
    exists (Z.to_nat want + k)%nat, (Z.to_nat want + c)%nat.
    split; [lia|]. split; [exact Hi|]. split; [lia|].
    split; [rewrite Hs, Hs3; cbn [sent fwrite set_file with_fs];
            now destruct Hrx|].
    split.
    + right. split; [lia|].
      rewrite Hd3, Hfd, (file_data_ext w w1 f Hfs1) in Hfile.
      destruct Hfile as [[Hk0 Hsame]|[_ Hfile]].
      * subst k. rewrite Nat.add_0_r. fold data. exact Hsame.
      * assert (Htk : take (Z.to_nat want + k) (incoming w)
                      = data ++ take k (drop (Z.to_nat want) (incoming w))).
        { unfold data. now rewrite take_take_drop. }
        rewrite Htk, <- write_at_app, Hld, Hfile. f_equal. lia.
    + split; [intros w' Hr; destruct (Hv w' Hr) as [Hkc Hz]; split; lia|].
      split; [congruence|]. intros Hw. destruct (Hrec Hw) as [Hr3 Hw3'].
      specialize (Hled Hw3'). unfold ledger_records in *.
      destruct (Z.to_nat want + k)%nat as [|x] eqn:Ex; [lia|].
      destruct k as [|y].
      * rewrite Hled, Hr3. do 3 f_equal. lia.
      * rewrite Hled. do 3 f_equal. lia.
Qed.

Lemma client_download_loop_ready f filesize :
  forall n total w,
    rx_ready n w -> 0 <= total ->
    filesize - total <= 8192 * Z.of_nat n ->
    filesize - total <= Z.of_nat (length (incoming w)) ->
    (forall pos, faults w (OpWrite f pos) = false) ->
    exists w', Client.download_loop n f filesize total w = Ok tt w'.
Proof.
  induction n as [|n IH]; intros total w Hrx Htot Hn Hin Hnf;
    cbn [Client.download_loop].
  - destruct (Z.ltb_spec total filesize); [lia | now eexists].
  - destruct (Z.ltb_spec total filesize) as [Hlt|]; [|now eexists].
    cbv zeta.
    set (want := if Client.CHUNK <? filesize - total
                 then Client.CHUNK else filesize - total).
    assert (Hwant : 0 < want <= 8192 /\ want <= filesize - total
                    /\ filesize - (total + want) <= 8192 * Z.of_nat n).
    { unfold want, Client.CHUNK.
      destruct (Z.ltb_spec 8192 (filesize - total)); lia. }
    destruct (client_recv_all_ready n want w Hrx ltac:(lia) ltac:(lia))
      as (w1 & E1 & X1 & Hi1 & R1).
    rewrite E1, Z.eqb_refl. cbn [negb].
    assert (Hfa1 : faults w1 = faults w) by (now destruct X1).
    rewrite Hfa1, Hnf.
    destruct (fwrite_flush_socket f total
                (take (Z.to_nat want) (incoming w)) w1)
      as (_ & Hfa2 & _ & Hi2 & Hr2 & _).
    cbv zeta in Hfa2, Hi2, Hr2.
    unfold Client.write_progress_atomic.
    destruct (Client.write_progress_ops f (total + want)
                (fwrite_flush f total (take (Z.to_nat want) (incoming w)) w1))
      as [rc ops].
    apply IH.
    + eapply rx_ready_ext; [|exact R1]. exact Hr2.
    + lia.
    + lia.
    + cbn [incoming with_fs]. rewrite Hi2, Hi1, length_drop. lia.
    + intros pos. cbn [faults with_fs]. rewrite Hfa2, Hfa1.
      apply Hnf.
Qed.

(** [download_stream] from a state of the negotiation, the reply being
    size [F] and offset [off <= F], when no write-back of the file
    fails: what the file holds however the call ends, and at its end;
    and what the ledger holds when the call does not run to its end and
    every ledger write succeeds. *)
Lemma download_stream_stores f F off w :
  fits_ledger f -> can_open w f = true -> 0 <= off <= F ->
  (forall o, faults w (OpFlush f o) = false) ->
  runs (download_stream f F off) w
    (fun _ w' =>
       file_data w' f
       = (if off <? F
          then write_at (Z.to_nat off) (take (Z.to_nat (F - off)) (incoming w))
                 (file_data w f)
          else file_data w f)
       /\ incoming w' = drop (Z.to_nat (F - off)) (incoming w)
       /\ (Z.to_nat (F - off) <= length (incoming w))%nat
       /\ sent w' = sent w
       /\ (faults w (OpUnlink (Client.prog_path f)) = false ->
           fs w' !! Client.prog_path f = None))
    (fun w' =>
       sent w' = sent w
       /\ exists k : nat,
            Z.of_nat k <= F - off
            /\ file_data w' f = stored_at off (incoming w) k (file_data w f)
            /\ (ledger_works f w ->
                ledger_records f w w' k (off + Z.of_nat k))).
Proof.
  intros Hfit Hopen Hoff Hflush. unfold download_stream.
  pose proof (can_open_nonempty w f Hopen) as Hf.
  destruct (Z.ltb_spec F off) as [?|_]; [lia|].
  eapply runs_bind_via with
    (Q1 := fun bad w' => bad = seek_fails w f off /\ w' = w)
    (E1 := fun _ => False);
    [apply runs_get; split; reflexivity | contradiction |].
  intros bad w0 [-> ->].
  destruct (seek_fails w f off).
  { apply runs_exit. split; [reflexivity|]. exists 0%nat.
    split; [lia|]. split; [reflexivity|]. intros _. reflexivity. }
  destruct (client_download_loop_exact f F Hfit Hf
              (Client.chunks_to_come F off) off w Hopen ltac:(lia) Hflush)
    as (k & c & Hk & Hi & Hb & Hs & Hfile & Hv & Hfa & Hled).
  cbv zeta in Hi, Hs, Hfile, Hv, Hfa, Hled.
  assert (Hstored : forall w1,
             ((k = 0%nat /\ file_data w1 f = file_data w f)
              \/ ((0 < k)%nat
                  /\ file_data w1 f
                     = write_at (Z.to_nat off) (take k (incoming w))
                         (file_data w f))) ->
             file_data w1 f = stored_at off (incoming w) k (file_data w f)).
  { intros w1 [[-> H]|[Hpos H]]; [exact H|].
    unfold stored_at. destruct k; [lia | exact H]. }
  unfold runs, bind.
  destruct (Client.download_loop (Client.chunks_to_come F off) f F off w)
    as [[] w1|w1|w1]; cbn [final update] in *.
  - destruct (Hv w1 eq_refl) as [<- Hz].
    assert (Hkz : k = Z.to_nat (F - off)) by lia.
    rewrite file_data_remove_progress by exact Hfit.
    split; [|split; [now rewrite <- Hkz|split; [lia|split; [exact Hs|]]]].
    + destruct (Z.ltb_spec off F) as [Hlt|Hge].
      * destruct Hfile as [[-> _]|[_ Hfile]]; [lia|]. now rewrite <- Hkz.
      * destruct Hfile as [[_ Hsame]|[Hpos _]]; [exact Hsame | lia].
    + intros Hun. apply remove_progress_gone. now rewrite Hfa.
  - split; [exact Hs|]. exists k. split; [lia|].
    split; [now apply Hstored | exact Hled].
  - split; [exact Hs|]. exists k. split; [lia|].
    split; [now apply Hstored | exact Hled].
Qed.

Lemma download_stream_ready f F off w :
  0 <= off <= F -> off < 2 ^ 63 ->
  (forall op, faults w op = false) ->
  rx_ready (Client.chunks_to_come F off) w ->
  F - off <= Z.of_nat (length (incoming w)) ->
  exists w', download_stream f F off w = Ok tt w'.
Proof.
  intros Hoff H63 Hnf Hrx Hin. unfold download_stream.
  destruct (Z.ltb_spec F off) as [?|_]; [lia|].
  unfold bind at 1. cbn [get]. unfold seek_fails.
  rewrite off_t_small by lia. rewrite Hnf. cbn [orb].
  destruct (client_download_loop_ready f F (Client.chunks_to_come F off)
              off w Hrx ltac:(lia)) as [w1 E1].
  - pose proof (chunks_to_come_enough F off) as H.
    unfold Client.CHUNK in H. exact H.
  - exact Hin.
  - intros pos. apply Hnf.
  - unfold bind. rewrite E1. now eexists.
Qed.

(** [client_download_ready], with what is left of the receive script. *)
Lemma client_download_ready_more n f w F off rest :
  incoming w = be_bytes 8 F ++ be_bytes 8 off ++ rest ->
  0 <= F < 2 ^ 64 -> 0 <= off < 2 ^ 64 ->
  Z.of_nat (length f) <= 8192 ->
  Z.of_nat (length (file_data w f)) < 2 ^ 64 ->
  tx_ready 5 w -> rx_ready (2 + n) w ->
  match Client.open_local f w with
  | Ok _ w1 =>
      exists w5,
        Client.download f w = download_stream f F off w5
        /\ fs w5 = fs w1 /\ faults w5 = faults w /\ incoming w5 = rest
        /\ rx_ready n w5
  | Fail w' => Client.download f w = Fail w'
  | Blocked _ => False
  end.
Proof.
  intros Hin HF Hoff Hlen HL Htx Hrx.
  pose proof (client_open_local_runs f w) as Hopen. unfold runs in Hopen.
  pose proof (eq_refl (Client.download f w)) as Hd.
  unfold Client.download at 2 in Hd. unfold bind at 1 in Hd.
  destruct (Client.open_local f w) as [l w1|w'|w'] eqn:Ho; [|exact Hd|].
  2:{ unfold Client.open_local in Ho.
      destruct (can_open w f); [destruct (faults w _)|destruct (fopen_trunc f w)];
        discriminate. }
  destruct Hopen as (-> & Hn1 & Hs1 & Hi1 & Hrx1 & Htx1).
  rewrite Hd. clear Hd.
  assert (Ht1 : tx_ready 5 w1) by (eapply tx_ready_ext; eassumption).
  destruct (client_send_request_ready 1 (bytes_of_string "download") f w1 Ht1)
    as (w2 & E2 & T2 & S2 & R2);
    [rewrite length_bytes_of_string; cbn; lia | exact Hlen |].
  unfold bind at 1. rewrite E2.
  unfold bind at 1. cbn [get].
  rewrite (u64_id (Z.of_nat (length (file_data w f)))) by lia.
  rewrite store_htonll.
  destruct (client_send_field_ready 0
              (be_bytes 8 (Z.of_nat (length (file_data w f)))) w2 R2)
    as (w3 & E3 & T3 & S3 & _); [rewrite length_be_bytes; lia|].
  unfold bind at 1. rewrite E3.
  assert (Hi3 : incoming w3 = incoming w)
    by (destruct T2, T3; congruence).
  assert (Hr3 : rx_ready (2 + n) w3).
  { eapply rx_ready_ext; [|exact Hrx]. destruct T2, T3. congruence. }
  destruct (client_recv_all_ready (1 + n) 8 w3 Hr3) as (w4 & E4 & X4 & Hi4 & Hr4);
    [lia | rewrite Hi3, Hin, length_app, length_be_bytes; lia |].
  unfold bind at 1. rewrite E4. cbn [negb Z.eqb Pos.eqb].
  change (Z.to_nat 8) with 8%nat in *.
  rewrite Hi3, Hin in Hi4 |- *. rewrite take_be_bytes_app.
  rewrite drop_be_bytes_app in Hi4.
  destruct (client_recv_all_ready n 8 w4 Hr4) as (w5 & E5 & X5 & Hi5 & Hr5);
    [lia | rewrite Hi4, length_app, length_be_bytes; lia |].
  unfold bind at 1. rewrite E5. cbn [negb Z.eqb Pos.eqb].
  change (Z.to_nat 8) with 8%nat in *.
  rewrite Hi4 in Hi5 |- *. rewrite take_be_bytes_app.
  rewrite drop_be_bytes_app in Hi5.
  rewrite !load_be_bytes by assumption.
  exists w5. split; [reflexivity|].
  split; [|split; [|split; [|exact Hr5]]];
    destruct T2, T3, X4, X5, Hn1; congruence.
Qed.

End ClientDownloadStream.

(** ** client.c, [client_download] through a transfer *)

Section ClientDownloadOutcome.

Variables (f : list Z) (w : world) (F off : Z) (payload : list Z).
Hypothesis Hfit : fits_ledger f.
Hypothesis Hin : incoming w = be_bytes 8 F ++ be_bytes 8 off ++ payload.
Hypothesis Hoff : 0 <= off <= F.
Hypothesis HF : F < 2 ^ 63.
Hypothesis Hold : Z.of_nat (length (file_data w f)) < 2 ^ 63.

Let old := file_data w f.
Let header := request_header "download" f (Z.of_nat (length old)).

(** The negotiation leaves the ledger alone. *)
Lemma negotiating_ledger w1 :
  negotiating f w w1 ->
  fs w1 !! Client.prog_path f = fs w !! Client.prog_path f
  /\ (ledger_works f w -> ledger_works f w1).
Proof.
  intros [_ Hfa _ Hoth _].
  destruct (ledger_paths_distinct f Hfit) as (_ & Hp & Ht & Hp0 & Ht0).
  split; [now apply Hoth|]. intros [? ? Hfl ? Htmp Hprog].
  split; unfold ledger_flushes, file_at in *; rewrite ?Hfa; try assumption.
  - destruct (Client.prog_tmp_path f); [contradiction|].
    now rewrite Hoth by congruence.
  - destruct (Client.prog_path f); [contradiction|].
    now rewrite Hoth by congruence.
Qed.

(** A download answered by size [F] and offset [off <= F], followed by
    [payload], when no write-back of the local file fails. *)
Lemma client_download_stores :
  (forall o, faults w (OpFlush f o) = false) ->
  runs (Client.download f) w
    (fun _ w' =>
       sent w' = sent w ++ header
       /\ (Z.to_nat (F - off) <= length payload)%nat
       /\ incoming w' = drop (Z.to_nat (F - off)) payload
       /\ (faults w (OpUnlink (Client.prog_path f)) = false ->
           fs w' !! Client.prog_path f = None)
       /\ file_data w' f
          = if off <? F
            then write_at (Z.to_nat off) (take (Z.to_nat (F - off)) payload) old
            else old)
    (fun w' =>
       sent_within w header w'
       /\ exists k : nat,
            Z.of_nat k <= F - off
            /\ file_data w' f = stored_at off payload k old
            /\ (ledger_works f w ->
                ledger_records f w w' k (off + Z.of_nat k))).
Proof.
  intros Hflush.
  assert (Hlen : Z.of_nat (length f) < 2 ^ 32)
    by (unfold fits_ledger in Hfit; lia).
  apply (client_download_reaches f w F off payload _ _ Hin);
    [lia | lia | exact Hlen | lia | |].
  - intros w' Hs _ Hd Hoth. split; [exact Hs|]. exists 0%nat.
    split; [lia|]. split; [exact Hd|]. intros _.
    apply ledger_records_none. apply Hoth.
    destruct (ledger_paths_distinct f Hfit) as (_ & Hp & _). exact Hp.
  - intros w1 Hs1 Hi1 Hn1.
    destruct (negotiating_ledger w1 Hn1) as [Hl1 Hw1].
    destruct Hn1 as [_ Hfa1 Hd1 _ Hopen1].
    assert (Hflush1 : forall o, faults w1 (OpFlush f o) = false)
      by (intros o; rewrite Hfa1; apply Hflush).
    eapply runs_weaken;
      [apply (download_stream_stores f F off w1 Hfit Hopen1 Hoff Hflush1)| |];
      cbv beta; rewrite Hi1, Hd1, ?Hfa1.
    + intros _ w' (Hd & Hi & Hl & Hs & Hp). fold old header in Hs1.
      repeat split; try assumption. congruence.
    + intros w' (Hs & k & Hk & Hd & Hled). split.
      * apply sent_within_all. fold old header in Hs1. congruence.
      * exists k. split; [exact Hk|]. split; [exact Hd|]. intros Hw.
        specialize (Hled (Hw1 Hw)). unfold ledger_records in *.
        now rewrite <- Hl1.
Qed.

(** Whatever storage does, a download sends nothing but its request. *)
Lemma client_download_loop_sent filesize n :
  forall total w0,
    sent (final (Client.download_loop n f filesize total w0)) = sent w0.
Proof.
  induction n as [|n IH]; intros total w0; cbn [Client.download_loop];
    destruct (total <? filesize) eqn:Hlt; try reflexivity.
  cbv zeta.
  set (want := if Client.CHUNK <? filesize - total then Client.CHUNK
               else filesize - total).
  assert (Hwant : 0 <= want).
  { unfold want, Client.CHUNK. apply Z.ltb_lt in Hlt.
    destruct (Z.ltb_spec 8192 (filesize - total)); lia. }
  pose proof (client_recv_all_inv want w0 Hwant) as Hr.
  destruct (Client.recv_all want w0) as [[r buf] w1|w1|w1];
    [|contradiction|cbn [final]; now destruct Hr as [[] _]].
  destruct Hr as [[? ? ? ? Hs1 ? ?] _].
  destruct (negb (r =? want)); [exact Hs1|].
  destruct (faults w1 (OpWrite f total)); [exact Hs1|].
  destruct (fwrite_flush_socket f total buf w1) as (_ & _ & _ & _ & _ & _ & Hs2 & _).
  cbv zeta in Hs2.
  pose proof (file_data_ledger_write f (total + r)
                (fwrite_flush f total buf w1) Hfit) as (_ & Hs3 & _).
  cbv zeta in Hs3.
  destruct (Client.write_progress_atomic f (total + r)
              (fwrite_flush f total buf w1)) as [rc w3].
  cbn [snd] in Hs3. rewrite IH. congruence.
Qed.

Lemma client_download_sends :
  sent_within w header (final (Client.client_download f w)).
Proof.
  assert (Hlen : Z.of_nat (length f) < 2 ^ 32)
    by (unfold fits_ledger in Hfit; lia).
  pose proof (client_download_reaches f w F off payload
                (fun _ w' => sent w' = sent w ++ header)
                (fun w' => sent_within w header w') Hin
                ltac:(lia) ltac:(lia) Hlen ltac:(lia)) as Hr.
  cbv zeta in Hr. fold old header in Hr.
  assert (Hrun : runs (Client.download f) w
                   (fun _ w' => sent w' = sent w ++ header)
                   (fun w' => sent_within w header w')).
  { apply Hr.
    - intros w' Hs _ _ _. exact Hs.
    - intros w1 Hs1 Hi1 _. unfold download_stream.
      destruct (F <? off); [apply runs_exit; now apply sent_within_all|].
      unfold runs, bind. cbn [get].
      destruct (seek_fails w1 f off); [now apply sent_within_all|].
      pose proof (client_download_loop_sent F (Client.chunks_to_come F off)
                    off w1) as Hs.
      destruct (Client.download_loop _ f F off w1) as [u w2|w2|w2];
        cbn [final update] in *.
      + rewrite sent_remove_progress. congruence.
      + apply sent_within_all. congruence.
      + apply sent_within_all. congruence. }
  unfold runs in Hrun. unfold Client.client_download.
  destruct (Client.download f w) as [u w'|w'|w']; cbn [final close sent];
    [now apply sent_within_all | exact Hrun | exact Hrun].
Qed.

Lemma client_open_local_ready :
  f <> [] -> file_at w f <> Some Denied ->
  (forall op, faults w op = false) ->
  exists l w1, Client.open_local f w = Ok l w1.
Proof.
  intros Hf Hden Hnf. unfold Client.open_local.
  destruct (can_open w f) eqn:Hopen.
  - rewrite Hnf. now eexists _, _.
  - unfold fopen_trunc. destruct f as [|b t]; [contradiction|].
    destruct (file_at w (b :: t)) as [[d|]|] eqn:Hat;
      try contradiction; rewrite Hnf; now eexists _, _.
Qed.

Lemma client_download_complete :
  f <> [] -> file_at w f <> Some Denied ->
  (forall op, faults w op = false) ->
  rx_ready (2 + Client.chunks_to_come F off) w -> tx_ready 5 w ->
  F - off <= Z.of_nat (length payload) ->
  exists w',
    Client.client_download f w = Ok 0 w'
    /\ sent w' = sent w ++ header
    /\ incoming w' = drop (Z.to_nat (F - off)) payload
    /\ fs w' !! Client.prog_path f = None
    /\ file_data w' f
       = if off <? F
         then write_at (Z.to_nat off) (take (Z.to_nat (F - off)) payload) old
         else old.
Proof.
  intros Hf Hden Hnf Hrx Htx Hpay.
  assert (Hlen : Z.of_nat (length f) <= 8192)
    by (unfold fits_ledger in Hfit; lia).
  pose proof (client_download_ready_more (Client.chunks_to_come F off)
                f w F off payload Hin ltac:(lia) ltac:(lia) Hlen
                ltac:(lia) Htx Hrx) as Hlive.
  destruct (client_open_local_ready Hf Hden Hnf) as (l & w1 & Ho).
  rewrite Ho in Hlive.
  destruct Hlive as (w5 & E5 & _ & Hfa5 & Hi5 & Hr5).
  destruct (download_stream_ready f F off w5 Hoff ltac:(lia)) as [w' Hw'];
    [intros op; rewrite Hfa5; apply Hnf | exact Hr5 | rewrite Hi5; lia |].
  pose proof (client_download_stores (fun o => Hnf _)) as Hsafe.
  unfold runs in Hsafe. rewrite E5, Hw' in Hsafe.
  exists (close w'). unfold Client.client_download. rewrite E5, Hw'.
  split; [reflexivity|]. destruct Hsafe as (Hs & _ & Hi & Hp & Hd).
  split; [exact Hs|]. split; [exact Hi|]. split; [apply Hp, Hnf | exact Hd].
Qed.

End ClientDownloadOutcome.

(** X4.  [client_download] answered by a size [F], an offset
    [off <= F] and [payload].  Whatever storage does, the client sends
    its request header (a prefix of it when it stops early) and nothing
    else.  When no write-back of the local file fails (the code does
    not look at what [fflush], [fsync] and [fclose] return): however
    the call ends, the local file is as it was or holds a prefix of the
    payload written at byte [off], bytes of the old file past what was
    written staying; and when it returns 0 the first [F - off] bytes of
    the payload are stored at [off], no byte past them was read, and
    the ledger is gone unless its [unlink] failed.  It returns 0 when
    the payload is complete, storage does not fail and every [recv] and
    [send] moves a whole buffer. *)
Theorem client_download_stores_payload :
  forall f w F off payload,
    fits_ledger f ->
    incoming w = be_bytes 8 F ++ be_bytes 8 off ++ payload ->
    0 <= off <= F -> F < 2 ^ 63 ->
    Z.of_nat (length (file_data w f)) < 2 ^ 63 ->
    let old := file_data w f in
    let header := request_header "download" f (Z.of_nat (length old)) in
    let r := Client.client_download f w in
    sent_within w header (final r)
    /\ ((forall o, faults w (OpFlush f o) = false) ->
        (exists k : nat,
            Z.of_nat k <= F - off
            /\ file_data (final r) f = stored_at off payload k old)
        /\ (forall w', r = Ok 0 w' ->
              (Z.to_nat (F - off) <= length payload)%nat
              /\ sent w' = sent w ++ header
              /\ incoming w' = drop (Z.to_nat (F - off)) payload
              /\ file_data w' f
                 = stored_at off payload (Z.to_nat (F - off)) old
              /\ (faults w (OpUnlink (Client.prog_path f)) = false ->
                  fs w' !! Client.prog_path f = None)))
    /\ (f <> [] -> file_at w f <> Some Denied ->
        (forall op, faults w op = false) ->
        rx_ready (2 + Client.chunks_to_come F off) w -> tx_ready 5 w ->
        F - off <= Z.of_nat (length payload) ->
        exists w', r = Ok 0 w').
Proof.
  intros f w F off payload Hfit Hin Hoff HF Hold. cbv zeta.
  split; [|split].
  - exact (client_download_sends f w F off payload Hfit Hin Hoff HF Hold).
  - intros Hflush.
    pose proof (client_download_stores f w F off payload Hfit Hin Hoff HF Hold
                  Hflush) as Hsafe.
    cbv zeta in Hsafe. unfold runs in Hsafe. unfold Client.client_download.
    assert (Hdone : forall d,
               d = (if off <? F
                    then write_at (Z.to_nat off)
                           (take (Z.to_nat (F - off)) payload)
                           (file_data w f)
                    else file_data w f) ->
               d = stored_at off payload (Z.to_nat (F - off))
                     (file_data w f)).
    { intros d ->. unfold stored_at.
      destruct (Z.ltb_spec off F) as [Hlt|Hge].
      - destruct (Z.to_nat (F - off)) eqn:E; [lia | reflexivity].
      - replace (Z.to_nat (F - off)) with 0%nat by lia. reflexivity. }
    destruct (Client.download f w) as [u w'|w'|w']; cbn [final].
    + destruct Hsafe as (Hs & Hl & Hi & Hp & Hd). split.
      * exists (Z.to_nat (F - off)). split; [lia|]. now apply Hdone.
      * intros w'' [= <-]. split; [exact Hl|]. split; [exact Hs|].
        split; [exact Hi|]. split; [now apply Hdone | exact Hp].
    + destruct Hsafe as (_ & k & Hk & Hd & _).
      split; [now exists k | discriminate].
    + destruct Hsafe as (_ & k & Hk & Hd & _).
      split; [now exists k | discriminate].
  - intros Hf Hden Hnf Hrx Htx Hpay.
    destruct (client_download_complete f w F off payload Hfit Hin Hoff HF Hold
                Hf Hden Hnf Hrx Htx Hpay) as (w' & Hw' & _).
    unfold Client.client_download in Hw'. now exists w'.
Qed.

Lemma client_download_stores_payload_witness :
  exists w',
    Client.client_download (bytes_of_string "f") resumed_download_client
    = Ok 0 w'
    /\ file_data w' (bytes_of_string "f") = [1; 2; 3; 4; 5].
Proof.
  assert (Hfit : fits_ledger (bytes_of_string "f"))
    by (vm_compute; reflexivity).
  destruct (client_download_stores_payload (bytes_of_string "f")
              resumed_download_client 5 2 [3; 4; 5] Hfit)
    as (_ & Hdone & Hlive).
  - reflexivity.
  - lia.
  - vm_compute. reflexivity.
  - vm_compute. reflexivity.
  - destruct Hlive as [w' Hw'].
    + discriminate.
    + vm_compute. discriminate.
    + reflexivity.
    + apply connection_rx_ready. vm_compute. lia.
    + apply connection_tx_ready. lia.
    + vm_compute. discriminate.
    + exists w'. split; [exact Hw'|].
      destruct (Hdone (fun _ => eq_refl)) as [_ Hd].
      rewrite (proj1 (proj2 (proj2 (proj2 (Hd w' Hw'))))). reflexivity.
Defined.

(** ** client.c, the ledger after a transfer *)

Section LedgerOutcome.

Variable f : list Z.
Hypothesis Hfit : fits_ledger f.


End LedgerOutcome.




(** ** server.c, [handle_client] on a download request *)

Section ServeDownload.

Variables (w : world) (mode fname : list Z) (L : Z) (rest : list Z).
Hypothesis Hreq : download_request w mode fname L rest.

Let f := cstr fname.

(** The two ways a download request can go: the handler stops while it
    reads the request, having sent nothing; or the request is read and
    [handle_download] runs from there. *)
Lemma serve_download_cases :
  (rx_only w (final (Server.serve w))
   /\ (length rest <= length (incoming (final (Server.serve w))))%nat)
  \/ (exists w3,
        rx_only w w3 /\ incoming w3 = rest
        /\ Server.serve w
           = bind (Server.handle_download f L) (fun _ => ret tt) w3).
Proof.
  destruct Hreq as (Hin & Hmode & Hm & Hf & HL).
  pattern (Server.serve w).
  match goal with |- ?P _ => set (Q := P) end.
  assert (Hstop : forall (r : res unit),
             rx_only w (final r) ->
             (length rest <= length (incoming (final r)))%nat -> Q r).
  { intros r Hrx Hl. subst Q. cbv beta. left. split; assumption. }
  unfold Server.serve.
  unfold bind at 1.
  pose proof (recv_field_framed 32 w mode _ Hin ltac:(lia)) as H1.
  destruct (Server.recv_field 32 w) as [buf w1|w1|w1];
    try (destruct H1 as [H1 Hl1]; apply Hstop; [exact H1|];
         cbn [final]; rewrite !length_app in Hl1; lia).
  destruct H1 as (Hfr1 & _ & -> & Hin1).
  unfold bind at 1.
  pose proof (recv_field_framed 512 w1 fname _ Hin1 ltac:(lia)) as H2.
  destruct (Server.recv_field 512 w1) as [buf w2|w2|w2];
    try (destruct H2 as [H2 Hl2];
         apply Hstop; [eapply rx_only_trans; eassumption|];
         cbn [final]; rewrite !length_app in Hl2; lia).
  destruct H2 as (Hfr2 & _ & -> & Hin2).
  assert (Hfr12 : rx_only w w2) by (eapply rx_only_trans; eassumption).
  unfold bind at 1. cbn [get].
  destruct (decide (cstr mode = bytes_of_string "upload")) as [Heq|_];
    [rewrite Hmode in Heq; discriminate|].
  destruct (decide (cstr mode = bytes_of_string "download")) as [_|Hne];
    [|contradiction].
  unfold bind at 1.
  pose proof (server_recv_all_inv 8 w2 ltac:(lia)) as H3.
  change (Z.to_nat 8) with 8%nat in H3.
  assert (Hl2 : length (incoming w2) = (8 + length rest)%nat)
    by (rewrite Hin2, length_app, length_be_bytes; reflexivity).
  destruct (Server.recv_all 8 w2) as [[r b] w3|w3|w3]; [|contradiction|].
  2:{ destruct H3 as [H3 Hl3].
      apply Hstop; [eapply rx_only_trans; eassumption | cbn [final]; lia]. }
  destruct H3 as (Hfr3 & Hl3 & H3).
  assert (Hfr13 : rx_only w w3) by (eapply rx_only_trans; eassumption).
  destruct (Z.eqb_spec r 8) as [->|Hr]; cbn [negb];
    [|apply Hstop; unfold goto_exit; cbn [final]; [exact Hfr13 | lia]].
  destruct (H3 eq_refl) as (-> & _ & Hin3).
  rewrite Hin2, take_be_bytes_app. rewrite Hin2, drop_be_bytes_app in Hin3.
  rewrite server_ntohll_load by exact HL.
  subst Q. cbv beta. right. exists w3.
  split; [exact Hfr13|]. split; [exact Hin3 | reflexivity].
Qed.

Lemma serve_download_ready :
  rx_ready 5 w ->
  exists w3,
    rx_only w w3 /\ incoming w3 = rest
    /\ Server.serve w
       = bind (Server.handle_download f L) (fun _ => ret tt) w3.
Proof.
  intros Hrx. destruct Hreq as (Hin & Hmode & Hm & Hf & HL).
  unfold Server.serve.
  destruct (recv_field_ready 3 32 w mode _ Hrx Hin Hm ltac:(lia))
    as (w1 & E1 & Hfr1 & Hin1 & Hr1).
  unfold bind at 1. rewrite E1.
  destruct (recv_field_ready 1 512 w1 fname _ Hr1 Hin1 Hf ltac:(lia))
    as (w2 & E2 & Hfr2 & Hin2 & Hr2).
  unfold bind at 1. rewrite E2.
  unfold bind at 1. cbn [get].
  destruct (decide (cstr mode = bytes_of_string "upload")) as [Heq|_];
    [rewrite Hmode in Heq; discriminate|].
  destruct (decide (cstr mode = bytes_of_string "download")) as [_|Hne];
    [|contradiction].
  assert (Hl2 : (Z.to_nat 8 <= length (incoming w2))%nat).
  { rewrite Hin2, length_app, length_be_bytes. lia. }
  destruct (server_recv_all_ready 0 8 w2 Hr2 ltac:(lia) Hl2)
    as (w3 & E3 & Hfr3 & Hin3 & _).
  unfold bind at 1. rewrite E3. cbn [negb Z.eqb Pos.eqb].
  change (Z.to_nat 8) with 8%nat in *.
  rewrite Hin2, take_be_bytes_app. rewrite Hin2, drop_be_bytes_app in Hin3.
  rewrite server_ntohll_load by exact HL.
  exists w3. split; [|split; [exact Hin3 | reflexivity]].
  eapply rx_only_trans; [|exact Hfr3]. eapply rx_only_trans; eassumption.
Qed.

End ServeDownload.

Section HandleDownloadFrame.

Lemma server_download_loop_incoming f cs :
  forall pos w,
    incoming (final (Server.download_loop cs f pos w)) = incoming w.
Proof.
  induction cs as [|c cs IH]; intros pos w; cbn [Server.download_loop].
  - destruct (faults w (OpRead f pos)); reflexivity.
  - destruct (faults w (OpRead f pos)); [reflexivity|].
    pose proof (server_send_all_spec c w) as Hs.
    destruct (Server.send_all c w) as [v w1|w1|w1]; cbn [send_post] in Hs;
      [|contradiction|].
    + destruct Hs as [[] _].
      destruct (v =? Z.of_nat (length c)); [rewrite IH|]; assumption.
    + now destruct Hs as [[] _].
Qed.

(** [handle_download] reads nothing from the socket. *)
Lemma handle_download_incoming f L w :
  incoming (final (Server.handle_download f L w)) = incoming w.
Proof.
  unfold Server.handle_download.
  destruct (can_open w f); [|reflexivity]. cbn [negb].
  destruct (faults w (OpStat f)); [reflexivity|].
  set (F := Z.of_nat (length (file_data w f))).
  set (off := if F <? L then F else L).
  unfold bind.
  pose proof (server_send_all_spec
                (store (host w) 8 (Server.htonll (host w) F)) w) as H1.
  destruct (Server.send_all _ w) as [v w1|w1|w1]; cbn [send_post] in H1;
    [|contradiction|now destruct H1 as [[] _]].
  destruct H1 as [[? ? ? Hi1] _].
  destruct (negb (v =? 8)); [exact Hi1|].
  pose proof (server_send_all_spec
                (store (host w) 8 (Server.htonll (host w) off)) w1) as H2.
  destruct (Server.send_all _ w1) as [v2 w2|w2|w2]; cbn [send_post] in H2;
    [|contradiction|destruct H2 as [[] _]; cbn [final]; congruence].
  destruct H2 as [[? ? ? Hi2] _].
  destruct (negb (v2 =? 8)); [cbn [final ret]; congruence|].
  destruct (F <=? off); [cbn [final ret]; congruence|].
  destruct (seek_fails w2 f off); [cbn [final]; congruence|].
  rewrite server_download_loop_incoming. congruence.
Qed.

End HandleDownloadFrame.

Section ServeDownloadOutcome.

Variables (w : world) (mode fname : list Z) (L : Z) (rest : list Z).
Hypothesis Hreq : download_request w mode fname L rest.

Let f := cstr fname.

Lemma handle_client_download_frame :
  fs (final (Server.handle_client w)) = fs w
  /\ (can_open w f = false -> sent (final (Server.handle_client w)) = sent w).
Proof.
  destruct (final_handle_client w) as (Hsent & Hfs & _).
  rewrite Hsent, Hfs.
  destruct (serve_download_cases w mode fname L rest Hreq)
    as [[[] _]|(w3 & [] & Hi3 & Hrun)]; [split; [assumption|auto]|].
  fold f in Hrun. rewrite Hrun. unfold bind.
  destruct (can_open w f) eqn:Hopen.
  - split; [|discriminate].
    pose proof (can_open_reg w3 f) as Hreg.
    rewrite (can_open_ext w w3 f) in Hreg by assumption.
    pose proof (handle_download_safe w3 f _ L (Hreg Hopen)) as (_ & Hfs3 & _ & Hnf).
    cbv zeta in Hfs3, Hnf.
    destruct (Server.handle_download f L w3) as [v w'|w'|w'];
      cbn [final ret] in *; congruence.
  - unfold Server.handle_download.
    rewrite (can_open_ext w w3 f) by assumption. rewrite Hopen.
    cbn [negb final ret]. split; [assumption | intros _; assumption].
Qed.

Variable data : list Z.
Hypothesis Hdata : file_at w f = Some (Reg data).

Let F := Z.of_nat (length data).
Let off := Z.min L F.
Let stream := be_bytes 8 F ++ be_bytes 8 off ++ drop (Z.to_nat off) data.

Lemma handle_client_download_safe :
  sent_within w stream (final (Server.handle_client w)).
Proof.
  destruct (final_handle_client w) as (Hsent & _ & _).
  unfold sent_within. rewrite Hsent.
  destruct (serve_download_cases w mode fname L rest Hreq)
    as [[[] _]|(w3 & [] & Hi3 & Hrun)].
  - exists 0%nat. rewrite take_0, app_nil_r. assumption.
  - fold f in Hrun. rewrite Hrun. unfold bind.
    assert (Hat3 : file_at w3 f = Some (Reg data))
      by (rewrite (file_at_ext w w3 f); assumption).
    pose proof (handle_download_safe w3 f data L Hat3) as ([k Hk] & _).
    cbv zeta in Hk. fold F off stream in Hk.
    exists k.
    destruct (Server.handle_download f L w3) as [v w'|w'|w'];
      cbn [final ret] in *; congruence.
Qed.

Lemma handle_client_download_ready :
  rx_ready 5 w ->
  tx_ready (2 + length (chunks (Z.to_nat 8192) (drop (Z.to_nat off) data))) w ->
  (forall op, faults w op = false) -> F < 2 ^ 63 ->
  exists w',
    Server.handle_client w = Ok tt w'
    /\ sent w' = sent w ++ stream /\ incoming w' = rest /\ fs w' = fs w.
Proof.
  intros Hrx Htx Hnf HF.
  destruct (serve_download_ready w mode fname L rest Hreq Hrx)
    as (w3 & [? ? Hfa3 ? ? ? ?] & Hi3 & Hrun).
  fold f in Hrun.
  assert (Hat3 : file_at w3 f = Some (Reg data))
    by (rewrite (file_at_ext w w3 f); assumption).
  destruct Hreq as (_ & _ & _ & _ & HL).
  destruct (handle_download_ready w3 f data L Hat3 ltac:(lia)) as [w' Hw'].
  - exact HF.
  - eapply tx_ready_ext; [|exact Htx]. assumption.
  - intros op. rewrite Hfa3. apply Hnf.
  - pose proof (handle_download_safe w3 f data L Hat3)
      as (_ & Hfs' & Hok & _).
    cbv zeta in Hfs', Hok. rewrite Hw' in Hfs'. cbn [final] in Hfs'.
    specialize (Hok w' Hw'). fold F off stream in Hok.
    assert (Hi' : incoming w' = incoming w3).
    { pose proof (handle_download_incoming f L w3) as Hi.
      now rewrite Hw' in Hi. }
    exists (close w'). unfold Server.handle_client.
    rewrite Hrun. unfold bind. rewrite Hw'. cbn [ret].
    split; [reflexivity|]. cbn [sent incoming fs close].
    split; [congruence|]. split; congruence.
Qed.

End ServeDownloadOutcome.

(** ** The download, both ends *)

(** X5.  [handle_client] on a download request carrying the client's
    offset [L].  No file of the server changes.  When the named file
    cannot be opened (it is missing, or access is denied) the server
    sends nothing at all before it closes: the protocol has no error
    reply.  When the file holds [data], what is sent is a prefix of
    [F], [min (L, F)] and the file from that offset on, and all of it
    when the connection delivers and storage does not fail. *)
Theorem server_serves_download :
  forall w mode fname L rest,
    download_request w mode fname L rest ->
    let f := cstr fname in
    let r := Server.handle_client w in
    fs (final r) = fs w
    /\ (can_open w f = false -> sent (final r) = sent w)
    /\ (forall data,
          file_at w f = Some (Reg data) ->
          let F := Z.of_nat (length data) in
          let off := Z.min L F in
          let stream :=
            be_bytes 8 F ++ be_bytes 8 off ++ drop (Z.to_nat off) data in
          sent_within w stream (final r)
          /\ (rx_ready 5 w ->
              tx_ready (2 + length (chunks (Z.to_nat 8192)
                                      (drop (Z.to_nat off) data))) w ->
              (forall op, faults w op = false) -> F < 2 ^ 63 ->
              exists w',
                r = Ok tt w' /\ sent w' = sent w ++ stream
                /\ incoming w' = rest)).
Proof.
  intros w mode fname L rest Hreq. cbv zeta.
  destruct (handle_client_download_frame w mode fname L rest Hreq)
    as [Hfs Hnone].
  split; [exact Hfs|]. split; [exact Hnone|].
  intros data Hdata. split.
  - exact (handle_client_download_safe w mode fname L rest Hreq data Hdata).
  - intros Hrx Htx Hnf HF.
    destruct (handle_client_download_ready w mode fname L rest Hreq data
                Hdata Hrx Htx Hnf HF) as (w' & Hrun & Hs & Hi & _).
    exists w'. repeat split; assumption.
Qed.

Lemma resumed_download_request :
  download_request resumed_download_server (bytes_of_string "download")
    (bytes_of_string "f") 2 [].
Proof.
  split; [|split; [reflexivity|cbn; lia]].
  unfold resumed_download_server, request_header. cbn [incoming connection].
  now rewrite app_nil_r.
Qed.

Lemma server_serves_download_witness :
  exists w',
    Server.handle_client resumed_download_server = Ok tt w'
    /\ sent w' = [] ++ be_bytes 8 5 ++ be_bytes 8 2 ++ [3; 4; 5].
Proof.
  destruct (proj2 (proj2 (server_serves_download resumed_download_server
                            _ _ _ _ resumed_download_request))
              [1; 2; 3; 4; 5]) as [_ Hlive].
  - vm_compute. reflexivity.
  - destruct Hlive as (w' & Hrun & Hsent & _).
    + apply connection_rx_ready. lia.
    + apply connection_tx_ready. vm_compute. lia.
    + reflexivity.
    + vm_compute. reflexivity.
    + exists w'. split; [exact Hrun | exact Hsent].
Defined.

Lemma write_at_inside pos (data old : list Z) :
  (pos <= length old)%nat ->
  write_at pos data old = take pos old ++ data ++ drop (pos + length data) old.
Proof.
  intros H. unfold write_at.
  replace (pos - length old)%nat with 0%nat by lia. reflexivity.
Qed.

(** X6.  A download end to end.  The server holds [sdata] under the
    name [f], the client [old] (nothing, when it has no such file); each
    side receives exactly what the other sends.  With connections that
    deliver and storage that does not fail, both return, no file of the
    server changes, and the client's copy ends as the first
    [off = min (|old|, |sdata|)] bytes of [old], then [sdata] from byte
    [off] on, then what [old] held past byte [|sdata|]: equal to [sdata]
    when [old] was a prefix of it. *)
Theorem download_end_to_end :
  forall f sdata old wc ws,
    0 < Z.of_nat (length f) < 512 -> cstr f = f ->
    file_at ws f = Some (Reg sdata) -> Z.of_nat (length sdata) < 2 ^ 63 ->
    file_data wc f = old -> file_at wc f <> Some Denied ->
    Z.of_nat (length old) < 2 ^ 63 ->
    let L := Z.of_nat (length old) in
    let F := Z.of_nat (length sdata) in
    let off := Z.min L F in
    let request := request_header "download" f L in
    let reply := be_bytes 8 F ++ be_bytes 8 off ++ drop (Z.to_nat off) sdata in
    incoming ws = request -> incoming wc = reply ->
    (forall op, faults wc op = false) -> (forall op, faults ws op = false) ->
    rx_ready 5 ws ->
    tx_ready (2 + length (chunks (Z.to_nat 8192)
                            (drop (Z.to_nat off) sdata))) ws ->
    rx_ready (2 + Client.chunks_to_come F off) wc -> tx_ready 5 wc ->
    exists wc' ws',
      Client.client_download f wc = Ok 0 wc'
      /\ Server.handle_client ws = Ok tt ws'
      /\ sent wc' = sent wc ++ request
      /\ sent ws' = sent ws ++ reply
      /\ fs ws' = fs ws
      /\ file_data wc' f
         = take (Z.to_nat off) old ++ drop (Z.to_nat off) sdata
           ++ drop (Z.to_nat F) old
      /\ (L <= F -> take (Z.to_nat L) sdata = old -> file_data wc' f = sdata)
      /\ fs wc' !! Client.prog_path f = None.
Proof.
  intros f sdata old wc ws Hlen Hstr Hfs H63 Hold Hden HL. cbv zeta.
  set (L := Z.of_nat (length old)). set (F := Z.of_nat (length sdata)).
  set (off := Z.min L F).
  intros His Hic Hnfc Hnfs Hrxs Htxs Hrxc Htxc.
  assert (Hfit : fits_ledger f) by (unfold fits_ledger; lia).
  assert (Hf : f <> []) by (intros ->; cbn in Hlen; lia).
  assert (Hreq : download_request ws (bytes_of_string "download") f L []).
  { split; [|split; [reflexivity|split; [cbn; lia|split; [exact Hlen|lia]]]].
    rewrite His. unfold request_header. now rewrite app_nil_r. }
  pose proof (handle_client_download_ready ws (bytes_of_string "download") f
                L [] Hreq sdata) as Hserver.
  cbv zeta in Hserver. rewrite Hstr in Hserver. fold F off in Hserver.
  destruct (Hserver Hfs Hrxs Htxs Hnfs H63) as (ws' & Hruns & Hsents & _ & Hfss).
  pose proof (client_download_complete f wc F off
                (drop (Z.to_nat off) sdata) Hfit Hic) as Hclient.
  cbv zeta in Hclient. rewrite Hold in Hclient. fold L in Hclient.
  destruct Hclient as (wc' & Hrunc & Hsentc & _ & Hledger & Hdatac);
    [lia | lia | lia | exact Hf | exact Hden | exact Hnfc | exact Hrxc
    | exact Htxc | rewrite length_drop; lia |].
  assert (Hpay : take (Z.to_nat (F - off)) (drop (Z.to_nat off) sdata)
                 = drop (Z.to_nat off) sdata)
    by (apply take_ge; rewrite length_drop; lia).
  assert (Hfile : file_data wc' f
                  = take (Z.to_nat off) old ++ drop (Z.to_nat off) sdata
                    ++ drop (Z.to_nat F) old).
  { rewrite Hdatac. destruct (Z.ltb_spec off F) as [Hlt|Hge].
    - rewrite Hpay, write_at_inside by lia. rewrite length_drop.
      do 3 f_equal. lia.
    - assert (off = F) by lia.
      rewrite (drop_ge sdata) by lia. cbn [app].
      replace (Z.to_nat off) with (Z.to_nat F) by lia.
      now rewrite take_drop. }
  exists wc', ws'. repeat (split; [assumption|]).
  split; [|exact Hledger].
  intros HLF Hpre. rewrite Hfile.
  assert (off = L) by lia.
  rewrite (drop_ge old) by lia. rewrite app_nil_r.
  replace (Z.to_nat off) with (Z.to_nat L) by lia.
  rewrite (take_ge old) by lia. rewrite <- Hpre at 1. apply take_drop.
Qed.

Lemma download_end_to_end_witness :
  exists wc' ws',
    Client.client_download (bytes_of_string "f") resumed_download_client
    = Ok 0 wc'
    /\ Server.handle_client resumed_download_server = Ok tt ws'
    /\ file_data wc' (bytes_of_string "f") = [1; 2; 3; 4; 5].
Proof.
  destruct (download_end_to_end (bytes_of_string "f") [1; 2; 3; 4; 5] [1; 2]
              resumed_download_client resumed_download_server)
    as (wc' & ws' & Hc & Hs & _ & _ & _ & _ & Hsame & _).
  - vm_compute. split; reflexivity.
  - reflexivity.
  - vm_compute. reflexivity.
  - vm_compute. reflexivity.
  - vm_compute. reflexivity.
  - vm_compute. discriminate.
  - vm_compute. reflexivity.
  - reflexivity.
  - reflexivity.
  - reflexivity.
  - reflexivity.
  - apply connection_rx_ready. lia.
  - apply connection_tx_ready. vm_compute. lia.
  - apply connection_rx_ready. vm_compute. lia.
  - apply connection_tx_ready. lia.
  - exists wc', ws'. split; [exact Hc|]. split; [exact Hs|].
    apply Hsame; [vm_compute; discriminate | reflexivity].
Defined.

(** ** server.c, an upload that breaks off *)

Section UploadBreaksOff.

(** One turn of the loop of [handle_upload] when the connection hands
    over what it has, up to a buffer. *)
Lemma server_upload_turn f filesize received w k s :
  rx_script w = RxAvail k :: s -> 8192 <= Z.pos k ->
  received < filesize ->
  faults w (OpWrite f received) = false ->
  let got := Nat.min (Z.to_nat (Z.min 8192 (filesize - received)))
               (length (incoming w)) in
  Server.upload_loop (rx_script w) f filesize received w
  = match got with
    | O => Ok (-1) (with_incoming (incoming w) (with_rx s w))
    | _ =>
        Server.upload_loop s f filesize (received + Z.of_nat got)
          (fwrite f received (take got (incoming w))
             (with_incoming (drop got (incoming w)) (with_rx s w)))
    end.
Proof.
  intros Hs Hk Hlt Hnf. cbv zeta. rewrite Hs. cbn [Server.upload_loop].
  destruct (Z.ltb_spec received filesize) as [_|?]; [|lia]. cbv zeta.
  assert (Hto : (if Server.BUF_SIZE <? filesize - received
                 then Server.BUF_SIZE else filesize - received)
                = Z.min 8192 (filesize - received)).
  { unfold Server.BUF_SIZE.
    destruct (Z.ltb_spec 8192 (filesize - received)); lia. }
  rewrite Hto. cbn [sys_recv incoming with_rx].
  assert (Hmin : Nat.min (Z.to_nat (Z.min 8192 (filesize - received)))
                   (Nat.min (Pos.to_nat k) (length (incoming w)))
                 = Nat.min (Z.to_nat (Z.min 8192 (filesize - received)))
                     (length (incoming w))) by lia.
  rewrite Hmin.
  destruct (Nat.min (Z.to_nat (Z.min 8192 (filesize - received)))
              (length (incoming w))) as [|g] eqn:Hgot.
  - cbn [Z.of_nat Z.ltb Z.eqb Z.compare take drop]. reflexivity.
  - destruct (Z.ltb_spec (Z.of_nat (S g)) 0) as [?|_]; [lia|].
    destruct (Z.eqb_spec (Z.of_nat (S g)) 0) as [?|_]; [lia|].
    cbn [faults with_incoming with_rx]. rewrite Hnf. reflexivity.
Qed.

(** The loop of [handle_upload] on a connection that delivers what the
    peer sent and then reports the end of the stream: it stores what
    there is, up to the declared size, and returns 0 when that was
    all, -1 when the stream ended short. *)
Lemma server_upload_loop_drains f filesize :
  f <> [] ->
  forall n received w,
    rx_ready (S n) w -> 0 <= received -> can_open w f = true ->
    received = Z.of_nat (length (file_data w f)) ->
    Z.min (Z.of_nat (length (incoming w))) (filesize - received)
    <= 8192 * Z.of_nat n ->
    (forall pos, faults w (OpWrite f pos) = false) ->
    let a := Z.to_nat (Z.min (Z.of_nat (length (incoming w)))
                         (filesize - received)) in
    exists w',
      Server.upload_loop (rx_script w) f filesize received w
      = Ok (if filesize - received <=? Z.of_nat (length (incoming w))
            then 0 else -1) w'
      /\ file_data w' f = file_data w f ++ take a (incoming w)
      /\ incoming w' = drop a (incoming w)
      /\ sent w' = sent w
      /\ (forall p, p <> f -> fs w' !! p = fs w !! p)
      /\ can_open w' f = true.
Proof.
  intros Hf.
  assert (Hdone : forall received w,
             filesize <= received ->
             exists w',
               Server.upload_loop (rx_script w) f filesize received w
               = Ok (if filesize - received
                        <=? Z.of_nat (length (incoming w))
                     then 0 else -1) w'
               /\ file_data w' f
                  = file_data w f
                    ++ take (Z.to_nat
                               (Z.min (Z.of_nat (length (incoming w)))
                                  (filesize - received))) (incoming w)
               /\ incoming w' = drop (Z.to_nat
                                        (Z.min (Z.of_nat (length (incoming w)))
                                           (filesize - received)))
                                  (incoming w)
               /\ sent w' = sent w
               /\ (forall p, p <> f -> fs w' !! p = fs w !! p)
               /\ can_open w' f = can_open w f).
  { intros received w Hge. exists w.
    destruct (Z.leb_spec (filesize - received)
                (Z.of_nat (length (incoming w)))); [|lia].
    replace (Z.to_nat _) with 0%nat by lia.
    rewrite take_0, drop_0, app_nil_r. split; [|repeat split].
    destruct (rx_script w); cbn [Server.upload_loop];
      destruct (Z.ltb_spec received filesize); try lia; reflexivity. }
  assert (Hshort : forall received w k s,
             rx_script w = RxAvail k :: s -> 8192 <= Z.pos k ->
             received < filesize -> length (incoming w) = 0%nat ->
             (forall pos, faults w (OpWrite f pos) = false) ->
             exists w',
               Server.upload_loop (rx_script w) f filesize received w
               = Ok (if filesize - received
                        <=? Z.of_nat (length (incoming w))
                     then 0 else -1) w'
               /\ file_data w' f
                  = file_data w f
                    ++ take (Z.to_nat
                               (Z.min (Z.of_nat (length (incoming w)))
                                  (filesize - received))) (incoming w)
               /\ incoming w' = drop (Z.to_nat
                                        (Z.min (Z.of_nat (length (incoming w)))
                                           (filesize - received)))
                                  (incoming w)
               /\ sent w' = sent w
               /\ (forall p, p <> f -> fs w' !! p = fs w !! p)
               /\ can_open w' f = can_open w f).
  { intros received w k s Hs Hk Hlt Hempty Hnf.
    rewrite (server_upload_turn f filesize received w k s Hs Hk Hlt (Hnf _)).
    rewrite Hempty, Nat.min_0_r.
    destruct (Z.leb_spec (filesize - received) (Z.of_nat 0)); [lia|].
    eexists. split; [reflexivity|].
    replace (Z.to_nat _) with 0%nat by lia.
    rewrite take_0, drop_0, app_nil_r. repeat split. }
  induction n as [|n IH]; intros received w Hrx Hrec Hopen Hpos Hn Hnf;
    cbv zeta;
    destruct (rx_ready_S _ w Hrx) as (k & s & Hs & Hk & Hnext);
    (destruct (Z.le_gt_cases filesize received) as [Hge|Hlt];
     [rewrite <- Hopen; now apply Hdone|]).
  - rewrite <- Hopen.
    apply (Hshort received w k s Hs Hk); [lia | lia | exact Hnf].
  - destruct (Nat.eq_dec (length (incoming w)) 0%nat) as [Hempty|Hsome];
      [rewrite <- Hopen;
       apply (Hshort received w k s Hs Hk); [lia | exact Hempty | exact Hnf]|].
    rewrite (server_upload_turn f filesize received w k s Hs Hk
               ltac:(lia) (Hnf _)).
    set (got := Nat.min (Z.to_nat (Z.min 8192 (filesize - received)))
                  (length (incoming w))).
    assert (Hgot : (0 < got)%nat /\ (got <= length (incoming w))%nat
                   /\ Z.of_nat got <= filesize - received
                   /\ (Z.of_nat got = 8192
                       \/ Z.of_nat got
                          = Z.min (Z.of_nat (length (incoming w)))
                              (filesize - received)))
      by (unfold got; lia).
    destruct got as [|g] eqn:Eg; [lia|]. rewrite <- Eg in *.
    set (w1 := with_incoming (drop got (incoming w)) (with_rx s w)).
    set (w2 := fwrite f received (take got (incoming w)) w1).
    assert (Hd1 : file_data w1 f = file_data w f) by reflexivity.
    destruct (fwrite_frame f received (take got (incoming w)) w1 Hf)
      as (Hfd & Hopen2 & Hin2 & Hrx2 & _ & Hfa2).
    fold w2 in Hfd, Hopen2, Hin2, Hrx2, Hfa2.
    assert (Hend : forall m d x,
               length d = m -> write_at m x d = d ++ x)
      by (intros m d x <-; apply write_at_end).
    rewrite Hd1 in Hfd.
    rewrite (Hend (Z.to_nat received) (file_data w f)) in Hfd by lia.
    assert (Hi2 : incoming w2 = drop got (incoming w))
      by (rewrite Hin2; reflexivity).
    assert (Hs2 : rx_script w2 = s) by (rewrite Hrx2; reflexivity).
    destruct (IH (received + Z.of_nat got) w2)
      as (w' & Hrun & Hd & Hi & Hsent & Hoth & Hopen').
    + apply Hnext. exact Hs2.
    + lia.
    + exact Hopen2.
    + rewrite Hfd, length_app, length_take. lia.
    + rewrite Hi2, length_drop. lia.
    + intros pos. rewrite Hfa2. apply Hnf.
    + cbv zeta in Hrun, Hd, Hi.
      rewrite Hi2 in Hrun, Hd, Hi. rewrite length_drop in Hrun, Hd, Hi.
      rewrite Hs2 in Hrun.
      exists w'. split.
      { rewrite Hrun. f_equal.
        destruct (Z.leb_spec (filesize - (received + Z.of_nat got))
                    (Z.of_nat (length (incoming w) - got)));
          destruct (Z.leb_spec (filesize - received)
                      (Z.of_nat (length (incoming w)))); lia. }
      set (a' := Z.to_nat (Z.min (Z.of_nat (length (incoming w) - got))
                             (filesize - (received + Z.of_nat got)))) in *.
      assert (Ha : Z.to_nat (Z.min (Z.of_nat (length (incoming w)))
                               (filesize - received)) = (got + a')%nat)
        by (unfold a'; lia).
      rewrite Ha.
      split; [rewrite Hd, Hfd, <- app_assoc, take_take_drop; reflexivity|].
      split; [rewrite Hi, drop_drop; reflexivity|].
      split; [rewrite Hsent; reflexivity|]. split; [|exact Hopen'].
      intros p Hp. rewrite (Hoth p Hp).
      cbn [fs w2 fwrite set_file with_fs w1 with_incoming with_rx].
      now apply lookup_insert_ne.
Qed.

Lemma handle_upload_drains f filesize offset w n :
  0 <= offset <= filesize -> offset < 2 ^ 63 ->
  offset <= Z.of_nat (length (file_data w f)) ->
  f <> [] -> file_at w f <> Some Denied ->
  (forall op, faults w op = false) ->
  rx_ready (S n) w ->
  Z.min (Z.of_nat (length (incoming w))) (filesize - offset)
  <= 8192 * Z.of_nat n ->
  let a := Z.to_nat (Z.min (Z.of_nat (length (incoming w)))
                       (filesize - offset)) in
  exists w',
    Server.handle_upload f filesize offset w
    = Ok (if filesize - offset <=? Z.of_nat (length (incoming w))
          then 0 else -1) w'
    /\ file_data w' f
       = take (Z.to_nat offset) (file_data w f) ++ take a (incoming w)
    /\ incoming w' = drop a (incoming w)
    /\ sent w' = sent w
    /\ (forall p, p <> f -> fs w' !! p = fs w !! p)
    /\ can_open w' f = true.
Proof.
  intros Hoff H63 Hold Hf Hden Hnf Hrx Hn. cbv zeta.
  assert (Hgo : forall w2,
             rx_script w2 = rx_script w -> incoming w2 = incoming w ->
             faults w2 = faults w -> sent w2 = sent w ->
             can_open w2 f = true ->
             file_data w2 f = take (Z.to_nat offset) (file_data w f) ->
             (forall p, p <> f -> fs w2 !! p = fs w !! p) ->
             exists w',
               (if seek_fails w2 f offset then Ok (-1) w2
                else Server.upload_loop (rx_script w2) f filesize offset w2)
               = Ok (if filesize - offset <=? Z.of_nat (length (incoming w))
                     then 0 else -1) w'
               /\ file_data w' f
                  = take (Z.to_nat offset) (file_data w f)
                    ++ take (Z.to_nat
                               (Z.min (Z.of_nat (length (incoming w)))
                                  (filesize - offset))) (incoming w)
               /\ incoming w' = drop (Z.to_nat
                                        (Z.min (Z.of_nat (length (incoming w)))
                                           (filesize - offset)))
                                  (incoming w)
               /\ sent w' = sent w
               /\ (forall p, p <> f -> fs w' !! p = fs w !! p)
               /\ can_open w' f = true).
  { intros w2 Hr2 Hi2 Hf2 Hs2 Ho2 Hd2 Hoth2. unfold seek_fails.
    rewrite off_t_small by lia. rewrite Hf2, Hnf. cbn [orb].
    destruct (server_upload_loop_drains f filesize Hf n offset w2)
      as (w' & Hrun & Hd & Hi & Hsent & Hoth & Hopen').
    - eapply rx_ready_ext; [|exact Hrx]. exact Hr2.
    - lia.
    - exact Ho2.
    - rewrite Hd2, length_take. lia.
    - now rewrite Hi2.
    - intros pos. rewrite Hf2. apply Hnf.
    - cbv zeta in Hrun, Hd, Hi. rewrite Hi2 in Hrun, Hd, Hi.
      exists w'. split; [exact Hrun|]. split; [now rewrite Hd, Hd2|].
      split; [exact Hi|]. split; [congruence|]. split; [|exact Hopen'].
      intros p Hp. rewrite (Hoth p Hp). now apply Hoth2. }
  unfold Server.handle_upload.
  destruct (can_open w f) eqn:Hopen.
  - rewrite !Hnf. cbn [negb andb].
    destruct (Z.ltb_spec offset (Z.of_nat (length (file_data w f)))).
    + apply Hgo; try reflexivity.
      * now apply can_open_set_file.
      * now rewrite file_data_set_file_eq.
      * intros p Hp. cbn [fs set_file with_fs]. now apply lookup_insert_ne.
    + apply Hgo; try reflexivity; [exact Hopen|].
      rewrite take_ge; [reflexivity | lia].
  - assert (Hempty : file_data w f = []).
    { unfold file_data, can_open in *.
      destruct (file_at w f) as [[d|]|]; try reflexivity. discriminate. }
    unfold fopen_trunc. destruct f as [|b t]; [contradiction|].
    destruct (file_at w (b :: t)) as [[d|]|] eqn:Hat;
      try contradiction; rewrite Hnf.
    + unfold can_open in Hopen. rewrite Hat in Hopen. discriminate.
    + cbn [faults set_file with_fs]. rewrite !Hnf. cbn [negb andb].
      assert (Hd1 : file_data (set_file (b :: t) [] w) (b :: t) = [])
        by (now rewrite file_data_set_file_eq).
      rewrite Hd1. cbn [length]. change (Z.of_nat 0) with 0.
      rewrite Hempty in Hold. cbn [length] in Hold.
      destruct (Z.ltb_spec offset 0) as [?|_]; [lia|].
      apply Hgo; try reflexivity.
      * now apply can_open_set_file.
      * rewrite Hd1, Hempty. now rewrite take_nil.
      * intros p Hp. cbn [fs set_file with_fs]. now apply lookup_insert_ne.
Qed.

End UploadBreaksOff.

Section ServerUploadDrains.

Variables (w : world) (mode fname : list Z) (size : Z) (payload : list Z).
Hypothesis Hreq : upload_request w mode fname size payload.

Let f := cstr fname.
Let old := file_data w f.
Let agreed := Z.min (Z.of_nat (length old)) size.
Let a := Z.to_nat (Z.min (Z.of_nat (length payload)) (size - agreed)).

(** [handle_client] on an upload whose payload may stop short, on a
    connection that delivers what there is: the handler returns, and
    the server's copy is its first [agreed] bytes followed by what came
    of the payload, up to the declared size. *)
Lemma handle_client_upload_drains n :
  f <> [] -> file_at w f <> Some Denied -> size < 2 ^ 63 ->
  (forall op, faults w op = false) ->
  rx_ready (6 + n) w ->
  Z.min (Z.of_nat (length payload)) (size - agreed) <= 8192 * Z.of_nat n ->
  tx_ready 1 w ->
  exists w',
    Server.handle_client w = Ok tt w'
    /\ file_data w' f = take (Z.to_nat agreed) old ++ take a payload
    /\ sent w' = sent w ++ be_bytes 8 agreed
    /\ faults w' = faults w
    /\ (forall p, p <> f -> fs w' !! p = fs w !! p)
    /\ can_open w' f = true.
Proof.
  intros Hf Hden H63 Hnf Hrx Hn Htx.
  pose proof (agreed_bounds w mode fname size payload Hreq) as Hag.
  cbv zeta in Hag. fold f old agreed in Hag.
  destruct (serve_upload_ready_more (S n) w mode fname size payload Hreq Hden
              Hrx Htx)
    as (w3 & Hfs3 & Hfa3 & Hs3 & Hi3 & Hr3 & Hrun).
  cbv zeta in Hrun, Hs3. fold f old agreed in Hrun, Hs3.
  assert (Hold3 : file_data w3 f = old) by (now apply file_data_ext).
  destruct (handle_upload_drains f size agreed w3 n)
    as (w' & Hw' & Hd & _ & Hsent & Hoth & Hopen');
    [lia | lia | rewrite Hold3; lia | exact Hf
    | now rewrite (file_at_ext w w3 f Hfs3)
    | intros op; rewrite Hfa3; apply Hnf | exact Hr3
    | rewrite Hi3; exact Hn |].
  cbv zeta in Hd. rewrite Hi3, Hold3 in Hd. fold a in Hd.
  pose proof (handle_upload_spec f size agreed w3
                ltac:(rewrite Hold3; lia)) as (Hup & _).
  cbv zeta in Hup. rewrite Hw' in Hup. cbn [final] in Hup.
  destruct Hup as [Hh Hfa ? ? ? ? ?].
  exists (close w'). unfold Server.handle_client.
  rewrite Hrun. unfold bind. rewrite Hw'. cbn [ret].
  split; [reflexivity|]. split; [exact Hd|].
  split; [cbn [sent close]; congruence|].
  split; [cbn [faults close]; congruence|]. split; [|exact Hopen'].
  intros p Hp. cbn [fs close]. rewrite (Hoth p Hp), Hfs3. reflexivity.
Qed.

End ServerUploadDrains.

(** ** server.c, [main]: one connection after another *)

Section ServerSessions.

Lemma rx_ready_attach n bytes rx tx w w' :
  rx_ready n (ServerMain.attach bytes rx tx w) ->
  rx_ready n (ServerMain.attach bytes rx tx w').
Proof. apply rx_ready_ext. reflexivity. Qed.

Lemma tx_ready_attach n bytes rx tx w w' :
  tx_ready n (ServerMain.attach bytes rx tx w) ->
  tx_ready n (ServerMain.attach bytes rx tx w').
Proof. apply tx_ready_ext. reflexivity. Qed.

Lemma upload_request_attach f size payload rx tx w :
  0 < Z.of_nat (length f) < 512 -> 0 <= size < 2 ^ 64 ->
  upload_request
    (ServerMain.attach (request_header "upload" f size ++ payload) rx tx w)
    (bytes_of_string "upload") f size payload.
Proof.
  intros Hlen Hsize.
  split; [|split; [reflexivity|split; [cbn; lia|split; [exact Hlen|lia]]]].
  cbn [incoming ServerMain.attach]. unfold request_header.
  now rewrite <- !app_assoc.
Qed.

Lemma download_request_attach f L rx tx w :
  0 < Z.of_nat (length f) < 512 -> 0 <= L < 2 ^ 64 ->
  download_request
    (ServerMain.attach (request_header "download" f L) rx tx w)
    (bytes_of_string "download") f L [].
Proof.
  intros Hlen HL.
  split; [|split; [reflexivity|split; [cbn; lia|split; [exact Hlen|lia]]]].
  cbn [incoming ServerMain.attach]. unfold request_header.
  now rewrite app_nil_r.
Qed.

End ServerSessions.

(** X7.  An upload that breaks off, and its retry, as [main] handles
    them one after the other.  The first connection carries the request
    and [j] payload bytes, then ends; the second carries the request
    again and the payload from where the server's copy now ends.  The
    server answers offset [a0 = min (|old|, size)] on the first and
    [a0 + j] on the second, and its copy ends as the first [a0] bytes of
    [old] followed by [data] from byte [a0] on, the same as after an
    upload in one piece. *)
Theorem interrupted_upload_resumes :
  forall f data old w (j n1 n2 : nat) rx1 tx1 rx2 tx2,
    0 < Z.of_nat (length f) < 512 -> cstr f = f ->
    Z.of_nat (length data) < 2 ^ 63 ->
    file_data w f = old -> file_at w f <> Some Denied ->
    (forall op, faults w op = false) ->
    let size := Z.of_nat (length data) in
    let a0 := Z.min (Z.of_nat (length old)) size in
    a0 + Z.of_nat j < size ->
    let request := request_header "upload" f size in
    let first := request ++ take j (drop (Z.to_nat a0) data) in
    let second := request ++ drop (Z.to_nat a0 + j) data in
    rx_ready (6 + n1) (ServerMain.attach first rx1 tx1 w) ->
    Z.of_nat j <= 8192 * Z.of_nat n1 ->
    tx_ready 1 (ServerMain.attach first rx1 tx1 w) ->
    rx_ready (5 + n2) (ServerMain.attach second rx2 tx2 w) ->
    size - (a0 + Z.of_nat j) <= 8192 * Z.of_nat n2 ->
    tx_ready 1 (ServerMain.attach second rx2 tx2 w) ->
    let r := ServerMain.main (ServerMain.Startup false false false)
               [ServerMain.Accepted first rx1 tx1;
                ServerMain.Accepted second rx2 tx2] w in
    ServerMain.stage_of r = ServerMain.InAccept
    /\ ServerMain.transcripts r
       = [be_bytes 8 a0; be_bytes 8 (a0 + Z.of_nat j)]
    /\ file_data (ServerMain.state r) f
       = take (Z.to_nat a0) old ++ drop (Z.to_nat a0) data
    /\ (take (Z.to_nat a0) old = take (Z.to_nat a0) data ->
        file_data (ServerMain.state r) f = data).
Proof.
  intros f data old w j n1 n2 rx1 tx1 rx2 tx2 Hlen Hstr H63 Hold Hden Hnf.
  cbv zeta. set (size := Z.of_nat (length data)).
  set (a0 := Z.min (Z.of_nat (length old)) size).
  intros Hj Hrx1 Hn1 Htx1 Hrx2 Hn2 Htx2.
  assert (Hf : f <> []) by (intros ->; cbn in Hlen; lia).
  set (p1 := take j (drop (Z.to_nat a0) data)).
  set (p2 := drop (Z.to_nat a0 + j) data).
  set (w1 := ServerMain.attach (request_header "upload" f size ++ p1)
               rx1 tx1 w).
  assert (Hlp1 : length p1 = j)
    by (unfold p1; rewrite length_take, length_drop; lia).
  (* the first connection *)
  pose proof (upload_request_attach f size p1 rx1 tx1 w Hlen ltac:(lia))
    as Hreq1. fold w1 in Hreq1.
  pose proof (handle_client_upload_drains w1 _ f size p1 Hreq1 n1) as H1.
  cbv zeta in H1. rewrite Hstr in H1.
  change (file_data w1 f) with (file_data w f) in H1.
  rewrite Hold in H1. fold a0 in H1.
  destruct H1 as (w1' & Hrun1 & Hd1 & Hs1 & Hfa1 & _ & Hopen1);
    [exact Hf | exact Hden | exact H63 | exact Hnf | exact Hrx1
    | rewrite Hlp1; lia | exact Htx1 |].
  replace (Z.to_nat (Z.min (Z.of_nat (length p1)) (size - a0))) with j
    in Hd1 by lia.
  rewrite (take_ge p1 j) in Hd1 by lia.
  (* the second connection *)
  set (w2 := ServerMain.attach (request_header "upload" f size ++ p2)
               rx2 tx2 w1').
  pose proof (upload_request_attach f size p2 rx2 tx2 w1' Hlen ltac:(lia))
    as Hreq2. fold w2 in Hreq2.
  assert (Hold2 : file_data w2 f = take (Z.to_nat a0) old ++ p1)
    by exact Hd1.
  assert (Hlen2 : Z.of_nat (length (file_data w2 f)) = a0 + Z.of_nat j).
  { rewrite Hold2, length_app, length_take, Hlp1. unfold a0 in *. lia. }
  pose proof (handle_client_upload_ready w2 _ f size p2 Hreq2 n2) as H2.
  cbv zeta in H2. rewrite Hstr, Hlen2 in H2.
  replace (Z.min (a0 + Z.of_nat j) size) with (a0 + Z.of_nat j) in H2 by lia.
  destruct H2 as (w2' & Hrun2 & Hd2 & _ & Hs2).
  - exact Hf.
  - change (file_at w2 f) with (file_at w1' f).
    rewrite (can_open_reg w1' f Hopen1). discriminate.
  - exact H63.
  - intros op. change (faults w2 op) with (faults w1' op).
    rewrite Hfa1. apply Hnf.
  - unfold p2. rewrite length_drop. lia.
  - eapply rx_ready_attach. exact Hrx2.
  - exact Hn2.
  - eapply tx_ready_attach. exact Htx2.
  - unfold ServerMain.main. cbn [ServerMain.socket_fails ServerMain.bind_fails
      ServerMain.listen_fails ServerMain.accept_loop].
    fold p1 p2 w1. rewrite Hrun1. fold w2. rewrite Hrun2.
    cbn [ServerMain.stage_of ServerMain.transcripts ServerMain.state app].
    assert (Hfile : file_data w2' f
                    = take (Z.to_nat a0) old ++ drop (Z.to_nat a0) data).
    { rewrite Hd2, Hold2.
      rewrite take_ge by (rewrite length_app, length_take, Hlp1;
                          unfold a0 in *; lia).
      rewrite <- app_assoc. f_equal. unfold p1, p2.
      rewrite <- drop_drop. apply take_drop. }
    split; [reflexivity|]. split; [now rewrite Hs1, Hs2|].
    split; [exact Hfile|].
    intros Hpre. rewrite Hfile, Hpre. apply take_drop.
Qed.

Lemma interrupted_upload_resumes_witness :
  let request := request_header "upload" (bytes_of_string "f") 3 in
  let rx := rx_script server_with_one_byte in
  let tx := tx_script server_with_one_byte in
  let r := ServerMain.main (ServerMain.Startup false false false)
             [ServerMain.Accepted (request ++ [8]) rx tx;
              ServerMain.Accepted (request ++ [9]) rx tx]
             server_with_one_byte in
  ServerMain.transcripts r = [be_bytes 8 1; be_bytes 8 2]
  /\ file_data (ServerMain.state r) (bytes_of_string "f") = [7; 8; 9].
Proof.
  cbv zeta.
  destruct (interrupted_upload_resumes (bytes_of_string "f") [7; 8; 9] [7]
              server_with_one_byte 1 1 1
              (rx_script server_with_one_byte)
              (tx_script server_with_one_byte)
              (rx_script server_with_one_byte)
              (tx_script server_with_one_byte))
    as (_ & Ht & _ & Hfile).
  - vm_compute. split; reflexivity.
  - reflexivity.
  - vm_compute. reflexivity.
  - vm_compute. reflexivity.
  - vm_compute. discriminate.
  - reflexivity.
  - vm_compute. reflexivity.
  - eapply rx_ready_ext; [|apply (connection_rx_ready ∅ [] 7); lia].
    reflexivity.
  - lia.
  - eapply tx_ready_ext; [|apply (connection_tx_ready ∅ [] 1); lia].
    reflexivity.
  - eapply rx_ready_ext; [|apply (connection_rx_ready ∅ [] 6); lia].
    reflexivity.
  - vm_compute. discriminate.
  - eapply tx_ready_ext; [|apply (connection_tx_ready ∅ [] 1); lia].
    reflexivity.
  - split; [exact Ht | apply Hfile; reflexivity].
Defined.

(** X8.  An upload, a failed [accept], and a download of the same name,
    as [main] handles them.  What the download is answered with is the
    size of the file just stored, the offset [min (L, size)] and the
    stored bytes from that offset on; the failed [accept] in between
    changes nothing.  A server that held nothing under the name returns
    what was uploaded. *)
Theorem upload_then_download_round_trip :
  forall f data old w e L (n1 : nat) rx1 tx1 rx2 tx2,
    0 < Z.of_nat (length f) < 512 -> cstr f = f ->
    Z.of_nat (length data) < 2 ^ 63 -> 0 <= L < 2 ^ 64 ->
    file_data w f = old -> file_at w f <> Some Denied ->
    (forall op, faults w op = false) ->
    let size := Z.of_nat (length data) in
    let a0 := Z.min (Z.of_nat (length old)) size in
    let stored := take (Z.to_nat a0) old ++ drop (Z.to_nat a0) data in
    let off := Z.min L size in
    let first := request_header "upload" f size ++ drop (Z.to_nat a0) data in
    let second := request_header "download" f L in
    rx_ready (6 + n1) (ServerMain.attach first rx1 tx1 w) ->
    size - a0 <= 8192 * Z.of_nat n1 ->
    tx_ready 1 (ServerMain.attach first rx1 tx1 w) ->
    rx_ready 5 (ServerMain.attach second rx2 tx2 w) ->
    tx_ready (2 + length (chunks (Z.to_nat 8192)
                            (drop (Z.to_nat off) stored)))
      (ServerMain.attach second rx2 tx2 w) ->
    let r := ServerMain.main (ServerMain.Startup false false false)
               [ServerMain.Accepted first rx1 tx1;
                ServerMain.AcceptErr e;
                ServerMain.Accepted second rx2 tx2] w in
    ServerMain.stage_of r = ServerMain.InAccept
    /\ ServerMain.transcripts r
       = [be_bytes 8 a0;
          be_bytes 8 size ++ be_bytes 8 off ++ drop (Z.to_nat off) stored]
    /\ file_data (ServerMain.state r) f = stored
    /\ (old = [] -> stored = data).
Proof.
  intros f data old w e L n1 rx1 tx1 rx2 tx2 Hlen Hstr H63 HL Hold Hden Hnf.
  cbv zeta. set (size := Z.of_nat (length data)).
  set (a0 := Z.min (Z.of_nat (length old)) size).
  set (stored := take (Z.to_nat a0) old ++ drop (Z.to_nat a0) data).
  set (off := Z.min L size).
  intros Hrx1 Hn1 Htx1 Hrx2 Htx2.
  assert (Hf : f <> []) by (intros ->; cbn in Hlen; lia).
  set (p1 := drop (Z.to_nat a0) data).
  set (w1 := ServerMain.attach (request_header "upload" f size ++ p1)
               rx1 tx1 w).
  assert (Hlp1 : Z.of_nat (length p1) = size - a0)
    by (unfold p1; rewrite length_drop; unfold a0, size in *; lia).
  assert (Hls : Z.of_nat (length stored) = size).
  { unfold stored. fold p1. rewrite length_app, length_take.
    unfold a0, size in *. lia. }
  (* the upload *)
  pose proof (upload_request_attach f size p1 rx1 tx1 w Hlen ltac:(lia))
    as Hreq1. fold w1 in Hreq1.
  pose proof (handle_client_upload_drains w1 _ f size p1 Hreq1 n1) as H1.
  cbv zeta in H1. rewrite Hstr in H1.
  change (file_data w1 f) with (file_data w f) in H1.
  rewrite Hold in H1. fold a0 in H1.
  destruct H1 as (w1' & Hrun1 & Hd1 & Hs1 & Hfa1 & _ & Hopen1);
    [exact Hf | exact Hden | exact H63 | exact Hnf | exact Hrx1
    | lia | exact Htx1 |].
  rewrite (take_ge p1) in Hd1 by lia. fold stored in Hd1.
  (* the download *)
  set (w2 := ServerMain.attach (request_header "download" f L) rx2 tx2
               (with_errno e w1')).
  pose proof (download_request_attach f L rx2 tx2 (with_errno e w1') Hlen HL)
    as Hreq2. fold w2 in Hreq2.
  assert (Hat2 : file_at w2 f = Some (Reg stored)).
  { change (file_at w2 f) with (file_at w1' f).
    rewrite (can_open_reg w1' f Hopen1). now rewrite Hd1. }
  pose proof (handle_client_download_ready w2 _ f L [] Hreq2 stored) as H2.
  cbv zeta in H2. rewrite Hstr, Hls in H2. fold off in H2.
  destruct H2 as (w2' & Hrun2 & Hs2 & _ & Hfs2).
  - exact Hat2.
  - eapply rx_ready_attach. exact Hrx2.
  - eapply tx_ready_attach. exact Htx2.
  - intros op. change (faults w2 op) with (faults w1' op).
    rewrite Hfa1. apply Hnf.
  - exact H63.
  - unfold ServerMain.main. cbn [ServerMain.socket_fails ServerMain.bind_fails
      ServerMain.listen_fails ServerMain.accept_loop].
    fold p1 w1. rewrite Hrun1. fold w2. rewrite Hrun2.
    cbn [ServerMain.stage_of ServerMain.transcripts ServerMain.state app].
    split; [reflexivity|]. split; [now rewrite Hs1, Hs2|].
    split.
    + rewrite (file_data_ext w2 w2' f Hfs2).
      change (file_data w2 f) with (file_data w1' f). exact Hd1.
    + intros ->. unfold stored, a0. cbn [length].
      replace (Z.to_nat (Z.min (Z.of_nat 0) size)) with 0%nat by lia.
      reflexivity.
Qed.

Lemma upload_then_download_round_trip_witness :
  let rx := rx_script empty_server in
  let tx := tx_script empty_server in
  let r := ServerMain.main (ServerMain.Startup false false false)
             [ServerMain.Accepted
                (request_header "upload" (bytes_of_string "f") 3 ++ [7; 8; 9])
                rx tx;
              ServerMain.AcceptErr EINTR;
              ServerMain.Accepted
                (request_header "download" (bytes_of_string "f") 0) rx tx]
             empty_server in
  ServerMain.transcripts r
  = [be_bytes 8 0; be_bytes 8 3 ++ be_bytes 8 0 ++ [7; 8; 9]].
Proof.
  cbv zeta.
  destruct (upload_then_download_round_trip (bytes_of_string "f") [7; 8; 9] []
              empty_server EINTR 0 1
              (rx_script empty_server) (tx_script empty_server)
              (rx_script empty_server) (tx_script empty_server))
    as (_ & Ht & _).
  - vm_compute. split; reflexivity.
  - reflexivity.
  - vm_compute. reflexivity.
  - lia.
  - reflexivity.
  - discriminate.
  - reflexivity.
  - eapply rx_ready_ext; [|apply (connection_rx_ready ∅ [] 7); lia].
    reflexivity.
  - vm_compute. discriminate.
  - eapply tx_ready_ext; [|apply (connection_tx_ready ∅ [] 1); lia].
    reflexivity.
  - eapply rx_ready_ext; [|apply (connection_rx_ready ∅ [] 5); lia].
    reflexivity.
  - eapply tx_ready_ext; [|apply (connection_tx_ready ∅ [] 3); lia].
    reflexivity.
  - exact Ht.
Defined.

(** ** The stream primitives, call by call *)

Section ClientPrimitives.

(** client.c, [recv_all]: what the first [recv] of a call decides. *)
Lemma client_recv_all_first len w st s :
  0 < len -> rx_script w = st :: s ->
  Client.recv_all len w
  = match st with
    | RxErr e =>
        if decide (e = EINTR) then Client.recv_all len (with_errno e (with_rx s w))
        else if decide (e = EAGAIN)
        then Client.recv_all len (with_errno e (with_rx s w))
        else Ok (-1, []) (with_errno e (with_rx s w))
    | RxAvail k =>
        match incoming w with
        | [] => Ok (-1, []) (with_incoming [] (with_rx s w))
        | _ =>
            let n := Nat.min (Z.to_nat len)
                       (Nat.min (Pos.to_nat k) (length (incoming w))) in
            Client.recv_all_loop s len (len - Z.of_nat n)
              (take n (incoming w))
              (with_incoming (drop n (incoming w)) (with_rx s w))
        end
    end.
Proof.
  intros Hlen Hs. unfold Client.recv_all. rewrite Hs.
  cbn [Client.recv_all_loop]. destruct (Z.ltb_spec 0 len) as [_|?]; [|lia].
  destruct st as [k|e]; cbn [sys_recv incoming with_rx].
  - destruct (incoming w) as [|b l] eqn:Hi.
    + cbn [length]. rewrite !Nat.min_0_r. cbn [Z.of_nat take drop].
      reflexivity.
    + cbv zeta.
      set (n := Nat.min (Z.to_nat len)
                  (Nat.min (Pos.to_nat k) (length (b :: l)))).
      assert (Hn : (0 < n)%nat) by (unfold n; cbn [length]; lia).
      destruct (Z.ltb_spec (Z.of_nat n) 0) as [?|_]; [lia|].
      destruct (Z.eqb_spec (Z.of_nat n) 0) as [?|_]; [lia|].
      reflexivity.
  - change (-1 <? 0) with true. cbv iota. cbn [errno with_errno].
    destruct (decide (e = EINTR)); [reflexivity|].
    destruct (decide (e = EAGAIN)); reflexivity.
Qed.

(** client.c, [send_all]: what the first [send] of a call decides. *)
Lemma client_send_all_first buf w st s :
  buf <> [] -> tx_script w = st :: s ->
  Client.send_all buf w
  = match st with
    | TxErr e =>
        if decide (e = EINTR) then Client.send_all buf (with_errno e (with_tx s w))
        else if decide (e = EAGAIN)
        then Client.send_all buf (with_errno e (with_tx s w))
        else Ok (-1) (with_errno e (with_tx s w))
    | TxRoom 0 => Ok (-1) (with_sent (sent w ++ []) (with_tx s w))
    | TxRoom k =>
        let n := Nat.min (length buf) k in
        Client.send_all_loop s (Z.of_nat (length buf)) (drop n buf)
          (with_sent (sent w ++ take n buf) (with_tx s w))
    end.
Proof.
  intros Hbuf Hs. unfold Client.send_all. rewrite Hs.
  cbn [Client.send_all_loop].
  assert (Hl : (0 < length buf)%nat) by (destruct buf; [easy | cbn; lia]).
  destruct (Z.ltb_spec 0 (Z.of_nat (length buf))) as [_|?]; [|lia].
  destruct st as [k|e]; cbn [sys_send].
  - destruct k as [|k].
    + rewrite Nat.min_0_r. cbn [Z.of_nat take]. reflexivity.
    + cbv zeta. set (n := Nat.min (length buf) (S k)).
      assert (Hn : (0 < n)%nat) by (unfold n; lia).
      destruct (Z.ltb_spec (Z.of_nat n) 0) as [?|_]; [lia|].
      destruct (Z.eqb_spec (Z.of_nat n) 0) as [?|_]; [lia|].
      rewrite Nat2Z.id. reflexivity.
  - change (-1 <? 0) with true. cbv iota. cbn [errno with_errno].
    unfold Client.send_all. cbn [tx_script with_errno with_tx].
    destruct (decide (e = EINTR)); [reflexivity|].
    destruct (decide (e = EAGAIN)); reflexivity.
Qed.

End ClientPrimitives.

(** X9.  client.c, [recv_all] and [send_all].  A call that returns has
    moved exactly [len] bytes and returns [len] (the bytes received are
    the next [len] of the stream), or returns -1; it never reports a
    partial count, and touches nothing but the socket.  A [recv] or
    [send] that fails with [EINTR] or [EAGAIN] is made again; any other
    error, the end of the stream (a [recv] of 0 bytes) and a [send] of 0
    bytes make the call return -1 at once, whatever [errno] held. *)
Theorem client_stream_primitives :
  (forall len w, 0 <= len ->
     match Client.recv_all len w with
     | Ok (v, buf) w' =>
         rx_only w w'
         /\ ((v = len /\ buf = take (Z.to_nat len) (incoming w)
              /\ incoming w' = drop (Z.to_nat len) (incoming w)
              /\ (Z.to_nat len <= length (incoming w))%nat)
             \/ v = -1)
     | Fail _ => False
     | Blocked w' => rx_only w w' /\ rx_script w' = []
     end)
  /\ (forall buf w,
        match Client.send_all buf w with
        | Ok v w' =>
            tx_only buf w w'
            /\ ((v = Z.of_nat (length buf) /\ sent w' = sent w ++ buf)
                \/ v = -1)
        | Fail _ => False
        | Blocked w' => tx_only buf w w' /\ tx_script w' = []
        end)
  /\ (forall len w e s,
        0 < len -> rx_script w = RxErr e :: s ->
        (e = EINTR \/ e = EAGAIN ->
         Client.recv_all len w
         = Client.recv_all len (with_errno e (with_rx s w)))
        /\ (e <> EINTR -> e <> EAGAIN ->
            Client.recv_all len w = Ok (-1, []) (with_errno e (with_rx s w))))
  /\ (forall buf w e s,
        buf <> [] -> tx_script w = TxErr e :: s ->
        (e = EINTR \/ e = EAGAIN ->
         Client.send_all buf w
         = Client.send_all buf (with_errno e (with_tx s w)))
        /\ (e <> EINTR -> e <> EAGAIN ->
            Client.send_all buf w = Ok (-1) (with_errno e (with_tx s w))))
  /\ (forall len w k s,
        0 < len -> rx_script w = RxAvail k :: s -> incoming w = [] ->
        exists w', Client.recv_all len w = Ok (-1, []) w'
                   /\ errno w' = errno w)
  /\ (forall buf w s,
        buf <> [] -> tx_script w = TxRoom 0 :: s ->
        exists w', Client.send_all buf w = Ok (-1) w' /\ sent w' = sent w).
Proof.
  split; [|split; [|split; [|split; [|split]]]].
  - intros len w Hlen. pose proof (client_recv_all_spec len w Hlen) as H.
    destruct (Client.recv_all len w) as [[v buf] w'|w'|w'];
      cbn [recv_post] in H; [|exact H|].
    + destruct H as (Hrx & _ & [(-> & -> & Hl & Hi)| ->]);
        (split; [exact Hrx|]); [left | now right].
      repeat split; assumption.
    + destruct H as (Hrx & Hs & _). now split.
  - intros buf w. pose proof (client_send_all_spec buf w) as H.
    destruct (Client.send_all buf w) as [v w'|w'|w'];
      cbn [send_post] in H; exact H.
  - intros len w e s Hlen Hs.
    rewrite (client_recv_all_first len w (RxErr e) s Hlen Hs). split.
    + intros [-> | ->]; [reflexivity|].
      destruct (decide (EAGAIN = EINTR)); [discriminate | reflexivity].
    + intros H1 H2. destruct (decide (e = EINTR)); [contradiction|].
      destruct (decide (e = EAGAIN)); [contradiction | reflexivity].
  - intros buf w e s Hbuf Hs.
    rewrite (client_send_all_first buf w (TxErr e) s Hbuf Hs). split.
    + intros [-> | ->]; [reflexivity|].
      destruct (decide (EAGAIN = EINTR)); [discriminate | reflexivity].
    + intros H1 H2. destruct (decide (e = EINTR)); [contradiction|].
      destruct (decide (e = EAGAIN)); [contradiction | reflexivity].
  - intros len w k s Hlen Hs Hi.
    rewrite (client_recv_all_first len w (RxAvail k) s Hlen Hs), Hi.
    eexists. split; reflexivity.
  - intros buf w s Hbuf Hs.
    rewrite (client_send_all_first buf w (TxRoom 0) s Hbuf Hs).
    eexists. split; [reflexivity|]. cbn [sent with_sent]. apply app_nil_r.
Qed.

Section ServerPrimitives.

(** server.c, [recv_all]: what the first [recv] of a call decides; a
    zero-length read is judged by the [errno] some earlier call left. *)
Lemma server_recv_all_first len w st s :
  0 < len -> rx_script w = st :: s ->
  Server.recv_all len w
  = match st with
    | RxErr e =>
        if decide (e = EINTR) then Server.recv_all len (with_errno e (with_rx s w))
        else Ok (-1, []) (with_errno e (with_rx s w))
    | RxAvail k =>
        match incoming w with
        | [] =>
            if decide (errno w = EINTR)
            then Server.recv_all len (with_incoming [] (with_rx s w))
            else Ok (-1, []) (with_incoming [] (with_rx s w))
        | _ =>
            let n := Nat.min (Z.to_nat len)
                       (Nat.min (Pos.to_nat k) (length (incoming w))) in
            Server.recv_all_loop s len (Z.of_nat n) (take n (incoming w))
              (with_incoming (drop n (incoming w)) (with_rx s w))
        end
    end.
Proof.
  intros Hlen Hs. unfold Server.recv_all. rewrite Hs.
  cbn [Server.recv_all_loop]. destruct (Z.ltb_spec 0 len) as [_|?]; [|lia].
  rewrite Z.sub_0_r.
  destruct st as [k|e]; cbn [sys_recv incoming with_rx].
  - destruct (incoming w) as [|b l] eqn:Hi.
    + cbn [length]. rewrite !Nat.min_0_r. cbn [Z.of_nat take drop].
      change (0 <=? 0) with true. cbv iota.
      cbn [errno with_incoming with_rx rx_script].
      destruct (decide (errno w = EINTR)); reflexivity.
    + cbv zeta.
      set (n := Nat.min (Z.to_nat len)
                  (Nat.min (Pos.to_nat k) (length (b :: l)))).
      assert (Hn : (0 < n)%nat) by (unfold n; cbn [length]; lia).
      destruct (Z.leb_spec (Z.of_nat n) 0) as [?|_]; [lia|].
      reflexivity.
  - change (-1 <=? 0) with true. cbv iota. cbn [errno with_errno].
    destruct (decide (e = EINTR)); reflexivity.
Qed.

(** server.c, [send_all]: what the first [send] of a call decides. *)
Lemma server_send_all_first buf w st s :
  buf <> [] -> tx_script w = st :: s ->
  Server.send_all buf w
  = match st with
    | TxErr e =>
        if decide (e = EINTR) then Server.send_all buf (with_errno e (with_tx s w))
        else Ok (-1) (with_errno e (with_tx s w))
    | TxRoom 0 =>
        if decide (errno w = EINTR)
        then Server.send_all buf (with_sent (sent w ++ []) (with_tx s w))
        else Ok (-1) (with_sent (sent w ++ []) (with_tx s w))
    | TxRoom k =>
        let n := Nat.min (length buf) k in
        Server.send_all_loop s buf (Z.of_nat n)
          (with_sent (sent w ++ take n buf) (with_tx s w))
    end.
Proof.
  intros Hbuf Hs. unfold Server.send_all. rewrite Hs.
  cbn [Server.send_all_loop].
  assert (Hl : (0 < length buf)%nat) by (destruct buf; [easy | cbn; lia]).
  destruct (Z.ltb_spec 0 (Z.of_nat (length buf))) as [_|?]; [|lia].
  change (Z.to_nat 0) with 0%nat. rewrite drop_0.
  destruct st as [k|e]; cbn [sys_send].
  - destruct k as [|k].
    + rewrite Nat.min_0_r. cbn [Z.of_nat take].
      change (0 <=? 0) with true. cbv iota.
      cbn [errno with_sent with_tx tx_script].
      destruct (decide (errno w = EINTR)); reflexivity.
    + cbv zeta. set (n := Nat.min (length buf) (S k)).
      assert (Hn : (0 < n)%nat) by (unfold n; lia).
      destruct (Z.leb_spec (Z.of_nat n) 0) as [?|_]; [lia|].
      reflexivity.
  - change (-1 <=? 0) with true. cbv iota. cbn [errno with_errno].
    destruct (decide (e = EINTR)); reflexivity.
Qed.

End ServerPrimitives.

(** X10.  server.c, [recv_all] and [send_all].  A call that returns has
    moved exactly [len] bytes and returns [len], or returns -1; it never
    reports a partial count.  A [recv] or [send] that fails with [EINTR]
    is made again; any other error, [EAGAIN] included, makes the call
    return -1; so does the end of the stream when [errno] does not read
    [EINTR].  On a connection that hands over whole buffers the call
    returns [len] after one [recv] or [send]. *)
Theorem server_stream_primitives :
  (forall len w, 0 <= len ->
     match Server.recv_all len w with
     | Ok (v, buf) w' =>
         rx_only w w'
         /\ ((v = len /\ buf = take (Z.to_nat len) (incoming w)
              /\ incoming w' = drop (Z.to_nat len) (incoming w)
              /\ (Z.to_nat len <= length (incoming w))%nat)
             \/ v = -1)
     | Fail _ => False
     | Blocked w' => rx_only w w' /\ rx_script w' = []
     end)
  /\ (forall buf w,
        match Server.send_all buf w with
        | Ok v w' =>
            tx_only buf w w'
            /\ ((v = Z.of_nat (length buf) /\ sent w' = sent w ++ buf)
                \/ v = -1)
        | Fail _ => False
        | Blocked w' => tx_only buf w w' /\ tx_script w' = []
        end)
  /\ (forall len w e s,
        0 < len -> rx_script w = RxErr e :: s ->
        (e = EINTR ->
         Server.recv_all len w
         = Server.recv_all len (with_errno e (with_rx s w)))
        /\ (e <> EINTR ->
            Server.recv_all len w = Ok (-1, []) (with_errno e (with_rx s w))))
  /\ (forall buf w e s,
        buf <> [] -> tx_script w = TxErr e :: s ->
        (e = EINTR ->
         Server.send_all buf w
         = Server.send_all buf (with_errno e (with_tx s w)))
        /\ (e <> EINTR ->
            Server.send_all buf w = Ok (-1) (with_errno e (with_tx s w))))
  /\ (forall len w k s,
        0 < len -> rx_script w = RxAvail k :: s -> incoming w = [] ->
        errno w <> EINTR ->
        exists w', Server.recv_all len w = Ok (-1, []) w')
  /\ (forall n len w,
        rx_ready (S n) w -> 0 < len <= 8192 ->
        (Z.to_nat len <= length (incoming w))%nat ->
        exists w',
          Server.recv_all len w = Ok (len, take (Z.to_nat len) (incoming w)) w'
          /\ rx_ready n w')
  /\ (forall n buf w,
        tx_ready (S n) w -> Z.of_nat (length buf) <= 8192 ->
        exists w',
          Server.send_all buf w = Ok (Z.of_nat (length buf)) w'
          /\ sent w' = sent w ++ buf /\ tx_ready n w').
Proof.
  split; [|split; [|split; [|split; [|split; [|split]]]]].
  - intros len w Hlen. pose proof (server_recv_all_spec len w Hlen) as H.
    destruct (Server.recv_all len w) as [[v buf] w'|w'|w'];
      cbn [recv_post] in H; [|exact H|].
    + destruct H as (Hrx & _ & [(-> & -> & Hl & Hi)| ->]);
        (split; [exact Hrx|]); [left | now right].
      repeat split; assumption.
    + destruct H as (Hrx & Hs & _). now split.
  - intros buf w. pose proof (server_send_all_spec buf w) as H.
    destruct (Server.send_all buf w) as [v w'|w'|w'];
      cbn [send_post] in H; exact H.
  - intros len w e s Hlen Hs.
    rewrite (server_recv_all_first len w (RxErr e) s Hlen Hs). split.
    + intros ->. reflexivity.
    + intros H1. destruct (decide (e = EINTR)); [contradiction|reflexivity].
  - intros buf w e s Hbuf Hs.
    rewrite (server_send_all_first buf w (TxErr e) s Hbuf Hs). split.
    + intros ->. reflexivity.
    + intros H1. destruct (decide (e = EINTR)); [contradiction|reflexivity].
  - intros len w k s Hlen Hs Hi He.
    rewrite (server_recv_all_first len w (RxAvail k) s Hlen Hs), Hi.
    destruct (decide (errno w = EINTR)); [contradiction|]. now eexists.
  - intros n len w Hrx Hlen Hl.
    destruct (server_recv_all_ready n len w Hrx Hlen Hl)
      as (w' & Hrun & _ & _ & Hr). now exists w'.
  - intros n buf w Htx Hlen.
    destruct (server_send_all_ready n buf w Htx Hlen)
      as (w' & Hrun & _ & Hs & Hr). now exists w'.
Qed.

(** ** client.c, [main] *)

Section ClientMainFacts.

Lemma client_transfer_values f w :
  (forall v w', Client.client_upload f w = Ok v w' -> v = 0 \/ v = -1)
  /\ (forall v w', Client.client_download f w = Ok v w' -> v = 0 \/ v = -1)
  /\ (forall w', Client.client_upload f w <> Fail w')
  /\ (forall w', Client.client_download f w <> Fail w').
Proof.
  unfold Client.client_upload, Client.client_download.
  destruct (Client.upload f w), (Client.download f w);
    repeat split; intros; try discriminate;
    match goal with
    | H : Ok _ _ = Ok _ _ |- _ => inversion H; subst; auto
    end.
Qed.

End ClientMainFacts.

(** X11.  client.c, [main].  It returns 1 at once for a wrong number of
    arguments, for a mode other than "upload" and "download", and when
    [socket] fails; it returns 1 with the socket closed when
    [inet_pton] does not succeed or [connect] fails; in all these cases
    no byte was sent or read and no file created or changed.  Otherwise
    it does what [client_upload] or [client_download] does for the file
    named, on the connection to the address given and the port given
    taken modulo 65536, and returns what that returns, 0 or -1. *)
Theorem client_main_status :
  forall p argv w,
    let r := ClientMain.main p argv w in
    (length argv <> 5%nat -> r = Ok 1 w)
    /\ (forall prog mode ip port f,
          argv = [prog; mode; ip; port; f] ->
          let known := mode = bytes_of_string "upload"
                       \/ mode = bytes_of_string "download" in
          let connected :=
            known /\ ClientMain.socket_fails p = false
            /\ 0 < ClientMain.inet_pton p ip
            /\ ClientMain.connect_fails p ip
                 (ClientMain.u16 (ClientMain.atoi p port)) = false in
          (~ known -> r = Ok 1 w)
          /\ (known -> ClientMain.socket_fails p = true -> r = Ok 1 w)
          /\ (known -> ClientMain.socket_fails p = false ->
              ClientMain.inet_pton p ip <= 0 -> r = Ok 1 (close w))
          /\ (known -> ClientMain.socket_fails p = false ->
              0 < ClientMain.inet_pton p ip ->
              ClientMain.connect_fails p ip
                (ClientMain.u16 (ClientMain.atoi p port)) = true ->
              r = Ok 1 (close w))
          /\ (connected -> mode = bytes_of_string "upload" ->
              r = Client.client_upload f w)
          /\ (connected -> mode = bytes_of_string "download" ->
              r = Client.client_download f w))
    /\ (forall w', r <> Fail w')
    /\ (forall v w', r = Ok v w' -> v = 0 \/ v = 1 \/ v = -1)
    /\ (forall w', r = Ok 1 w' ->
          fs w' = fs w /\ sent w' = sent w /\ incoming w' = incoming w).
Proof.
  intros p argv w. cbv zeta. unfold ClientMain.main.
  split; [|split].
  - intros Hlen.
    destruct argv as [|prog [|mode [|ip [|port [|f [|x argv]]]]]];
      try reflexivity. cbn in Hlen. lia.
  - intros prog mode ip port f ->.
    destruct (bool_decide_reflect (mode = bytes_of_string "upload"))
      as [Hup|Hup];
      destruct (bool_decide_reflect (mode = bytes_of_string "download"))
        as [Hdown|Hdown]; cbn [orb negb].
    + rewrite Hup in Hdown. discriminate Hdown.
    + split; [intros H; destruct H; now left|].
      destruct (ClientMain.socket_fails p);
        [repeat split; intros; try reflexivity; try discriminate;
         try (destruct H as (_ & ? & _); discriminate)|].
      destruct (Z.leb_spec (ClientMain.inet_pton p ip) 0);
        [repeat split; intros; try reflexivity; try discriminate; try lia;
         try (destruct H0 as (_ & _ & ? & _); lia)|].
      destruct (ClientMain.connect_fails p ip _);
        repeat split; intros; try reflexivity; try discriminate; try lia;
        try (destruct H0 as (_ & _ & _ & ?); discriminate);
        try congruence.
    + split; [intros H; destruct H; now right|].
      destruct (ClientMain.socket_fails p);
        [repeat split; intros; try reflexivity; try discriminate;
         try (destruct H as (_ & ? & _); discriminate)|].
      destruct (Z.leb_spec (ClientMain.inet_pton p ip) 0);
        [repeat split; intros; try reflexivity; try discriminate; try lia;
         try (destruct H0 as (_ & _ & ? & _); lia)|].
      destruct (ClientMain.connect_fails p ip _);
        repeat split; intros; try reflexivity; try discriminate; try lia;
        try (destruct H0 as (_ & _ & _ & ?); discriminate);
        try congruence.
    + split; [reflexivity|].
      repeat split; intros; try tauto;
        match goal with
        | H : _ /\ _ |- _ => destruct H as [[?|?] _]; contradiction
        end.
  - assert (Hstop : forall w0,
               fs w0 = fs w -> sent w0 = sent w -> incoming w0 = incoming w ->
               let r := @Ok Z 1 w0 in
               (forall w', r <> Fail w')
               /\ (forall v w', r = Ok v w' -> v = 0 \/ v = 1 \/ v = -1)
               /\ (forall w', r = Ok 1 w' ->
                     fs w' = fs w /\ sent w' = sent w
                     /\ incoming w' = incoming w)).
    { intros w0 Hfs Hs Hi. cbv zeta. split; [discriminate|].
      split; [intros v w' [= <- <-]; auto|].
      intros w' [= <-]; auto. }
    destruct argv as [|prog [|mode [|ip [|port [|f [|x argv]]]]]];
      try (apply Hstop; reflexivity).
    destruct (client_transfer_values f w) as (Hu & Hd & Hnu & Hnd).
    destruct (bool_decide (mode = bytes_of_string "upload")) eqn:Hup;
      destruct (bool_decide (mode = bytes_of_string "download")) eqn:Hdown;
      cbn [orb negb]; try (apply Hstop; reflexivity);
      (destruct (ClientMain.socket_fails p) eqn:Hsock;
       [apply Hstop; reflexivity|]);
      (destruct (Z.leb_spec (ClientMain.inet_pton p ip) 0) as [?|Hip];
       [apply Hstop; reflexivity|]);
      (destruct (ClientMain.connect_fails p ip _) eqn:Hconn;
       [apply Hstop; reflexivity|]).
    + split; [exact Hnu|].
      split; [intros v w' H; destruct (Hu v w' H); auto|].
      intros w' H; destruct (Hu 1 w' H); lia.
    + split; [exact Hnu|].
      split; [intros v w' H; destruct (Hu v w' H); auto|].
      intros w' H; destruct (Hu 1 w' H); lia.
    + split; [exact Hnd|].
      split; [intros v w' H; destruct (Hd v w' H); auto|].
      intros w' H; destruct (Hd 1 w' H); lia.
Qed.

Lemma client_main_status_witness :
  ClientMain.main working_platform
    [bytes_of_string "client"; bytes_of_string "delete";
     bytes_of_string "127.0.0.1"; bytes_of_string "9000"; bytes_of_string "f"]
    resumed_upload
  = Ok 1 resumed_upload
  /\ ClientMain.main working_platform
       [bytes_of_string "client"; bytes_of_string "upload";
        bytes_of_string "127.0.0.1"; bytes_of_string "9000";
        bytes_of_string "f"]
       resumed_upload
     = Client.client_upload (bytes_of_string "f") resumed_upload.
Proof.
  split.
  - refine (proj1 (proj1 (proj2 (client_main_status working_platform _
                                   resumed_upload))
                     _ _ _ _ _ eq_refl) _).
    intros [H|H]; discriminate H.
  - refine (proj1 (proj2 (proj2 (proj2 (proj2
              (proj1 (proj2 (client_main_status working_platform _
                               resumed_upload))
                 _ _ _ _ _ eq_refl))))) _ eq_refl).
    split; [now left|]. split; [reflexivity|]. split; [reflexivity|].
    reflexivity.
Defined.

(** ** server.c, [main]: what the loop keeps *)

Section ServerLoop.

Lemma accept_loop_stays events :
  forall w done,
    ServerMain.stage_of (ServerMain.accept_loop events w done)
    <> ServerMain.Exited 0
    /\ (forall s, ServerMain.stage_of (ServerMain.accept_loop events w done)
                  <> ServerMain.Exited s)
    /\ exists more,
         ServerMain.transcripts (ServerMain.accept_loop events w done)
         = done ++ more
         /\ (length more <= length events)%nat.
Proof.
  induction events as [|ev events IH]; intros w done;
    cbn [ServerMain.accept_loop].
  - cbn. split; [discriminate|]. split; [discriminate|].
    exists []. now rewrite app_nil_r.
  - destruct ev as [e|bytes rx tx].
    + destruct (IH (with_errno e w) done) as (H0 & Hs & more & Hm & Hl).
      split; [exact H0|]. split; [exact Hs|].
      exists more. split; [exact Hm | cbn [length]; lia].
    + destruct (Server.handle_client (ServerMain.attach bytes rx tx w))
        as [u w'|w'|w'].
      * destruct (IH w' (done ++ [sent w'])) as (H0 & Hs & more & Hm & Hl).
        split; [exact H0|]. split; [exact Hs|].
        exists (sent w' :: more).
        split; [rewrite Hm, <- app_assoc; reflexivity | cbn [length]; lia].
      * destruct (IH w' (done ++ [sent w'])) as (H0 & Hs & more & Hm & Hl).
        split; [exact H0|]. split; [exact Hs|].
        exists (sent w' :: more).
        split; [rewrite Hm, <- app_assoc; reflexivity | cbn [length]; lia].
      * cbn. split; [discriminate|]. split; [discriminate|].
        exists [sent w']. split; [reflexivity | cbn [length]; lia].
Qed.

(** A connection whose request the server refuses, on which the peer
    does not stall, leaves the process as it was, up to [errno]: the
    files are the same and nothing was sent. *)
Lemma refused_connection bytes rx tx w :
  malformed_request (ServerMain.attach bytes rx tx w) ->
  match Server.handle_client (ServerMain.attach bytes rx tx w) with
  | Ok _ w' => fs w' = fs w /\ faults w' = faults w /\ host w' = host w
               /\ sent w' = []
  | Fail _ => False
  | Blocked _ => True
  end.
Proof.
  intros Hbad. pose proof (serve_malformed _ Hbad) as Hrx.
  unfold Server.handle_client.
  destruct (Server.serve (ServerMain.attach bytes rx tx w)) as [u w'|w'|w'];
    cbn [final] in Hrx; [| |exact I];
    destruct Hrx; repeat split; assumption.
Qed.

(** Whether a request is refused, and whether its peer hands it over,
    depends on the connection only. *)
Lemma refused_event_any w1 w2 ev : refused_event w1 ev -> refused_event w2 ev.
Proof. destruct ev; intros H; exact H. Qed.

(** Refused requests and failed [accept]s, one after another: each
    handler returns, and the loop ends up waiting in [accept] with the
    files as they were and an empty transcript for each connection. *)
Lemma accept_loop_refuses events :
  forall w done,
    Forall (refused_event w) events ->
    exists w',
      ServerMain.accept_loop events w done
      = ServerMain.Run ServerMain.InAccept w'
          (done ++ repeat [] (connections events))
      /\ fs w' = fs w /\ faults w' = faults w /\ host w' = host w.
Proof.
  induction events as [|ev events IH]; intros w done Hall;
    cbn [ServerMain.accept_loop connections].
  - exists w. cbn [repeat]. now rewrite app_nil_r.
  - inversion Hall as [|? ? Hev Hrest]; subst.
    destruct ev as [e|bytes rx tx].
    + destruct (IH (with_errno e w) done) as (w' & E & Hfs & Hfa & Hh).
      { eapply Forall_impl; [exact Hrest|]. intros ev. apply refused_event_any. }
      exists w'. split; [exact E|]. repeat split; assumption.
    + destruct Hev as [Hbad Hrx].
      pose proof (refused_connection bytes rx tx w Hbad) as Href.
      pose proof (serve_malformed_returns _ Hbad Hrx) as Hret.
      unfold Server.handle_client in *.
      destruct (Server.serve (ServerMain.attach bytes rx tx w))
        as [u w1|w1|w1]; [| |now destruct (Hret w1)];
        destruct Href as (Hfs1 & Hfa1 & Hh1 & Hs1);
        (destruct (IH (close w1) (done ++ [sent (close w1)]))
           as (w' & E & Hfs & Hfa & Hh);
         [eapply Forall_impl; [exact Hrest|]; intros ev;
          apply refused_event_any|]);
        exists w'; (split; [|repeat split; congruence]);
        rewrite E; cbn [repeat sent close] in *; rewrite Hs1, <- app_assoc;
        reflexivity.
Qed.

End ServerLoop.

(** X12.  server.c, [main].  When [socket], [bind] or [listen] fails
    the server exits with status 1 before it accepts anything.
    Otherwise it never exits, whatever it accepts, and has handled at
    most one connection per [accept].  When every [accept] fails or
    gives a connection whose request is refused and whose peer hands it
    over, every handler returns: the server ends up waiting in [accept]
    again, having sent nothing on any of the connections and changed no
    file. *)
Theorem server_main_keeps_serving :
  forall s events w,
    let r := ServerMain.main s events w in
    (ServerMain.socket_fails s || ServerMain.bind_fails s
     || ServerMain.listen_fails s = true ->
     r = ServerMain.Run (ServerMain.Exited 1) w [])
    /\ (ServerMain.socket_fails s || ServerMain.bind_fails s
        || ServerMain.listen_fails s = false ->
        (forall status, ServerMain.stage_of r <> ServerMain.Exited status)
        /\ (length (ServerMain.transcripts r) <= length events)%nat
        /\ (Forall (refused_event w) events ->
            exists w',
              r = ServerMain.Run ServerMain.InAccept w'
                    (repeat [] (connections events))
              /\ fs w' = fs w /\ faults w' = faults w /\ host w' = host w)).
Proof.
  intros s events w. cbv zeta. unfold ServerMain.main.
  destruct (ServerMain.socket_fails s); [split; [reflexivity | discriminate]|].
  destruct (ServerMain.bind_fails s); [split; [reflexivity | discriminate]|].
  destruct (ServerMain.listen_fails s); [split; [reflexivity | discriminate]|].
  split; [discriminate|]. intros _.
  destruct (accept_loop_stays events w []) as (_ & Hs & more & Hm & Hl).
  split; [exact Hs|]. split; [rewrite Hm; exact Hl|].
  intros Hall. exact (accept_loop_refuses events w [] Hall).
Qed.

Lemma server_main_keeps_serving_witness :
  exists w',
    ServerMain.main (ServerMain.Startup false false false) refused_events
      server_with_one_byte
    = ServerMain.Run ServerMain.InAccept w' [[]; []]
    /\ fs w' = {[ bytes_of_string "f" := Reg [7] ]}.
Proof.
  destruct (proj2 (server_main_keeps_serving
                     (ServerMain.Startup false false false) refused_events
                     server_with_one_byte) eq_refl) as (_ & _ & H).
  destruct H as (w' & E & Hfs & _).
  - assert (Hrx : forall bytes w0,
               rx_ready 4 (ServerMain.attach bytes (repeat (RxAvail 8192) 4)
                             [] w0)).
    { intros bytes w0. exists (repeat 8192%positive 4), [].
      split; [reflexivity|]. split; [reflexivity|].
      cbn [repeat]. repeat (apply Forall_cons_2; [lia|]). apply Forall_nil_2. }
    apply Forall_cons_2; [split; [|apply Hrx]|].
    { right; right.
      exists (bytes_of_string "delete"), (bytes_of_string "f"), [].
      split; [reflexivity|]. split; [vm_compute; reflexivity|].
      split; [vm_compute; reflexivity|]. split; discriminate. }
    apply Forall_cons_2; [exact I|].
    apply Forall_cons_2; [split; [|apply Hrx]|apply Forall_nil_2].
    right; left. exists (bytes_of_string "upload"), 0, [].
    split; [reflexivity|]. split; [vm_compute; reflexivity|].
    split; [lia | now left].
  - exists w'. split; [exact E | exact Hfs].
Defined.

(** ** A download the server cannot serve *)

Section UnansweredDownload.

(** [client_download] of a name the client has no file for, when the
    peer closes without a reply. *)
Lemma client_download_unanswered f w k s :
  f <> [] -> Z.of_nat (length f) <= 8192 ->
  file_at w f = None -> faults w (OpCreate f) = false ->
  incoming w = [] -> tx_ready 5 w -> rx_script w = RxAvail k :: s ->
  exists w',
    Client.client_download f w = Ok (-1) w'
    /\ file_at w' f = Some (Reg [])
    /\ (forall p, p <> f -> fs w' !! p = fs w !! p)
    /\ sent w' = sent w ++ request_header "download" f 0.
Proof.
  intros Hf Hlen Hnone Hcreate Hin Htx Hrx.
  unfold Client.client_download, Client.download.
  assert (Hopen : Client.open_local f w = Ok 0 (set_file f [] w)).
  { unfold Client.open_local, can_open, fopen_trunc. rewrite Hnone.
    destruct f; [contradiction|]. rewrite Hcreate, Hnone. reflexivity. }
  unfold bind at 1. rewrite Hopen.
  set (w1 := set_file f [] w).
  destruct (client_send_request_ready 1 (bytes_of_string "download") f w1)
    as (w2 & E2 & T2 & S2 & R2);
    [eapply tx_ready_ext; [|exact Htx]; reflexivity
    | rewrite length_bytes_of_string; cbn; lia | exact Hlen |].
  unfold bind at 1. rewrite E2.
  unfold bind at 1. cbn [get].
  rewrite (u64_id 0) by lia. rewrite store_htonll.
  destruct (client_send_field_ready 0 (be_bytes 8 0) w2 R2)
    as (w3 & E3 & T3 & S3 & _); [rewrite length_be_bytes; lia|].
  unfold bind at 1. rewrite E3.
  assert (Hi1 : incoming w1 = []) by exact Hin.
  assert (Hr1 : rx_script w1 = RxAvail k :: s) by exact Hrx.
  assert (Hi3 : incoming w3 = []) by (destruct T2, T3; congruence).
  assert (Hr3 : rx_script w3 = RxAvail k :: s)
    by (destruct T2, T3; congruence).
  unfold bind at 1.
  rewrite (client_recv_all_first 8 w3 (RxAvail k) s ltac:(lia) Hr3), Hi3.
  cbn [negb Z.eqb]. unfold goto_exit.
  eexists. split; [reflexivity|].
  cbn [file_at fs sent close with_incoming with_rx].
  assert (Hfs3 : fs w3 = fs w1) by (destruct T2, T3; congruence).
  split; [|split].
  - change (file_at w3 f = Some (Reg [])).
    rewrite (file_at_ext w1 w3 f Hfs3). now apply file_at_set_file_eq.
  - intros p Hp. rewrite Hfs3. cbn [fs w1 set_file with_fs].
    now apply lookup_insert_ne.
  - rewrite S3, S2. unfold request_header.
    cbn [sent w1 set_file with_fs]. now rewrite <- !app_assoc.
Qed.

End UnansweredDownload.

(** X13.  A download of a name the server has no file for.  The server
    sends nothing and changes nothing: the protocol has no reply for
    that.  The client, which had no file of that name either, has by
    then created one; when the peer closes it returns -1 and leaves the
    file behind, empty, having sent its request. *)
Theorem download_of_missing_file :
  forall f ws wc k s,
    0 < Z.of_nat (length f) < 512 -> cstr f = f ->
    can_open ws f = false ->
    incoming ws = request_header "download" f 0 ->
    file_at wc f = None -> faults wc (OpCreate f) = false ->
    incoming wc = [] -> tx_ready 5 wc -> rx_script wc = RxAvail k :: s ->
    let rs := Server.handle_client ws in
    sent (final rs) = sent ws
    /\ fs (final rs) = fs ws
    /\ exists wc',
         Client.client_download f wc = Ok (-1) wc'
         /\ file_at wc' f = Some (Reg [])
         /\ (forall p, p <> f -> fs wc' !! p = fs wc !! p)
         /\ sent wc' = sent wc ++ incoming ws.
Proof.
  intros f ws wc k s Hlen Hstr Hmiss His Hnone Hcreate Hic Htx Hrx. cbv zeta.
  assert (Hf : f <> []) by (intros ->; cbn in Hlen; lia).
  assert (Hreq : download_request ws (bytes_of_string "download") f 0 []).
  { split; [|split; [reflexivity|split; [cbn; lia|split; [exact Hlen|lia]]]].
    rewrite His. unfold request_header. now rewrite app_nil_r. }
  destruct (handle_client_download_frame ws _ f 0 [] Hreq) as [Hfs Hsent].
  rewrite Hstr in Hsent.
  split; [exact (Hsent Hmiss)|]. split; [exact Hfs|].
  destruct (client_download_unanswered f wc k s Hf ltac:(lia) Hnone Hcreate
              Hic Htx Hrx) as (wc' & Hrun & Hat & Hoth & Hs).
  exists wc'. rewrite His. repeat split; assumption.
Qed.

Lemma download_of_missing_file_witness :
  sent (final (Server.handle_client asked_for_missing)) = []
  /\ exists wc',
       Client.client_download (bytes_of_string "f") unanswered_client
       = Ok (-1) wc'
       /\ file_at wc' (bytes_of_string "f") = Some (Reg []).
Proof.
  destruct (download_of_missing_file (bytes_of_string "f") asked_for_missing
              unanswered_client 8192 (repeat (RxAvail 8192) 15))
    as (Hs & _ & wc' & Hrun & Hat & _).
  - vm_compute. split; reflexivity.
  - reflexivity.
  - reflexivity.
  - reflexivity.
  - reflexivity.
  - reflexivity.
  - reflexivity.
  - apply connection_tx_ready. lia.
  - reflexivity.
  - split; [exact Hs|]. exists wc'. split; [exact Hrun | exact Hat].
Defined.

(** ** client.c never reads its ledger *)

Section LedgerBlind.

Variable f : list Z.
Hypothesis Hfit : fits_ledger f.

Lemma blind_bind {A B} (c1 c2 : M A) (k1 k2 : A -> M B) w1 w2 :
  same_outcome f (c1 w1) (c2 w2) ->
  (forall a w1' w2', ledger_blind f w1' w2' ->
                     same_outcome f (k1 a w1') (k2 a w2')) ->
  same_outcome f (bind c1 k1 w1) (bind c2 k2 w2).
Proof.
  unfold bind, same_outcome at 1. intros Hc Hk.
  destruct (c1 w1) as [a w1'|w1'|w1'], (c2 w2) as [b w2'|w2'|w2'];
    try contradiction; cbn [same_outcome]; try exact Hc.
  destruct Hc as [<- Hb]. now apply Hk.
Qed.

Lemma blind_get {A} (g : world -> A) w1 w2 :
  ledger_blind f w1 w2 -> g w1 = g w2 ->
  same_outcome f (get g w1) (get g w2).
Proof. intros Hb Hg. cbn. now split. Qed.

Lemma blind_file_at w1 w2 :
  ledger_blind f w1 w2 -> file_at w1 f = file_at w2 f.
Proof.
  intros [? ? ? ? ? ? ? ? Hfiles].
  destruct (ledger_paths_distinct f Hfit) as (_ & Hp & Ht & _).
  unfold file_at. destruct f; [reflexivity|]. apply Hfiles; congruence.
Qed.

Lemma blind_file_data w1 w2 :
  ledger_blind f w1 w2 -> file_data w1 f = file_data w2 f.
Proof. intros H. unfold file_data. now rewrite (blind_file_at w1 w2 H). Qed.

Lemma blind_can_open w1 w2 :
  ledger_blind f w1 w2 -> can_open w1 f = can_open w2 f.
Proof. intros H. unfold can_open. now rewrite (blind_file_at w1 w2 H). Qed.

Lemma blind_set_file d w1 w2 :
  ledger_blind f w1 w2 -> ledger_blind f (set_file f d w1) (set_file f d w2).
Proof.
  intros [? ? ? ? ? ? ? ? Hfiles]. split; try assumption.
  intros p Hp Ht. cbn [fs set_file with_fs].
  destruct (decide (p = f)) as [->|Hne].
  - now rewrite !lookup_insert_eq.
  - rewrite !lookup_insert_ne by congruence. now apply Hfiles.
Qed.

Lemma blind_close w1 w2 :
  ledger_blind f w1 w2 -> ledger_blind f (close w1) (close w2).
Proof. intros []. split; cbn; try assumption. reflexivity. Qed.

(** A ledger write and the removal of the ledger change the ledger
    only. *)
Lemma blind_ledger_write v1 v2 w1 w2 :
  ledger_blind f w1 w2 ->
  ledger_blind f (snd (Client.write_progress_atomic f v1 w1))
    (snd (Client.write_progress_atomic f v2 w2)).
Proof.
  intros [Hh Hfa He Hi Hr Ht Hs Hc Hfiles].
  pose proof (write_progress_atomic_effect f v1 w1 Hfit)
    as [[Hh1 Hfa1 Hi1 Hr1 Ht1 Hs1 Hc1 Ho1] _].
  pose proof (write_progress_atomic_effect f v2 w2 Hfit)
    as [[Hh2 Hfa2 Hi2 Hr2 Ht2 Hs2 Hc2 Ho2] _].
  assert (Herr : forall v w,
             errno (snd (Client.write_progress_atomic f v w)) = errno w).
  { intros v w. unfold Client.write_progress_atomic.
    now destruct (Client.write_progress_ops f v w). }
  split; [congruence | congruence | now rewrite !Herr | congruence
         | congruence | congruence | congruence | congruence |].
  intros p Hp Hq. rewrite (Ho1 p Hp Hq), (Ho2 p Hp Hq). now apply Hfiles.
Qed.

Lemma blind_remove_progress w1 w2 :
  ledger_blind f w1 w2 ->
  ledger_blind f (Client.remove_progress f w1) (Client.remove_progress f w2).
Proof.
  intros [Hh Hfa He Hi Hr Ht Hs Hc Hfiles].
  unfold Client.remove_progress, Client.unlink_ops. rewrite Hfa.
  destruct (faults w2 (OpUnlink (Client.prog_path f)));
    cbn [Client.run_ops fold_left Client.apply_op];
    (split; cbn [host faults errno incoming rx_script tx_script sent closed
                 fs with_fs]; try assumption).
  intros p Hp Hq. rewrite !lookup_delete_ne by congruence.
  now apply Hfiles.
Qed.

Lemma blind_sys_send st p s w1 w2 :
  ledger_blind f w1 w2 ->
  fst (sys_send st p (with_tx s w1)) = fst (sys_send st p (with_tx s w2))
  /\ ledger_blind f (snd (sys_send st p (with_tx s w1)))
       (snd (sys_send st p (with_tx s w2))).
Proof.
  intros [Hh Hfa He Hi Hr Ht Hs Hc Hfiles].
  destruct st as [k|e]; cbn [sys_send fst snd].
  - split; [reflexivity|]. cbn [sent with_tx]. rewrite Hs.
    split; cbn; try assumption; reflexivity.
  - split; [reflexivity|]. split; cbn; try assumption; reflexivity.
Qed.

Lemma blind_sys_recv st len s w1 w2 :
  ledger_blind f w1 w2 ->
  fst (sys_recv st len (with_rx s w1)) = fst (sys_recv st len (with_rx s w2))
  /\ ledger_blind f (snd (sys_recv st len (with_rx s w1)))
       (snd (sys_recv st len (with_rx s w2))).
Proof.
  intros [Hh Hfa He Hi Hr Ht Hs Hc Hfiles].
  destruct st as [k|e]; cbn [sys_recv fst snd].
  - cbn [incoming with_rx]. rewrite Hi. split; [reflexivity|].
    split; cbn; try assumption; reflexivity.
  - split; [reflexivity|]. split; cbn; try assumption; reflexivity.
Qed.

Lemma blind_send_all_loop script :
  forall len p w1 w2,
    ledger_blind f w1 w2 ->
    same_outcome f (Client.send_all_loop script len p w1)
      (Client.send_all_loop script len p w2).
Proof.
  induction script as [|st script IH]; intros len p w1 w2 Hb;
    cbn [Client.send_all_loop];
    destruct (0 <? Z.of_nat (length p)); cbn [same_outcome]; auto.
  destruct (blind_sys_send st p script w1 w2 Hb) as [Hn Hb'].
  destruct (sys_send st p (with_tx script w1)) as [n1 w1'].
  destruct (sys_send st p (with_tx script w2)) as [n2 w2'].
  cbn [fst snd] in Hn, Hb'. subst n2.
  assert (He : errno w1' = errno w2') by apply Hb'.
  rewrite <- He.
  destruct (n1 <? 0).
  - destruct (decide (errno w1' = EINTR)); [now apply IH|].
    destruct (decide (errno w1' = EAGAIN)); [now apply IH|].
    cbn [same_outcome]. auto.
  - destruct (n1 =? 0); [cbn [same_outcome]; auto | now apply IH].
Qed.

Lemma blind_send_all buf w1 w2 :
  ledger_blind f w1 w2 ->
  same_outcome f (Client.send_all buf w1) (Client.send_all buf w2).
Proof.
  intros Hb. unfold Client.send_all.
  replace (tx_script w2) with (tx_script w1) by apply Hb.
  now apply blind_send_all_loop.
Qed.

Lemma blind_recv_all_loop script :
  forall len left buf w1 w2,
    ledger_blind f w1 w2 ->
    same_outcome f (Client.recv_all_loop script len left buf w1)
      (Client.recv_all_loop script len left buf w2).
Proof.
  induction script as [|st script IH]; intros len left buf w1 w2 Hb;
    cbn [Client.recv_all_loop];
    destruct (0 <? left); cbn [same_outcome]; auto.
  destruct (blind_sys_recv st left script w1 w2 Hb) as [Hn Hb'].
  destruct (sys_recv st left (with_rx script w1)) as [[n1 d1] w1'].
  destruct (sys_recv st left (with_rx script w2)) as [[n2 d2] w2'].
  cbn [fst snd] in Hn, Hb'. inversion Hn; subst n2 d2.
  assert (He : errno w1' = errno w2') by apply Hb'.
  rewrite <- He.
  destruct (n1 <? 0).
  - destruct (decide (errno w1' = EINTR)); [now apply IH|].
    destruct (decide (errno w1' = EAGAIN)); [now apply IH|].
    cbn [same_outcome]. auto.
  - destruct (n1 =? 0); [cbn [same_outcome]; auto | now apply IH].
Qed.

Lemma blind_recv_all len w1 w2 :
  ledger_blind f w1 w2 ->
  same_outcome f (Client.recv_all len w1) (Client.recv_all len w2).
Proof.
  intros Hb. unfold Client.recv_all.
  replace (rx_script w2) with (rx_script w1) by apply Hb.
  now apply blind_recv_all_loop.
Qed.

Lemma blind_exit {A} w1 w2 :
  ledger_blind f w1 w2 -> same_outcome f (@goto_exit A w1) (goto_exit w2).
Proof. intros H. exact H. Qed.

Lemma blind_ret {A} (a : A) w1 w2 :
  ledger_blind f w1 w2 -> same_outcome f (ret a w1) (ret a w2).
Proof. intros H. now split. Qed.

Lemma blind_send_field buf w1 w2 :
  ledger_blind f w1 w2 ->
  same_outcome f (Client.send_field buf w1) (Client.send_field buf w2).
Proof.
  intros Hb. unfold Client.send_field.
  apply blind_bind; [now apply blind_send_all|].
  intros r w1' w2' Hb'.
  destruct (negb (r =? Z.of_nat (length buf)));
    [now apply blind_exit | now apply blind_ret].
Qed.

Lemma blind_send_request mode w1 w2 :
  ledger_blind f w1 w2 ->
  same_outcome f (Client.send_request mode f w1)
    (Client.send_request mode f w2).
Proof.
  intros Hb. unfold Client.send_request.
  apply blind_bind; [apply blind_get; [exact Hb | apply Hb]|].
  intros h w1' w2' Hb'. cbv zeta.
  repeat (apply blind_bind; [now apply blind_send_field|];
          intros ? ? ? ?).
  now apply blind_send_field.
Qed.

Lemma blind_upload_loop cs :
  forall total w1 w2,
    ledger_blind f w1 w2 ->
    same_outcome f (Client.upload_loop cs f total w1)
      (Client.upload_loop cs f total w2).
Proof.
  induction cs as [|c cs IH]; intros total w1 w2 Hb;
    cbn [Client.upload_loop];
    replace (faults w2) with (faults w1) by apply Hb;
    destruct (faults w1 (OpRead f total)); cbn [same_outcome]; auto.
  pose proof (blind_send_all c w1 w2 Hb) as Hs.
  destruct (Client.send_all c w1) as [r1 w1'|w1'|w1'],
           (Client.send_all c w2) as [r2 w2'|w2'|w2'];
    cbn [same_outcome] in Hs; try contradiction; try exact Hs.
  destruct Hs as [<- Hb'].
  destruct (negb (r1 =? Z.of_nat (length c))); [exact Hb'|].
  pose proof (blind_ledger_write (total + Z.of_nat (length c))
                (total + Z.of_nat (length c)) w1' w2' Hb') as Hw.
  destruct (Client.write_progress_atomic f (total + Z.of_nat (length c)) w1')
    as [rc1 w1''].
  destruct (Client.write_progress_atomic f (total + Z.of_nat (length c)) w2')
    as [rc2 w2''].
  now apply IH.
Qed.

Lemma blind_upload w1 w2 :
  ledger_blind f w1 w2 ->
  same_outcome f (Client.upload f w1) (Client.upload f w2).
Proof.
  intros Hb. unfold Client.upload.
  apply blind_bind; [now apply blind_send_request|].
  intros u w1' w2' Hb1.
  apply blind_bind.
  { apply blind_get; [exact Hb1|].
    unfold Client.get_file_size_stat, sys_stat.
    now rewrite (blind_file_at w1' w2' Hb1). }
  intros sz w1'' w2'' Hb2.
  destruct (sz <? 0); [now apply blind_exit|]. cbv zeta.
  apply blind_bind; [apply blind_get; [exact Hb2 | apply Hb2]|].
  intros h w3 w3' Hb3.
  apply blind_bind; [now apply blind_send_field|].
  intros u4 w4 w4' Hb4.
  apply blind_bind; [now apply blind_recv_all|].
  intros [r net] w5 w5' Hb5.
  destruct (negb (r =? 8)); [now apply blind_exit|]. cbv zeta.
  destruct (u64 sz <? Client.ntohll h (load h net)); [now apply blind_exit|].
  apply blind_bind;
    [apply blind_get; [exact Hb5 | now apply blind_can_open]|].
  intros ok w6 w6' Hb6.
  destruct (negb ok); [now apply blind_exit|].
  apply blind_bind.
  { apply blind_get; [exact Hb6|]. unfold seek_fails.
    now replace (faults w6') with (faults w6) by apply Hb6. }
  intros bad w7 w7' Hb7.
  destruct bad; [now apply blind_exit|].
  apply blind_bind;
    [apply blind_get; [exact Hb7 | now apply blind_file_data]|].
  intros data w8 w8' Hb8.
  apply blind_bind; [now apply blind_upload_loop|].
  intros u9 w9 w9' Hb9.
  split; [reflexivity | now apply blind_remove_progress].
Qed.

Lemma blind_open_local w1 w2 :
  ledger_blind f w1 w2 ->
  same_outcome f (Client.open_local f w1) (Client.open_local f w2).
Proof.
  intros Hb. unfold Client.open_local.
  rewrite <- (blind_can_open w1 w2 Hb).
  replace (faults w2) with (faults w1) by apply Hb.
  destruct (can_open w1 f).
  - destruct (faults w1 (OpSeekEnd f)); [exact Hb|].
    split; [now rewrite (blind_file_data w1 w2 Hb) | exact Hb].
  - assert (Ht : forall w,
               fopen_trunc f w
               = match f with
                 | [] => None
                 | _ =>
                     match file_at w f with
                     | Some Denied => None
                     | _ => if faults w (OpCreate f) then None
                            else Some (set_file f [] w)
                     end
                 end)
      by (intros w; unfold fopen_trunc; now destruct f).
    rewrite !Ht, <- (blind_file_at w1 w2 Hb).
    replace (faults w2) with (faults w1) by apply Hb.
    destruct f as [|b t] eqn:Ef; [exact Hb|]. rewrite <- Ef in *.
    destruct (file_at w1 f) as [[d|]|]; try exact Hb;
      (destruct (faults w1 (OpCreate f)); [exact Hb|]);
      (split; [reflexivity | now apply blind_set_file]).
Qed.

Lemma blind_download_loop n filesize :
  forall total w1 w2,
    ledger_blind f w1 w2 ->
    same_outcome f (Client.download_loop n f filesize total w1)
      (Client.download_loop n f filesize total w2).
Proof.
  induction n as [|n IH]; intros total w1 w2 Hb;
    cbn [Client.download_loop];
    destruct (total <? filesize); cbn [same_outcome]; auto.
  cbv zeta.
  set (want := if Client.CHUNK <? filesize - total
               then Client.CHUNK else filesize - total).
  pose proof (blind_recv_all want w1 w2 Hb) as Hr.
  destruct (Client.recv_all want w1) as [[r1 b1] w1'|w1'|w1'],
           (Client.recv_all want w2) as [[r2 b2] w2'|w2'|w2'];
    cbn [same_outcome] in Hr; try contradiction; try exact Hr.
  destruct Hr as [[= <- <-] Hb'].
  destruct (negb (r1 =? want)); [exact Hb'|].
  replace (faults w2') with (faults w1') by apply Hb'.
  destruct (faults w1' (OpWrite f total)); [exact Hb'|].
  assert (Hbw : ledger_blind f (fwrite_flush f total b1 w1')
                  (fwrite_flush f total b1 w2')).
  { unfold fwrite_flush.
    rewrite (flushed_ext w2' w1' f b1) by apply Hb'.
    destruct (flushed w2' f total b1) as [|x d]; [exact Hb'|].
    unfold fwrite. rewrite <- (blind_file_data w1' w2' Hb').
    now apply blind_set_file. }
  pose proof (blind_ledger_write (total + r1) (total + r1) _ _ Hbw) as Hw.
  destruct (Client.write_progress_atomic f (total + r1)
              (fwrite_flush f total b1 w1')) as [rc1 w1''].
  destruct (Client.write_progress_atomic f (total + r1)
              (fwrite_flush f total b1 w2')) as [rc2 w2''].
  now apply IH.
Qed.

Lemma blind_download w1 w2 :
  ledger_blind f w1 w2 ->
  same_outcome f (Client.download f w1) (Client.download f w2).
Proof.
  intros Hb. unfold Client.download.
  apply blind_bind; [now apply blind_open_local|].
  intros l w1' w2' Hb1.
  apply blind_bind; [now apply blind_send_request|].
  intros u w3 w3' Hb3.
  apply blind_bind; [apply blind_get; [exact Hb3 | apply Hb3]|].
  intros h w4 w4' Hb4.
  apply blind_bind; [now apply blind_send_field|].
  intros u5 w5 w5' Hb5.
  apply blind_bind; [now apply blind_recv_all|].
  intros [r net] w6 w6' Hb6.
  destruct (negb (r =? 8)); [now apply blind_exit|].
  apply blind_bind; [now apply blind_recv_all|].
  intros [r2 net2] w7 w7' Hb7.
  destruct (negb (r2 =? 8)); [now apply blind_exit|]. cbv zeta.
  destruct (Client.ntohll h (load h net) <? Client.ntohll h (load h net2));
    [now apply blind_exit|].
  apply blind_bind.
  { apply blind_get; [exact Hb7|]. unfold seek_fails.
    now replace (faults w7') with (faults w7) by apply Hb7. }
  intros bad w8 w8' Hb8.
  destruct bad; [now apply blind_exit|].
  apply blind_bind; [now apply blind_download_loop|].
  intros u9 w9 w9' Hb9.
  split; [reflexivity | now apply blind_remove_progress].
Qed.

End LedgerBlind.

Lemma ledger_blind_removed f w :
  ledger_blind f w (Client.remove_progress f w).
Proof.
  unfold Client.remove_progress, Client.unlink_ops.
  destruct (faults w (OpUnlink (Client.prog_path f)));
    cbn [Client.run_ops fold_left Client.apply_op];
    split; try reflexivity. intros p Hp _.
  cbn [fs with_fs]. symmetry. now apply lookup_delete_ne.
Qed.

(** X14. client.c never reads its ledger.  Two runs of [client_upload],
    or of [client_download], on states that differ only in what
    [<name>.progress] and [<name>.progress.tmp] hold end the same way
    (return, [exit(1)] or stall alike), return the same value, send and
    receive the same bytes and leave every other file the same: what a
    transfer resumes from is the server's answer or the local file's
    length, never the recorded number. *)
Theorem ledger_is_never_read :
  forall f w1 w2,
    fits_ledger f -> ledger_blind f w1 w2 ->
    same_outcome f (Client.client_upload f w1) (Client.client_upload f w2)
    /\ same_outcome f (Client.client_download f w1)
         (Client.client_download f w2).
Proof.
  intros f w1 w2 Hfit Hb. split.
  - pose proof (blind_upload f Hfit w1 w2 Hb) as H.
    unfold Client.client_upload.
    destruct (Client.upload f w1) as [u1 w1'|w1'|w1'],
             (Client.upload f w2) as [u2 w2'|w2'|w2'];
      cbn [same_outcome] in H |- *; try contradiction; try exact H.
    + split; [reflexivity | apply blind_close, H].
    + split; [reflexivity | now apply blind_close].
  - pose proof (blind_download f Hfit w1 w2 Hb) as H.
    unfold Client.client_download.
    destruct (Client.download f w1) as [u1 w1'|w1'|w1'],
             (Client.download f w2) as [u2 w2'|w2'|w2'];
      cbn [same_outcome] in H |- *; try contradiction; try exact H.
    + split; [reflexivity | apply blind_close, H].
    + split; [reflexivity | now apply blind_close].
Qed.

Lemma ledger_is_never_read_witness :
  same_outcome (bytes_of_string "f")
    (Client.client_upload (bytes_of_string "f") resumed_upload)
    (Client.client_upload (bytes_of_string "f")
       (Client.remove_progress (bytes_of_string "f") resumed_upload)).
Proof.
  assert (Hfit : fits_ledger (bytes_of_string "f"))
    by (vm_compute; reflexivity).
  exact (proj1 (ledger_is_never_read (bytes_of_string "f") resumed_upload _
                  Hfit (ledger_blind_removed _ _))).
Defined.

(** ** The ledger never counts a byte the local file does not hold *)

Section LedgerWithin.

Variable f : list Z.
Variable w0 : world.
Hypothesis Hfit : fits_ledger f.
Hypothesis Hledger : ledger_flushes f w0.
Hypothesis Hfile : forall o, faults w0 (OpFlush f o) = false.

(** The invariant: the ledger is within the file, and storage behaves
    as at the start. *)
Let within (w : world) : Prop :=
  ledger_within f w0 w /\ faults w = faults w0.

Lemma within_start : within w0.
Proof. split; [now left | reflexivity]. Qed.

Lemma within_files w1 w2 :
  fs w2 = fs w1 -> faults w2 = faults w1 -> within w1 -> within w2.
Proof.
  unfold within, ledger_within. intros H Hfa [HI Hf].
  rewrite (file_data_ext w1 w2 f H), H. split; [exact HI | congruence].
Qed.

Lemma within_write val w :
  within w ->
  0 <= val <= Z.of_nat (length (file_data w f)) ->
  within (snd (Client.write_progress_atomic f val w)).
Proof.
  intros [HI Hfa] Hval. split; [|now rewrite faults_ledger_write].
  pose proof (file_data_ledger_write f val w Hfit) as (Hd & _).
  cbv zeta in Hd.
  destruct (write_progress_atomic_effect f val w Hfit) as [_ [H|H]];
    unfold ledger_within in *.
  - rewrite H, Hd. exact HI.
  - right. exists val. rewrite H, Hd. split; [|exact Hval].
    rewrite flushed_all; [reflexivity|].
    intros off. rewrite Hfa. apply Hledger.
Qed.

Lemma length_write_at_covers pos data old :
  (length old <= length (write_at pos data old))%nat
  /\ (pos + length data <= length (write_at pos data old))%nat.
Proof.
  unfold write_at.
  rewrite !length_app, length_take, length_replicate, length_drop. lia.
Qed.

Lemma within_fwrite pos data w :
  f <> [] -> data <> [] -> within w ->
  within (fwrite_flush f pos data w)
  /\ pos + Z.of_nat (length data)
     <= Z.of_nat (length (file_data (fwrite_flush f pos data w) f)).
Proof.
  intros Hne Hd0 [HI Hfa].
  rewrite fwrite_flush_all
    by (first [exact Hd0 | intros o; rewrite Hfa; apply Hfile]).
  destruct (fwrite_frame f pos data w Hne) as (Hd & _ & _ & _ & _ & Hfa').
  assert (Hl : fs (fwrite f pos data w) !! Client.prog_path f
               = fs w !! Client.prog_path f)
    by exact (ledger_set_file f
                (write_at (Z.to_nat pos) data (file_data w f)) w Hfit).
  pose proof (length_write_at_covers (Z.to_nat pos) data (file_data w f))
    as [Hold Hnew].
  split; [|rewrite Hd; lia].
  split; [|congruence].
  unfold ledger_within in *. rewrite !Hl, Hd.
  destruct HI as [HI|(v & Hv & Hle)]; [now left|].
  right. exists v. split; [exact Hv | lia].
Qed.

(** client.c, [client_upload]: the streaming loop, started with a count
    that leaves the chunks to come within the file. *)
Lemma client_upload_loop_within cs :
  forall total w,
    within w -> 0 <= total ->
    total + Z.of_nat (length (concat cs)) <= Z.of_nat (length (file_data w f)) ->
    within (final (Client.upload_loop cs f total w)).
Proof.
  induction cs as [|c cs IH]; intros total w HI Hpos Hb;
    cbn [Client.upload_loop].
  - destruct (faults w (OpRead f total)); exact HI.
  - destruct (faults w (OpRead f total)); [exact HI|].
    pose proof (keeps_client_send_all
                  (fun w' => within w' /\ file_data w' f = file_data w f)
                  (fun w1 w2 H Hfa Hw =>
                     conj (within_files w1 w2 H Hfa (proj1 Hw))
                          (eq_trans (file_data_ext w1 w2 f H) (proj2 Hw)))
                  c w (conj HI eq_refl)) as Hs.
    unfold runs in Hs.
    destruct (Client.send_all c w) as [r w1|w1|w1]; try exact (proj1 Hs).
    destruct (negb (r =? Z.of_nat (length c))); [exact (proj1 Hs)|].
    destruct Hs as [Hs Hd1].
    cbn [concat] in Hb. rewrite length_app in Hb.
    pose proof (within_write (total + Z.of_nat (length c)) w1 Hs) as Hw.
    pose proof (file_data_ledger_write f (total + Z.of_nat (length c)) w1 Hfit)
      as (Hd2 & _).
    cbv zeta in Hd2.
    destruct (Client.write_progress_atomic f (total + Z.of_nat (length c)) w1)
      as [rc w2]. cbn [snd] in Hw, Hd2.
    apply IH; [apply Hw; rewrite Hd1; lia|lia|].
    rewrite Hd2, Hd1. lia.
Qed.

Lemma le_value_nonneg bs : 0 <= le_value bs.
Proof.
  induction bs as [|b bs IH]; cbn [le_value]; [lia|].
  apply Z.lor_nonneg. split; [apply Z.land_nonneg; lia|].
  apply Z.shiftl_nonneg, IH.
Qed.

Lemma ntohll_load_nonneg h bs : 0 <= Client.ntohll h (load h bs).
Proof.
  destruct h; cbn [load].
  - rewrite ntohll_is_htonll. unfold Client.htonll.
    rewrite lor_u64. apply u64_range.
  - apply le_value_nonneg.
Qed.

Lemma u64_le v : 0 <= v -> u64 v <= v.
Proof.
  intros H. unfold u64. rewrite Z.land_ones by lia.
  apply Z.mod_le; lia.
Qed.

(** client.c, [client_upload] up to [out]: a run that falls through has
    just called [remove_progress]; any other leaves the ledger within
    the file. *)
Lemma client_upload_within :
  runs (Client.upload f) w0
    (fun _ w' => exists w1, within w1 /\ w' = Client.remove_progress f w1)
    within.
Proof.
  unfold Client.upload.
  set (J := fun w' => within w' /\ fs w' = fs w0).
  assert (HJ : forall w1 w2, fs w2 = fs w1 -> faults w2 = faults w1 ->
                             J w1 -> J w2).
  { intros w1 w2 H Hfa [H1 H2].
    split; [now apply (within_files w1)|congruence]. }
  assert (HE : forall w', J w' -> within w') by (intros w' H; apply H).
  eapply runs_bind_via;
    [apply (keeps_client_send_request J HJ); split;
       [apply within_start|reflexivity]|exact HE|].
  intros u1 w1 H1.
  eapply runs_bind with (Q1 := fun sz w' =>
                           J w' /\ sz = Client.get_file_size_stat w0 f).
  { apply runs_get. split; [exact H1|].
    unfold Client.get_file_size_stat, sys_stat.
    now rewrite (file_at_ext w0 w1 f (proj2 H1)). }
  intros sz w2 [H2 Hsz]. destruct (Z.ltb_spec sz 0) as [|Hpos];
    [apply runs_exit, HE, H2|].
  eapply runs_bind with (Q1 := fun _ => J); [apply runs_get, H2|].
  intros h w3 H3.
  eapply runs_bind_via; [apply (keeps_client_send_field J HJ), H3|exact HE|].
  intros u4 w4 H4.
  eapply runs_bind_via;
    [apply (keeps_client_recv_all J HJ); [lia|exact H4]|exact HE|].
  intros [r net_agreed] w5 H5.
  destruct (negb (r =? 8)); [apply runs_exit, HE, H5|].
  destruct (Z.ltb_spec (u64 sz) (Client.ntohll h (load h net_agreed)))
    as [|Hagreed]; [apply runs_exit, HE, H5|].
  eapply runs_bind with (Q1 := fun _ => J); [apply runs_get, H5|].
  intros ok w6 H6. destruct (negb ok); [apply runs_exit, HE, H6|].
  eapply runs_bind with (Q1 := fun _ => J); [apply runs_get, H6|].
  intros bad w7 H7. destruct bad; [apply runs_exit, HE, H7|].
  eapply runs_bind with (Q1 := fun data w' => J w' /\ data = file_data w' f);
    [apply runs_get; split; [exact H7|reflexivity]|].
  intros data w8 [H8 Hdata].
  assert (Hlen : sz <= Z.of_nat (length data)).
  { rewrite Hsz, Hdata, (file_data_ext w0 w8 f (proj2 H8)).
    unfold Client.get_file_size_stat, sys_stat, file_data.
    destruct (file_at w0 f) as [[d|]|]; lia. }
  eapply runs_bind with (Q1 := fun _ => within).
  - unfold runs.
    pose proof (client_upload_loop_within
                  (chunks (Z.to_nat Client.CHUNK)
                     (drop (Z.to_nat (Client.ntohll h (load h net_agreed))) data))
                  (Client.ntohll h (load h net_agreed)) w8 (proj1 H8)
                  (ntohll_load_nonneg h net_agreed)) as Hl.
    rewrite concat_chunks, length_drop, <- Hdata in Hl
      by (unfold Client.CHUNK; lia).
    pose proof (u64_le sz Hpos).
    specialize (Hl ltac:(lia)).
    destruct (Client.upload_loop _ _ _ w8); exact Hl.
  - intros u9 w9 H9. apply runs_update. now exists w9.
Qed.

(** client.c, [client_download]: in the receiving loop every chunk is
    written to the file before the ledger counts it. *)
Lemma client_download_loop_within filesize n :
  f <> [] ->
  forall total w,
    within w -> 0 <= total ->
    within (final (Client.download_loop n f filesize total w)).
Proof.
  intros Hne. induction n as [|n IH]; intros total w HI Hpos;
    cbn [Client.download_loop];
    destruct (Z.ltb_spec total filesize) as [Hlt|Hge]; try exact HI.
  set (want := if Client.CHUNK <? filesize - total
               then Client.CHUNK else filesize - total).
  assert (Hwant : 0 < want)
    by (subst want; destruct (Z.ltb_spec Client.CHUNK (filesize - total));
        unfold Client.CHUNK in *; lia).
  pose proof (client_recv_all_inv want w ltac:(lia)) as Hr.
  destruct (Client.recv_all want w) as [[r buf] w1|w1|w1];
    [|contradiction|destruct Hr as [[? Hfs Hfa ? ? ? ?] _];
       now apply (within_files w)].
  destruct Hr as ([? Hfs Hfa ? ? ? ?] & _ & Hbuf).
  assert (H1 : within w1) by now apply (within_files w).
  destruct (Z.eqb_spec r want) as [->|Hrw]; cbn [negb]; [|exact H1].
  destruct (faults w1 (OpWrite f total)); [exact H1|].
  destruct (Hbuf eq_refl) as (Hb & Hin & _).
  assert (Hlb : Z.of_nat (length buf) = want)
    by (rewrite Hb, length_take; lia).
  assert (Hb0 : buf <> [])
    by (intros E; rewrite E in Hlb; cbn in Hlb; lia).
  destruct (within_fwrite total buf w1 Hne Hb0 H1) as [H2 Hcov].
  pose proof (within_write (total + want) (fwrite_flush f total buf w1) H2
                ltac:(lia)) as H3.
  destruct (Client.write_progress_atomic f (total + want)
              (fwrite_flush f total buf w1)) as [rc w3].
  apply IH; [exact H3 | lia].
Qed.

Lemma client_open_local_within :
  runs (Client.open_local f) w0 (fun _ w' => within w' /\ f <> []) within.
Proof.
  unfold runs, Client.open_local.
  destruct (can_open w0 f) eqn:Hopen.
  - destruct (faults w0 (OpSeekEnd f)); [apply within_start|].
    split; [apply within_start|]. intros ->. discriminate Hopen.
  - destruct (fopen_trunc f w0) as [w1|] eqn:Ho; [|apply within_start].
    apply fopen_trunc_spec in Ho as [Hne ->]. split; [|exact Hne].
    split; [|reflexivity]. left. now apply ledger_set_file.
Qed.

(** client.c, [client_download] up to [out]. *)
Lemma client_download_within :
  runs (Client.download f) w0
    (fun _ w' => exists w1, within w1 /\ w' = Client.remove_progress f w1)
    within.
Proof.
  unfold Client.download.
  pose proof within_files as HJ.
  eapply runs_bind; [apply client_open_local_within|].
  intros local_offset w1 [H0 Hne].
  eapply runs_bind; [apply (keeps_client_send_request within HJ), H0|].
  intros u1 w2 H1.
  eapply runs_bind with (Q1 := fun _ => within); [apply runs_get, H1|].
  intros h w3 H2.
  eapply runs_bind; [apply (keeps_client_send_field within HJ), H2|].
  intros u3 w4 H3.
  eapply runs_bind;
    [apply (keeps_client_recv_all within HJ); [lia|exact H3]|].
  intros [r net_filesize] w5 H4.
  destruct (negb (r =? 8)); [apply runs_exit, H4|].
  eapply runs_bind;
    [apply (keeps_client_recv_all within HJ); [lia|exact H4]|].
  intros [r' net_server_offset] w6 H5.
  destruct (negb (r' =? 8)); [apply runs_exit, H5|].
  destruct (_ <? _); [apply runs_exit, H5|].
  eapply runs_bind with (Q1 := fun _ => within); [apply runs_get, H5|].
  intros bad w7 H6. destruct bad; [apply runs_exit, H6|].
  eapply runs_bind with (Q1 := fun _ => within).
  - unfold runs.
    pose proof (client_download_loop_within
                  (Client.ntohll h (load h net_filesize))
                  (Client.chunks_to_come
                     (Client.ntohll h (load h net_filesize))
                     (Client.ntohll h (load h net_server_offset)))
                  Hne (Client.ntohll h (load h net_server_offset)) w7 H6
                  (ntohll_load_nonneg h net_server_offset))
      as Hl.
    destruct (Client.download_loop _ _ _ _ w7); exact Hl.
  - intros u7 w8 H8. apply runs_update. now exists w8.
Qed.

Lemma ledger_outcome_close (c : M unit) :
  runs c w0
    (fun _ w' => exists w1, within w1 /\ w' = Client.remove_progress f w1)
    within ->
  ledger_outcome f w0
    match c w0 with
    | Ok _ w' => Ok 0 (close w')
    | Fail w' => Ok (-1) (close w')
    | Blocked w' => Blocked w'
    end.
Proof.
  unfold runs. destruct (c w0) as [u w'|w'|w'];
    cbn [ledger_outcome Z.eqb andb]; intros H; try exact (proj1 H).
  destruct H as (w1 & [Hw Hfa] & ->).
  destruct (faults w0 (OpUnlink (Client.prog_path f))) eqn:Hun;
    cbn [negb].
  - rewrite remove_progress_kept by (now rewrite Hfa). exact Hw.
  - cbn [close fs]. apply remove_progress_gone. now rewrite Hfa.
Qed.

End LedgerWithin.

(** X15.  The ledger never counts a byte the local file does not hold,
    as long as no write-back fails (the code does not look at what
    [fflush], [fsync] and [fclose] return).  For a file name whose
    ledger paths fit their buffers, however [client_upload] or
    [client_download] ends and whatever the peer sent: after a return
    of 0 with [unlink] not failing, [<name>.progress] is gone;
    otherwise it is as it was before the call, or holds the complete
    decimal record of a count no greater than the length of the local
    file (in a download each chunk is written to the file before it is
    counted). *)
Theorem ledger_never_overstates :
  forall f w,
    fits_ledger f ->
    ledger_flushes f w ->
    (forall o, faults w (OpFlush f o) = false) ->
    ledger_outcome f w (Client.client_upload f w)
    /\ ledger_outcome f w (Client.client_download f w).
Proof.
  intros f w Hfit Hl Hf. split.
  - apply ledger_outcome_close, client_upload_within; assumption.
  - apply ledger_outcome_close, client_download_within; assumption.
Qed.

Lemma ledger_never_overstates_witness :
  ledger_outcome (bytes_of_string "f") resumed_download_client
    (Client.client_download (bytes_of_string "f") resumed_download_client).
Proof.
  assert (Hfit : fits_ledger (bytes_of_string "f"))
    by (vm_compute; reflexivity).
  exact (proj2 (ledger_never_overstates (bytes_of_string "f")
                  resumed_download_client Hfit
                  (fun _ => eq_refl) (fun _ => eq_refl))).
Defined.
